(* ===== verification/_CoqProject ===== *)
-Q . S2P
Prelude.v
FrameRate.v
PtsRec.v
KList.v
OmxDelay.v
OmxChan.v
OmxHw.v
OmxQueue.v
OmxCalls.v
OmxServe.v
OmxReturn.v
OmxBind.v
OmxInit.v
OmxDev.v
OmxRun.v
OmxLife.v
OmxSafe.v
OmxFlush.v
OmxFifo.v
OmxFaults.v
OmxProps.v
PktQueue.v
PktIface.v
RsField.v
RsMatrix.v
RtpFec.v
RtpSession.v
VpssImg.v
VpssFlow.v
VpssFields.v
OmxImage.v
AoRing.v
AoLowLat.v
AoTrack.v
AoDma.v
AoPorts.v
TdeList.v
TdeClip.v
TdeJobs.v
TdeSafe.v
TdeComp.v
TdeSystem.v
