(* ===== verification/Prelude.v ===== *)
(** * HiSTBAndroid: verified models of the HiSilicon media modules

    ** The program and what is modelled

    The repository is the Android tree of a HiSilicon set-top box. Its own code is
    the board tree under src/device/hisilicon/bigfish: kernel drivers of the media
    pipeline (sdk/source/msp/drv), their user libraries (sdk/source/msp/api), the
    network protocols of the player (external/libformat_open) and the Android
    glue. The development models modules that carry state and decisions of their
    own rather than register programming:

    - FrameRate.v: sdk/source/msp/drv/omxvdec/drv_omxvdec_alg_frd.c, the frame-rate
      detector. State [OPTM_ALG_FRD_S]; entry [OMX_OPTM_ALG_FrameRateDetect].
    - PtsRec.v: drv_omxvdec_pts_recv.c of the same driver, the time-stamp recovery.
      State [chan_table], sixteen [PTSREC_CHAN_INFO_S]; the calls are the functions
      [OMX_PTSREC_...]. It runs the detector of FrameRate.v on the stamps it gives.
    - The files Omx*.v: the video decoder channels of the same driver, channel.c with
      decoder_vfmw.c, processor_vpss.c and the device of omxvdec.c. A channel's
      state is [OMXVDEC_CHAN_CTX]: the two tables of bound buffers, the raw and yuv
      queues as linked kernel lists with their pointers (KList.v), the counters and
      the trace of messages and hardware commands. OmxDelay.v holds the low-delay
      statistics, OmxChan.v the user's calls (channel_..), OmxHw.v the stream calls and
      the event handlers of the decoder and VPSS, OmxInit.v creation and release of
      both instances, OmxDev.v the list of channels, their creation and release, and
      open, close and ioctl of the device ([OMXVDEC_ENTRY]); it calls PtsRec.v.
      OmxQueue.v states the invariant of the tables and queues; OmxCalls.v, OmxServe.v,
      OmxReturn.v and OmxBind.v show what each call does under it, OmxRun.v composes
      them into runs of a channel, OmxLife.v accounts for the resources a channel holds,
      OmxSafe.v composes everything into runs of the device, OmxFlush.v follows a
      flush to its end, and OmxProps.v states the guarantees. OmxImage.v models the
      pictures that VPSS takes from the decoder and gives back, in the frame type of
      VpssImg.v and with the stamps of PtsRec.v.
    - PktQueue.v: external/libformat_open/svr_utils.c, the packet queue between a
      receiving thread and the reader, with its memory: linked nodes in a heap.
      PktIface.v: the classes [PacketQueue] (the calls its clients use) and
      [PacketQueueOk] (what they rely on), of which the linked queue is an instance.
    - RtpFec.v and RtpSession.v: rtpfecproto.c, RTP reception with forward error
      correction. State [RTPFECContext]; entry [rtpfec_read], proved against the
      classes of PktIface.v and instantiated with the linked queue.
    - VpssImg.v, VpssFlow.v, VpssFields.v: sdk/source/msp/drv/vpss/vpss_v3_0/
      vpss_in/vpss_img.c, the frames and fields a video-processing instance holds.
      State [VPSS_IMAGELIST_INFO_S]; the calls are the functions [VPSS_IMG_...].
    - AoRing.v, AoLowLat.v, AoTrack.v, AoDma.v, AoPorts.v: sdk/source/msp/api/ao/
      mpi_lowlatency.c, the part of the audio library that writes PCM frames past the
      driver into rings the hardware reads. State [ao], the two globals of the file with
      physical memory and the mappings of the process; the calls are
      [LOWLATENCY_...] and [SND_DMA_...].
    - TdeList.v, TdeClip.v, TdeJobs.v, TdeSafe.v, TdeComp.v, TdeSystem.v:
      sdk/source/msp/drv/tde/tde_osilist_k.c and tde_fence.c, the job queue of the 2D
      engine, with the functions of tde_osictl_k.c that complete a command and
      submit a job. State [TDE]; the system of all callers is [Sys].

    Every definition has the name of the function, type or field it translates
    where it stands for the whole of it; a piece of a long function has a
    name of its own, and its comment or position says which. The manifest beside
    the development gives the lines.

    ** How code is represented

    This file holds what the components share. Machine integers are [Z], with the
    wrap-around of their width written out ([u8], [u16], [u32], [s32], [s64]): the
    kernel is built with -fno-strict-overflow, so signed arithmetic wraps too. Arrays are
    lists read and written by [arr_get] and [arr_set], which fail outside. A C struct is a
    record whose fields are set by [r <| f := v |>]. A function that can go wrong in
    the sense of the language (an access outside an array, a null, freed or
    dangling pointer, a double free, a division by zero) returns an [option] and
    [None] is that event; error codes are ordinary results. Kernel lists are
    sequences of node addresses, and VpssImg.v keeps the list head as a position
    because the code walks over it; the queues of the decoder channels keep their
    [next] and [prev] pointers, because a buffer's table slot can be moved or
    cleared under them. The audio rings lie in physical memory and are reached
    through mappings, because the hardware moves their read positions and pointers
    outlive their mappings.

    Code that is not in the repository is a parameter: return codes and constants
    of missing headers ([HiConsts], [OmxEnv], [AoConsts],
    [VpssConsts], [TdeConsts], [AvErrors]), the RTP parser
    and the FEC decoder, the handle manager of the 2D engine ([HandleManager]),
    the mapping library and the audio driver's answers ([AoEnv]).
    What is relied on of them is a class of laws beside ([..Ok]). Answers of the
    allocator, the hardware, the clock and other threads are arguments of the calls
    that get them. Theorems quantify over all of these; each is
    witnessed at concrete ones.

    Calls run under their module's lock and are atomic steps. A call that sleeps
    is given what the others do meanwhile (the waits of PktQueue.v), or is
    two functions, before and after it slept (TdeList.v). A frame buffer that
    VPSS returns to a decoder channel takes two locks in turn, and is two functions
    too (OmxHw.v), which [release_flush_race] uses. The 2D engine's
    completion callback runs with the lock released; the model lets nothing else
    happen during it.

    ** What the theorems show

    - FrameRate: a constant stream is detected exactly and for ever
      ([detect_steady]); the first hundred stamps are safe
      ([detect_first_hundred_safe]), but a falling rate overruns the array
      ([detect_overflow_reachable]); two differences taken unsigned make their
      tests one-sided ([frd_window_drop], [frd_full_rise_unseen]).
    - PtsRec: recovered stamps are exact for ever on a constant stream
      ([calc_stream_exact]); every call in every reachable state is defined
      ([ptsrec_calls_defined]); the round trip of a user's frame rate, the wrap of the
      extrapolation, the error paths and the repeated de-initialisation.
    - OmxProps: over any run of a channel no buffer is lost or given back twice
      ([buffers_conserved]), its tables stay well typed ([tables_typed]) and its
      counters right ([counters_right]); streams are taken in order
      ([stream_in_order]) and a flush is answered once, at the last buffer
      ([flush_completes]). Any run of the device is safe and leaks nothing
      ([omxvdec_calls_safe]); creation, closing and the decoder's options
      ([channel_created], [close_releases_file], [option_covers_picture]). What
      they assume: the user does not unbind a buffer that the channel has, nor submits
      one to the other port ([user_keeps]); for the counters only, the hardware
      returns only what it was given ([hardware_keeps]); the allocators answer with
      fresh addresses ([create_keeps]); the statistics are divided by a count that is not
      0. [unbind_queued_faults], [release_flush_race] and [calc_failure_leaks] are
      flaws beyond these assumptions.
    - OmxImage: what a frame shows of a picture ([image_shown]), what the decoder
      gets back ([image_roundtrip]), how the end of the stream is reported
      ([end_reported]); two flaws of the stamps ([unstamped_as_stamped]) and of
      channels beyond the recovery's table ([late_channel_faults]).
    - PktQueue: safety and exact accounting in every state the threads can reach
      ([pktq_safe]); reading refines a byte stream ([pktq_read_stream]); packets
      keep their order; what a put decides; waits, deadlines and the quit packet.
    - RtpFec, RtpSession: where a packet goes ([rtppkt_placed], [get_index_window]),
      when a group is repaired ([check_miss_decision]); [rtpfec_read] is safe whatever
      is lost ([rtpfec_read_safe]), hands a lossless stream on unchanged
      ([read_lossless]) and repairs and drains a group with losses
      ([repair_session]); the overrun by an oversized packet ([rtppkt_overflow]).
    - VpssFlow, VpssFields: the list of fields refines a queue of frames, which
      come back in order and once each ([frames_released_in_order]); no call in
      any history is undefined ([img_calls_safe]); the split, the addresses and the reordering
      of fields; the double release after an error frame.
    - AoRing, AoTrack, AoDma, AoPorts: a write that leaves a byte free appends to a
      ring and touches nothing else ([ring_write_ok]); so a low-latency track and every
      DMA port are queues of bytes, whatever is sent and played ([track_stream],
      [dma_stream]), given rings larger than the water mark and sums that do not wrap;
      [small_ring_faults] is what happens otherwise. Creation and end of a DMA source
      balance ([dma_created], [dma_balanced]), as do opening and closing a track
      ([track_open_close]); a failed creation leaves dangling pointers
      ([failed_create_faults]).
    - TdeClip: the clip adjustment is the intersection of two rectangles
      ([adj_clip_intersects]).
    - TdeSystem: no interleaving of submissions, waits, wake-ups, interrupts,
      cancellations and resets uses freed memory ([tde_calls_safe]), as long as
      nobody waits for a job another caller is blocked on, which is the flaw
      [waiter_frees_blocked_job] shows; the waiting jobs are one chain of nodes in
      order ([pending_chain]); completion takes the front of the queue in order
      ([idle_completes_in_order]); no job is lost ([no_job_leaks]); a reset empties
      the queue ([reset_empties]). TdeJobs.v holds the invariant, TdeSafe.v and
      TdeComp.v its preservation.

    ** Fuel and bounds

    Loops that walk a structure recurse on a fuel that the caller sets from
    the structure's size: the copy loop of [pktq_read] and the drain of
    [rtpfec_read] on the number of packets, [reset_loop], [finish_loop] and
    [term_loop] on the length of the queue plus one, the walks of KList.v on the
    number of nodes, [next_id] on the number of channels plus one, [unmap_from] and
    [addr_index] on the size of the table plus one, [last_frame_loop] on the 500
    retries of the code plus one. The theorems state that the
    call returns, so that the fuel is enough is part of them. The rounds of
    [rtpfec_read] are bounded by the number of packets that arrive and are
    stated with their number; the packet parser's loop has a fuel of its own
    that [rtpfec_read_safe] shows to suffice.

    ** Not modelled

    Tracing and proc output. In omxvdec: trusted video ([HI_TVP_SUPPORT] is off),
    saving streams and pictures to files, the thread of task.c, which is not in the
    repository, and with it dynamic frame stores, and the proc commands. In svr_utils.c and rtpfecproto.c: opening sockets and
    URLs, and the socket thread. In tde_osictl_k.c: the set-up of the registers of
    the drawing commands. The rest of the tree: drivers that mostly
    program registers (demultiplexer, video output, HDMI, the audio driver, picture quality,
    the decoder firmware interface), players and services in C++ and Java, the
    protocols that are adaptations of libavformat (hls.c, http.c, rtsp.c, tcp.c),
    boot loader, kernel and AOSP code, which are upstream projects.

    Next in line, were this to be carried on: the client hirtpproto.c of the packet
    queue against PktIface.v, and the VPSS stages behind the image list. *)

From stdpp Require Export base list numbers option gmap.
From Stdlib Require Export ZArith Lia.

#[global] Open Scope Z_scope.
#[global] Set Default Goal Selector "!".

(** ** Machine integers

    The drivers are compiled for 32-bit ARM: [HI_U32] arithmetic wraps modulo
    2^32, and [HI_S32] values are stored in two's complement (the kernel is
    built with -fno-strict-overflow, so signed overflow wraps as well). *)

Definition u8 (z : Z) : Z := z mod 256.
Definition u16 (z : Z) : Z := z mod 65536.
Definition u32 (z : Z) : Z := z mod 4294967296.
Definition s32 (z : Z) : Z :=
  let m := z mod 4294967296 in if m <? 2147483648 then m else m - 4294967296.

Definition s64 (z : Z) : Z :=
  let m := z mod 18446744073709551616 in
  if m <? 9223372036854775808 then m else m - 18446744073709551616.

#[global] Arguments u8 : simpl never.
#[global] Arguments u16 : simpl never.
#[global] Arguments u32 : simpl never.
#[global] Arguments s32 : simpl never.
#[global] Arguments s64 : simpl never.

Definition is_u32 (z : Z) : Prop := 0 <= z < 4294967296.
Definition is_s32 (z : Z) : Prop := -2147483648 <= z < 2147483648.

Declare Scope c_scope.
Delimit Scope c_scope with c.
Notation "a +u b" := (u32 (a + b)) (at level 50, left associativity) : c_scope.
Notation "a -u b" := (u32 (a - b)) (at level 50, left associativity) : c_scope.
Notation "a *u b" := (u32 (a * b)) (at level 40, left associativity) : c_scope.
#[global] Open Scope c_scope.

(** Integer comparisons compute only on literals. *)
#[global] Arguments Z.eqb !_ !_ : simpl nomatch.
#[global] Arguments Z.ltb !_ !_ : simpl nomatch.
#[global] Arguments Z.leb !_ !_ : simpl nomatch.
#[global] Arguments Z.gtb !_ !_ : simpl nomatch.
#[global] Arguments Z.geb !_ !_ : simpl nomatch.

Create HintDb hisi discriminated.
Create Rewrite HintDb hisi.

Section Integers.
Implicit Types z a b : Z.

Lemma u32_small z : is_u32 z -> u32 z = z.
Proof. unfold is_u32, u32. intros. apply Z.mod_small. lia. Qed.

Lemma u32_range z : is_u32 (u32 z).
Proof. unfold is_u32, u32. apply Z.mod_pos_bound. lia. Qed.

Lemma u32_idemp z : u32 (u32 z) = u32 z.
Proof. apply u32_small, u32_range. Qed.

Lemma u16_range z : 0 <= u16 z < 65536.
Proof. unfold u16. apply Z.mod_pos_bound. lia. Qed.

Lemma s32_small z : is_s32 z -> s32 z = z.
Proof.
  unfold is_s32, s32. intros Hz.
  destruct (Z.leb_spec 0 z).
  - rewrite Z.mod_small by lia. destruct (Z.ltb_spec z 2147483648); lia.
  - rewrite <- (Z_mod_plus_full z 1), Z.mod_small by lia.
    destruct (Z.ltb_spec (z + 1 * 4294967296) 2147483648); lia.
Qed.

Lemma s32_range z : is_s32 (s32 z).
Proof.
  unfold is_s32, s32.
  pose proof (Z.mod_pos_bound z 4294967296 ltac:(lia)).
  destruct (Z.ltb_spec (z mod 4294967296) 2147483648); lia.
Qed.

(** Reading a signed difference of two unsigned values back is exact when the
    true difference fits. *)
Lemma s32_u32 z : s32 (u32 z) = s32 z.
Proof. unfold s32, u32. by rewrite Z.mod_mod by lia. Qed.

Lemma land_u16 z : Z.land z 65535 = u16 z.
Proof. change 65535 with (Z.ones 16). by rewrite Z.land_ones by lia. Qed.

(** A 16-bit value, written as its distance from another one. *)
Lemma u16_small z : 0 <= z < 65536 -> u16 z = z.
Proof. intros. by apply Z.mod_small. Qed.

Lemma u16_shift z k : u16 (z + k * 65536) = u16 z.
Proof. unfold u16. by rewrite Z_mod_plus_full. Qed.

Lemma s32_shift z k : s32 (z + k * 4294967296) = s32 z.
Proof. unfold s32. by rewrite Z_mod_plus_full. Qed.

Lemma s32_spec z : exists k, s32 z = z + k * 4294967296.
Proof.
  pose proof (Z.div_mod z 4294967296 ltac:(lia)) as Hz. unfold s32. cbv zeta.
  case_match.
  - exists (- (z / 4294967296)). lia.
  - exists (- (z / 4294967296) - 1). lia.
Qed.

(** Sums and differences of wrapped values wrap to the same. *)
Lemma s32_add_l a b : s32 (s32 a + b) = s32 (a + b).
Proof.
  destruct (s32_spec a) as [k ->].
  replace (a + k * 4294967296 + b) with (a + b + k * 4294967296) by lia. apply s32_shift.
Qed.

Lemma s32_sub_l a b : s32 (s32 a - b) = s32 (a - b).
Proof. apply (s32_add_l a (- b)). Qed.
End Integers.

#[export] Hint Resolve u32_range s32_range u16_range : hisi.
#[export] Hint Rewrite u32_idemp s32_u32 s32_add_l s32_sub_l : hisi.

(** Removes the wrap-arounds of the goal that arithmetic shows to be exact. *)
Ltac wrap_step :=
  match goal with
  | |- context [u32 ?x] => rewrite (u32_small x) by (unfold is_u32 in *; lia)
  | |- context [s32 ?x] => rewrite (s32_small x) by (unfold is_s32 in *; lia)
  end.
Ltac wraps := repeat wrap_step; autorewrite with hisi; repeat wrap_step.

(** Splits a goal on the boolean comparisons of integers it contains. *)
Ltac zbool_step :=
  match goal with
  | |- context [?a <? ?b] => destruct (Z.ltb_spec a b)
  | |- context [?a <=? ?b] => destruct (Z.leb_spec a b)
  | |- context [?a =? ?b] => destruct (Z.eqb_spec a b)
  | |- context [?a >? ?b] => rewrite (Z.gtb_ltb a b); destruct (Z.ltb_spec b a)
  | |- context [?a >=? ?b] => rewrite (Z.geb_leb a b); destruct (Z.leb_spec b a)
  end.
Ltac zbool := repeat (zbool_step; simpl; try lia).

(** Decides one boolean test of the goal by arithmetic. *)
Ltac ztrue b :=
  let H := fresh in
  assert (b = true) as H by lia; rewrite H; clear H; cbv iota.
Ltac zfalse b :=
  let H := fresh in
  assert (b = false) as H by lia; rewrite H; clear H; cbv iota.

(** ** Arrays

    A C array is a list with an integer index. [None] is undefined behaviour:
    an access outside the array. *)

Definition arr_get {A} (a : list A) (i : Z) : option A :=
  if 0 <=? i then a !! Z.to_nat i else None.

Definition arr_set {A} (a : list A) (i : Z) (v : A) : option (list A) :=
  if (0 <=? i) && (i <? Z.of_nat (length a)) then Some (<[Z.to_nat i := v]> a) else None.

#[global] Arguments arr_get : simpl never.
#[global] Arguments arr_set : simpl never.

Section Arrays.
Context {A : Type}.
Implicit Types (a : list A) (i : Z) (v : A).

Lemma arr_get_in a i :
  0 <= i < Z.of_nat (length a) -> exists v, arr_get a i = Some v.
Proof.
  intros Hi. unfold arr_get. ztrue (0 <=? i).
  apply lookup_lt_is_Some. lia.
Qed.

Lemma arr_get_Some a i v : arr_get a i = Some v -> 0 <= i < Z.of_nat (length a).
Proof.
  unfold arr_get. destruct (Z.leb_spec 0 i); [|done].
  intros Hl%lookup_lt_Some. lia.
Qed.

Lemma arr_set_in a i v :
  0 <= i < Z.of_nat (length a) -> arr_set a i v = Some (<[Z.to_nat i := v]> a).
Proof. intros Hi. unfold arr_set. by ztrue ((0 <=? i) && (i <? Z.of_nat (length a))). Qed.

Lemma arr_set_out a i v :
  ~ (0 <= i < Z.of_nat (length a)) -> arr_set a i v = None.
Proof. intros Hi. unfold arr_set. by zfalse ((0 <=? i) && (i <? Z.of_nat (length a))). Qed.

Lemma arr_set_length a a' i v : arr_set a i v = Some a' -> length a' = length a.
Proof.
  unfold arr_set. destruct (_ && _); [|done]. intros [= <-]. apply length_insert.
Qed.

Lemma arr_get_set_eq a i v :
  0 <= i < Z.of_nat (length a) -> arr_get (<[Z.to_nat i := v]> a) i = Some v.
Proof.
  intros Hi. unfold arr_get. ztrue (0 <=? i). apply list_lookup_insert_eq. lia.
Qed.

Lemma arr_get_set_ne a i j v :
  0 <= i -> i <> j -> arr_get (<[Z.to_nat i := v]> a) j = arr_get a j.
Proof.
  intros Hi Hij. unfold arr_get. destruct (Z.leb_spec 0 j); [|done].
  apply list_lookup_insert_ne. lia.
Qed.

Lemma arr_get_replicate n i v :
  0 <= i < Z.of_nat n -> arr_get (replicate n v) i = Some v.
Proof. intros Hi. unfold arr_get. ztrue (0 <=? i). apply lookup_replicate_2. lia. Qed.

Lemma arr_get_nat a (n : nat) : arr_get a (Z.of_nat n) = a !! n.
Proof.
  unfold arr_get. destruct (Z.leb_spec 0 (Z.of_nat n)); [by rewrite Nat2Z.id|].
  by pose proof (Nat2Z.is_nonneg n); lia.
Qed.

Lemma arr_set_nat a (n : nat) v :
  (n < length a)%nat -> arr_set a (Z.of_nat n) v = Some (<[n := v]> a).
Proof. intros Hn. rewrite arr_set_in by lia. by rewrite Nat2Z.id. Qed.

Lemma list_insert_middle (l1 l2 : list A) (x y : A) :
  <[length l1 := y]> (l1 ++ x :: l2) = l1 ++ y :: l2.
Proof.
  replace (length l1) with (length l1 + 0)%nat by lia. by rewrite insert_app_r.
Qed.
End Arrays.

#[export] Hint Rewrite @length_insert @length_replicate : hisi.

(** ** Record update

    [r <| f := v |>] is the record [r] with field [f] set to [v]. The update of a
    field is derived from the field list of the record, given once per record
    as an instance of [Fields]. *)

Class Fields (R : Type) := rebuild : R -> R.
Class Update {R T : Type} (f : R -> T) := update : (T -> T) -> R -> R.
Arguments update {R T} f {_} _ _.

Ltac derive_update f :=
  let g := fresh "g" in
  let r := fresh "r" in
  intros g r;
  match type of f with
  | ?R -> _ =>
      let inst := constr:(ltac:(typeclasses eauto) : Fields R) in
      let body := eval hnf in (@rebuild R inst r) in
      match eval pattern (f r) in body with
      | ?k _ => let res := eval cbv beta in (k (g (f r))) in exact res
      end
  end.
#[export] Hint Extern 1 (Update ?f) => derive_update f : typeclass_instances.

Notation "r <| f := v |>" := (update f (fun _ => v) r)
  (at level 1, f at level 10, left associativity) : c_scope.
Notation "r <| f ::= g |>" := (update f g r)
  (at level 1, f at level 10, left associativity) : c_scope.

(** ** Return codes of the HiSilicon SDK

    hi_type.h and hi_common.h are not part of the repository: the codes and
    sentinels they define are parameters of the model. *)

Class HiConsts := {
  HI_SUCCESS : Z;
  HI_FAILURE : Z;
  HI_INVALID_PTS : Z;   (* HI_U32: "no time stamp" *)
  HI_INVALID_TIME : Z;  (* HI_U32: "no frame time" *)
}.

(** What the drivers rely on: distinct codes and 32-bit sentinels. *)
Class HiConstsOk (C : HiConsts) : Prop := {
  hi_codes_ne : HI_SUCCESS <> HI_FAILURE;
  hi_pts_u32 : is_u32 HI_INVALID_PTS;
  hi_time_max : HI_INVALID_TIME = 4294967295;
}.

(** The values of the SDK release the drivers are built with. *)
#[export] Instance sdk_consts : HiConsts := {|
  HI_SUCCESS := 0; HI_FAILURE := -1;
  HI_INVALID_PTS := 4294967295; HI_INVALID_TIME := 4294967295 |}.

#[export] Instance sdk_consts_ok : HiConstsOk sdk_consts.
Proof. split; cbn; unfold is_u32; lia. Qed.

