(* ===== verification/FrameRate.v ===== *)
(** * Frame-rate detection from time stamps

    Models omxvdec/drv_omxvdec_alg_frd.c: a detector is fed the presentation
    time stamp (ms) of every decoded frame and returns the detected rate in
    tenths of a frame per second, 0 while it is unknown. The past stamps are
    kept in the fixed array [InPTSSqn]; [None] is an access outside it (or a
    division by zero). *)

From S2P Require Import Prelude.

Definition OPTM_FRD_IN_PTS_SEQUENCE_LENGTH : Z := 100.
Definition OPTM_FRD_INFRAME_RATE_JUMP_THRESHOLD : Z := 10.
Definition OPTM_FRD_INFRAME_RATE_WAVE_THRESHOLD : Z := 2.

(** [OPTM_ALG_ABS(x)] compares its argument with 0 in the argument's own type:
    on an unsigned expression it is the identity. *)
Definition OPTM_ALG_ABS (x : Z) : Z := if x <? 0 then s32 (- x) else x.

(** [OPTM_ALG_ROUND(x)] on an unsigned argument. *)
Definition OPTM_ALG_ROUND (x : Z) : Z :=
  if x mod 10 >? 4 then (x / 10 + 1) *u 10 else x.

Record OPTM_ALG_FRD_S := mkFRD {
  InPTSSqn : list Z;
  nowPTSPtr : Z;
  length' : Z;
  u320_Pts : Z;
  u32120_Pts : Z;
  u32QueCnt : Z;
  u32QueRate : Z;
  u32QueStable : Z;
  unableTime : Z;
  InFrameRateLast : Z;
  StableThreshold : Z;
  InFrameRateEqueTime : Z;
  InFrameRate : Z;
}.

#[export] Instance frd_fields : Fields OPTM_ALG_FRD_S := fun r =>
  mkFRD r.(InPTSSqn) r.(nowPTSPtr) r.(length') r.(u320_Pts) r.(u32120_Pts)
    r.(u32QueCnt) r.(u32QueRate) r.(u32QueStable) r.(unableTime)
    r.(InFrameRateLast) r.(StableThreshold) r.(InFrameRateEqueTime) r.(InFrameRate).

Section Detector.
Context {C : HiConsts}.

(** The cleared sequence: every slot holds the "no time stamp" sentinel. *)
Definition blank_seq : list Z :=
  replicate (Z.to_nat OPTM_FRD_IN_PTS_SEQUENCE_LENGTH) HI_INVALID_PTS.

Definition OMX_OPTM_ALG_FrdInfo_Reset (p : OPTM_ALG_FRD_S) (ptsNum : Z)
    : option OPTM_ALG_FRD_S :=
  if negb (ptsNum =? 0) then
    if ptsNum =? 1 then
      nowPts ← arr_get p.(InPTSSqn) p.(nowPTSPtr);
      sq ← arr_set blank_seq 0 nowPts;
      Some (p <| InPTSSqn := sq |> <| nowPTSPtr := 1 |> <| InFrameRateEqueTime := 0 |>)
    else
      nowPts ← arr_get p.(InPTSSqn) p.(nowPTSPtr);
      prePts ← arr_get p.(InPTSSqn) (p.(nowPTSPtr) -u 1);
      sq ← arr_set blank_seq 0 prePts;
      sq ← arr_set sq 1 nowPts;
      Some (p <| InPTSSqn := sq |> <| nowPTSPtr := 2 |> <| InFrameRateEqueTime := 1 |>)
  else
    Some (p <| InPTSSqn := blank_seq |> <| InFrameRateEqueTime := 0 |>
            <| u320_Pts := HI_INVALID_PTS |> <| u32120_Pts := HI_INVALID_PTS |>
            <| u32QueCnt := 0 |> <| u32QueStable := 0 |>).

(** The rate of one interval of [PtsDiff] tenths of a millisecond. *)
Definition rate_of_interval (PtsDiff : Z) : Z :=
  if (PtsDiff <=? 100000) && (PtsDiff >=? 120) then
    OPTM_ALG_ROUND (1000000 / PtsDiff) / 10
  else 0.

Definition OMX_OPTM_ALG_InPTSSqn_CalNowRate (p : OPTM_ALG_FRD_S) (env : Z) : option Z :=
  if 1 =? env then
    now ← arr_get p.(InPTSSqn) p.(nowPTSPtr);
    fst ← arr_get p.(InPTSSqn) 0;
    let PtsDiff := s32 (now - fst) in
    if p.(nowPTSPtr) =? 0 then None
    else Some (rate_of_interval (s32 (u32 (10 * PtsDiff) / p.(nowPTSPtr))))
  else
    now ← arr_get p.(InPTSSqn) p.(nowPTSPtr);
    pre ← arr_get p.(InPTSSqn) (p.(nowPTSPtr) -u 1);
    let PtsDiff := s32 (now - pre) in
    Some (rate_of_interval (s32 (10 * PtsDiff))).

Definition OMX_OPTM_ALG_InPTSSqn_ChangeInFrameRate (p : OPTM_ALG_FRD_S) (nowRate : Z)
    : OPTM_ALG_FRD_S :=
  let p := p <| InFrameRate := nowRate |> in
  let p := p <| length' := if nowRate >? 50 then p.(InFrameRate) / 10 else 5 |> in
  p <| StableThreshold := if p.(InFrameRate) >? 300 then p.(InFrameRate) / 100 else 3 |>.

(** The coarse detector: the average rate over windows of 61 frames, and how
    many windows in a row agreed. *)
Definition frd_window (p : OPTM_ALG_FRD_S) (Pts : Z) : OPTM_ALG_FRD_S :=
  let p := if p.(u320_Pts) =? HI_INVALID_PTS then p <| u320_Pts := Pts |>
           else p <| u32QueCnt := p.(u32QueCnt) +u 1 |> in
  if p.(u32QueCnt) =? 61 then
    let u32Delta := if Pts >? p.(u320_Pts) then (Pts -u p.(u320_Pts)) / 60
                    else (p.(u320_Pts) -u Pts) / 60 in
    let u32NewRate := if negb (0 =? u32Delta) then 10000 / u32Delta else 0 in
    let p :=
      if OPTM_ALG_ABS (u32NewRate -u p.(u32QueRate)) <? 10 then
        if p.(u32QueStable) <? 3 then p <| u32QueStable := p.(u32QueStable) +u 1 |> else p
      else p <| u32QueRate := u32NewRate |> <| u32QueStable := 0 |> in
    p <| u320_Pts := Pts |> <| u32QueCnt := 0 |>
  else p.

(** One more unusable interval; the tenth drops the detected rate. *)
Definition frd_unable (p : OPTM_ALG_FRD_S) : OPTM_ALG_FRD_S :=
  let p := p <| unableTime := p.(unableTime) +u 1 |> in
  if 10 =? p.(unableTime) then p <| InFrameRate := 0 |> <| unableTime := 0 |> else p.

Definition near_30fps (p : OPTM_ALG_FRD_S) : bool :=
  (p.(InFrameRateLast) >=? 200) && (p.(InFrameRateLast) <=? 400).

(** The rate jumped away from the previous one. *)
Definition frd_jump (p : OPTM_ALG_FRD_S) (nowRate : Z) : option OPTM_ALG_FRD_S :=
  let p := frd_unable p in
  let p := p <| InFrameRateLast := nowRate |> in
  let p := p <| StableThreshold := if nowRate >? 300 then nowRate / 100 else 3 |> in
  OMX_OPTM_ALG_FrdInfo_Reset p 2.

(** The rate held for [u32Stable] intervals: the average replaces the
    detected rate when it is far from it. *)
Definition frd_stable (p : OPTM_ALG_FRD_S) : option OPTM_ALG_FRD_S :=
  nowRate ← OMX_OPTM_ALG_InPTSSqn_CalNowRate p 1;
  let rateDiff := s32 (nowRate - p.(InFrameRate)) in
  if u32 (OPTM_ALG_ABS rateDiff) >? p.(InFrameRate) / OPTM_FRD_INFRAME_RATE_JUMP_THRESHOLD then
    let p := OMX_OPTM_ALG_InPTSSqn_ChangeInFrameRate p nowRate in
    Some (p <| InFrameRateLast := p.(InFrameRate) |>)
  else Some p.

Definition frd_adopt (p : OPTM_ALG_FRD_S) (nowRate : Z) : OPTM_ALG_FRD_S :=
  if negb (p.(InFrameRate) =? 0) then
    OMX_OPTM_ALG_InPTSSqn_ChangeInFrameRate p ((nowRate +u p.(InFrameRate)) / 2)
  else OMX_OPTM_ALG_InPTSSqn_ChangeInFrameRate p nowRate.

(** The sequence is full: the average over it corrects the detected rate. *)
Definition frd_full (p : OPTM_ALG_FRD_S) : option OPTM_ALG_FRD_S :=
  nowRate ← OMX_OPTM_ALG_InPTSSqn_CalNowRate p 1;
  let rateDiff := s32 (OPTM_ALG_ABS (p.(InFrameRate) -u nowRate)) in
  let wave := p.(InFrameRateLast) / OPTM_FRD_INFRAME_RATE_JUMP_THRESHOLD
                                  / OPTM_FRD_INFRAME_RATE_WAVE_THRESHOLD in
  let s32WaveDelta := if near_30fps p then 50 else s32 wave in
  let p :=
    if rateDiff >? s32WaveDelta then
      (frd_adopt p nowRate) <| InFrameRateLast := nowRate |>
    else if p.(InFrameRateLast) =? nowRate then
      if u32 (OPTM_ALG_ABS rateDiff) >? wave then frd_adopt p nowRate
      else OMX_OPTM_ALG_InPTSSqn_ChangeInFrameRate p nowRate
    else p <| InFrameRateLast := nowRate |> in
  OMX_OPTM_ALG_FrdInfo_Reset p 1.

(** One more interval at the previous rate. *)
Definition frd_count (p : OPTM_ALG_FRD_S) (nowRate : Z) : OPTM_ALG_FRD_S :=
  let p := p <| InFrameRateEqueTime := p.(InFrameRateEqueTime) +u 1 |> in
  if (3 =? p.(InFrameRateEqueTime)) || (nowRate =? p.(InFrameRate))
  then p <| unableTime := 0 |> else p.

(** The rate is close to the previous one. *)
Definition frd_steady (p : OPTM_ALG_FRD_S) (nowRate : Z) : option OPTM_ALG_FRD_S :=
  let p := frd_count p nowRate in
  let u32Stable := if near_30fps p then 10 else p.(StableThreshold) in
  p ← (if p.(InFrameRateEqueTime) =? u32Stable then frd_stable p else Some p);
  if p.(nowPTSPtr) =? p.(length') -u 1 then frd_full p
  else Some (p <| nowPTSPtr := p.(nowPTSPtr) +u 1 |>).

(** The very first stamp. *)
Definition frd_first (p : OPTM_ALG_FRD_S) (Pts : Z) : option OPTM_ALG_FRD_S :=
  let p := OMX_OPTM_ALG_InPTSSqn_ChangeInFrameRate p 0 in
  p ← OMX_OPTM_ALG_FrdInfo_Reset p 0;
  sq ← arr_set p.(InPTSSqn) 0 Pts;
  let p := p <| InPTSSqn := sq |> <| nowPTSPtr := 1 |> <| unableTime := 0 |> in
  Some (p <| InFrameRateLast := p.(InFrameRate) |>).

(** A further stamp: stored in the next slot and compared with the previous
    one. *)
Definition frd_next (p : OPTM_ALG_FRD_S) (Pts : Z) : option OPTM_ALG_FRD_S :=
  sq ← arr_set p.(InPTSSqn) p.(nowPTSPtr) Pts;
  let p := p <| InPTSSqn := sq |> in
  nowRate ← OMX_OPTM_ALG_InPTSSqn_CalNowRate p 0;
  if negb (nowRate =? 0) then
    let rateDiff := s32 (nowRate - p.(InFrameRateLast)) in
    let u32JumpDelta := if near_30fps p then 200
                        else p.(InFrameRateLast) / OPTM_FRD_INFRAME_RATE_JUMP_THRESHOLD in
    if u32 (OPTM_ALG_ABS rateDiff) >? u32JumpDelta then frd_jump p nowRate
    else frd_steady p nowRate
  else OMX_OPTM_ALG_FrdInfo_Reset (frd_unable p) 1.

(** The whole detector: the new state and the detected rate. *)
Definition OMX_OPTM_ALG_FrameRateDetect (p : OPTM_ALG_FRD_S) (Pts : Z)
    : option (OPTM_ALG_FRD_S * Z) :=
  let p := frd_window p Pts in
  fst ← arr_get p.(InPTSSqn) 0;
  p ← (if negb (fst =? HI_INVALID_PTS) then frd_next p Pts else frd_first p Pts);
  let p := if (p.(u32QueStable) =? 3) && (p.(InFrameRate) =? 0)
           then p <| InFrameRate := p.(u32QueRate) |> else p in
  Some (p, p.(InFrameRate)).

(** Feeding a list of stamps; the results in order. *)
Fixpoint frd_run (p : OPTM_ALG_FRD_S) (pts : list Z)
    : option (OPTM_ALG_FRD_S * list Z) :=
  match pts with
  | [] => Some (p, [])
  | t :: pts =>
      '(p, r) ← OMX_OPTM_ALG_FrameRateDetect p t;
      '(p, rs) ← frd_run p pts;
      Some (p, r :: rs)
  end.
End Detector.

#[global] Arguments OMX_OPTM_ALG_FrdInfo_Reset : simpl never.
#[global] Arguments OMX_OPTM_ALG_InPTSSqn_CalNowRate : simpl never.
#[global] Arguments OMX_OPTM_ALG_InPTSSqn_ChangeInFrameRate : simpl never.
#[global] Arguments blank_seq : simpl never.
#[global] Arguments frd_count : simpl never.

(** ** The rate of one interval *)

(** An interval of [d] ms is rated [10000/d] tenths of a frame per second,
    rounded to the nearest. *)
Lemma rate_of_interval_ms d :
  12 <= d <= 10000 -> rate_of_interval (10 * d) = (20000 + d) / (2 * d).
Proof.
  intros Hd. unfold rate_of_interval, OPTM_ALG_ROUND.
  ztrue ((10 * d <=? 100000) && (10 * d >=? 120)).
  replace (1000000 / (10 * d)) with (100000 / d)
    by (change 1000000 with (10 * 100000); by rewrite Z.div_mul_cancel_l by lia).
  assert (0 <= 100000 / d <= 8333) as Hq.
  { split; [apply Z.div_pos; lia|].
    transitivity (100000 / 12); [apply Z.div_le_compat_l; lia|done]. }
  assert ((20000 + d) / (2 * d) = (100000 / d + 5) / 10) as ->.
  { replace (100000 / d + 5) with ((100000 + 5 * d) / d)
      by (rewrite Z.div_add by lia; done).
    rewrite Z.div_div by lia.
    replace (100000 + 5 * d) with (5 * (20000 + d)) by lia.
    replace (d * 10) with (5 * (2 * d)) by lia.
    by rewrite Z.div_mul_cancel_l by lia. }
  set (q := 100000 / d) in *. clearbody q.
  pose proof (Z.div_mod q 10 ltac:(lia)). pose proof (Z.mod_pos_bound q 10 ltac:(lia)).
  destruct (Z.gtb_spec (q mod 10) 4).
  - rewrite u32_small by (unfold is_u32; lia). rewrite Z.div_mul by lia.
    apply Z.div_unique with (q mod 10 - 5); lia.
  - apply Z.div_unique with (q mod 10 + 5); lia.
Qed.

Lemma rate_of_interval_bounds x : 0 <= rate_of_interval x <= 833.
Proof.
  unfold rate_of_interval, OPTM_ALG_ROUND.
  destruct ((x <=? 100000) && (x >=? 120)) eqn:Hx; [|lia].
  assert (0 <= 1000000 / x <= 8333) as Hq.
  { split; [apply Z.div_pos; lia|].
    transitivity (1000000 / 120); [apply Z.div_le_compat_l; lia|done]. }
  set (q := 1000000 / x) in *. clearbody q.
  pose proof (Z.div_mod q 10 ltac:(lia)). pose proof (Z.mod_pos_bound q 10 ltac:(lia)).
  destruct (Z.gtb_spec (q mod 10) 4).
  - rewrite u32_small by (unfold is_u32; lia). rewrite Z.div_mul by lia. lia.
  - lia.
Qed.

(** ** The coarse detector touches only its own fields *)

Section WindowFrame.
Context {C : HiConsts}.
Implicit Types p : OPTM_ALG_FRD_S.

Definition same_fine p q : Prop :=
  q.(InPTSSqn) = p.(InPTSSqn) /\ q.(nowPTSPtr) = p.(nowPTSPtr) /\
  q.(length') = p.(length') /\ q.(unableTime) = p.(unableTime) /\
  q.(InFrameRateLast) = p.(InFrameRateLast) /\
  q.(StableThreshold) = p.(StableThreshold) /\
  q.(InFrameRateEqueTime) = p.(InFrameRateEqueTime) /\
  q.(InFrameRate) = p.(InFrameRate).

Lemma frd_window_fine p t : same_fine p (frd_window p t).
Proof.
  unfold frd_window, same_fine. cbn.
  repeat match goal with |- context [if ?b then _ else _] => destruct b; cbn end;
    done.
Qed.

(** Before its first window is complete the coarse detector reports nothing. *)
Lemma frd_window_young p t :
  0 <= p.(u32QueCnt) < 60 -> p.(u32QueStable) = 0 ->
  (frd_window p t).(u32QueStable) = 0 /\
  0 <= (frd_window p t).(u32QueCnt) <= p.(u32QueCnt) + 1.
Proof.
  intros Hc Hs. unfold frd_window. cbn.
  destruct (u320_Pts p =? HI_INVALID_PTS); cbn.
  - zfalse (u32QueCnt p =? 61). cbn. lia.
  - wraps. zfalse (u32QueCnt p + 1 =? 61). cbn. wraps. lia.
Qed.
Definition same_coarse p q : Prop :=
  q.(u32QueCnt) = p.(u32QueCnt) /\ q.(u32QueStable) = p.(u32QueStable).

Lemma frd_unable_frame p :
  let q := frd_unable p in
  q.(InPTSSqn) = p.(InPTSSqn) /\ q.(nowPTSPtr) = p.(nowPTSPtr) /\
  q.(length') = p.(length') /\ same_coarse p q /\
  (q.(InFrameRate) = p.(InFrameRate) \/ q.(InFrameRate) = 0).
Proof.
  unfold frd_unable, same_coarse. cbn. repeat case_match; cbn; tauto.
Qed.

Lemma reset_all p :
  exists q, OMX_OPTM_ALG_FrdInfo_Reset p 0 = Some q /\ q.(InPTSSqn) = blank_seq /\
    q.(InFrameRateEqueTime) = 0 /\ q.(u32QueCnt) = 0 /\ q.(u32QueStable) = 0 /\
    q.(length') = p.(length') /\ q.(InFrameRate) = p.(InFrameRate) /\
    q.(nowPTSPtr) = p.(nowPTSPtr).
Proof. eexists. by split_and!. Qed.
End WindowFrame.

(** ** A stream with a constant frame interval *)

Definition thr_of (r : Z) : Z := if r >? 300 then r / 100 else 3.
Definition len_of (r : Z) : Z := if r >? 50 then r / 10 else 5.

Section Steady.
Context {C : HiConsts} {Ok : HiConstsOk C}.
Context (d : Z) (Hd : 12 <= d <= 10000).
Implicit Types p : OPTM_ALG_FRD_S.

#[local] Abbreviation r := (rate_of_interval (10 * d)).

Lemma rate_pos : 1 <= r <= 833.
Proof.
  pose proof (rate_of_interval_bounds (10 * d)).
  rewrite rate_of_interval_ms in * by lia.
  enough (1 <= (20000 + d) / (2 * d)) by lia.
  apply Z.div_le_lower_bound; lia.
Qed.

(** The slots below the pointer hold the last stamps, [d] apart. *)
Definition ramp p (t : Z) : Prop :=
  length p.(InPTSSqn) = 100%nat /\ 1 <= p.(nowPTSPtr) < 100 /\
  d * p.(nowPTSPtr) <= t + d /\ t < HI_INVALID_PTS /\
  forall i, 0 <= i < p.(nowPTSPtr) ->
    arr_get p.(InPTSSqn) i = Some (t - d * (p.(nowPTSPtr) - 1 - i)).

(** The same with the slot at the pointer filled in. *)
Definition ramp_full p (t : Z) : Prop :=
  length p.(InPTSSqn) = 100%nat /\ 1 <= p.(nowPTSPtr) < 100 /\
  d * p.(nowPTSPtr) <= t < HI_INVALID_PTS /\
  forall i, 0 <= i <= p.(nowPTSPtr) ->
    arr_get p.(InPTSSqn) i = Some (t - d * (p.(nowPTSPtr) - i)).

Lemma ramp_store p t :
  ramp p t -> t + d < HI_INVALID_PTS ->
  exists sq, arr_set p.(InPTSSqn) p.(nowPTSPtr) (t + d) = Some sq /\
    ramp_full (p <| InPTSSqn := sq |>) (t + d).
Proof.
  intros (Hl & Hp & Ht & _ & Hs) Htd.
  rewrite arr_set_in by lia. eexists. split; [done|].
  unfold ramp_full. cbn. rewrite length_insert. split_and!; try done; try lia.
  intros i Hi. destruct (decide (i = p.(nowPTSPtr))) as [->|].
  - rewrite arr_get_set_eq by lia. f_equal. lia.
  - rewrite arr_get_set_ne, Hs by lia. f_equal. lia.
Qed.

Lemma ramp_full_rate p t env :
  ramp_full p t -> OMX_OPTM_ALG_InPTSSqn_CalNowRate p env = Some r.
Proof.
  intros (Hl & Hp & Ht & Hs). pose proof hi_pts_u32 as HI. unfold is_u32 in HI.
  unfold OMX_OPTM_ALG_InPTSSqn_CalNowRate.
  destruct (1 =? env).
  - rewrite !Hs by lia. cbn. zfalse (nowPTSPtr p =? 0).
    replace (t - d * (nowPTSPtr p - nowPTSPtr p) - (t - d * (nowPTSPtr p - 0)))
      with (d * nowPTSPtr p) by lia.
    assert (0 <= d * nowPTSPtr p <= 1000000) by nia.
    do 2 f_equal. wraps.
    rewrite Z.mul_assoc, Z.div_mul by lia. wraps. done.
  - rewrite u32_small by (unfold is_u32; lia). rewrite !Hs by lia. cbn.
    do 2 f_equal.
    replace (t - d * (nowPTSPtr p - nowPTSPtr p) -
             (t - d * (nowPTSPtr p - (nowPTSPtr p - 1)))) with d by lia.
    wraps. done.
Qed.

(** Restarting the sequence keeps the last stamps. *)
Lemma ramp_reset p t n :
  ramp_full p t -> n = 1 \/ n = 2 ->
  exists q, OMX_OPTM_ALG_FrdInfo_Reset p n = Some q /\
    ramp q t /\ q.(nowPTSPtr) = n /\ q.(InFrameRateEqueTime) = n - 1 /\
    q = p <| InPTSSqn := q.(InPTSSqn) |> <| nowPTSPtr := n |>
          <| InFrameRateEqueTime := n - 1 |>.
Proof.
  intros (Hl & Hp & Ht & Hs) Hn. unfold OMX_OPTM_ALG_FrdInfo_Reset.
  assert (length blank_seq = 100%nat) as Hb by done.
  destruct Hn as [-> | ->]; cbn -[blank_seq].
  - rewrite Hs by lia. cbn -[blank_seq]. rewrite (arr_set_in _ 0) by lia.
    cbn -[blank_seq]. eexists. split; [done|].
    unfold ramp. cbn -[blank_seq]. rewrite length_insert.
    split_and!; try done; try lia; try nia.
    intros i Hi. replace i with 0 by lia.
    rewrite (arr_get_set_eq _ 0) by lia. f_equal. lia.
  - rewrite u32_small by (unfold is_u32; lia).
    rewrite !Hs by lia. cbn -[blank_seq].
    rewrite (arr_set_in _ 0) by lia. cbn -[blank_seq].
    rewrite (arr_set_in _ 1) by (rewrite length_insert; lia). cbn -[blank_seq].
    eexists. split; [done|].
    unfold ramp. cbn -[blank_seq]. rewrite !length_insert.
    split_and!; try done; try lia; try nia.
    intros i Hi. destruct (decide (i = 1)) as [->|].
    + rewrite (arr_get_set_eq _ 1) by (rewrite length_insert; lia). f_equal. lia.
    + rewrite (arr_get_set_ne _ 1) by lia. replace i with 0 by lia.
      rewrite (arr_get_set_eq _ 0) by lia. f_equal. lia.
Qed.

(** The rate [r] has been adopted, or is only known as the last one. *)
Definition tuned p : Prop :=
  p.(InFrameRate) = r /\ p.(InFrameRateLast) = r /\
  p.(length') = len_of r /\ p.(StableThreshold) = thr_of r.
Definition untuned p : Prop :=
  p.(InFrameRate) = 0 /\ p.(InFrameRateLast) = r /\
  p.(length') = 5 /\ p.(StableThreshold) = thr_of r.

Lemma len_of_bounds : 5 <= len_of r <= 83.
Proof.
  pose proof rate_pos. unfold len_of. destruct (Z.gtb_spec r 50); [|lia].
  pose proof (Z.div_lt_upper_bound r 10 84).
  split; [apply Z.div_le_lower_bound|]; lia.
Qed.

Lemma change_tuned p :
  p.(InFrameRateLast) = r ->
  tuned (OMX_OPTM_ALG_InPTSSqn_ChangeInFrameRate p r).
Proof.
  intros Hl. unfold tuned, OMX_OPTM_ALG_InPTSSqn_ChangeInFrameRate, len_of, thr_of.
  cbn. by destruct (r >? 50).
Qed.

Lemma frd_stable_tuned p t :
  ramp_full p t -> tuned p -> frd_stable p = Some p.
Proof.
  intros Hr (Hi & _). pose proof rate_pos as Hrp. 
  unfold frd_stable, OPTM_FRD_INFRAME_RATE_JUMP_THRESHOLD.
  rewrite (ramp_full_rate _ _ _ Hr). cbn. rewrite Hi, Z.sub_diag.
  assert (0 <= r / 10) by (apply Z.div_pos; lia).
  change (u32 (OPTM_ALG_ABS (s32 0))) with 0.
  by zfalse (0 >? r / 10).
Qed.

Lemma frd_stable_untuned p t :
  ramp_full p t -> untuned p ->
  exists q, frd_stable p = Some q /\ tuned q /\ ramp_full q t /\ same_coarse p q /\
    q.(nowPTSPtr) = p.(nowPTSPtr) /\ q.(InFrameRateEqueTime) = p.(InFrameRateEqueTime).
Proof.
  intros Hr (Hi & Hl & _). pose proof rate_pos as Hrp. 
  unfold frd_stable, OPTM_FRD_INFRAME_RATE_JUMP_THRESHOLD.
  rewrite (ramp_full_rate _ _ _ Hr). cbn. rewrite Hi, Z.sub_0_r.
  rewrite s32_small by (unfold is_s32; lia).
  unfold OPTM_ALG_ABS. zfalse (r <? 0). rewrite u32_small by (unfold is_u32; lia).
  change (0 / _) with 0. ztrue (r >? 0).
  eexists. split; [done|].
  pose proof (change_tuned p Hl) as (H1 & H2 & H3 & H4).
  split_and!; try done.
Qed.

Lemma frd_full_tunes p t :
  ramp_full p t -> tuned p \/ untuned p ->
  exists q, frd_full p = Some q /\ tuned q /\ ramp q t /\ same_coarse p q /\
    q.(nowPTSPtr) = 1 /\ q.(InFrameRateEqueTime) = 0.
Proof.
  intros Hr Hp. pose proof rate_pos as Hrp. 
  unfold frd_full, OPTM_FRD_INFRAME_RATE_JUMP_THRESHOLD,
    OPTM_FRD_INFRAME_RATE_WAVE_THRESHOLD.
  rewrite (ramp_full_rate _ _ _ Hr). cbn -[OPTM_ALG_ABS].
  assert (p.(InFrameRateLast) = r) as Hl by (destruct Hp as [(?&?&_)|(?&?&_)]; done).
  set (wave := InFrameRateLast p / _ / _).
  assert (0 <= wave < r) as Hw.
  { subst wave. rewrite Hl. split; [apply Z.div_pos; [apply Z.div_pos|]; lia|].
    rewrite Z.div_div by lia. apply Z.div_lt; lia. }
  rewrite (s32_small wave) by (unfold is_s32; lia).
  set (dl := if near_30fps p then 50 else wave).
  assert (0 <= dl) by (subst dl; destruct (near_30fps p); lia). clearbody dl.
  rewrite Hl, Z.eqb_refl.
  set (diff := s32 (OPTM_ALG_ABS (u32 (p.(InFrameRate) - r)))).
  assert (diff <= 0 /\ (diff = 0 \/ p.(InFrameRate) = 0 /\ diff = - r)) as [Hdiff Hcase].
  { subst diff. unfold OPTM_ALG_ABS. pose proof (u32_range (p.(InFrameRate) - r)) as Hu.
    unfold is_u32 in Hu. zfalse (u32 (p.(InFrameRate) - r) <? 0).
    rewrite s32_u32. destruct Hp as [(->&_)|(->&_)].
    - rewrite Z.sub_diag. change (s32 0) with 0. lia.
    - rewrite s32_small by (unfold is_s32; lia). lia. }
  zfalse (diff >? dl).
  assert (forall q, q = (if u32 (OPTM_ALG_ABS diff) >? wave then frd_adopt p r
            else OMX_OPTM_ALG_InPTSSqn_ChangeInFrameRate p r) ->
          q = OMX_OPTM_ALG_InPTSSqn_ChangeInFrameRate p r) as Hq.
  { intros q ->. destruct Hcase as [-> | [Hz ->]].
    - change (u32 (OPTM_ALG_ABS 0)) with 0. by zfalse (0 >? wave).
    - unfold OPTM_ALG_ABS. ztrue (- r <? 0). rewrite Z.opp_involutive. wraps.
      ztrue (r >? wave). unfold frd_adopt. by rewrite Hz. }
  rewrite (Hq _ eq_refl). clear Hq.
  pose proof (change_tuned p Hl) as (H1 & H2 & H3 & H4).
  set (p' := OMX_OPTM_ALG_InPTSSqn_ChangeInFrameRate p r) in *.
  assert (ramp_full p' t) as Hr' by done.
  assert (same_coarse p p') as Hc by done. clearbody p'.
  destruct (ramp_reset p' t 1 Hr' ltac:(lia)) as (q & -> & Hrq & Hpq & Heq & Hq).
  exists q. split_and!; try done; rewrite Hq; try done; try apply Hc.
Qed.

(** Locked: the detected rate is [r], the next slot is inside the sequence. *)
Definition locked p t : Prop :=
  ramp p t /\ tuned p /\ p.(nowPTSPtr) <= len_of r - 1 /\
  p.(InFrameRateEqueTime) = p.(nowPTSPtr) - 1.

(** Warming up: [k] stamps were seen and no rate is reported yet. *)
Definition warming k p t : Prop :=
  ramp p t /\ p.(nowPTSPtr) = k /\ p.(InFrameRateEqueTime) = k - 1 /\
  if k =? 1 then p.(InFrameRate) = 0 /\ p.(InFrameRateLast) = 0 /\ p.(length') = 5
  else untuned p.

Lemma ramp_full_advance p t :
  ramp_full p t -> p.(nowPTSPtr) + 1 < 100 ->
  ramp (p <| nowPTSPtr := p.(nowPTSPtr) + 1 |>) t.
Proof.
  intros (Hl & Hp & Ht & Hs) Hn. unfold ramp. cbn.
  split_and!; try done; try lia.
  intros i Hi. rewrite Hs by lia. f_equal. lia.
Qed.

(** One more interval at the rate [r]. *)
Lemma frd_steady_tuned p t :
  ramp_full p t -> tuned p -> p.(nowPTSPtr) <= len_of r - 1 ->
  p.(InFrameRateEqueTime) = p.(nowPTSPtr) - 1 ->
  exists q, frd_steady p r = Some q /\ locked q t /\ same_coarse p q.
Proof.
  intros Hr Hp Hn He. pose proof len_of_bounds as Hlen. unfold frd_steady. cbn.
  set (p1 := frd_count p r).
  assert (ramp_full p1 t /\ tuned p1 /\ same_coarse p p1 /\ p1.(nowPTSPtr) = p.(nowPTSPtr) /\
          p1.(InFrameRateEqueTime) = p.(nowPTSPtr)) as (Hr1 & Hp1 & Hc1 & Hn1 & He1).
  { destruct Hr as (? & ? & ? & ?). subst p1. unfold frd_count. cbn.
    destruct (_ || _); cbn; wraps; (split_and!; [done|done|done|done|lia]). }
  clearbody p1.
  rewrite (frd_stable_tuned p1 t Hr1 Hp1).
  replace (if InFrameRateEqueTime p1 =? _ then Some p1 else Some p1) with (Some p1)
    by (by destruct (_ =? _)).
  cbn. pose proof Hp1 as (Hi & Hl & Hlp & Hth).
  rewrite Hlp, Hn1, u32_small by (unfold is_u32; lia).
  destruct (Z.eqb_spec (nowPTSPtr p) (len_of r - 1)) as [Heq|Hne].
  - destruct (frd_full_tunes p1 t Hr1 (or_introl Hp1)) as (q & -> & Hq & Hrq & Hcq & Hnq & Heq').
    exists q. unfold locked. destruct Hc1, Hcq.
    split_and!; try done; try lia. split; congruence.
  - eexists. split; [done|]. unfold locked. rewrite <- Hn1.
    pose proof (ramp_full_advance p1 t Hr1 ltac:(lia)) as Ha.
    destruct Hr1 as (? & ? & ? & ?). cbn. wraps.
    split_and!; try done; try lia; apply Hc1.
Qed.

Lemma frd_steady_untuned p t :
  ramp_full p t -> untuned p -> 2 <= p.(nowPTSPtr) <= 4 ->
  p.(InFrameRateEqueTime) = p.(nowPTSPtr) - 1 ->
  exists q, frd_steady p r = Some q /\ same_coarse p q /\
    (locked q t \/ p.(nowPTSPtr) <= 3 /\ warming (p.(nowPTSPtr) + 1) q t).
Proof.
  intros Hr Hp Hn He. pose proof len_of_bounds as Hlen. unfold frd_steady. cbn.
  set (p1 := frd_count p r).
  assert (ramp_full p1 t /\ untuned p1 /\ same_coarse p p1 /\ p1.(nowPTSPtr) = p.(nowPTSPtr) /\
          p1.(InFrameRateEqueTime) = p.(nowPTSPtr)) as (Hr1 & Hp1 & Hc1 & Hn1 & He1).
  { subst p1. unfold frd_count. cbn.
    destruct (_ || _); cbn; wraps; (split_and!; [done|done|done|done|lia]). }
  clearbody p1.
  assert (exists p2, (if InFrameRateEqueTime p1 =? (if near_30fps p1 then 10 else StableThreshold p1)
            then frd_stable p1 else Some p1) = Some p2 /\
          (tuned p2 \/ untuned p2) /\ ramp_full p2 t /\ same_coarse p1 p2 /\
          p2.(nowPTSPtr) = p1.(nowPTSPtr) /\
          p2.(InFrameRateEqueTime) = p1.(InFrameRateEqueTime))
    as (p2 & -> & Hp2 & Hr2 & Hc2 & Hn2 & He2).
  { destruct (_ =? _).
    - destruct (frd_stable_untuned p1 t Hr1 Hp1) as (q & -> & ?). exists q. tauto.
    - exists p1. split_and!; try done. by right. }
  cbn. rewrite Hn2, Hn1.
  assert (5 <= p2.(length') <= 83 /\ (tuned p2 -> p2.(length') = len_of r) /\
          (untuned p2 -> p2.(length') = 5)) as (Hl2 & Hlt & Hlu).
  { unfold tuned, untuned in *. destruct Hp2 as [(?&?&?&?)|(?&?&?&?)]; intuition lia. }
  rewrite u32_small by (unfold is_u32; lia).
  assert (same_coarse p p2) as Hc by (destruct Hc1, Hc2; split; congruence).
  destruct (Z.eqb_spec (nowPTSPtr p) (p2.(length') - 1)) as [Heq|Hne].
  - destruct (frd_full_tunes p2 t Hr2 Hp2) as (q & -> & Hq & Hrq & Hcq & Hnq & Heq').
    exists q. split_and!; [done|destruct Hc, Hcq; split; congruence|].
    left. unfold locked. split_and!; try done; lia.
  - eexists. split; [done|]. split; [done|]. rewrite <- Hn1, <- Hn2.
    pose proof (ramp_full_advance p2 t Hr2 ltac:(lia)) as Ha.
    destruct Hp2 as [Hp2|Hp2]; [left|right; split; [rewrite (Hlu Hp2) in *; lia|]].
    + pose proof (Hlt Hp2). unfold locked. cbn. wraps. split_and!; try done; lia.
    + unfold warming. zfalse (nowPTSPtr p2 + 1 =? 1). cbn. wraps.
      split_and!; try done; lia.
Qed.

Lemma frd_next_locked p t :
  locked p t -> t + d < HI_INVALID_PTS ->
  exists q, frd_next p (t + d) = Some q /\ locked q (t + d) /\ same_coarse p q.
Proof.
  intros (Hr & Hp & Hn & He) Ht. pose proof rate_pos as Hrp. unfold frd_next.
  destruct (ramp_store p t Hr Ht) as (sq & -> & Hf). cbn.
  rewrite (ramp_full_rate _ _ 0 Hf). cbn. zfalse (r =? 0). cbn.
  destruct Hp as (Hi & Hl & Hlp & Hth).
  rewrite Hl, Z.sub_diag. change (u32 (OPTM_ALG_ABS (s32 0))) with 0.
  match goal with |- context [0 >? ?x] => assert (0 <= x) as Hx end.
  { destruct (near_30fps _); [lia|]. apply Z.div_pos; [lia|done]. }
  match goal with |- context [0 >? ?x] => zfalse (0 >? x) end.
  destruct (frd_steady_tuned (p <| InPTSSqn := sq |>) (t + d)) as (q & -> & Hq & Hc);
    cbn; try done. by exists q.
Qed.

Lemma frd_next_warming k p t :
  warming k p t -> 1 <= k <= 4 -> t + d < HI_INVALID_PTS ->
  exists q, frd_next p (t + d) = Some q /\ same_coarse p q /\
    (locked q (t + d) \/ k <= 3 /\ warming (k + 1) q (t + d)).
Proof.
  intros (Hr & Hn & He & Hk) Hk4 Ht. pose proof rate_pos as Hrp. unfold frd_next.
  destruct (ramp_store p t Hr Ht) as (sq & -> & Hf). cbn.
  rewrite (ramp_full_rate _ _ 0 Hf). cbn. zfalse (r =? 0). cbn.
  destruct (Z.eqb_spec k 1) as [->|Hk1].
  - destruct Hk as (Hi & Hl & Hlp). unfold near_30fps. cbn. rewrite Hl, Z.sub_0_r. cbn.
    rewrite s32_small by (unfold is_s32; lia).
    unfold OPTM_ALG_ABS. zfalse (r <? 0). rewrite u32_small by (unfold is_u32; lia).
    change (0 / _) with 0. ztrue (r >? 0). unfold frd_jump.
    pose proof (frd_unable_frame (p <| InPTSSqn := sq |>)) as (HP & HN & HL & HC & HI).
    set (p1 := frd_unable (p <| InPTSSqn := sq |>)) in *. clearbody p1.
    cbn in HP, HN, HL, HI.
    match goal with |- context [OMX_OPTM_ALG_FrdInfo_Reset ?x 2] => set (p2 := x) end.
    assert (ramp_full p2 (t + d)) as Hf2.
    { unfold ramp_full in *. subst p2. cbn in *. by rewrite HP, HN. }
    destruct (ramp_reset p2 _ 2 Hf2 ltac:(lia)) as (q & -> & Hrq & Hnq & Heq & Hq).
    exists q. split; [done|]. split.
    { rewrite Hq. destruct HC as [HC1 HC2]. split; cbn in *; congruence. }
    right. split; [lia|]. unfold warming. cbn. split_and!; try done.
    unfold untuned. rewrite Hq. cbn. split_and!; try done.
    + by destruct HI; congruence.
    + by rewrite HL.
  - pose proof Hk as (Hi & Hl & Hlp & Hth).
    rewrite Hl, Z.sub_diag. change (u32 (OPTM_ALG_ABS (s32 0))) with 0.
    match goal with |- context [0 >? ?x] => assert (0 <= x) as Hx end.
    { destruct (near_30fps _); [lia|]. apply Z.div_pos; [lia|done]. }
    match goal with |- context [0 >? ?x] => zfalse (0 >? x) end.
    destruct (frd_steady_untuned (p <| InPTSSqn := sq |>) (t + d)) as (q & -> & Hc & Hq);
      cbn; try done; try lia.
    exists q. rewrite <- Hn. by split_and!.
Qed.

Lemma same_fine_locked p q t : same_fine p q -> locked p t -> locked q t.
Proof.
  unfold same_fine, locked, ramp, tuned.
  by intros (-> & -> & -> & _ & -> & -> & -> & ->).
Qed.

Lemma same_fine_warming k p q t : same_fine p q -> warming k p t -> warming k q t.
Proof.
  unfold same_fine, warming, ramp, untuned.
  by intros (-> & -> & -> & _ & -> & -> & -> & ->).
Qed.

Definition young k p : Prop := p.(u32QueStable) = 0 /\ 0 <= p.(u32QueCnt) <= k.

(** The detector after [k] stamps of the stream, the last one being [t]. *)
Definition tracking k p t : Prop :=
  locked p t \/ k <= 4 /\ warming k p t /\ young k p.

Lemma tracking_ramp k p t : tracking k p t -> ramp p t.
Proof. by intros [(? & _)|(_ & (? & _) & _)]. Qed.

Lemma detect_tracking k p t :
  1 <= k -> tracking k p t -> t + d < HI_INVALID_PTS ->
  exists q v, OMX_OPTM_ALG_FrameRateDetect p (t + d) = Some (q, v) /\
    tracking (k + 1) q (t + d) /\ (4 <= k -> v = r).
Proof.
  intros Hk Hp Ht. pose proof rate_pos as Hrp. unfold OMX_OPTM_ALG_FrameRateDetect.
  pose proof (frd_window_fine p (t + d)) as Hfine.
  assert (arr_get (frd_window p (t + d)).(InPTSSqn) 0 =
          Some (t - d * (p.(nowPTSPtr) - 1))) as Hg.
  { destruct Hfine as (-> & _). destruct (tracking_ramp _ _ _ Hp) as (_ & ? & _ & _ & Hs).
    rewrite Hs by lia. f_equal. lia. }
  rewrite Hg. cbn.
  assert (t < HI_INVALID_PTS) by (destruct (tracking_ramp _ _ _ Hp) as (_ & _ & _ & ? & _); lia).
  destruct (tracking_ramp _ _ _ Hp) as (_ & Hptr & _).
  zfalse (t - d * (nowPTSPtr p - 1) =? HI_INVALID_PTS). cbn.
  destruct Hp as [Hp | (Hk4 & Hp & Hy)].
  - destruct (frd_next_locked _ t (same_fine_locked _ _ _ Hfine Hp) Ht) as (q & -> & Hq & _).
    cbn. pose proof Hq as (_ & (Hi & _) & _). rewrite Hi. zfalse (r =? 0).
    rewrite andb_false_r. exists q, r. split_and!; [by rewrite Hi|by left|done].
  - destruct Hy as [Hy1 Hy2].
    destruct (frd_window_young p (t + d) ltac:(lia) Hy1) as [Hw1 Hw2].
    destruct (frd_next_warming _ _ t (same_fine_warming _ _ _ _ Hfine Hp) ltac:(lia) Ht)
      as (q & -> & [Hc1 Hc2] & Hq).
    cbn. rewrite Hc2, Hw1. cbn. exists q, q.(InFrameRate). split_and!; [done| |].
    + destruct Hq as [Hq|[Hk3 Hq]]; [by left|right]. split_and!; [lia|done|].
      split; [congruence|lia].
    + intros. destruct Hq as [(_ & (Hi & _) & _)|[? _]]; [done|lia].
Qed.

(** The stamps [t], [t + d], [t + 2d], ... *)
Fixpoint stamps (t : Z) (n : nat) : list Z :=
  match n with O => [] | S n => t :: stamps (t + d) n end.

Lemma run_tracking n : forall k p t,
  1 <= k -> tracking k p t -> t + d * Z.of_nat n < HI_INVALID_PTS ->
  exists q rs, frd_run p (stamps (t + d) n) = Some (q, rs) /\
    tracking (k + Z.of_nat n) q (t + d * Z.of_nat n) /\ length rs = n /\
    forall i v, rs !! i = Some v -> 4 <= k + Z.of_nat i -> v = r.
Proof.
  induction n as [|n IH]; intros k p t Hk Hp Ht; cbn [stamps frd_run].
  - exists p, []. rewrite Z.mul_0_r, !Z.add_0_r. by split_and!.
  - destruct (detect_tracking k p t Hk Hp ltac:(lia)) as (q & v & -> & Hq & Hv). cbn.
    destruct (IH (k + 1) q (t + d) ltac:(lia) Hq ltac:(lia))
      as (q' & rs & -> & Hq' & Hlen & Hrs). cbn.
    exists q', (v :: rs). split_and!; [done| |cbn; by rewrite Hlen|].
    + replace (k + Z.of_nat (S n)) with (k + 1 + Z.of_nat n) by lia.
      by replace (t + d * Z.of_nat (S n)) with (t + d + d * Z.of_nat n) by lia.
    + intros [|i] w Hi Hk4; cbn in Hi.
      * simplify_eq. apply Hv. lia.
      * apply (Hrs i w Hi). lia.
Qed.

Lemma frd_first_warming p t :
  0 <= t < HI_INVALID_PTS ->
  exists q, frd_first p t = Some q /\ warming 1 q t /\ young 1 q.
Proof.
  intros Ht. unfold frd_first.
  set (p1 := OMX_OPTM_ALG_InPTSSqn_ChangeInFrameRate p 0).
  assert (p1.(InFrameRate) = 0 /\ p1.(length') = 5) as [Hi1 Hl1] by done. clearbody p1.
  destruct (reset_all p1) as (p2 & -> & HS & HE & HC & HQ & HL & HI & _). cbn.
  assert (length blank_seq = 100%nat) as Hb by done.
  rewrite HS, arr_set_in by (rewrite Hb; lia). cbn. eexists. split; [done|].
  unfold warming, young, ramp. cbn. rewrite length_insert, Hb.
  split_and!; try congruence; try lia.
  intros i Hi. replace i with 0 by lia.
  rewrite (arr_get_set_eq _ 0) by (rewrite Hb; lia). f_equal. lia.
Qed.

(** The first stamp after a reset. *)
Lemma detect_first p t :
  arr_get p.(InPTSSqn) 0 = Some HI_INVALID_PTS -> 0 <= t < HI_INVALID_PTS ->
  exists q v, OMX_OPTM_ALG_FrameRateDetect p t = Some (q, v) /\ tracking 1 q t.
Proof.
  intros Hp Ht. unfold OMX_OPTM_ALG_FrameRateDetect.
  destruct (frd_window_fine p t) as (-> & _). rewrite Hp. cbn. rewrite Z.eqb_refl. cbn.
  destruct (frd_first_warming (frd_window p t) t Ht) as (q & -> & Hq & [Hy1 Hy2]). cbn.
  rewrite Hy1. cbn. eexists _, _. split; [done|]. right. by split_and!.
Qed.
(** ** The pointer past the end of the sequence *)

(** The last stamps came [d] apart, their rate is the last one seen, and the
    pointer has passed the length that belongs to the rate: nothing resets it
    any more. *)
Definition past_end p t : Prop :=
  ramp p t /\ p.(InFrameRateLast) = r /\ 1 <= p.(length') <= p.(nowPTSPtr) /\
  len_of r <= p.(nowPTSPtr).

(** The pointer is one past the last slot of the array. *)
Definition outside p : Prop :=
  length p.(InPTSSqn) = 100%nat /\ p.(nowPTSPtr) = 100 /\
  exists x, arr_get p.(InPTSSqn) 0 = Some x /\ x <> HI_INVALID_PTS.

Lemma outside_faults p t : outside p -> OMX_OPTM_ALG_FrameRateDetect p t = None.
Proof.
  intros (Hl & Hn & x & Hx & Hne). unfold OMX_OPTM_ALG_FrameRateDetect.
  destruct (frd_window_fine p t) as (HP & HN & _). rewrite HP, Hx. cbn.
  zfalse (x =? HI_INVALID_PTS). cbn. unfold frd_next.
  rewrite HP, HN, Hn. unfold arr_set. by rewrite Hl.
Qed.

(** The correction by the average does not touch what keeps the pointer going. *)
Lemma frd_stable_past p t :
  ramp_full p t -> p.(InFrameRateLast) = r ->
  exists q, frd_stable p = Some q /\ q.(InPTSSqn) = p.(InPTSSqn) /\
    q.(nowPTSPtr) = p.(nowPTSPtr) /\ q.(InFrameRateLast) = r /\
    (q.(length') = p.(length') \/ q.(length') = len_of r).
Proof.
  intros Hr Hl. unfold frd_stable. rewrite (ramp_full_rate _ _ _ Hr). cbn -[OPTM_ALG_ABS].
  case_match; eexists; (split; [done|]); split_and!; try done; [|by left].
  right. unfold len_of, OMX_OPTM_ALG_InPTSSqn_ChangeInFrameRate. cbn. by destruct (r >? 50).
Qed.

Lemma frd_steady_past p t :
  ramp_full p t -> p.(InFrameRateLast) = r -> 1 <= p.(length') <= p.(nowPTSPtr) ->
  len_of r <= p.(nowPTSPtr) ->
  exists q, frd_steady p r = Some q /\ q.(InPTSSqn) = p.(InPTSSqn) /\
    q.(nowPTSPtr) = p.(nowPTSPtr) + 1 /\ q.(InFrameRateLast) = r /\
    1 <= q.(length') <= p.(nowPTSPtr).
Proof.
  intros Hr Hl Hlen Hlr. pose proof len_of_bounds as Hb. unfold frd_steady. cbv zeta.
  set (p1 := frd_count p r).
  assert (p1.(InPTSSqn) = p.(InPTSSqn) /\ p1.(nowPTSPtr) = p.(nowPTSPtr) /\
          p1.(length') = p.(length') /\ p1.(InFrameRateLast) = r) as (HS & HN & HL & HF)
    by (subst p1; unfold frd_count; cbn; by case_match).
  assert (ramp_full p1 t) as Hr1 by (unfold ramp_full in *; by rewrite HS, HN). clearbody p1.
  assert (exists p2, (if InFrameRateEqueTime p1 =? (if near_30fps p1 then 10 else StableThreshold p1)
            then frd_stable p1 else Some p1) = Some p2 /\ p2.(InPTSSqn) = p.(InPTSSqn) /\
          p2.(nowPTSPtr) = p.(nowPTSPtr) /\ p2.(InFrameRateLast) = r /\
          1 <= p2.(length') <= p.(nowPTSPtr)) as (p2 & -> & HS2 & HN2 & HF2 & HL2).
  { destruct (_ =? _).
    - destruct (frd_stable_past p1 t Hr1 HF) as (q & -> & HSq & HNq & HFq & HLq).
      exists q. split_and!; try congruence; destruct HLq as [-> | ->]; lia.
    - exists p1. split_and!; try done; lia. }
  cbn. destruct Hr as (_ & Hptr & _). rewrite HN2, u32_small by (unfold is_u32; lia).
  zfalse (nowPTSPtr p =? length' p2 - 1). eexists. split; [done|]. cbn. wraps. split_and!; try done; lia.
Qed.

(** Each further stamp only moves the pointer. *)
Lemma detect_past p t :
  past_end p t -> t + d < HI_INVALID_PTS ->
  exists q v, OMX_OPTM_ALG_FrameRateDetect p (t + d) = Some (q, v) /\
    q.(nowPTSPtr) = p.(nowPTSPtr) + 1 /\
    (p.(nowPTSPtr) = 99 -> outside q) /\ (p.(nowPTSPtr) < 99 -> past_end q (t + d)).
Proof.
  intros (Hr & HF & HL & Hlr) Ht. pose proof rate_pos as Hrp. unfold OMX_OPTM_ALG_FrameRateDetect.
  destruct (frd_window_fine p (t + d)) as (HS & HN & HL' & _ & HFl & _).
  set (w := frd_window p (t + d)) in *. clearbody w.
  assert (ramp w t) as Hw by (unfold ramp in *; by rewrite HS, HN).
  assert (w.(InFrameRateLast) = r /\ w.(length') = p.(length')) as [HFw HLw] by (split; congruence).
  pose proof Hw as (Hlen & Hptr & Hlow & Htr & Hg). rewrite HN in Hptr, Hlow.
  rewrite Hg by lia. cbn. zfalse (t - d * (nowPTSPtr w - 1 - 0) =? HI_INVALID_PTS). cbn.
  unfold frd_next. destruct (ramp_store w t Hw Ht) as (sq & -> & Hf). cbn.
  rewrite (ramp_full_rate _ _ 0 Hf). cbn. zfalse (r =? 0). cbn.
  rewrite HFw, Z.sub_diag. change (u32 (OPTM_ALG_ABS (s32 0))) with 0.
  match goal with |- context [0 >? ?x] => assert (0 <= x) as Hx end.
  { destruct (near_30fps _); [lia|]. apply Z.div_pos; [lia|done]. }
  match goal with |- context [0 >? ?x] => zfalse (0 >? x) end.
  destruct (frd_steady_past (w <| InPTSSqn := sq |>) (t + d) Hf) as (q & -> & HSq & HNq & HFq & HLq);
    cbn in *; rewrite ?HLw, ?HN; try done; try lia.
  cbn. eexists _, _. split; [done|].
  match goal with |- context [nowPTSPtr ?x = _] => set (q' := x) end. clear Hx.
  assert (q'.(InPTSSqn) = sq /\ q'.(nowPTSPtr) = p.(nowPTSPtr) + 1 /\ q'.(InFrameRateLast) = r /\
          q'.(length') = q.(length')) as (HS' & HN' & HF' & HLL)
    by (subst q'; case_match; cbn; split_and!; congruence).
  clearbody q'. destruct Hf as (Hfl & Hfp & Hfr & Hfg). cbn in Hfl, Hfp, Hfr, Hfg. rewrite HN in *.
  split_and!; [done|..].
  - intros H99. split_and!; [by rewrite HS'|lia|]. eexists.
    rewrite HS', Hfg by lia. split; [done|]. lia.
  - intros H98. unfold past_end, ramp. rewrite HS', HN', HF', HLL.
    split_and!; try done; try lia. intros i Hi. rewrite Hfg by lia. f_equal. lia.
Qed.

Lemma run_past n : forall p t,
  past_end p t -> Z.of_nat n = 100 - p.(nowPTSPtr) -> t + d * Z.of_nat n < HI_INVALID_PTS ->
  exists q rs, frd_run p (stamps (t + d) n) = Some (q, rs) /\ outside q.
Proof.
  induction n as [|n IH]; intros p t Hp Hn Ht.
  - destruct Hp as ((_ & ? & _) & _). lia.
  - cbn [stamps frd_run].
    destruct (detect_past p t Hp ltac:(lia)) as (q & v & -> & Hq & H99 & H98). cbn.
    destruct n as [|n].
    + cbn. eexists _, _. split; [done|]. apply H99. lia.
    + destruct (IH q (t + d) (H98 ltac:(lia)) ltac:(lia) ltac:(lia)) as (q' & rs & -> & Hq'). cbn.
      by eexists _, _.
Qed.

Lemma frd_run_app l1 : forall p l2 q rs,
  frd_run p l1 = Some (q, rs) ->
  frd_run p (l1 ++ l2) = ('(q', rs') ← frd_run q l2; Some (q', rs ++ rs')).
Proof.
  induction l1 as [|x l1 IH]; intros p l2 q rs H; cbn in *.
  - simplify_eq. by destruct (frd_run q l2) as [[]|].
  - destruct (OMX_OPTM_ALG_FrameRateDetect p x) as [[p1 v]|]; [|done]. cbn in *.
    destruct (frd_run p1 l1) as [[p2 vs]|] eqn:Hr; [|done]. cbn in *. simplify_eq.
    rewrite (IH _ _ _ _ Hr). cbn. by destruct (frd_run q l2) as [[]|].
Qed.
End Steady.

(** ** No access outside the sequence in the first hundred stamps *)

Section Safety.
Context {C : HiConsts}.
Implicit Types p : OPTM_ALG_FRD_S.

(** The pointer is at most [m], unless the sequence is blank. *)
Definition seq_ok (m : Z) p : Prop :=
  length p.(InPTSSqn) = 100%nat /\
  (arr_get p.(InPTSSqn) 0 = Some HI_INVALID_PTS \/ 1 <= p.(nowPTSPtr) <= m).

Definition seq_in p : Prop :=
  length p.(InPTSSqn) = 100%nat /\ 1 <= p.(nowPTSPtr) <= 99.

Lemma seq_get p i :
  seq_in p -> 0 <= i <= 99 -> exists v, arr_get p.(InPTSSqn) i = Some v.
Proof. intros [Hl _] Hi. apply arr_get_in. lia. Qed.

Lemma cal_rate_in p env :
  seq_in p -> exists v, OMX_OPTM_ALG_InPTSSqn_CalNowRate p env = Some v.
Proof.
  intros Hp. unfold OMX_OPTM_ALG_InPTSSqn_CalNowRate. pose proof Hp as [_ Hn].
  destruct (seq_get p p.(nowPTSPtr) Hp ltac:(lia)) as [a ->].
  destruct (seq_get p 0 Hp ltac:(lia)) as [b Hb]. rewrite Hb.
  rewrite u32_small by (unfold is_u32; lia).
  destruct (seq_get p (p.(nowPTSPtr) - 1) Hp ltac:(lia)) as [c Hc]. rewrite Hc.
  destruct (1 =? env); cbn; [zfalse (nowPTSPtr p =? 0)|]; by eexists.
Qed.

Lemma reset_in p n :
  seq_in p -> n = 1 \/ n = 2 ->
  exists q, OMX_OPTM_ALG_FrdInfo_Reset p n = Some q /\
    length q.(InPTSSqn) = 100%nat /\ q.(nowPTSPtr) = n.
Proof.
  intros Hp Hn. unfold OMX_OPTM_ALG_FrdInfo_Reset. pose proof Hp as [_ Hptr].
  destruct (seq_get p p.(nowPTSPtr) Hp ltac:(lia)) as [a ->].
  rewrite u32_small by (unfold is_u32; lia).
  destruct (seq_get p (p.(nowPTSPtr) - 1) Hp ltac:(lia)) as [c ->].
  assert (length blank_seq = 100%nat) as Hb by done.
  destruct Hn as [-> | ->]; cbn; (rewrite (arr_set_in _ 0) by (rewrite Hb; lia)); cbn.
  - eexists. split; [done|]. cbn. by rewrite length_insert.
  - rewrite (arr_set_in _ 1) by (rewrite length_insert, Hb; lia). cbn.
    eexists. split; [done|]. cbn. by rewrite !length_insert.
Qed.

Lemma frd_full_in p :
  seq_in p -> exists q, frd_full p = Some q /\
    length q.(InPTSSqn) = 100%nat /\ q.(nowPTSPtr) = 1.
Proof.
  intros Hp. unfold frd_full. destruct (cal_rate_in p 1 Hp) as [v ->]. cbn -[OPTM_ALG_ABS].
  match goal with |- context [OMX_OPTM_ALG_FrdInfo_Reset ?x 1] =>
    assert (seq_in x) as Hx; [|destruct (reset_in x 1 Hx ltac:(lia)) as (q & -> & ?)] end.
  { unfold frd_adopt. by repeat case_match. }
  by exists q.
Qed.

Lemma frd_steady_in p r :
  seq_in p -> exists q, frd_steady p r = Some q /\
    length q.(InPTSSqn) = 100%nat /\ 1 <= q.(nowPTSPtr) <= p.(nowPTSPtr) + 1.
Proof.
  intros Hp. unfold frd_steady. cbv zeta.
  assert (seq_in (frd_count p r) /\ (frd_count p r).(nowPTSPtr) = p.(nowPTSPtr)) as [Hp1 Hn1]
    by (unfold frd_count; cbn; by case_match).
  set (p1 := frd_count p r) in *. clearbody p1.
  assert (exists p2, (if InFrameRateEqueTime p1 =? (if near_30fps p1 then 10 else StableThreshold p1)
            then frd_stable p1 else Some p1) = Some p2 /\
          seq_in p2 /\ p2.(nowPTSPtr) = p.(nowPTSPtr)) as (p2 & -> & Hp2 & Hn2).
  { destruct (_ =? _); [|by exists p1].
    unfold frd_stable. destruct (cal_rate_in p1 1 Hp1) as [v ->]. cbn.
    case_match; eexists; split_and!; try done; by destruct Hp1. }
  cbn. case_match.
  - destruct (frd_full_in p2 Hp2) as (q & -> & ? & ?). exists q. destruct Hp2. split_and!; try done; lia.
  - eexists. split; [done|]. destruct Hp2. cbn. wraps. split_and!; try done; lia.
Qed.

Lemma frd_next_in p t :
  seq_in p -> exists q, frd_next p t = Some q /\
    length q.(InPTSSqn) = 100%nat /\ 1 <= q.(nowPTSPtr) <= p.(nowPTSPtr) + 1.
Proof.
  intros Hp. unfold frd_next. pose proof Hp as [Hl Hn]. rewrite arr_set_in by lia. cbn.
  set (p1 := p <| InPTSSqn := _ |>).
  assert (seq_in p1) as Hp1 by (unfold seq_in, p1; cbn; by rewrite length_insert).
  assert (p1.(nowPTSPtr) = p.(nowPTSPtr)) as Hn1 by done. clearbody p1.
  destruct (cal_rate_in p1 0 Hp1) as [v ->]. cbn.
  assert (forall q, q.(InPTSSqn) = p1.(InPTSSqn) -> q.(nowPTSPtr) = p1.(nowPTSPtr) -> seq_in q) as Hq.
  { unfold seq_in. intros q -> ->. done. }
  case_match; [case_match|].
  - destruct (frd_unable_frame p1) as (HP & HN & _). unfold frd_jump.
    match goal with |- context [OMX_OPTM_ALG_FrdInfo_Reset ?x 2] =>
      destruct (reset_in x 2 (Hq x HP HN) ltac:(lia)) as (q & -> & ? & Hnq) end.
    exists q. split_and!; try done; lia.
  - rewrite <- Hn1. by apply frd_steady_in.
  - destruct (frd_unable_frame p1) as (HP & HN & _).
    destruct (reset_in _ 1 (Hq _ HP HN) ltac:(lia)) as (q & -> & ? & Hnq).
    exists q. split_and!; try done; lia.
Qed.

Lemma detect_in m p t :
  seq_ok m p -> 0 <= m <= 99 ->
  exists q v, OMX_OPTM_ALG_FrameRateDetect p t = Some (q, v) /\ seq_ok (m + 1) q.
Proof.
  intros [Hl Hp] Hm. unfold OMX_OPTM_ALG_FrameRateDetect.
  destruct (frd_window_fine p t) as (HP & HN & _).
  set (w := frd_window p t) in *. clearbody w. rewrite <- HP in Hl, Hp. rewrite <- HN in Hp.
  destruct (arr_get_in w.(InPTSSqn) 0 ltac:(lia)) as [x Hx]. rewrite Hx in *. cbn.
  assert (exists q, (if negb (x =? HI_INVALID_PTS) then frd_next w t else frd_first w t) = Some q /\
    length q.(InPTSSqn) = 100%nat /\ 1 <= q.(nowPTSPtr) <= m + 1) as (q & -> & Hq).
  { destruct (Z.eqb_spec x HI_INVALID_PTS) as [->|Hne]; cbn.
    - unfold frd_first.
      set (p1 := OMX_OPTM_ALG_InPTSSqn_ChangeInFrameRate w 0). clearbody p1.
      destruct (reset_all p1) as (p2 & -> & HS & _). cbn.
      assert (length blank_seq = 100%nat) as Hb by done.
      rewrite HS, arr_set_in by (rewrite Hb; lia). cbn. eexists. split; [done|].
      cbn. rewrite length_insert, Hb. lia.
    - destruct Hp as [Hp|Hp]; [congruence|].
      destruct (frd_next_in w t) as (q & -> & ? & ?); [split; [done|lia]|].
      exists q. split_and!; try done; lia. }
  cbn. eexists _, _. split; [done|]. unfold seq_ok. case_match; cbn; intuition.
Qed.

Lemma run_in l : forall m p,
  seq_ok m p -> 0 <= m -> m + Z.of_nat (length l) <= 100 ->
  exists q rs, frd_run p l = Some (q, rs) /\ seq_ok (m + Z.of_nat (length l)) q.
Proof.
  induction l as [|t l IH]; intros m p Hp Hm Hl; cbn [frd_run length] in *.
  - exists p, []. by rewrite Z.add_0_r.
  - destruct (detect_in m p t Hp ltac:(lia)) as (q & v & -> & Hq). cbn.
    destruct (IH (m + 1) q Hq ltac:(lia) ltac:(lia)) as (q' & rs & -> & Hq'). cbn.
    eexists _, _. split; [done|].
    by replace (m + Z.of_nat (S (length l))) with (m + 1 + Z.of_nat (length l)) by lia.
Qed.
End Safety.

(** ** Properties *)

(** C17: a stream whose frames are a constant [d] ms apart, 13 to 9999 as the
    comment on the accepting test has it (fps > 0.1 and fps < 80), is
    tracked exactly: from the fifth stamp on the detector reports [10000/d]
    rounded to the nearest, for ever, and never leaves its array. *)
Theorem detect_steady {C : HiConsts} {Ok : HiConstsOk C} (p : OPTM_ALG_FRD_S) (d t : Z) (n : nat) :
  13 <= d <= 9999 -> 0 <= t -> t + d * Z.of_nat n < HI_INVALID_PTS ->
  exists p0 q rs,
    OMX_OPTM_ALG_FrdInfo_Reset p 0 = Some p0 /\
    frd_run p0 (stamps d t (S n)) = Some (q, rs) /\ length rs = S n /\
    forall i v, rs !! i = Some v -> (4 <= i)%nat -> v = (20000 + d) / (2 * d).
Proof.
  intros Hd Ht Hn.
  destruct (reset_all p) as (p0 & -> & HS & _).
  destruct (detect_first d p0 t) as (q & v & Hq & Htr); [by rewrite HS|lia|].
  destruct (run_tracking d ltac:(lia) n 1 q t ltac:(lia) Htr Hn) as (q' & rs & Hrs & _ & Hlen & Hv).
  exists p0, q', (v :: rs). cbn [stamps frd_run]. rewrite Hq. cbn. rewrite Hrs. cbn.
  split_and!; [done|done|by rewrite Hlen|].
  intros [|i] w Hi H4; cbn in Hi; [lia|].
  rewrite <- (rate_of_interval_ms d ltac:(lia)). apply (Hv i w Hi). lia.
Qed.

Lemma detect_steady_witness :
  exists p0 q rs,
    OMX_OPTM_ALG_FrdInfo_Reset (mkFRD [] 0 0 0 0 0 0 0 0 0 0 0 0) 0 = Some p0 /\
    frd_run p0 (stamps 40 1000 (S 30)) = Some (q, rs) /\ length rs = 31%nat /\
    forall i v, rs !! i = Some v -> (4 <= i)%nat -> v = (20000 + 40) / (2 * 40).
Proof. apply (detect_steady _ 40 1000 30); cbn; lia. Defined.

(** Whatever the stamps, the first hundred after a reset are processed
    without an access outside the 100-entry sequence. *)
Theorem detect_first_hundred_safe {C : HiConsts} (p : OPTM_ALG_FRD_S) (pts : list Z) :
  (length pts <= 100)%nat ->
  exists p0 q rs, OMX_OPTM_ALG_FrdInfo_Reset p 0 = Some p0 /\ frd_run p0 pts = Some (q, rs).
Proof.
  intros Hl. destruct (reset_all p) as (p0 & -> & HS & _).
  destruct (run_in pts 0 p0) as (q & rs & Hrs & _).
  - unfold seq_ok. rewrite HS. split; [done|]. by left.
  - lia.
  - lia.
  - by exists p0, q, rs.
Qed.

Lemma detect_first_hundred_safe_witness :
  exists p0 q rs,
    OMX_OPTM_ALG_FrdInfo_Reset (mkFRD [] 0 0 0 0 0 0 0 0 0 0 0 0) 0 = Some p0 /\
    frd_run p0 (stamps 204 0 100) = Some (q, rs).
Proof. apply (detect_first_hundred_safe _ (stamps 204 0 100)). cbn. lia. Defined.

(** A detector as [OMX_PTSREC_Init] leaves it. *)
Definition frd_fresh : OPTM_ALG_FRD_S := mkFRD blank_seq 0 0 HI_INVALID_PTS HI_INVALID_PTS 0 0 0 0 0 0 0 0.

(** C27: nothing bounds the pointer of the stamp sequence. The test that resets
    it is an equality with the length that belongs to the rate; in every state
    where the pointer has passed that length ([past_end]: the last stamps came
    [d] apart and were rated so) the next stamps [d] apart are accepted until
    the pointer is at 100, and the one after that is stored outside [InPTSSqn].
    A rate that falls leads there: the witness runs a fresh detector with five
    frames at 20 fps and ten at 4.9 fps into such a state. *)
Theorem detect_overflow_reachable {C : HiConsts} {Ok : HiConstsOk C}
    (p : OPTM_ALG_FRD_S) (d t : Z) (n : nat) :
  13 <= d <= 9999 -> past_end d p t -> Z.of_nat n = 100 - p.(nowPTSPtr) ->
  t + d * Z.of_nat n < HI_INVALID_PTS ->
  (exists q rs, frd_run p (stamps d (t + d) n) = Some (q, rs) /\
     q.(nowPTSPtr) = OPTM_FRD_IN_PTS_SEQUENCE_LENGTH) /\
  forall x, frd_run p (stamps d (t + d) n ++ [x]) = None.
Proof.
  intros Hd Hp Hn Ht.
  destruct (run_past d ltac:(lia) n p t Hp Hn Ht) as (q & rs & Hr & Hq). split.
  - exists q, rs. split; [done|]. apply Hq.
  - intros x. rewrite (frd_run_app _ _ _ _ _ Hr). cbn. by rewrite (outside_faults q x Hq).
Qed.

Lemma detect_overflow_reachable_witness :
  exists p rs, frd_run frd_fresh (stamps 50 1000 5 ++ stamps 204 1404 10) = Some (p, rs) /\
    (exists q rs, frd_run p (stamps 204 3444 89) = Some (q, rs) /\
       q.(nowPTSPtr) = OPTM_FRD_IN_PTS_SEQUENCE_LENGTH) /\
    forall x, frd_run p (stamps 204 3444 89 ++ [x]) = None.
Proof.
  eexists _, _. split; [by vm_compute|].
  apply (detect_overflow_reachable _ 204 3240 89).
  - lia.
  - unfold past_end, ramp. cbn [InPTSSqn nowPTSPtr length' InFrameRateLast].
    split_and!; try done; try (by vm_compute); try lia.
    intros i Hi. assert (i = 0 \/ i = 1 \/ i = 2 \/ i = 3 \/ i = 4 \/ i = 5 \/ i = 6 \/ i = 7 \/
      i = 8 \/ i = 9 \/ i = 10) as Hc by lia.
    destruct_or? Hc; subst i; by vm_compute.
  - done.
  - by vm_compute.
Defined.

(** The agreement test of the coarse detector subtracts unsigned rates, so
    it is one-sided: a window rate below the recorded one, by however little,
    counts as a disagreement and restarts the count. *)
Theorem frd_window_drop {C : HiConsts} (p : OPTM_ALG_FRD_S) (Pts n : Z) :
  p.(u320_Pts) <> HI_INVALID_PTS -> p.(u32QueCnt) = 60 ->
  is_u32 Pts -> 0 <= p.(u320_Pts) < Pts -> 60 <= Pts - p.(u320_Pts) ->
  n = 10000 / ((Pts - p.(u320_Pts)) / 60) ->
  n < p.(u32QueRate) -> p.(u32QueRate) <= 10000 ->
  (frd_window p Pts).(u32QueStable) = 0 /\ (frd_window p Pts).(u32QueRate) = n.
Proof.
  intros Hi Hc HP Hlt Hge Hn Hr Hb. unfold frd_window, is_u32 in *.
  zfalse (u320_Pts p =? HI_INVALID_PTS). cbn. rewrite Hc. change (u32 (60 + 1)) with 61. cbn.
  ztrue (Pts >? u320_Pts p). wraps.
  assert (1 <= (Pts - u320_Pts p) / 60) by (apply Z.div_le_lower_bound; lia).
  zfalse (0 =? (Pts - u320_Pts p) / 60). cbn. rewrite <- Hn.
  assert (0 <= n) by (subst n; apply Z.div_pos; lia).
  assert (u32 (n - u32QueRate p) = n - u32QueRate p + 4294967296) as ->.
  { unfold u32. rewrite <- (Z_mod_plus_full _ 1), Z.mod_small; lia. }
  unfold OPTM_ALG_ABS. zfalse (n - u32QueRate p + 4294967296 <? 0).
  by zfalse (n - u32QueRate p + 4294967296 <? 10).
Qed.

Lemma frd_window_drop_witness :
  (frd_window (frd_fresh <| u320_Pts := 1000 |> <| u32QueCnt := 60 |> <| u32QueRate := 251 |>)
     3400).(u32QueStable) = 0 /\
  (frd_window (frd_fresh <| u320_Pts := 1000 |> <| u32QueCnt := 60 |> <| u32QueRate := 251 |>)
     3400).(u32QueRate) = 250.
Proof. apply (frd_window_drop _ 3400 250); cbn; unfold is_u32; try lia; done. Defined.

(** The correction over a full sequence subtracts unsigned rates too: an
    average above the detected rate gives a negative difference, so the
    detected rate is left as it is unless the last rate equals the average. *)
Theorem frd_full_rise_unseen {C : HiConsts} (p q : OPTM_ALG_FRD_S) (avg : Z) :
  OMX_OPTM_ALG_InPTSSqn_CalNowRate p 1 = Some avg ->
  0 <= p.(InFrameRate) < avg -> p.(InFrameRateLast) <> avg -> 0 <= p.(InFrameRateLast) < 10000 ->
  frd_full p = Some q -> q.(InFrameRate) = p.(InFrameRate).
Proof.
  intros Ha Hi Hl Hlb. unfold frd_full. rewrite Ha. cbn -[OPTM_ALG_ABS].
  unfold OPTM_FRD_INFRAME_RATE_JUMP_THRESHOLD, OPTM_FRD_INFRAME_RATE_WAVE_THRESHOLD.
  assert (0 <= avg <= 833) as Hb.
  { revert Ha. unfold OMX_OPTM_ALG_InPTSSqn_CalNowRate. cbn.
    destruct (arr_get _ (nowPTSPtr p)); cbn; [|done]. destruct (arr_get _ 0); cbn; [|done].
    case_match; [done|]. intros [= <-]. apply rate_of_interval_bounds. }
  set (wave := InFrameRateLast p / 10 / 2).
  assert (0 <= wave < 10000) as Hw.
  { subst wave. rewrite Z.div_div by lia. split; [apply Z.div_pos; lia|].
    apply Z.div_lt_upper_bound; lia. }
  rewrite (s32_small wave) by (unfold is_s32; lia).
  set (dl := if near_30fps p then 50 else wave).
  assert (0 <= dl) by (subst dl; destruct (near_30fps p); lia). clearbody dl.
  assert (s32 (OPTM_ALG_ABS (u32 (InFrameRate p - avg))) = InFrameRate p - avg) as ->.
  { pose proof (u32_range (InFrameRate p - avg)) as Hu. unfold is_u32 in Hu.
    unfold OPTM_ALG_ABS. zfalse (u32 (InFrameRate p - avg) <? 0).
    rewrite s32_u32. by wraps. }
  zfalse (InFrameRate p - avg >? dl). zfalse (InFrameRateLast p =? avg).
  unfold OMX_OPTM_ALG_FrdInfo_Reset. cbn.
  destruct (arr_get _ _); cbn; [|done]. destruct (arr_set _ _ _); cbn; [|done].
  by intros [= <-].
Qed.

Lemma frd_full_rise_unseen_witness :
  InFrameRate (default frd_fresh (frd_full (mkFRD [0; 40; 80; 120; 160] 4 5 0 0 0 0 0 0 240 3 0 200)))
  = 200.
Proof.
  apply (frd_full_rise_unseen (mkFRD [0; 40; 80; 120; 160] 4 5 0 0 0 0 0 0 240 3 0 200) _ 250);
    cbn; try lia; by vm_compute.
Defined.
