(* ===== verification/PtsRec.v ===== *)
(** * Time-stamp recovery

    Models omxvdec/drv_omxvdec_pts_recv.c: sixteen recovery channels with their
    life cycle, and the computation that gives every decoded frame a
    presentation time stamp, the demuxed one when it is valid and an
    extrapolated one otherwise. The frame-rate detector of FrameRate.v is run
    on the recovered stamps; [None] is its undefined behaviour, or an access
    outside the channel table. *)

From S2P Require Import Prelude FrameRate.

Definition PTS_REC_MAX_NUM : Z := 16.
Definition PTS_REC_MAX_FRAMERATE : Z := 60.
Definition PTS_MAX_VALUE : Z := 95443717.
Definition PTS_MAX_PASSTIME : Z := 120 * 1000.
Definition FRMTIME_SERIES_CNT : Z := 2.
Definition FRMTIME_MAX_JUMP : Z := 1000.

Inductive PTSREC_CHAN_STATUS_E :=
| PTSREC_CHAN_INITED | PTSREC_CHAN_STOP | PTSREC_CHAN_START.

#[export] Instance status_eq_dec : EqDecision PTSREC_CHAN_STATUS_E.
Proof. solve_decision. Defined.

Definition status_num (s : PTSREC_CHAN_STATUS_E) : Z :=
  match s with PTSREC_CHAN_INITED => 0 | PTSREC_CHAN_STOP => 1 | PTSREC_CHAN_START => 2 end.

Inductive HI_FRMRATE_TYPE_E :=
| HI_FRMRATE_TYPE_PTS | HI_FRMRATE_TYPE_STREAM
| HI_FRMRATE_TYPE_USER | HI_FRMRATE_TYPE_USER_PTS.

#[export] Instance frmrate_type_eq_dec : EqDecision HI_FRMRATE_TYPE_E.
Proof. solve_decision. Defined.

Record HI_FRMRATE_PARAM_S := mkFrmRate {
  fr_enFrmRateType : HI_FRMRATE_TYPE_E;
  u32fpsInteger : Z;
  u32fpsDecimal : Z;
}.

Record PTSREC_CHAN_INFO_S := mkChan {
  enStatus : PTSREC_CHAN_STATUS_E;
  u32LastSrcPts : Z;
  u32LastSrcFrmIdx : Z;
  u32FrameNum : Z;
  u32FrameTimeCnt : Z;
  u32LastCalcFrmTime : Z;
  u32CalcFrameTime : Z;
  u32SetFrameTime : Z;
  u32GesFrameTime : Z;
  s32InterPtsDelta : Z;
  enFrmRateType : HI_FRMRATE_TYPE_E;
  stPtsInfo : OPTM_ALG_FRD_S;
}.

#[export] Instance chan_fields : Fields PTSREC_CHAN_INFO_S := fun r =>
  mkChan r.(enStatus) r.(u32LastSrcPts) r.(u32LastSrcFrmIdx) r.(u32FrameNum)
    r.(u32FrameTimeCnt) r.(u32LastCalcFrmTime) r.(u32CalcFrameTime)
    r.(u32SetFrameTime) r.(u32GesFrameTime) r.(s32InterPtsDelta)
    r.(enFrmRateType) r.(stPtsInfo).

(** The fields of the decoder's [IMAGE] that the recovery reads and writes. *)
Record IMAGE := mkImage {
  SrcPts : Z;        (* UINT64 *)
  PTS : Z;           (* UINT64 *)
  image_width : Z;
  image_height : Z;
  frame_rate : Z;
  frame_num : Z;
  Rwzb : Z;          (* optm_inf.Rwzb *)
}.

#[export] Instance image_fields : Fields IMAGE := fun r =>
  mkImage r.(SrcPts) r.(PTS) r.(image_width) r.(image_height) r.(frame_rate)
    r.(frame_num) r.(Rwzb).

(** The static table [s_stPtsRecChan]. *)
Abbreviation chan_table := (list PTSREC_CHAN_INFO_S).

Section Channels.
Context {C : HiConsts}.

Definition PTSREC_InitParam (c : PTSREC_CHAN_INFO_S) : PTSREC_CHAN_INFO_S :=
  c <| u32LastSrcPts := HI_INVALID_PTS |>
    <| u32LastSrcFrmIdx := u32 (-1) |>
    <| u32FrameNum := 0 |>
    <| u32FrameTimeCnt := 0 |>
    <| u32LastCalcFrmTime := HI_INVALID_TIME |>
    <| u32CalcFrameTime := HI_INVALID_TIME |>
    <| u32GesFrameTime := HI_INVALID_TIME |>
    <| s32InterPtsDelta := 0 |>
    <| stPtsInfo ::= fun p =>
         p <| u320_Pts := HI_INVALID_PTS |> <| u32120_Pts := HI_INVALID_PTS |>
           <| u32QueCnt := 0 |> <| u32QueStable := 0 |> |>.

(** Runs [f] on channel [h]; the caller has checked the handle. *)
Definition on_chan (t : chan_table) (h : Z)
    (f : PTSREC_CHAN_INFO_S -> option PTSREC_CHAN_INFO_S) : option chan_table :=
  c ← arr_get t h; c ← f c; arr_set t h c.

Definition reset_detector (c : PTSREC_CHAN_INFO_S) : option PTSREC_CHAN_INFO_S :=
  p ← OMX_OPTM_ALG_FrdInfo_Reset c.(stPtsInfo) 0;
  Some (c <| stPtsInfo := p |>).

Definition ptsrec_init_chan (c : PTSREC_CHAN_INFO_S) : option PTSREC_CHAN_INFO_S :=
  let c := c <| enStatus := PTSREC_CHAN_INITED |> <| u32SetFrameTime := HI_INVALID_TIME |> in
  c ← reset_detector (PTSREC_InitParam c);
  Some (c <| stPtsInfo ::= fun p =>
               p <| u320_Pts := HI_INVALID_PTS |> <| u32120_Pts := HI_INVALID_PTS |>
                 <| u32QueCnt := 0 |> <| u32QueStable := 0 |> |>
          <| enFrmRateType := HI_FRMRATE_TYPE_PTS |>).

Definition OMX_PTSREC_Init (t : chan_table) : option (chan_table * Z) :=
  t ← mapM ptsrec_init_chan t; Some (t, HI_SUCCESS).

Definition OMX_PTSREC_Free (t : chan_table) (h : Z) : option (chan_table * Z) :=
  if h >=? PTS_REC_MAX_NUM then Some (t, HI_FAILURE) else
  t ← on_chan t h (fun c => Some (c <| enStatus := PTSREC_CHAN_INITED |>));
  Some (t, HI_SUCCESS).

(** The loop of [OMX_PTSREC_DeInit] from channel [i], [n] channels left. *)
Fixpoint ptsrec_deinit_from (n : nat) (t : chan_table) (i : Z) : option (chan_table * Z) :=
  match n with
  | O => Some (t, HI_SUCCESS)
  | S n =>
      c ← arr_get t i;
      if status_num c.(enStatus) >? status_num PTSREC_CHAN_INITED then
        '(t, _) ← OMX_PTSREC_Free t i; Some (t, HI_FAILURE)
      else ptsrec_deinit_from n t (i + 1)
  end.

Definition OMX_PTSREC_DeInit (t : chan_table) : option (chan_table * Z) :=
  ptsrec_deinit_from (Z.to_nat PTS_REC_MAX_NUM) t 0.

Definition OMX_PTSREC_Alloc (t : chan_table) (h : Z) : option (chan_table * Z) :=
  if h >=? PTS_REC_MAX_NUM then Some (t, HI_FAILURE) else
  c ← arr_get t h;
  if status_num c.(enStatus) >? status_num PTSREC_CHAN_INITED then Some (t, HI_FAILURE) else
  t ← on_chan t h (fun c =>
        reset_detector (PTSREC_InitParam
          (c <| enStatus := PTSREC_CHAN_STOP |> <| u32SetFrameTime := HI_INVALID_TIME |>)));
  Some (t, HI_SUCCESS).

Definition OMX_PTSREC_Start (t : chan_table) (h : Z) : option (chan_table * Z) :=
  if h >=? PTS_REC_MAX_NUM then Some (t, HI_FAILURE) else
  c ← arr_get t h;
  if status_num c.(enStatus) <? status_num PTSREC_CHAN_STOP then Some (t, HI_FAILURE) else
  t ← on_chan t h (fun c => Some (PTSREC_InitParam (c <| enStatus := PTSREC_CHAN_START |>)));
  Some (t, HI_SUCCESS).

Definition OMX_PTSREC_Stop (t : chan_table) (h : Z) : option (chan_table * Z) :=
  if h >=? PTS_REC_MAX_NUM then Some (t, HI_FAILURE) else
  c ← arr_get t h;
  if status_num c.(enStatus) <? status_num PTSREC_CHAN_STOP then Some (t, HI_FAILURE) else
  t ← on_chan t h (fun c => Some (c <| enStatus := PTSREC_CHAN_STOP |>));
  Some (t, HI_SUCCESS).

Definition OMX_PTSREC_Reset (t : chan_table) (h : Z) : option (chan_table * Z) :=
  if h >=? PTS_REC_MAX_NUM then Some (t, HI_FAILURE) else
  c ← arr_get t h;
  if status_num c.(enStatus) <? status_num PTSREC_CHAN_STOP then Some (t, HI_FAILURE) else
  if status_num c.(enStatus) >? status_num PTSREC_CHAN_STOP then Some (t, HI_FAILURE) else
  t ← on_chan t h (fun c => reset_detector (PTSREC_InitParam c));
  Some (t, HI_SUCCESS).

(** The frame time is set in microseconds; the type is stored before the rate
    is validated. *)
Definition OMX_PTSREC_SetFrmRate (t : chan_table) (h : Z) (fr : HI_FRMRATE_PARAM_S)
    : option (chan_table * Z) :=
  if h >=? PTS_REC_MAX_NUM then Some (t, HI_FAILURE) else
  c ← arr_get t h;
  if status_num c.(enStatus) <? status_num PTSREC_CHAN_STOP then Some (t, HI_FAILURE) else
  t ← on_chan t h (fun c => Some (c <| enFrmRateType := fr.(fr_enFrmRateType) |>));
  if bool_decide (fr.(fr_enFrmRateType) = HI_FRMRATE_TYPE_USER)
     || bool_decide (fr.(fr_enFrmRateType) = HI_FRMRATE_TYPE_USER_PTS) then
    let u32DivNum := (fr.(u32fpsInteger) *u 1000) +u fr.(u32fpsDecimal) in
    if (u32DivNum >? PTS_REC_MAX_FRAMERATE * 1000) || (0 =? u32DivNum) then
      Some (t, HI_FAILURE)
    else
      t ← on_chan t h (fun c => Some (c <| u32SetFrameTime := 1000000000 / u32DivNum |>));
      Some (t, HI_SUCCESS)
  else
    t ← on_chan t h (fun c => Some (c <| u32SetFrameTime := u32 (-1) |>));
    Some (t, HI_SUCCESS).

(** The rate read back, integral part and thousandths. *)
Definition OMX_PTSREC_GetFrmRate (t : chan_table) (h : Z) (fr : HI_FRMRATE_PARAM_S)
    : option (HI_FRMRATE_PARAM_S * Z) :=
  if h >=? PTS_REC_MAX_NUM then Some (fr, HI_FAILURE) else
  c ← arr_get t h;
  if status_num c.(enStatus) <? status_num PTSREC_CHAN_STOP then Some (fr, HI_FAILURE) else
  if negb (c.(u32SetFrameTime) =? HI_INVALID_TIME) then
    if c.(u32SetFrameTime) =? 0 then None else
    let u32Val := 1000000000 / c.(u32SetFrameTime) in
    Some (mkFrmRate fr.(fr_enFrmRateType) (u32Val / 1000) (u32Val mod 1000), HI_SUCCESS)
  else Some (mkFrmRate fr.(fr_enFrmRateType) 0 0, HI_SUCCESS).

Definition OMX_PTSREC_GetInterPtsDelta (t : chan_table) (h : Z) : option Z :=
  c ← arr_get t h; Some (u32 c.(s32InterPtsDelta)).

(** ** Recovering one stamp *)

(** The frame time guessed from the picture size, remembered. *)
Definition guess_frame_time (c : PTSREC_CHAN_INFO_S) (img : IMAGE) : PTSREC_CHAN_INFO_S * Z :=
  let c :=
    if HI_INVALID_TIME =? c.(u32GesFrameTime) then
      if (img.(image_width) <=? 720) && (img.(image_height) <=? 480) then
        c <| u32GesFrameTime := 33333 |>
      else if (img.(image_width) <=? 720) && (img.(image_height) <=? 576) then
        c <| u32GesFrameTime := 40000 |>
      else c <| u32GesFrameTime := 40000 |>
    else c in
  (c, c.(u32GesFrameTime)).

(** Which frame time extrapolates: the set one first for a user rate, the
    calculated one first otherwise, the guess last. *)
Definition choose_frame_time (c : PTSREC_CHAN_INFO_S) (img : IMAGE) : PTSREC_CHAN_INFO_S * Z :=
  if bool_decide (c.(enFrmRateType) = HI_FRMRATE_TYPE_USER) then
    if negb (HI_INVALID_TIME =? c.(u32SetFrameTime)) then (c, c.(u32SetFrameTime))
    else if negb (HI_INVALID_TIME =? c.(u32CalcFrameTime)) then (c, c.(u32CalcFrameTime))
    else guess_frame_time c img
  else
    if negb (HI_INVALID_TIME =? c.(u32CalcFrameTime)) then (c, c.(u32CalcFrameTime))
    else if negb (HI_INVALID_TIME =? c.(u32SetFrameTime)) then (c, c.(u32SetFrameTime))
    else guess_frame_time c img.

(** The frame time measured between two valid stamps; it replaces the
    calculated one once two measures in a row agree. *)
Definition update_frame_time (c : PTSREC_CHAN_INFO_S) (u32PtsPass u32NumPass : Z)
    : PTSREC_CHAN_INFO_S :=
  let ft := (u32PtsPass *u 1000) / u32NumPass in
  let c :=
    if negb (HI_INVALID_TIME =? c.(u32CalcFrameTime)) then
      let c := if OPTM_ALG_ABS (ft -u c.(u32LastCalcFrmTime)) >? FRMTIME_MAX_JUMP
               then c <| u32FrameTimeCnt := 0 |> else c in
      let c := c <| u32FrameTimeCnt := c.(u32FrameTimeCnt) +u 1 |> in
      if c.(u32FrameTimeCnt) >=? FRMTIME_SERIES_CNT then
        c <| u32CalcFrameTime := ft |> <| u32FrameTimeCnt := FRMTIME_SERIES_CNT |>
      else c
    else c <| u32CalcFrameTime := ft |> <| u32FrameTimeCnt := c.(u32FrameTimeCnt) +u 1 |> in
  let c := c <| u32LastCalcFrmTime := ft |> in
  c <| s32InterPtsDelta := s32 (c.(u32CalcFrameTime) / 2000) |>.

(** A frame with a valid stamp, [u32NumPass] frames after the last one. *)
Definition take_src_pts (c : PTSREC_CHAN_INFO_S) (u32SrcPts u32NumPass frame : Z)
    : PTSREC_CHAN_INFO_S * Z :=
  let last := c.(u32LastSrcPts) in
  let c :=
    if negb (HI_INVALID_PTS =? last) then
      let u32PtsPass := if u32SrcPts >=? last then u32SrcPts -u last
                        else (PTS_MAX_VALUE -u last) +u u32SrcPts in
      if negb (u32NumPass =? 0) then
        if u32PtsPass <=? PTS_MAX_PASSTIME then update_frame_time c u32PtsPass u32NumPass
        else if u32SrcPts >=? last then c <| s32InterPtsDelta := 20 |>
        else c <| s32InterPtsDelta := -20 |>
      else c <| s32InterPtsDelta := 20 |>
    else c <| s32InterPtsDelta := 20 |> in
  (c <| u32LastSrcPts := u32SrcPts |> <| u32LastSrcFrmIdx := frame |>, u32SrcPts).

(** A frame without a valid stamp. *)
Definition extrapolate_pts (c : PTSREC_CHAN_INFO_S) (img : IMAGE) (u32NumPass : Z)
    : PTSREC_CHAN_INFO_S * Z :=
  if negb (HI_INVALID_PTS =? c.(u32LastSrcPts)) then
    let '(c, u32FrameTime) := choose_frame_time c img in
    (c <| s32InterPtsDelta := s32 (u32FrameTime / 2000) |>,
     c.(u32LastSrcPts) +u (u32FrameTime *u u32NumPass) / 1000)
  else (c <| s32InterPtsDelta := 0 |>, HI_INVALID_PTS).

(** The stamp of one frame, before the rate detection. *)
Definition recover_pts (c : PTSREC_CHAN_INFO_S) (img : IMAGE)
    : PTSREC_CHAN_INFO_S * IMAGE * Z :=
  let c := c <| u32FrameNum := c.(u32FrameNum) +u 1 |> in
  let img := img <| frame_num := c.(u32FrameNum) |> in
  let u32NumPass := if negb (HI_INVALID_PTS =? c.(u32LastSrcPts))
                    then img.(frame_num) -u c.(u32LastSrcFrmIdx) else 0 in
  let u32SrcPts := u32 img.(SrcPts) in
  let '(c, u32Pts) :=
    if negb (HI_INVALID_PTS =? u32SrcPts)
    then take_src_pts c u32SrcPts u32NumPass img.(frame_num)
    else extrapolate_pts c img u32NumPass in
  (c, img <| PTS := u32Pts |>, u32Pts).

Definition PTSREC_FrameRateDetect (c : PTSREC_CHAN_INFO_S) (img : IMAGE)
    : option (PTSREC_CHAN_INFO_S * IMAGE) :=
  if negb ((img.(Rwzb) >? 0)
           || bool_decide (c.(enFrmRateType) = HI_FRMRATE_TYPE_STREAM)
           || bool_decide (c.(enFrmRateType) = HI_FRMRATE_TYPE_USER)) then
    '(p, u32FrameRate) ← OMX_OPTM_ALG_FrameRateDetect c.(stPtsInfo) (u32 img.(PTS));
    Some (c <| stPtsInfo := p |>, img <| frame_rate := (u32FrameRate *u 1024) / 10 |>)
  else Some (c, img).

(** The whole call: the new table, the updated image and the returned stamp. *)
Definition OMX_PTSREC_CalcStamp (t : chan_table) (h : Z) (img : IMAGE)
    : option (chan_table * IMAGE * Z) :=
  if h >=? PTS_REC_MAX_NUM then Some (t, img, u32 HI_FAILURE) else
  c ← arr_get t h;
  if status_num c.(enStatus) <? status_num PTSREC_CHAN_START
  then Some (t, img, u32 HI_FAILURE) else
  let '(c, img, u32Pts) := recover_pts c img in
  '(c, img) ← PTSREC_FrameRateDetect c img;
  t ← arr_set t h c;
  Some (t, img, u32Pts).
End Channels.

#[global] Arguments OMX_OPTM_ALG_FrameRateDetect : simpl never.
#[global] Arguments recover_pts : simpl never.
#[global] Arguments take_src_pts : simpl never.
#[global] Arguments extrapolate_pts : simpl never.
#[global] Arguments update_frame_time : simpl never.

(** ** The channel table keeps its invariant *)

Inductive ptsrec_call :=
| CallFree | CallAlloc | CallStart | CallStop | CallReset
| CallSetFrmRate (fr : HI_FRMRATE_PARAM_S)
| CallCalcStamp (img : IMAGE).

Section Invariant.
Context {C : HiConsts} {Ok : HiConstsOk C}.
Implicit Types (c : PTSREC_CHAN_INFO_S) (t : chan_table) (h : Z).

(** One call on handle [h]: the table it leaves. *)
Definition ptsrec_exec (call : ptsrec_call) t h : option chan_table :=
  match call with
  | CallFree => fst <$> OMX_PTSREC_Free t h
  | CallAlloc => fst <$> OMX_PTSREC_Alloc t h
  | CallStart => fst <$> OMX_PTSREC_Start t h
  | CallStop => fst <$> OMX_PTSREC_Stop t h
  | CallReset => fst <$> OMX_PTSREC_Reset t h
  | CallSetFrmRate fr => fst <$> OMX_PTSREC_SetFrmRate t h fr
  | CallCalcStamp img => (fun r => r.1.1) <$> OMX_PTSREC_CalcStamp t h img
  end.

(** The tables that calls can produce from an initialised one. *)
Inductive ptsrec_reachable : chan_table -> Prop :=
| reach_init t0 t r :
    length t0 = Z.to_nat PTS_REC_MAX_NUM -> OMX_PTSREC_Init t0 = Some (t, r) ->
    ptsrec_reachable t
| reach_deinit t t' r :
    ptsrec_reachable t -> OMX_PTSREC_DeInit t = Some (t', r) -> ptsrec_reachable t'
| reach_call call t t' h :
    ptsrec_reachable t -> is_u32 h -> ptsrec_exec call t h = Some t' -> ptsrec_reachable t'.

(** The set frame time is unset or that of a rate of at most 60 fps. *)
Definition chan_ok c : Prop :=
  c.(u32SetFrameTime) = HI_INVALID_TIME \/ 16666 <= c.(u32SetFrameTime) <= 1000000000.

Definition table_ok t : Prop := length t = 16%nat /\ Forall chan_ok t.

Lemma table_get t h : table_ok t -> 0 <= h < 16 -> exists c, arr_get t h = Some c /\ chan_ok c.
Proof.
  intros [Hl Ht] Hh. destruct (arr_get_in t h ltac:(lia)) as [c Hc].
  exists c. split; [done|]. revert Hc. unfold arr_get. ztrue (0 <=? h). intros Hc.
  by eapply Forall_lookup_1.
Qed.

Lemma table_set t h c : table_ok t -> 0 <= h < 16 -> chan_ok c ->
  exists t', arr_set t h c = Some t' /\ table_ok t'.
Proof.
  intros [Hl Ht] Hh Hc. rewrite arr_set_in by lia. eexists. split; [done|].
  split; [by rewrite length_insert|]. by apply Forall_insert.
Qed.

(** A channel update that keeps the set frame time keeps the table. *)
Lemma on_chan_ok t h f :
  table_ok t -> 0 <= h < 16 ->
  (forall c, chan_ok c -> exists c', f c = Some c' /\ chan_ok c') ->
  exists t', on_chan t h f = Some t' /\ table_ok t'.
Proof.
  intros Ht Hh Hf. unfold on_chan.
  destruct (table_get t h Ht Hh) as (c & -> & Hc). cbn.
  destruct (Hf c Hc) as (c' & -> & Hc'). cbn. by apply table_set.
Qed.

Lemma reset_detector_ok c :
  exists c', reset_detector c = Some c' /\ c'.(u32SetFrameTime) = c.(u32SetFrameTime).
Proof.
  unfold reset_detector. destruct (reset_all (stPtsInfo c)) as (p & -> & _). cbn.
  eexists. by split.
Qed.

Lemma recover_pts_set c img :
  (recover_pts c img).1.1.(u32SetFrameTime) = c.(u32SetFrameTime).
Proof.
  unfold recover_pts, take_src_pts, extrapolate_pts, update_frame_time,
    choose_frame_time, guess_frame_time. cbn.
  repeat (case_match; simplify_eq; cbn in *; try done).
Qed.

Lemma init_chan_ok c : exists c', ptsrec_init_chan c = Some c' /\ chan_ok c'.
Proof.
  unfold ptsrec_init_chan.
  match goal with |- context [reset_detector ?x] =>
    destruct (reset_detector_ok x) as (c' & -> & Hc') end.
  cbn. eexists. split; [done|]. left. cbn. by rewrite Hc'.
Qed.

Lemma init_ok t :
  length t = 16%nat -> exists t', OMX_PTSREC_Init t = Some (t', HI_SUCCESS) /\ table_ok t'.
Proof.
  intros Hl. unfold OMX_PTSREC_Init.
  assert (exists t', mapM ptsrec_init_chan t = Some t' /\ length t' = length t /\
          Forall chan_ok t') as (t' & -> & Hl' & Ht').
  { clear Hl. induction t as [|c t (t' & IH & Hl & Ht)]; cbn; [by exists []|].
    destruct (init_chan_ok c) as (c' & -> & Hc). cbn. rewrite IH. cbn.
    exists (c' :: t'). split_and!; [done|cbn; congruence|by constructor]. }
  cbn. exists t'. split; [done|]. split; [lia|done].
Qed.

Lemma free_ok t h :
  table_ok t -> 0 <= h -> exists t' r, OMX_PTSREC_Free t h = Some (t', r) /\ table_ok t'.
Proof.
  intros Ht Hh. unfold OMX_PTSREC_Free, PTS_REC_MAX_NUM.
  destruct (Z.geb_spec h 16); [by eexists _, _|].
  edestruct (on_chan_ok t h) as (t' & Hr & Ht'); [done|lia| |rewrite Hr; cbn; by eexists _, _].
  intros c Hc. eexists. by split.
Qed.

Lemma deinit_from_ok n : forall t i,
  table_ok t -> 0 <= i -> i + Z.of_nat n <= 16 ->
  exists t' r, ptsrec_deinit_from n t i = Some (t', r) /\ table_ok t'.
Proof.
  induction n as [|n IH]; intros t i Ht Hi Hn; cbn [ptsrec_deinit_from]; [by eexists _, _|].
  destruct (table_get t i Ht ltac:(lia)) as (c & -> & Hc). cbn.
  case_match; [|apply IH; [done|lia|lia]].
  destruct (free_ok t i Ht Hi) as (t' & r & -> & Ht'). cbn. by eexists _, _.
Qed.

(** The guards of the handle checks, one channel read, one update. *)
Ltac guarded Ht :=
  match goal with
  | |- context [?h >=? PTS_REC_MAX_NUM] =>
      destruct (Z.geb_spec h PTS_REC_MAX_NUM) as [|Hh]; [by eexists _, _|];
      unfold PTS_REC_MAX_NUM in Hh;
      destruct (table_get _ h Ht ltac:(lia)) as (? & -> & ?); cbn
  end.

Ltac updated :=
  match goal with
  | |- context [on_chan ?t ?h ?f] =>
      let Hr := fresh "Hr" in
      edestruct (on_chan_ok t h f) as (? & Hr & ?);
      [done|lia| |rewrite Hr; cbn; try by eexists _, _]
  end.

Lemma alloc_ok t h :
  table_ok t -> 0 <= h -> exists t' r, OMX_PTSREC_Alloc t h = Some (t', r) /\ table_ok t'.
Proof.
  intros Ht H0. unfold OMX_PTSREC_Alloc. guarded Ht. case_match; [by eexists _, _|].
  updated. intros c' Hc'.
  match goal with |- context [reset_detector ?x] =>
    destruct (reset_detector_ok x) as (c2 & -> & Hc2) end.
  eexists. split; [done|]. left. by rewrite Hc2.
Qed.

Lemma start_ok t h :
  table_ok t -> 0 <= h -> exists t' r, OMX_PTSREC_Start t h = Some (t', r) /\ table_ok t'.
Proof.
  intros Ht H0. unfold OMX_PTSREC_Start. guarded Ht. case_match; [by eexists _, _|].
  updated. intros c' Hc'. eexists. by split.
Qed.

Lemma stop_ok t h :
  table_ok t -> 0 <= h -> exists t' r, OMX_PTSREC_Stop t h = Some (t', r) /\ table_ok t'.
Proof.
  intros Ht H0. unfold OMX_PTSREC_Stop. guarded Ht. case_match; [by eexists _, _|].
  updated. intros c' Hc'. eexists. by split.
Qed.

Lemma reset_ok t h :
  table_ok t -> 0 <= h -> exists t' r, OMX_PTSREC_Reset t h = Some (t', r) /\ table_ok t'.
Proof.
  intros Ht H0. unfold OMX_PTSREC_Reset. guarded Ht.
  case_match; [by eexists _, _|]. case_match; [by eexists _, _|].
  updated. intros c' Hc'.
  destruct (reset_detector_ok (PTSREC_InitParam c')) as (c2 & -> & Hc2).
  eexists. split; [done|]. unfold chan_ok. by rewrite Hc2.
Qed.

Lemma frame_time_range v : 1 <= v <= 60000 -> 16666 <= 1000000000 / v <= 1000000000.
Proof.
  intros Hv. split.
  - apply Z.div_le_lower_bound; lia.
  - apply Z.div_le_upper_bound; lia.
Qed.

Lemma frame_time_inverse v :
  1 <= v <= 60000 ->
  v <= 1000000000 / (1000000000 / v) <= v + 3 /\
  (v <= 31622 -> 1000000000 / (1000000000 / v) = v).
Proof.
  intros Hr. pose proof (frame_time_range v Hr) as Hft.
  pose proof (Z.mod_pos_bound 1000000000 v ltac:(lia)) as Hm.
  pose proof (Z.div_mod 1000000000 v ltac:(lia)) as Hdm.
  assert (v <= 31622 -> 31623 <= 1000000000 / v) as Hq
    by (intros; apply Z.div_le_lower_bound; lia).
  set (q := 1000000000 / v) in *. set (m := 1000000000 mod v) in *. clearbody q m.
  rewrite Hdm, Z.div_add_l by lia. split.
  - assert (0 <= m / q) by (apply Z.div_pos; lia).
    assert (m / q < 4) by (apply Z.div_lt_upper_bound; lia). lia.
  - intros Hv. rewrite (Z.div_small m) by lia. lia.
Qed.

Lemma set_frm_rate_ok t h fr :
  table_ok t -> 0 <= h -> exists t' r, OMX_PTSREC_SetFrmRate t h fr = Some (t', r) /\ table_ok t'.
Proof.
  intros Ht H0. unfold OMX_PTSREC_SetFrmRate, PTS_REC_MAX_FRAMERATE. guarded Ht.
  case_match; [by eexists _, _|].
  updated; [intros c' Hc'; eexists; by split|].
  pose proof (u32_range (u32 (u32fpsInteger fr * 1000) + u32fpsDecimal fr)) as Hv.
  set (v := u32 _) in *. unfold is_u32 in Hv.
  case_match.
  - destruct ((v >? 60 * 1000) || (0 =? v)) eqn:Hb; [by eexists _, _|].
    updated. intros c' Hc'. eexists. split; [done|]. right. apply frame_time_range. lia.
  - updated. intros c' Hc'. eexists. split; [done|]. left. cbn.
    by rewrite (hi_time_max (HiConstsOk := Ok)).
Qed.

Lemma get_frm_rate_ok t h fr :
  table_ok t -> 0 <= h -> exists fr' r, OMX_PTSREC_GetFrmRate t h fr = Some (fr', r).
Proof.
  intros Ht H0. unfold OMX_PTSREC_GetFrmRate. guarded Ht. case_match; [by eexists _, _|].
  destruct (Z.eqb_spec (u32SetFrameTime x) HI_INVALID_TIME) as [|Hne]; cbn; [by eexists _, _|].
  destruct H as [|H]; [done|]. zfalse (u32SetFrameTime x =? 0). by eexists _, _.
Qed.

Lemma calc_stamp_keeps t h img t' img' v :
  table_ok t -> 0 <= h -> OMX_PTSREC_CalcStamp t h img = Some (t', img', v) -> table_ok t'.
Proof.
  intros Ht H0. unfold OMX_PTSREC_CalcStamp.
  destruct (Z.geb_spec h PTS_REC_MAX_NUM) as [|Hh]; [by intros [= <- <- <-]|].
  unfold PTS_REC_MAX_NUM in Hh.
  destruct (table_get t h Ht ltac:(lia)) as (c & -> & Hc). cbn.
  case_match; [by intros [= <- <- <-]|].
  pose proof (recover_pts_set c img) as Hs.
  destruct (recover_pts c img) as [[c1 img1] v1]. cbn in *.
  destruct (PTSREC_FrameRateDetect c1 img1) as [[c2 img2]|] eqn:Hd; cbn; [|done].
  assert (chan_ok c2) as Hc2.
  { revert Hd. unfold PTSREC_FrameRateDetect. case_match.
    - destruct (OMX_OPTM_ALG_FrameRateDetect _ _) as [[? ?]|]; cbn; [|done].
      intros [= <- <-]. unfold chan_ok. cbn. by rewrite Hs.
    - intros [= <- <-]. unfold chan_ok. by rewrite Hs. }
  destruct (table_set t h c2 Ht ltac:(lia) Hc2) as (t2 & -> & Ht2). cbn.
  by intros [= <- <- <-].
Qed.

Lemma reachable_ok t : ptsrec_reachable t -> table_ok t.
Proof.
  induction 1 as [t0 t r Hl Hi|t t' r _ IH Hd|call t t' h _ IH Hh He].
  - destruct (init_ok t0 Hl) as (t1 & Ht1 & Hok). rewrite Ht1 in Hi. by simplify_eq.
  - destruct (deinit_from_ok 16 t 0 IH) as (t1 & r1 & Ht1 & Hok); [lia|lia|].
    unfold OMX_PTSREC_DeInit in Hd. change (Z.to_nat PTS_REC_MAX_NUM) with 16%nat in Hd.
    rewrite Ht1 in Hd. by simplify_eq.
  - destruct Hh as [H0 _]. destruct call; cbn in He.
    + destruct (free_ok t h IH H0) as (? & ? & Hr & ?). rewrite Hr in He. by simplify_eq/=.
    + destruct (alloc_ok t h IH H0) as (? & ? & Hr & ?). rewrite Hr in He. by simplify_eq/=.
    + destruct (start_ok t h IH H0) as (? & ? & Hr & ?). rewrite Hr in He. by simplify_eq/=.
    + destruct (stop_ok t h IH H0) as (? & ? & Hr & ?). rewrite Hr in He. by simplify_eq/=.
    + destruct (reset_ok t h IH H0) as (? & ? & Hr & ?). rewrite Hr in He. by simplify_eq/=.
    + destruct (set_frm_rate_ok t h fr IH H0) as (? & ? & Hr & ?). rewrite Hr in He. by simplify_eq/=.
    + destruct (OMX_PTSREC_CalcStamp t h img) as [[[t1 i1] v1]|] eqn:Hc; [|done].
      simplify_eq/=. by eapply calc_stamp_keeps.
Qed.
End Invariant.

(** ** A stream with a constant frame interval *)

Section Stream.
Context {C : HiConsts} {Ok : HiConstsOk C}.
Context (d : Z) (Hd : 12 <= d <= 10000).
Implicit Types (c : PTSREC_CHAN_INFO_S) (img : IMAGE) (present : list bool).

(** Decoding a list of frames on one channel: the stamp and the rate of each. *)
Fixpoint calc_run (t : chan_table) (h : Z) (imgs : list IMAGE)
    : option (chan_table * list (Z * Z)) :=
  match imgs with
  | [] => Some (t, [])
  | img :: imgs =>
      '(t, img, v) ← OMX_PTSREC_CalcStamp t h img;
      '(t, rs) ← calc_run t h imgs;
      Some (t, (v, img.(frame_rate)) :: rs)
  end.

(** Frames [d] ms apart from stamp [t] on; only some carry a stamp. *)
Fixpoint frames (img : IMAGE) (t : Z) present : list IMAGE :=
  match present with
  | [] => []
  | b :: present =>
      img <| SrcPts := if b : bool then t else HI_INVALID_PTS |> :: frames img (t + d) present
  end.

(** No run of frames without a stamp is so long that its duration in
    microseconds leaves 32 bits; [gap] frames have passed already. *)
Fixpoint gaps_within (gap : Z) present : bool :=
  match present with
  | [] => true
  | true :: present => gaps_within 0 present
  | false :: present => (1000 * d * (gap + 1) <? 4294967296) && gaps_within (gap + 1) present
  end.

(** The channel after [k] frames, the stamp of the last being [t]; [gap]
    frames ago a frame carried its stamp. *)
Definition synced (k gap t : Z) c : Prop :=
  c.(enFrmRateType) = HI_FRMRATE_TYPE_PTS /\ c.(u32FrameNum) = k /\
  0 <= gap < k /\ c.(u32LastSrcFrmIdx) = k - gap /\ c.(u32LastSrcPts) = t - d * gap /\
  c.(u32CalcFrameTime) = 1000 * d /\ d * (k - 1) <= t.

Lemma frame_time_exact n : 1 <= n -> d * n <= 120000 -> (d * n *u 1000) / n = 1000 * d.
Proof.
  intros Hn Hb. rewrite u32_small by (unfold is_u32; nia).
  replace (d * n * 1000) with (1000 * d * n) by lia. by rewrite Z.div_mul by lia.
Qed.

Lemma update_frame_time_synced c n :
  c.(u32CalcFrameTime) = 1000 * d \/ c.(u32CalcFrameTime) = HI_INVALID_TIME ->
  1 <= n -> d * n <= 120000 ->
  let q := update_frame_time c (d * n) n in
  q.(u32CalcFrameTime) = 1000 * d /\ q.(enFrmRateType) = c.(enFrmRateType) /\
  q.(u32FrameNum) = c.(u32FrameNum) /\ q.(stPtsInfo) = c.(stPtsInfo) /\
  q.(enStatus) = c.(enStatus).
Proof.
  intros Hc Hn Hb. unfold update_frame_time. rewrite frame_time_exact by done.
  repeat (case_match; cbn; try done);
    (destruct Hc as [Hc|Hc]; [done|]; by rewrite Hc, Z.eqb_refl in *).
Qed.

(** One frame of the stream gets its exact stamp, with or without its own. *)
Lemma recover_synced k gap t c img b :
  synced k gap t c -> 1 <= gap + 1 -> t + d < HI_INVALID_PTS ->
  (b = false -> 1000 * d * (gap + 1) < 4294967296) ->
  img.(SrcPts) = (if b : bool then t + d else HI_INVALID_PTS) ->
  exists c' img', recover_pts c img = (c', img', t + d) /\
    synced (k + 1) (if b then 0 else gap + 1) (t + d) c' /\
    c'.(stPtsInfo) = c.(stPtsInfo) /\ c'.(enStatus) = c.(enStatus) /\
    img'.(PTS) = t + d /\ img'.(Rwzb) = img.(Rwzb).
Proof.
  intros (Hty & Hk & Hg & Hi & Hl & Hc & Ht) _ Htd Hgap Hs.
  pose proof (hi_pts_u32 (HiConstsOk := Ok)) as HP.
  assert (HI_INVALID_PTS < 4294967296) as HP' by apply HP.
  assert (k + 1 < 4294967296) by nia. assert (0 <= t - d * gap) by nia.
  unfold recover_pts. cbn. rewrite Hk, Hi, Hs, Hl.
  zfalse (HI_INVALID_PTS =? t - d * gap). cbn.
  rewrite (u32_small (k + 1)) by (unfold is_u32; lia).
  replace (k + 1 - (k - gap)) with (gap + 1) by lia.
  rewrite (u32_small (gap + 1)) by (unfold is_u32; lia).
  destruct b.
  - rewrite (u32_small (t + d)) by (unfold is_u32; lia).
    zfalse (HI_INVALID_PTS =? t + d). cbn. unfold take_src_pts. cbn. rewrite Hl.
    zfalse (HI_INVALID_PTS =? t - d * gap). cbn.
    ztrue (t + d >=? t - d * gap). zfalse (gap + 1 =? 0). cbn.
    replace (t + d - (t - d * gap)) with (d * (gap + 1)) by lia.
    rewrite (u32_small (d * (gap + 1))) by (unfold is_u32; nia).
    unfold PTS_MAX_PASSTIME.
    destruct (Z.leb_spec (d * (gap + 1)) (120 * 1000)).
    + match goal with |- context [update_frame_time ?x _ _] =>
        destruct (update_frame_time_synced x (gap + 1)) as (E1 & E2 & E3 & E4 & E5);
        [by left|lia|lia|] end.
      eexists _, _. split; [done|]. unfold synced. cbn. rewrite E1, E2, E3, E4, E5. cbn.
      split_and!; try done; lia.
    + eexists _, _. split; [done|]. unfold synced. cbn. split_and!; try done; lia.
  - rewrite (u32_small HI_INVALID_PTS) by done. rewrite Z.eqb_refl. cbn.
    unfold extrapolate_pts. cbn. rewrite Hl. zfalse (HI_INVALID_PTS =? t - d * gap). cbn.
    unfold choose_frame_time. cbn. rewrite Hty. rewrite bool_decide_false by done.
    rewrite Hc, (hi_time_max (HiConstsOk := Ok)). zfalse (4294967295 =? 1000 * d). cbn.
    specialize (Hgap eq_refl).
    rewrite Hl, (u32_small (1000 * d * (gap + 1))) by (unfold is_u32; nia).
    replace (1000 * d * (gap + 1)) with (d * (gap + 1) * 1000) by lia.
    rewrite Z.div_mul by lia.
    rewrite u32_small by (unfold is_u32; nia).
    replace (t - d * gap + d * (gap + 1)) with (t + d) by lia.
    eexists _, _. split; [done|]. unfold synced. cbn. split_and!; try done; lia.
Qed.

(** A started channel after [k] frames of the stream. *)
Definition live (k gap t : Z) c : Prop :=
  synced k gap t c /\ c.(enStatus) = PTSREC_CHAN_START /\ tracking d k c.(stPtsInfo) t.

(** The rate written into a frame once the detector has locked. *)
Definition steady_rate : Z := (20000 + d) / (2 * d) * 1024 / 10.

Lemma detect_live c img v (k : Z) p :
  c.(enFrmRateType) = HI_FRMRATE_TYPE_PTS -> img.(Rwzb) <= 0 -> is_u32 img.(PTS) ->
  OMX_OPTM_ALG_FrameRateDetect c.(stPtsInfo) img.(PTS) = Some (p, v) ->
  PTSREC_FrameRateDetect c img =
    Some (c <| stPtsInfo := p |>, img <| frame_rate := (v *u 1024) / 10 |>).
Proof.
  intros Hty Hz Hp Hd'. unfold PTSREC_FrameRateDetect. rewrite Hty.
  rewrite !bool_decide_false by done. zfalse (Rwzb img >? 0). cbn.
  by rewrite u32_small, Hd' by done.
Qed.

(** Recovering and detecting on a channel, stored back into the table. *)
Lemma calc_stamp_eq t h c img c1 img1 v c2 img2 :
  arr_get t h = Some c -> h < 16 -> c.(enStatus) = PTSREC_CHAN_START ->
  recover_pts c img = (c1, img1, v) -> PTSREC_FrameRateDetect c1 img1 = Some (c2, img2) ->
  OMX_PTSREC_CalcStamp t h img = Some (<[Z.to_nat h := c2]> t, img2, v).
Proof.
  intros Hc Hh Hs Hr Hf. unfold OMX_PTSREC_CalcStamp.
  unfold PTS_REC_MAX_NUM. zfalse (h >=? 16). rewrite Hc. cbn. rewrite Hs. cbn.
  rewrite Hr, Hf. cbn. by rewrite arr_set_in by by apply arr_get_Some in Hc.
Qed.

Lemma calc_live tbl h c k gap t img b :
  arr_get tbl h = Some c -> h < 16 -> live k gap t c -> img.(Rwzb) <= 0 ->
  t + d < HI_INVALID_PTS -> (b = false -> 1000 * d * (gap + 1) < 4294967296) ->
  img.(SrcPts) = (if b : bool then t + d else HI_INVALID_PTS) ->
  exists tbl' c' img', OMX_PTSREC_CalcStamp tbl h img = Some (tbl', img', t + d) /\
    arr_get tbl' h = Some c' /\ live (k + 1) (if b then 0 else gap + 1) (t + d) c' /\
    (4 <= k -> img'.(frame_rate) = steady_rate).
Proof.
  intros Hc Hh (Hsy & Hst & Htr) Hz Ht Hg Hs.
  pose proof Hsy as (_ & _ & Hgk & _ & _ & _ & Hlow).
  destruct (recover_synced k gap t c img b) as (c1 & img1 & Hr & Hsy1 & Hpi & Hes & HP & HR);
    [done|lia|done|done|done|].
  destruct (detect_tracking d Hd k _ t ltac:(lia) Htr Ht) as (p & v & Hdet & Htr' & Hv).
  rewrite <- Hpi in Hdet.
  pose proof (hi_pts_u32 (HiConstsOk := Ok)) as [_ HPu].
  assert (is_u32 img1.(PTS)) as Hu by (rewrite HP; unfold is_u32; nia).
  pose proof Hsy1 as (Hty & _). rewrite <- HP in Hdet.
  rewrite <- HR in Hz.
  pose proof (detect_live c1 img1 v k p Hty Hz Hu Hdet) as Hfd.
  assert (0 <= h) by (apply arr_get_Some in Hc; lia).
  eexists _, _, _. split_and!.
  - by eapply calc_stamp_eq.
  - apply arr_get_set_eq. by apply arr_get_Some in Hc.
  - split_and!; [done|by rewrite <- Hst|done].
  - cbn. intros H4. rewrite (Hv H4). rewrite rate_of_interval_ms by done.
    pose proof (rate_pos d Hd) as Hrp. rewrite rate_of_interval_ms in Hrp by done.
    by rewrite u32_small by (unfold is_u32; lia).
Qed.

Lemma run_live img h present : forall tbl c k gap t,
  arr_get tbl h = Some c -> h < 16 -> live k gap t c -> img.(Rwzb) <= 0 ->
  t + d * Z.of_nat (length present) < HI_INVALID_PTS -> gaps_within gap present = true ->
  exists tbl' rs, calc_run tbl h (frames img (t + d) present) = Some (tbl', rs) /\
    map fst rs = stamps d (t + d) (length present) /\
    forall i v, rs !! i = Some v -> 4 <= k + Z.of_nat i -> v.2 = steady_rate.
Proof.
  induction present as [|b present IH]; intros tbl c k gap t Hc Hh Hl Hz Ht Hg;
    cbn [frames calc_run length stamps]; [by exists tbl, []|].
  cbn [length] in Ht.
  assert ((b = false -> 1000 * d * (gap + 1) < 4294967296) /\
          gaps_within (if b then 0 else gap + 1) present = true) as [Hg1 Hg2].
  { cbn in Hg. destruct b; [by split|]. apply andb_prop in Hg as [? ?]. split; [lia|done]. }
  set (im := img <| SrcPts := _ |>).
  destruct (calc_live tbl h c k gap t im b) as (tbl' & c' & img' & Hr & Hc' & Hl' & Hfr);
    [done|done|done|done|nia|done|done|].
  rewrite Hr. cbn.
  destruct (IH tbl' c' (k + 1) _ (t + d) Hc' Hh Hl' Hz ltac:(nia) Hg2)
    as (tbl2 & rs & -> & Hrs & Hv). cbn.
  eexists _, _. split; [done|]. split; [cbn; by rewrite Hrs|].
  intros [|i] v Hi H4; cbn in Hi; [simplify_eq/=; apply Hfr; lia|].
  apply (Hv i v Hi). lia.
Qed.

(** A freshly started channel. *)
Definition started c : Prop :=
  c.(enStatus) = PTSREC_CHAN_START /\ c.(enFrmRateType) = HI_FRMRATE_TYPE_PTS /\
  c.(u32FrameNum) = 0 /\ c.(u32LastSrcPts) = HI_INVALID_PTS /\
  c.(u32CalcFrameTime) = HI_INVALID_TIME /\
  arr_get c.(stPtsInfo).(InPTSSqn) 0 = Some HI_INVALID_PTS.

Lemma alloc_start t h c :
  arr_get t h = Some c -> h < 16 -> c.(enStatus) = PTSREC_CHAN_INITED ->
  c.(enFrmRateType) = HI_FRMRATE_TYPE_PTS ->
  exists t1 t2 c2, OMX_PTSREC_Alloc t h = Some (t1, HI_SUCCESS) /\
    OMX_PTSREC_Start t1 h = Some (t2, HI_SUCCESS) /\
    arr_get t2 h = Some c2 /\ started c2.
Proof.
  intros Hc Hh Hs Hty. pose proof (arr_get_Some _ _ _ Hc) as Hr.
  unfold OMX_PTSREC_Alloc, OMX_PTSREC_Start, on_chan, PTS_REC_MAX_NUM.
  zfalse (h >=? 16). rewrite Hc. cbn. rewrite Hs. cbn.
  unfold reset_detector.
  match goal with |- context [OMX_OPTM_ALG_FrdInfo_Reset ?x 0] =>
    destruct (reset_all x) as (p & -> & HS & _) end.
  cbn. rewrite arr_set_in by done. cbn. eexists _, _, _. split; [done|].
  rewrite arr_get_set_eq by done. cbn. rewrite arr_set_in by by rewrite length_insert. cbn.
  split; [done|]. rewrite arr_get_set_eq by by rewrite length_insert.
  split; [done|]. unfold started. cbn. rewrite HS. by split_and!.
Qed.

Lemma recover_first c img t :
  started c -> 0 <= t < HI_INVALID_PTS -> img.(SrcPts) = t ->
  exists c' img', recover_pts c img = (c', img', t) /\
    c'.(u32FrameNum) = 1 /\ c'.(u32LastSrcPts) = t /\ c'.(u32LastSrcFrmIdx) = 1 /\
    c'.(u32CalcFrameTime) = HI_INVALID_TIME /\ c'.(enFrmRateType) = HI_FRMRATE_TYPE_PTS /\
    c'.(enStatus) = PTSREC_CHAN_START /\ c'.(stPtsInfo) = c.(stPtsInfo) /\
    img'.(PTS) = t /\ img'.(Rwzb) = img.(Rwzb).
Proof.
  intros (Hs & Hty & Hn & Hl & Hc & _) Ht Hi. unfold recover_pts. cbn.
  pose proof (hi_pts_u32 (HiConstsOk := Ok)) as HP. unfold is_u32 in HP.
  rewrite Hn, Hl, Hi, Z.eqb_refl. cbn. change (u32 1) with 1.
  rewrite (u32_small t) by (unfold is_u32; lia). zfalse (HI_INVALID_PTS =? t). cbn.
  unfold take_src_pts. cbn. rewrite Hl, Z.eqb_refl. cbn.
  eexists _, _. split; [done|]. cbn. by split_and!.
Qed.

Lemma recover_second c img t :
  c.(u32FrameNum) = 1 -> c.(u32LastSrcPts) = t -> c.(u32LastSrcFrmIdx) = 1 ->
  c.(u32CalcFrameTime) = HI_INVALID_TIME -> c.(enFrmRateType) = HI_FRMRATE_TYPE_PTS ->
  c.(enStatus) = PTSREC_CHAN_START ->
  0 <= t -> t + d < HI_INVALID_PTS -> img.(SrcPts) = t + d ->
  exists c' img', recover_pts c img = (c', img', t + d) /\ synced 2 0 (t + d) c' /\
    c'.(enStatus) = PTSREC_CHAN_START /\ c'.(stPtsInfo) = c.(stPtsInfo) /\
    img'.(PTS) = t + d /\ img'.(Rwzb) = img.(Rwzb).
Proof.
  intros Hn Hl Hx Hc Hty Hs H0 Ht Hi. unfold recover_pts. cbn.
  pose proof (hi_pts_u32 (HiConstsOk := Ok)) as HP. unfold is_u32 in HP.
  rewrite Hn, Hl, Hi, Hx. change (u32 (1 + 1)) with 2. zfalse (HI_INVALID_PTS =? t). cbn.
  rewrite (u32_small (t + d)) by (unfold is_u32; lia). zfalse (HI_INVALID_PTS =? t + d). cbn.
  unfold take_src_pts. cbn. rewrite Hl. zfalse (HI_INVALID_PTS =? t). cbn.
  ztrue (t + d >=? t). replace (t + d - t) with (d * 1) by lia. change (2 -u 1) with 1.
  cbn. rewrite (u32_small (d * 1)) by (unfold is_u32; lia).
  unfold PTS_MAX_PASSTIME. ztrue (d * 1 <=? 120 * 1000).
  match goal with |- context [update_frame_time ?x _ _] =>
    destruct (update_frame_time_synced x 1) as (E1 & E2 & E3 & E4 & E5);
    [by right|lia|lia|] end.
  eexists _, _. split; [done|]. unfold synced. cbn. rewrite E1, E2, E3, E4, E5. cbn.
  split_and!; try done; lia.
Qed.

(** The first two frames synchronise the channel. *)
Lemma run_start tbl h c img t :
  arr_get tbl h = Some c -> h < 16 -> started c -> img.(Rwzb) <= 0 ->
  0 <= t -> t + d < HI_INVALID_PTS ->
  exists tbl1 img1 tbl2 img2 c2,
    OMX_PTSREC_CalcStamp tbl h (img <| SrcPts := t |>) = Some (tbl1, img1, t) /\
    OMX_PTSREC_CalcStamp tbl1 h (img <| SrcPts := t + d |>) = Some (tbl2, img2, t + d) /\
    arr_get tbl2 h = Some c2 /\ live 2 0 (t + d) c2.
Proof.
  intros Hc Hh Hst Hz H0 Ht.
  pose proof (hi_pts_u32 (HiConstsOk := Ok)) as [_ HPu].
  pose proof (arr_get_Some _ _ _ Hc) as Hr.
  destruct (recover_first c (img <| SrcPts := t |>) t) as 
    (c1 & i1 & Hrec & E1 & E2 & E3 & E4 & E5 & E6 & E7 & E8 & E9); [done|lia|done|].
  pose proof Hst as (Hss & _ & _ & _ & _ & Hbl).
  destruct (detect_first d c.(stPtsInfo) t Hbl ltac:(lia)) as (p & v & Hdet & Htr).
  rewrite <- E7, <- E8 in Hdet.
  assert (is_u32 i1.(PTS)) as Hu1 by (rewrite E8; unfold is_u32; lia).
  assert (i1.(Rwzb) <= 0) as Hz1 by by rewrite E9.
  pose proof (detect_live c1 i1 v 1 p E5 Hz1 Hu1 Hdet) as Hfd.
  pose proof (calc_stamp_eq _ _ _ _ _ _ _ _ _ Hc Hh Hss Hrec Hfd) as Hc1.
  set (c1' := c1 <| stPtsInfo := p |>) in *.
  destruct (recover_second c1' (img <| SrcPts := t + d |>) t) as
    (c2 & i2 & Hrec2 & Hsy & F1 & F2 & F3 & F4); try done.
  destruct (detect_tracking d Hd 1 p t ltac:(lia) Htr Ht) as (p2 & v2 & Hdet2 & Htr2 & _).
  assert (c2.(stPtsInfo) = p) as Hp2 by by rewrite F2.
  rewrite <- Hp2, <- F3 in Hdet2.
  pose proof Hsy as (Hty2 & _).
  assert (is_u32 i2.(PTS)) as Hu2 by (rewrite F3; unfold is_u32; lia).
  assert (i2.(Rwzb) <= 0) as Hz2 by by rewrite F4.
  pose proof (detect_live c2 i2 v2 2 p2 Hty2 Hz2 Hu2 Hdet2) as Hfd2.
  assert (arr_get (<[Z.to_nat h:=c1']> tbl) h = Some c1') as Hc1' by by apply arr_get_set_eq.
  pose proof (calc_stamp_eq _ _ _ _ _ _ _ _ _ Hc1' Hh E6 Hrec2 Hfd2) as Hc2.
  eexists _, _, _, _, _. split; [exact Hc1|]. split; [exact Hc2|]. split.
  - apply arr_get_set_eq. by rewrite length_insert.
  - by split_and!.
Qed.
End Stream.

(** ** Shutting the table down *)

Section Shutdown.
Context {C : HiConsts} {Ok : HiConstsOk C}.
Implicit Types (c : PTSREC_CHAN_INFO_S) (t : chan_table).

Definition in_use c : bool := status_num c.(enStatus) >? status_num PTSREC_CHAN_INITED.

(** The number of channels that are not free. *)
Definition users t : nat := length (filter (fun c => in_use c = true) t).

(** Calling [OMX_PTSREC_DeInit] until it succeeds: the failing calls. *)
Fixpoint deinit_until (fuel : nat) t : option (chan_table * nat) :=
  match fuel with
  | O => None
  | S fuel =>
      '(t, r) ← OMX_PTSREC_DeInit t;
      if r =? HI_SUCCESS then Some (t, O)
      else '(t, n) ← deinit_until fuel t; Some (t, S n)
  end.

Lemma users_app l1 l2 : users (l1 ++ l2) = (users l1 + users l2)%nat.
Proof. unfold users. by rewrite filter_app, length_app. Qed.

Lemma free_middle l1 c l2 :
  length (l1 ++ c :: l2) = 16%nat ->
  OMX_PTSREC_Free (l1 ++ c :: l2) (Z.of_nat (length l1)) =
    Some (l1 ++ c <| enStatus := PTSREC_CHAN_INITED |> :: l2, HI_SUCCESS).
Proof.
  intros Hl. rewrite length_app in Hl. cbn in Hl.
  unfold OMX_PTSREC_Free, PTS_REC_MAX_NUM. zfalse (Z.of_nat (length l1) >=? 16).
  unfold on_chan. rewrite arr_get_nat, list_lookup_middle by done. cbn.
  rewrite arr_set_nat by (rewrite length_app; cbn; lia). cbn.
  by rewrite list_insert_middle.
Qed.

Lemma deinit_scan l2 : forall l1,
  length (l1 ++ l2) = 16%nat -> users l1 = 0%nat ->
  exists t' r, ptsrec_deinit_from (length l2) (l1 ++ l2) (Z.of_nat (length l1)) = Some (t', r) /\
    length t' = 16%nat /\
    if decide (users l2 = 0%nat) then t' = l1 ++ l2 /\ r = HI_SUCCESS
    else users l2 = S (users t') /\ r = HI_FAILURE.
Proof.
  induction l2 as [|c l2 IH]; intros l1 Hl H1; cbn [ptsrec_deinit_from length].
  - eexists _, _. split; [done|]. by split.
  - rewrite arr_get_nat, list_lookup_middle by done. cbn [mbind option_bind].
    assert (users (c :: l2) = ((if in_use c then 1 else 0) + users l2)%nat) as Hu.
    { unfold users. rewrite filter_cons. by destruct (in_use c). }
    unfold in_use in Hu. destruct (status_num c.(enStatus) >? status_num PTSREC_CHAN_INITED) eqn:Hc.
    + rewrite free_middle by done. cbn [mbind option_bind]. eexists _, _. split; [done|].
      assert (users (l1 ++ c <| enStatus := PTSREC_CHAN_INITED |> :: l2) = users l2) as Hf.
      { rewrite users_app, H1. unfold users. by rewrite filter_cons. }
      split; [by rewrite length_app in *|]. rewrite decide_False by lia. by rewrite Hf.
    + assert (users (l1 ++ [c]) = 0%nat) as H1'.
      { rewrite users_app, H1. unfold users, in_use. rewrite filter_cons. by rewrite Hc. }
      specialize (IH (l1 ++ [c])). rewrite <- app_assoc in IH.
      destruct (IH Hl H1') as (t' & r & Hr & Hl' & Hres).
      exists t', r. rewrite length_app in Hr. cbn in Hr.
      replace (Z.of_nat (length l1) + 1) with (Z.of_nat (length l1 + 1)) by lia.
      split; [done|]. split; [done|]. by rewrite Hu.
Qed.

Lemma deinit_once t :
  length t = 16%nat ->
  exists t' r, OMX_PTSREC_DeInit t = Some (t', r) /\ length t' = 16%nat /\
    if decide (users t = 0%nat) then t' = t /\ r = HI_SUCCESS
    else users t = S (users t') /\ r = HI_FAILURE.
Proof.
  intros Hl. destruct (deinit_scan t [] Hl eq_refl) as (t' & r & Hr & Hl' & Hres).
  rewrite Hl in Hr. exists t', r. by split_and!.
Qed.

Lemma deinit_until_users n : forall t fuel,
  length t = 16%nat -> users t = n -> (n < fuel)%nat ->
  exists t', deinit_until fuel t = Some (t', n) /\ users t' = 0%nat /\ length t' = 16%nat.
Proof.
  pose proof (hi_codes_ne (HiConstsOk := Ok)).
  induction n as [|n IH]; intros t [|fuel] Hl Hu Hf; [lia| |lia|]; cbn [deinit_until].
  - destruct (deinit_once t Hl) as (t' & r & -> & _ & Hr).
    rewrite decide_True in Hr by done. destruct Hr as [-> ->]. cbn. rewrite Z.eqb_refl.
    by exists t.
  - destruct (deinit_once t Hl) as (t' & r & -> & Hl' & Hr).
    rewrite decide_False in Hr by lia. destruct Hr as [Hu' ->]. cbn.
    zfalse (HI_FAILURE =? HI_SUCCESS).
    destruct (IH t' fuel Hl' ltac:(lia) ltac:(lia)) as (t2 & -> & ? & ?). cbn. by exists t2.
Qed.

Lemma users_le t : (users t <= length t)%nat.
Proof. unfold users. apply length_filter. Qed.
End Shutdown.

(** ** Properties *)

(** C28: from [OMX_PTSREC_Init] on, whatever the calls and whatever 32-bit
    handles they are given, every life-cycle call is defined (no access outside
    the table, and [OMX_PTSREC_GetFrmRate] never divides by zero). *)
Theorem ptsrec_calls_defined {C : HiConsts} {Ok : HiConstsOk C}
    (t : chan_table) (h : Z) (fr : HI_FRMRATE_PARAM_S) (call : ptsrec_call) :
  ptsrec_reachable t -> is_u32 h ->
  (exists fr' r, OMX_PTSREC_GetFrmRate t h fr = Some (fr', r)) /\
  (exists t' r, OMX_PTSREC_DeInit t = Some (t', r)) /\
  match call with CallCalcStamp _ => True | _ => exists t', ptsrec_exec call t h = Some t' end.
Proof.
  intros Ht%reachable_ok [H0 _]. split_and!; [by apply get_frm_rate_ok| |].
  - destruct (deinit_from_ok 16 t 0 Ht) as (? & ? & ? & _); [lia|lia|]. by eexists _, _.
  - destruct call; cbn; [| | | | | |done].
    + destruct (free_ok t h Ht H0) as (? & ? & -> & _). by eexists.
    + destruct (alloc_ok t h Ht H0) as (? & ? & -> & _). by eexists.
    + destruct (start_ok t h Ht H0) as (? & ? & -> & _). by eexists.
    + destruct (stop_ok t h Ht H0) as (? & ? & -> & _). by eexists.
    + destruct (reset_ok t h Ht H0) as (? & ? & -> & _). by eexists.
    + destruct (set_frm_rate_ok t h fr0 Ht H0) as (? & ? & -> & _). by eexists.
Qed.

(** A freshly initialised table, and a channel of it. *)
Definition init_table : chan_table :=
  let c := mkChan PTSREC_CHAN_INITED 0 0 0 0 0 0 0 0 0 HI_FRMRATE_TYPE_PTS
             (mkFRD [] 0 0 0 0 0 0 0 0 0 0 0 0) in
  default [] (fst <$> OMX_PTSREC_Init (replicate 16 c)).

Definition init_chan : PTSREC_CHAN_INFO_S :=
  default (mkChan PTSREC_CHAN_START 0 0 0 0 0 0 0 0 0 HI_FRMRATE_TYPE_USER
    (mkFRD [] 0 0 0 0 0 0 0 0 0 0 0 0)) (arr_get init_table 3).

Lemma ptsrec_calls_defined_witness :
  let fr := mkFrmRate HI_FRMRATE_TYPE_USER 25 0 in
  (exists fr' r, OMX_PTSREC_GetFrmRate init_table 15 fr = Some (fr', r)) /\
  (exists t' r, OMX_PTSREC_DeInit init_table = Some (t', r)) /\
  exists t', ptsrec_exec (CallSetFrmRate fr) init_table 15 = Some t'.
Proof.
  apply (ptsrec_calls_defined init_table 15 (mkFrmRate HI_FRMRATE_TYPE_USER 25 0)
           (CallSetFrmRate (mkFrmRate HI_FRMRATE_TYPE_USER 25 0))).
  - by eapply (reach_init (replicate 16 (mkChan PTSREC_CHAN_INITED 0 0 0 0 0 0 0 0 0
      HI_FRMRATE_TYPE_PTS (mkFRD [] 0 0 0 0 0 0 0 0 0 0 0 0)))).
  - unfold is_u32. lia.
Defined.

(** C18: on a channel allocated and started afresh, a stream of frames [d] ms
    apart ([d] from 13 to 9999, the rates the comment on the accepting test
    names) whose first two frames carry their stamps is stamped exactly for as
    long as its stamps fit 32 bits, and from the fifth frame on every frame is
    given the rate 10000/d in 1024ths. Any of the later frames may lack its
    stamp, as long as no run of frames without one lasts 2^32 microseconds
    ([gaps_within]; beyond that [extrapolate_jumps_back] applies). *)
Theorem calc_stream_exact {C : HiConsts} {Ok : HiConstsOk C}
    (tbl : chan_table) (h : Z) (c : PTSREC_CHAN_INFO_S) (img : IMAGE) (d t : Z)
    (present : list bool) :
  arr_get tbl h = Some c -> h < 16 -> c.(enStatus) = PTSREC_CHAN_INITED ->
  c.(enFrmRateType) = HI_FRMRATE_TYPE_PTS -> img.(Rwzb) <= 0 ->
  13 <= d <= 9999 -> 0 <= t -> t + d * Z.of_nat (S (length present)) < HI_INVALID_PTS ->
  gaps_within d 0 present = true ->
  exists tbl1 tbl2 tbl3 rs,
    OMX_PTSREC_Alloc tbl h = Some (tbl1, HI_SUCCESS) /\
    OMX_PTSREC_Start tbl1 h = Some (tbl2, HI_SUCCESS) /\
    calc_run tbl2 h (frames d img t (true :: true :: present)) = Some (tbl3, rs) /\
    map fst rs = stamps d t (S (S (length present))) /\
    forall i v, rs !! i = Some v -> (4 <= i)%nat -> v.2 = (20000 + d) / (2 * d) * 1024 / 10.
Proof.
  intros Hc Hh Hs Hty Hz Hd H0 Ht Hg.
  destruct (alloc_start tbl h c Hc Hh Hs Hty) as (t1 & t2 & c2 & Ha & Hb & Hc2 & Hst).
  destruct (run_start d ltac:(lia) t2 h c2 img t Hc2 Hh Hst Hz H0 ltac:(nia))
    as (t3 & i3 & t4 & i4 & c4 & Hr1 & Hr2 & Hc4 & Hl).
  destruct (run_live d ltac:(lia) img h present t4 c4 2 0 (t + d) Hc4 Hh Hl Hz ltac:(nia) Hg)
    as (t5 & rs & Hr & Hrs & Hv).
  exists t1, t2, t5. eexists. cbn [frames calc_run].
  rewrite Hr1. cbn. rewrite Hr2. cbn. rewrite Hr. cbn.
  split_and!; [done..|cbn [stamps map fst]; by rewrite Hrs|].
  intros [|[|i]] v Hi H4; cbn in Hi; [lia|lia|]. apply (Hv i v Hi). lia.
Qed.

Lemma calc_stream_exact_witness :
  exists tbl1 tbl2 tbl3 rs,
    OMX_PTSREC_Alloc init_table 3 = Some (tbl1, HI_SUCCESS) /\
    OMX_PTSREC_Start tbl1 3 = Some (tbl2, HI_SUCCESS) /\
    calc_run tbl2 3 (frames 40 (mkImage 0 0 1920 1080 0 0 0) 5000
      [true; true; false; false; true; false]) = Some (tbl3, rs) /\
    map fst rs = stamps 40 5000 6 /\
    forall i v, rs !! i = Some v -> (4 <= i)%nat -> v.2 = (20000 + 40) / (2 * 40) * 1024 / 10.
Proof.
  apply (calc_stream_exact init_table 3 init_chan (mkImage 0 0 1920 1080 0 0 0) 40 5000
           [false; false; true; false]); try done; by vm_compute.
Defined.

(** The extrapolation multiplies in 32 bits. Without a stamp for so long
    that the elapsed microseconds reach 2^32, a frame is stamped 2^32 us
    too early: time jumps back by more than an hour. *)
Theorem extrapolate_jumps_back {C : HiConsts} {Ok : HiConstsOk C}
    (c : PTSREC_CHAN_INFO_S) (img : IMAGE) (ft n : Z) :
  c.(enFrmRateType) <> HI_FRMRATE_TYPE_USER -> c.(u32CalcFrameTime) = ft ->
  1000 <= ft < 4294967295 -> 0 < n -> 4294967296 <= ft * n < 4294967296 + ft ->
  c.(u32LastSrcPts) <> HI_INVALID_PTS -> 0 <= c.(u32LastSrcPts) < 4000000000 ->
  (extrapolate_pts c img n).2 = c.(u32LastSrcPts) + (ft * n - 4294967296) / 1000 /\
  (extrapolate_pts c img n).2 + 4294967 <= (extrapolate_pts c img (n - 1)).2 + 2 * (ft / 1000 + 1).
Proof.
  intros Hty Hc Hft Hn Hw Hl Hlr. unfold extrapolate_pts.
  zfalse (HI_INVALID_PTS =? u32LastSrcPts c). cbn. unfold choose_frame_time.
  rewrite bool_decide_false by done. rewrite Hc, (hi_time_max (HiConstsOk := Ok)).
  zfalse (4294967295 =? ft). cbn.
  assert (u32 (ft * n) = ft * n - 4294967296) as ->.
  { unfold u32. rewrite <- (Z_mod_plus_full _ (-1)), Z.mod_small; lia. }
  rewrite (u32_small (ft * (n - 1))) by (unfold is_u32; nia).
  assert (0 <= (ft * n - 4294967296) / 1000 <= ft / 1000).
  { split; [apply Z.div_pos; lia|]. apply Z.div_le_mono; lia. }
  assert (ft / 1000 < 4294968) by (apply Z.div_lt_upper_bound; lia).
  assert (ft * (n - 1) / 1000 < 4294968) by (apply Z.div_lt_upper_bound; lia).
  assert (4294967 - ft / 1000 - 1 <= ft * (n - 1) / 1000).
  { apply Z.div_le_lower_bound; [lia|]. pose proof (Z.div_mod ft 1000 ltac:(lia)).
    pose proof (Z.mod_pos_bound ft 1000 ltac:(lia)). lia. }
  assert (0 <= ft * (n - 1) / 1000) by (apply Z.div_pos; nia).
  rewrite !u32_small by (unfold is_u32; lia). split; [done|]. lia.
Qed.

Lemma extrapolate_jumps_back_witness :
  let c := mkChan PTSREC_CHAN_START 9000 1 107376 1 40000 40000 HI_INVALID_TIME
             HI_INVALID_TIME 20 HI_FRMRATE_TYPE_PTS (mkFRD [] 0 0 0 0 0 0 0 0 0 0 0 0) in
  let img := mkImage HI_INVALID_PTS 0 720 576 0 0 0 in
  (extrapolate_pts c img 107375).2 = 9000 + (40000 * 107375 - 4294967296) / 1000 /\
  (extrapolate_pts c img 107375).2 + 4294967
    <= (extrapolate_pts c img (107375 - 1)).2 + 2 * (40000 / 1000 + 1).
Proof.
  intros c img. apply (extrapolate_jumps_back c img 40000 107375); cbn; try lia; done.
Defined.

(** A frame rate of [v] thousandths set by a user reads back as at most
    three thousandths more, and exactly up to 31.622 fps. *)
Theorem frm_rate_roundtrip {C : HiConsts} {Ok : HiConstsOk C}
    (t : chan_table) (h : Z) (c : PTSREC_CHAN_INFO_S) (fr fr0 : HI_FRMRATE_PARAM_S) (v : Z) :
  arr_get t h = Some c -> h < 16 -> c.(enStatus) <> PTSREC_CHAN_INITED ->
  fr.(fr_enFrmRateType) = HI_FRMRATE_TYPE_USER ->
  0 <= fr.(u32fpsInteger) -> 0 <= fr.(u32fpsDecimal) ->
  v = 1000 * fr.(u32fpsInteger) + fr.(u32fpsDecimal) -> 1 <= v <= 60000 ->
  exists t' fr',
    OMX_PTSREC_SetFrmRate t h fr = Some (t', HI_SUCCESS) /\
    OMX_PTSREC_GetFrmRate t' h fr0 = Some (fr', HI_SUCCESS) /\
    0 <= fr'.(u32fpsDecimal) < 1000 /\
    v <= 1000 * fr'.(u32fpsInteger) + fr'.(u32fpsDecimal) <= v + 3 /\
    (v <= 31622 -> 1000 * fr'.(u32fpsInteger) + fr'.(u32fpsDecimal) = v).
Proof.
  intros Hc Hh Hs Hty Hi Hd Hv Hr. pose proof (arr_get_Some _ _ _ Hc) as Hhr.
  assert ((status_num c.(enStatus) <? 1) = false) as Hst
    by by destruct (enStatus c).
  pose proof (frame_time_range v Hr) as Hft.
  unfold OMX_PTSREC_SetFrmRate, on_chan, PTS_REC_MAX_NUM, PTS_REC_MAX_FRAMERATE.
  zfalse (h >=? 16). rewrite Hc. cbn. rewrite Hst. rewrite arr_set_in by done. cbn.
  rewrite Hty, bool_decide_true by done. cbn.
  rewrite (u32_small (u32fpsInteger fr * 1000)) by (unfold is_u32; lia).
  rewrite u32_small by (unfold is_u32; lia).
  replace (u32fpsInteger fr * 1000 + u32fpsDecimal fr) with v by lia.
  zfalse ((v >? 60 * 1000) || (0 =? v)). rewrite arr_get_set_eq by done. cbn.
  rewrite arr_set_in by by rewrite length_insert. cbn.
  eexists _, _. split; [done|]. unfold OMX_PTSREC_GetFrmRate, PTS_REC_MAX_NUM.
  zfalse (h >=? 16). rewrite arr_get_set_eq by by rewrite length_insert. cbn.
  rewrite Hst, (hi_time_max (HiConstsOk := Ok)). set (q := 1000000000 / v) in *.
  zfalse (q =? 4294967295). cbn. zfalse (q =? 0). split; [done|]. cbn.
  rewrite <- Z.div_mod by lia. split; [apply Z.mod_pos_bound; lia|].
  by apply frame_time_inverse.
Qed.

Lemma frm_rate_roundtrip_witness :
  let fr := mkFrmRate HI_FRMRATE_TYPE_USER 29 970 in
  let t := [init_chan; init_chan <| enStatus := PTSREC_CHAN_STOP |>] in
  exists t' fr',
    OMX_PTSREC_SetFrmRate t 1 fr = Some (t', HI_SUCCESS) /\
    OMX_PTSREC_GetFrmRate t' 1 fr = Some (fr', HI_SUCCESS) /\
    0 <= fr'.(u32fpsDecimal) < 1000 /\
    29970 <= 1000 * fr'.(u32fpsInteger) + fr'.(u32fpsDecimal) <= 29970 + 3 /\
    (29970 <= 31622 -> 1000 * fr'.(u32fpsInteger) + fr'.(u32fpsDecimal) = 29970).
Proof.
  apply (frm_rate_roundtrip _ 1 (init_chan <| enStatus := PTSREC_CHAN_STOP |>)
           (mkFrmRate HI_FRMRATE_TYPE_USER 29 970)); cbn; try lia; done.
Defined.

(** A rate that is rejected (zero, or above 60 fps after the 32-bit
    sum of its parts) still replaces the rate type of the channel; the set
    frame time is kept. *)
Theorem set_frm_rate_reject {C : HiConsts} {Ok : HiConstsOk C}
    (t : chan_table) (h : Z) (c : PTSREC_CHAN_INFO_S) (fr : HI_FRMRATE_PARAM_S) :
  arr_get t h = Some c -> h < 16 -> c.(enStatus) <> PTSREC_CHAN_INITED ->
  fr.(fr_enFrmRateType) = HI_FRMRATE_TYPE_USER ->
  let v := u32 (u32 (fr.(u32fpsInteger) * 1000) + fr.(u32fpsDecimal)) in
  v = 0 \/ 60000 < v ->
  OMX_PTSREC_SetFrmRate t h fr =
    Some (<[Z.to_nat h := c <| enFrmRateType := HI_FRMRATE_TYPE_USER |>]> t, HI_FAILURE).
Proof.
  intros Hc Hh Hs Hty v Hv. pose proof (arr_get_Some _ _ _ Hc) as Hhr.
  unfold OMX_PTSREC_SetFrmRate, on_chan, PTS_REC_MAX_NUM, PTS_REC_MAX_FRAMERATE.
  zfalse (h >=? 16). rewrite Hc. cbn.
  replace (status_num (enStatus c) <? 1) with false by by destruct (enStatus c).
  rewrite arr_set_in by done. cbn. rewrite Hty, bool_decide_true by done. cbn. fold v.
  by ztrue ((v >? 60 * 1000) || (0 =? v)).
Qed.

Lemma set_frm_rate_reject_witness :
  let c := init_chan <| enStatus := PTSREC_CHAN_STOP |> in
  OMX_PTSREC_SetFrmRate [c] 0 (mkFrmRate HI_FRMRATE_TYPE_USER 61 0) =
    Some ([c <| enFrmRateType := HI_FRMRATE_TYPE_USER |>], HI_FAILURE).
Proof.
  intros c. apply (set_frm_rate_reject [c] 0 c); try done. right. by vm_compute.
Defined.

(** C29: [OMX_PTSREC_DeInit] frees one channel per call and reports a failure
    for it: on a table with [n] channels in use exactly [n] calls fail and the
    next one succeeds, with every channel free. *)
Theorem deinit_terminates {C : HiConsts} {Ok : HiConstsOk C} (t : chan_table) (fuel : nat) :
  length t = Z.to_nat PTS_REC_MAX_NUM -> (16 < fuel)%nat ->
  exists t', deinit_until fuel t = Some (t', users t) /\ users t' = 0%nat /\
    length t' = length t.
Proof.
  intros Hl Hf. pose proof (users_le t). change (Z.to_nat PTS_REC_MAX_NUM) with 16%nat in Hl.
  rewrite Hl. apply deinit_until_users; [done|done|lia].
Qed.

Lemma deinit_terminates_witness :
  let t := replicate 14 init_chan ++ replicate 2 (init_chan <| enStatus := PTSREC_CHAN_START |>) in
  exists t', deinit_until 17 t = Some (t', users t) /\ users t' = 0%nat /\ length t' = length t.
Proof. apply deinit_terminates; [done|lia]. Defined.
