(* ===== verification/KList.v ===== *)
(** * Kernel lists

    The circular doubly linked lists of the kernel ([struct list_head] and its
    macros), in a memory that maps the address of every node to its two
    pointers. A pointer that is null or poisoned is [None]: following it is a
    fault, and every operation that meets one is [None]. [is_list] says that a
    head and a sequence of nodes are linked into a ring; the lemmas relate the
    operations on pointers to operations on the sequence. *)

From S2P Require Import Prelude.

Record list_head (L : Type) := mkHead { next : option L; prev : option L }.
Arguments mkHead {L} _ _.
Arguments next {L} _.
Arguments prev {L} _.

Section KList.
Context {L : Type} `{Countable L}.
Implicit Types (m : gmap L (list_head L)) (a b h p n x y z : L) (l : list L).

Definition set_next m a (v : option L) : option (gmap L (list_head L)) :=
  e ← m !! a; Some (<[a := mkHead v e.(prev)]> m).

Definition set_prev m a (v : option L) : option (gmap L (list_head L)) :=
  e ← m !! a; Some (<[a := mkHead e.(next) v]> m).

Definition INIT_LIST_HEAD m h : option (gmap L (list_head L)) :=
  m ← set_next m h (Some h); set_prev m h (Some h).

Definition list_add_tail m (new head : L) : option (gmap L (list_head L)) :=
  e ← m !! head;
  p ← e.(prev);
  m ← set_prev m head (Some new);
  m ← set_next m new (Some head);
  m ← set_prev m new (Some p);
  set_next m p (Some new).

(** Unlinks an entry and poisons its pointers. *)
Definition list_del m (entry : L) : option (gmap L (list_head L)) :=
  e ← m !! entry;
  p ← e.(prev);
  n ← e.(next);
  m ← set_prev m n (Some p);
  m ← set_next m p (Some n);
  m ← set_next m entry None;
  set_prev m entry None.

Definition list_empty m head : option bool :=
  e ← m !! head; Some (bool_decide (e.(next) = Some head)).

Definition list_next m a : option L := e ← m !! a; e.(next).
Definition list_prev m a : option L := e ← m !! a; e.(prev).

(** [list_for_each_entry] with a test and a break: the first entry from [pos]
    on that passes the test. *)
Fixpoint list_walk (fuel : nat) m head (test : L -> option bool) (pos : L)
    : option (option L) :=
  match fuel with
  | O => None
  | S fuel =>
      if decide (pos = head) then Some None else
      found ← test pos;
      if (found : bool) then Some (Some pos) else
      n ← list_next m pos; list_walk fuel m head test n
  end.

Definition list_find_entry m head (test : L -> option bool) : option (option L) :=
  pos ← list_next m head; list_walk (S (size m)) m head test pos.

(** [list_for_each_entry_safe]: the successor is read before the body runs, so
    the body may unlink the entry. *)
Fixpoint for_each_safe {S : Type} (mem : S -> gmap L (list_head L)) (body : S -> L -> option S)
    (head : L) (fuel : nat) (s : S) (pos n : L) : option S :=
  match fuel with
  | O => None
  | Datatypes.S fuel =>
      if decide (pos = head) then Some s else
      s ← body s pos;
      nn ← list_next (mem s) n;
      for_each_safe mem body head fuel s n nn
  end.

Definition list_for_each_entry_safe {S : Type} (mem : S -> gmap L (list_head L))
    (body : S -> L -> option S) (head : L) (s : S) : option S :=
  pos ← list_next (mem s) head;
  n ← list_next (mem s) pos;
  for_each_safe mem body head (Datatypes.S (size (mem s))) s pos n.

(** ** Rings *)

Definition linked m a b : Prop := list_next m a = Some b /\ list_prev m b = Some a.

Fixpoint seg m a l z : Prop :=
  match l with
  | [] => linked m a z
  | x :: l => linked m a x /\ seg m x l z
  end.

Definition is_list m h l : Prop := NoDup (h :: l) /\ seg m h l h.

Lemma seg_app m a l1 x l2 z :
  seg m a (l1 ++ x :: l2) z <-> seg m a l1 x /\ seg m x l2 z.
Proof.
  revert a. induction l1 as [|y l1 IH]; intros a; simpl; [tauto|]. rewrite IH. tauto.
Qed.

Lemma seg_frame m m' a l z :
  (forall x, x ∈ a :: l -> list_next m' x = list_next m x) ->
  (forall x, x ∈ l ++ [z] -> list_prev m' x = list_prev m x) ->
  seg m a l z -> seg m' a l z.
Proof.
  revert a. induction l as [|y l IH]; intros a Hn Hp; simpl.
  - unfold linked. rewrite Hn, Hp by set_solver. done.
  - intros [[H1 H2] Hs]. split.
    + unfold linked. rewrite Hn, Hp by set_solver. done.
    + apply IH; [intros x Hx; apply Hn; set_solver| |done].
      intros x Hx. apply Hp. set_solver.
Qed.

Lemma is_list_same m m' h l :
  (forall x, x ∈ h :: l -> m' !! x = m !! x) -> is_list m h l -> is_list m' h l.
Proof.
  intros He [Hnd Hs]. split; [done|].
  eapply seg_frame; [| |done]; intros x Hx; unfold list_next, list_prev; rewrite He; set_solver.
Qed.

(** ** Writing a pointer *)

Lemma set_next_ok m a v :
  is_Some (m !! a) ->
  exists m', set_next m a v = Some m' /\ dom m' = dom m
    /\ (forall x, list_next m' x = if decide (x = a) then v else list_next m x)
    /\ (forall x, list_prev m' x = list_prev m x)
    /\ (forall x, x <> a -> m' !! x = m !! x).
Proof.
  intros [e He]. unfold set_next. rewrite He. simpl. eexists. split; [done|].
  split; [rewrite dom_insert_L; apply elem_of_dom_2 in He; set_solver|].
  unfold list_next, list_prev. split_and!; intros x.
  - destruct (decide (x = a)) as [->|]; [by rewrite lookup_insert_eq|by rewrite lookup_insert_ne].
  - destruct (decide (x = a)) as [->|]; [by rewrite lookup_insert_eq, He|].
    by rewrite lookup_insert_ne.
  - intros. by rewrite lookup_insert_ne.
Qed.

Lemma set_prev_ok m a v :
  is_Some (m !! a) ->
  exists m', set_prev m a v = Some m' /\ dom m' = dom m
    /\ (forall x, list_next m' x = list_next m x)
    /\ (forall x, list_prev m' x = if decide (x = a) then v else list_prev m x)
    /\ (forall x, x <> a -> m' !! x = m !! x).
Proof.
  intros [e He]. unfold set_prev. rewrite He. simpl. eexists. split; [done|].
  split; [rewrite dom_insert_L; apply elem_of_dom_2 in He; set_solver|].
  unfold list_next, list_prev. split_and!; intros x.
  - destruct (decide (x = a)) as [->|]; [by rewrite lookup_insert_eq, He|].
    by rewrite lookup_insert_ne.
  - destruct (decide (x = a)) as [->|]; [by rewrite lookup_insert_eq|by rewrite lookup_insert_ne].
  - intros. by rewrite lookup_insert_ne.
Qed.

(** Runs the next pointer write of the goal. *)
Ltac ptr_step :=
  match goal with
  | |- context [set_next ?m ?a ?v] =>
      let m' := fresh "m'" in let E := fresh "E" in let D := fresh "D" in
      let N := fresh "N" in let P := fresh "P" in let F := fresh "F" in
      destruct (set_next_ok m a v) as (m' & E & D & N & P & F);
      [apply elem_of_dom; set_solver|rewrite E; simpl; clear E]
  | |- context [set_prev ?m ?a ?v] =>
      let m' := fresh "m'" in let E := fresh "E" in let D := fresh "D" in
      let N := fresh "N" in let P := fresh "P" in let F := fresh "F" in
      destruct (set_prev_ok m a v) as (m' & E & D & N & P & F);
      [apply elem_of_dom; set_solver|rewrite E; simpl; clear E]
  end.

Lemma linked_dom m a b : linked m a b -> a ∈ dom m /\ b ∈ dom m.
Proof.
  unfold linked, list_next, list_prev. intros [H1 H2]. split; apply elem_of_dom.
  - by destruct (m !! a) eqn:E.
  - by destruct (m !! b) eqn:E.
Qed.

Lemma INIT_LIST_HEAD_ok m h :
  h ∈ dom m ->
  exists m', INIT_LIST_HEAD m h = Some m' /\ dom m' = dom m /\ is_list m' h []
    /\ (forall x, x <> h -> m' !! x = m !! x).
Proof.
  intros Hh. unfold INIT_LIST_HEAD. ptr_step.
  destruct (set_prev_ok m' h (Some h)) as (m2 & -> & D2 & N2 & P2 & F2);
    [apply elem_of_dom; set_solver|].
  exists m2. split; [done|]. split; [congruence|]. split.
  - split; [apply NoDup_singleton|]. split.
    + rewrite N2, N. by rewrite decide_True.
    + rewrite P2. by rewrite decide_True.
  - intros x Hx. rewrite F2, F; done.
Qed.

(** What the writes of [list_add_tail] amount to. *)
Lemma list_add_tail_writes m n h p :
  list_prev m h = Some p -> h ∈ dom m -> n ∈ dom m -> p ∈ dom m ->
  n <> h -> n <> p ->
  exists m', list_add_tail m n h = Some m' /\ dom m' = dom m
    /\ (forall x, list_next m' x =
          if decide (x = p) then Some n else if decide (x = n) then Some h else list_next m x)
    /\ (forall x, list_prev m' x =
          if decide (x = n) then Some p else if decide (x = h) then Some n else list_prev m x)
    /\ (forall x, x <> n -> x <> h -> x <> p -> m' !! x = m !! x).
Proof.
  intros Hp Hh Hn Hpd Hnh Hnp. unfold list_add_tail, list_prev in *.
  destruct (m !! h) as [e|] eqn:Eh; simpl in *; [|done]. rewrite Hp. simpl.
  do 3 ptr_step.
  destruct (set_next_ok m'1 p (Some n)) as (m4 & -> & D4 & N4 & P4 & F4);
    [apply elem_of_dom; set_solver|].
  exists m4. split; [done|]. split; [congruence|]. split_and!.
  - intros x. rewrite N4, N1, N0, N. done.
  - intros x. unfold list_prev in *. rewrite P4, P1, P0, P. done.
  - intros x H1 H2 H3. rewrite F4, F1, F0, F; done.
Qed.

(** The last node before [z] of a segment. *)
Lemma seg_last m a l z :
  seg m a l z ->
  exists p, linked m p z /\ p ∈ a :: l
    /\ ((l = [] /\ p = a) \/ exists l', l = l' ++ [p] /\ seg m a l' p).
Proof.
  destruct l as [|y l _] using rev_ind; simpl.
  - intros Hl. exists a. split_and!; [done|set_solver|by left].
  - rewrite seg_app. intros [H1 H2]. exists y. split_and!; [done|set_solver|].
    right. eauto.
Qed.

Lemma seg_dom m a l z : seg m a l z -> forall x, x ∈ a :: l ++ [z] -> x ∈ dom m.
Proof.
  revert a. induction l as [|y l IH]; intros a; simpl.
  - intros [? ?]%linked_dom. set_solver.
  - intros [[? ?]%linked_dom Hs] x Hx. specialize (IH y Hs x). set_solver.
Qed.

Lemma is_list_dom m h l : is_list m h l -> forall x, x ∈ h :: l -> x ∈ dom m.
Proof. intros [_ Hs] x Hx. eapply seg_dom; [done|]. set_solver. Qed.

Lemma list_add_tail_ok m n h l :
  is_list m h l -> n ∉ h :: l -> n ∈ dom m ->
  exists m', list_add_tail m n h = Some m' /\ dom m' = dom m /\ is_list m' h (l ++ [n])
    /\ (forall x, x ∉ n :: h :: l -> m' !! x = m !! x).
Proof.
  intros Hl Hn Hd. pose proof (is_list_dom m h l Hl) as Hdom. destruct Hl as [Hnd Hs].
  destruct (seg_last _ _ _ _ Hs) as (p & [Hpn Hpp] & Hpi & Hcase).
  destruct (list_add_tail_writes m n h p) as (m' & E & D & N & P & F);
    [done|apply Hdom; set_solver|done|by apply Hdom|set_solver|set_solver|].
  exists m'. split; [done|]. split; [done|]. split; [|intros x Hx; apply F; set_solver].
  split.
  { change (h :: l ++ [n]) with ((h :: l) ++ [n]). apply NoDup_app.
    split_and!; [done|set_solver|apply NoDup_singleton]. }
  apply seg_app. split.
  - destruct Hcase as [[-> ->]|(l' & -> & Hs')]; simpl.
    + split; [rewrite N|rewrite P]; by rewrite decide_True.
    + apply seg_app. split; simpl.
      * rewrite NoDup_cons, NoDup_app in Hnd. destruct Hnd as (Hh & _ & Hlp & _).
        eapply seg_frame; [| |done]; intros x Hx.
        -- rewrite N, !decide_False; set_solver.
        -- rewrite P, !decide_False; set_solver.
      * split; [rewrite N|rewrite P]; by rewrite decide_True.
  - simpl. split; [rewrite N|rewrite P].
    + rewrite decide_False by set_solver. by rewrite decide_True.
    + rewrite decide_False by set_solver. by rewrite decide_True.
Qed.

(** What the writes of [list_del] amount to. *)
Lemma list_del_writes m x p n :
  list_prev m x = Some p -> list_next m x = Some n ->
  x ∈ dom m -> p ∈ dom m -> n ∈ dom m ->
  exists m', list_del m x = Some m' /\ dom m' = dom m
    /\ (forall y, list_next m' y =
          if decide (y = x) then None else if decide (y = p) then Some n else list_next m y)
    /\ (forall y, list_prev m' y =
          if decide (y = x) then None else if decide (y = n) then Some p else list_prev m y)
    /\ (forall y, y <> x -> y <> p -> y <> n -> m' !! y = m !! y).
Proof.
  intros Hp Hn Hx Hpd Hnd. unfold list_del, list_prev, list_next in *.
  destruct (m !! x) as [e|] eqn:Ex; simpl in *; [|done]. rewrite Hp, Hn. simpl.
  do 3 ptr_step.
  destruct (set_prev_ok m'1 x None) as (m4 & -> & D4 & N4 & P4 & F4);
    [apply elem_of_dom; set_solver|].
  exists m4. split; [done|]. split; [congruence|]. split_and!.
  - intros y. unfold list_next in *. rewrite N4, N1, N0, N. done.
  - intros y. unfold list_prev in *. rewrite P4, P1, P0, P. done.
  - intros y H1 H2 H3. rewrite F4, F1, F0, F; done.
Qed.

Lemma list_del_ok m h l1 x l2 :
  is_list m h (l1 ++ x :: l2) ->
  exists m', list_del m x = Some m' /\ dom m' = dom m /\ is_list m' h (l1 ++ l2)
    /\ (forall y, y ∉ h :: l1 ++ x :: l2 -> m' !! y = m !! y).
Proof.
  intros Hl. pose proof (is_list_dom _ _ _ Hl) as Hdom. destruct Hl as [Hnd Hs].
  apply seg_app in Hs as [Hs1 Hs2].
  destruct (seg_last _ _ _ _ Hs1) as (p & [Hpn Hpp] & Hpi & Hc1).
  assert (exists n, linked m x n /\ n ∈ l2 ++ [h]
    /\ ((l2 = [] /\ n = h) \/ exists l', l2 = n :: l' /\ seg m n l' h)) as (n & Hxn & Hni & Hc2).
  { destruct l2 as [|n l2]; simpl in *.
    - exists h. split_and!; [done|set_solver|by left].
    - destruct Hs2 as [? ?]. exists n. split_and!; [done|set_solver|eauto]. }
  destruct Hxn as [Hxn Hxp].
  destruct (list_del_writes m x p n) as (m' & E & D & N & P & F);
    [done|done|apply Hdom; set_solver|apply Hdom; set_solver|apply Hdom; set_solver|].
  rewrite NoDup_cons, NoDup_app, NoDup_cons in Hnd.
  destruct Hnd as (Hh & Hd1 & Hd12 & Hx2 & Hd2).
  exists m'. split; [done|]. split; [done|]. split; [|intros y Hy; apply F; set_solver].
  split.
  { apply NoDup_cons. split; [set_solver|]. apply NoDup_app.
    split_and!; [done|set_solver|done]. }
  assert (linked m' p n) as Hpn'.
  { split; [rewrite N|rewrite P]; rewrite decide_False by set_solver; by rewrite decide_True. }
  assert (forall l', (l1 = l' ++ [p] /\ seg m h l' p) -> seg m' h l' p) as Hleft.
  { intros l' [-> Hs']. rewrite NoDup_app in Hd1.
    eapply seg_frame; [| |done]; intros y Hy.
    - rewrite N, !decide_False; set_solver.
    - rewrite P, !decide_False; set_solver. }
  assert (forall l', (l2 = n :: l' /\ seg m n l' h) -> seg m' n l' h) as Hright.
  { intros l' [-> Hs']. rewrite NoDup_cons in Hd2.
    eapply seg_frame; [| |done]; intros y Hy.
    - rewrite N, !decide_False; set_solver.
    - rewrite P, !decide_False; set_solver. }
  destruct Hc1 as [[-> ->]|(l1' & -> & Hs1')]; destruct Hc2 as [[-> ->]|(l2' & -> & Hs2')]; simpl.
  - done.
  - split; [done|]. by apply Hright.
  - rewrite app_nil_r. apply seg_app. split; [by apply Hleft|done].
  - rewrite <- app_assoc. apply seg_app. split; [by apply Hleft|]. split; [done|by apply Hright].
Qed.

Lemma list_empty_ok m h l :
  is_list m h l -> list_empty m h = Some (bool_decide (l = [])).
Proof.
  intros [Hnd Hs]. destruct l as [|y l].
  - destruct Hs as [Hn _]. unfold list_empty, list_next in *.
    destruct (m !! h) as [e|]; simpl in *; [|done]. rewrite Hn. by rewrite !bool_decide_eq_true_2.
  - destruct Hs as [[Hn _] _]. unfold list_empty, list_next in *.
    destruct (m !! h) as [e|]; simpl in *; [|done]. rewrite Hn.
    rewrite NoDup_cons in Hnd. assert (y <> h) by set_solver.
    by rewrite !bool_decide_eq_false_2 by congruence.
Qed.

(** ** Walking a ring *)

Lemma is_list_length m h l : is_list m h l -> (length l < S (size m))%nat.
Proof.
  intros Hl. pose proof (is_list_dom _ _ _ Hl) as Hd. destruct Hl as [Hnd _].
  rewrite <- size_dom. rewrite NoDup_cons in Hnd. destruct Hnd as [_ Hnd].
  rewrite <- (size_list_to_set (C := gset L) l Hnd).
  assert (size (list_to_set l : gset L) <= size (dom m))%nat; [|lia].
  apply subseteq_size. intros x Hx. apply Hd. set_solver.
Qed.

Lemma seg_first m a l z : seg m a l z -> list_next m a = Some (hd z l).
Proof. destruct l; simpl; [by intros []|by intros [[] _]]. Qed.

Lemma is_list_succ m h l1 x l2 :
  is_list m h (l1 ++ x :: l2) -> list_next m x = Some (hd h l2).
Proof. intros [_ Hs]. apply seg_app in Hs as [_ Hs]. by apply seg_first. Qed.

Lemma list_walk_ok m h l1 l2 test tb fuel :
  is_list m h (l1 ++ l2) -> (length l2 < fuel)%nat ->
  (forall x, x ∈ l2 -> test x = Some (tb x)) ->
  list_walk fuel m h test (hd h l2) = Some (List.find tb l2).
Proof.
  revert l1 fuel. induction l2 as [|x l2 IH]; intros l1 fuel Hl Hf Ht;
    (destruct fuel as [|fuel]; simpl in *; [lia|]).
  - by rewrite decide_True.
  - assert (x <> h) by (destruct Hl as [Hl _]; apply NoDup_cons in Hl as [Hl _]; set_solver).
    rewrite decide_False, Ht by (done || set_solver). simpl.
    destruct (tb x); [done|].
    rewrite (is_list_succ _ _ _ _ _ Hl). simpl.
    apply (IH (l1 ++ [x])); [by rewrite <- app_assoc|lia|set_solver].
Qed.

Lemma list_find_entry_ok m h l test tb :
  is_list m h l -> (forall x, x ∈ l -> test x = Some (tb x)) ->
  list_find_entry m h test = Some (List.find tb l).
Proof.
  intros Hl Ht. unfold list_find_entry.
  rewrite (seg_first _ _ _ _ (proj2 Hl)). cbn [option_bind mbind].
  apply (list_walk_ok m h [] l); [done|by eapply is_list_length|done].
Qed.

(** The safe walk visits the entries in order, whatever its body keeps or
    unlinks of the entry it is at. *)
Section SafeWalk.
Context {S : Type} (mem : S -> gmap L (list_head L)) (body : S -> L -> option S) (h : L).
Context (Inv : list L -> list L -> S -> Prop).
Context (Hlist : forall kept rest s, Inv kept rest s -> is_list (mem s) h (kept ++ rest)).
Context (Hbody : forall kept x rest s, Inv kept (x :: rest) s ->
           exists s' kept', body s x = Some s' /\ Inv kept' rest s').

(** The entry after the first of the rest, which the walk reads ahead. *)
Lemma walk_ahead kept rest s :
  Inv kept rest s ->
  exists n, list_next (mem s) (hd h rest) = Some n /\ (rest <> [] -> n = hd h (tl rest)).
Proof.
  intros Hinv. pose proof (Hlist _ _ _ Hinv) as Hl. destruct rest as [|x rest]; simpl.
  - rewrite (seg_first _ _ _ _ (proj2 Hl)). eexists. by split.
  - rewrite (is_list_succ _ _ _ _ _ Hl). eexists. by split.
Qed.

Lemma for_each_safe_from kept rest s n fuel :
  Inv kept rest s -> (rest <> [] -> n = hd h (tl rest)) -> (length rest < fuel)%nat ->
  exists s' kept', for_each_safe mem body h fuel s (hd h rest) n = Some s' /\ Inv kept' [] s'.
Proof.
  revert kept s n fuel. induction rest as [|x rest IH]; intros kept s n fuel Hinv Hn Hf;
    (destruct fuel as [|fuel]; simpl in *; [lia|]).
  - rewrite decide_True by done. eauto.
  - assert (x <> h).
    { pose proof (Hlist _ _ _ Hinv) as [Hl _]. apply NoDup_cons in Hl as [Hl _]. set_solver. }
    rewrite decide_False, Hn by done.
    destruct (Hbody _ _ _ _ Hinv) as (s' & kept' & -> & Hinv'). simpl.
    destruct (walk_ahead _ _ _ Hinv') as (nn & -> & Hnn). simpl.
    apply (IH kept'); [done|done|lia].
Qed.

Lemma for_each_safe_ok s l :
  Inv [] l s ->
  exists s' kept, list_for_each_entry_safe mem body h s = Some s' /\ Inv kept [] s'.
Proof.
  intros Hinv. unfold list_for_each_entry_safe.
  pose proof (Hlist _ _ _ Hinv) as Hl. cbn [app] in Hl.
  rewrite (seg_first _ _ _ _ (proj2 Hl)). cbn [option_bind mbind].
  destruct (walk_ahead _ _ _ Hinv) as (n & -> & Hn). cbn [option_bind mbind].
  apply (for_each_safe_from []); [done|done|by eapply is_list_length].
Qed.
End SafeWalk.
End KList.

#[global] Arguments list_add_tail : simpl never.
#[global] Arguments list_del : simpl never.
#[global] Arguments list_empty : simpl never.
#[global] Arguments INIT_LIST_HEAD : simpl never.
#[global] Arguments list_find_entry : simpl never.
#[global] Arguments list_for_each_entry_safe : simpl never.
