(* ===== verification/OmxDelay.v ===== *)
(** * Low-delay statistics of a decoder channel

    Models [channel_add_lowdelay_tag_time] of omxvdec/channel.c and its record:
    every stream buffer gets a tag; the times at which the tag passes the stages
    of the pipeline are noted in one of ten nodes, and the time from entry to
    exit is averaged. [None] is the division by zero of the average. *)

From S2P Require Import Prelude.

Definition OMX_LOWDELAY_REC_NODE_NUM : Z := 10.

(** The stages, the columns of [time_record] that the function is called for. *)
Inductive OMX_LOWDELAY_REC :=
| OMX_LOWDELAY_REC_ETB_TIME
| OMX_LOWDELAY_REC_VFMW_RCV_STRM_TIME
| OMX_LOWDELAY_REC_VFMW_RLS_STRM_TIME
| OMX_LOWDELAY_REC_VFMW_RPO_IMG_TIME
| OMX_LOWDELAY_REC_VPSS_RCV_IMG_TIME
| OMX_LOWDELAY_REC_VPSS_RPO_IMG_TIME.

(** One row of [time_record]; its columns are the fields. *)
Record time_node := mkNode {
  USERTAG : Z;
  NODE_STATE : Z;
  ETB_TIME : Z;
  RCV_STRM_TIME : Z;
  RLS_STRM_TIME : Z;
  RPO_IMG_TIME : Z;
  VPSS_RCV_TIME : Z;
  VPSS_RPO_TIME : Z;
  TOTAL_USED_TIME : Z;
}.

#[export] Instance time_node_fields : Fields time_node := fun r =>
  mkNode r.(USERTAG) r.(NODE_STATE) r.(ETB_TIME) r.(RCV_STRM_TIME) r.(RLS_STRM_TIME)
    r.(RPO_IMG_TIME) r.(VPSS_RCV_TIME) r.(VPSS_RPO_TIME) r.(TOTAL_USED_TIME).

Definition OMX_LOWDELAY_REC_NODE_FREE : Z := 0.
Definition OMX_LOWDELAY_REC_NODE_WRITED : Z := 1.

Definition zero_node : time_node := mkNode 0 0 0 0 0 0 0 0 0.

Record OMXVDEC_LOWDELAY_PROC_RECORD := mkDelay {
  usrtag_start_time : Z;
  interval : Z;
  current_tag : Z;
  time_record : list time_node;
  time_cost_sum : Z;
  average_time_cost : Z;
  rec_index : Z;
}.

#[export] Instance delay_fields : Fields OMXVDEC_LOWDELAY_PROC_RECORD := fun r =>
  mkDelay r.(usrtag_start_time) r.(interval) r.(current_tag) r.(time_record)
    r.(time_cost_sum) r.(average_time_cost) r.(rec_index).

(** The record as [channel_create_inst] allocates it: the tags' start and step
    come from the clock, read twice. *)
Definition new_delay (t1 t2 : Z) : OMXVDEC_LOWDELAY_PROC_RECORD :=
  mkDelay (Z.land t1 255) (Z.land t2 15 + 1) 0
    (replicate (Z.to_nat (OMX_LOWDELAY_REC_NODE_NUM + 1)) zero_node) 0 0 0.

(** The reset in [channel_start_inst]. *)
Definition start_delay (r : OMXVDEC_LOWDELAY_PROC_RECORD) : OMXVDEC_LOWDELAY_PROC_RECORD :=
  r <| current_tag := r.(usrtag_start_time) +u r.(interval) |>
    <| time_cost_sum := 0 |> <| average_time_cost := 0 |> <| rec_index := 0 |>
    <| time_record := replicate (length r.(time_record)) zero_node |>.

(** The loop over the nodes from [i] with a break: the first that passes. *)
Fixpoint find_node (n : nat) (t : list time_node) (test : time_node -> bool) (i : Z)
    : option (option (Z * time_node)) :=
  match n with
  | O => Some None
  | S n =>
      e ← arr_get t i;
      if test e then Some (Some (i, e)) else find_node n t test (i + 1)
  end.

Definition tagged (tag : Z) (e : time_node) : bool :=
  (e.(USERTAG) =? tag) && (e.(NODE_STATE) =? OMX_LOWDELAY_REC_NODE_WRITED).

Definition node_num : nat := Z.to_nat OMX_LOWDELAY_REC_NODE_NUM.

(** Notes a stage's time in the node of the tag, if there is one. *)
Definition note_time (t : list time_node) (tag : Z) (f : time_node -> time_node)
    : option (list time_node) :=
  found ← find_node node_num t (tagged tag) 0;
  match found with
  | Some (i, e) => arr_set t i (f e)
  | None => Some t
  end.

(** The last loop: nodes with this tag or a smaller one are cleared. *)
Fixpoint clear_nodes (n : nat) (t : list time_node) (tag i : Z) : option (list time_node) :=
  match n with
  | O => Some t
  | S n =>
      e ← arr_get t i;
      t ← (if e.(USERTAG) <=? tag then arr_set t i zero_node else Some t);
      clear_nodes n t tag (i + 1)
  end.

(** The average of the last stage, over [count] frames. *)
Definition account_time (count : Z) (r : OMXVDEC_LOWDELAY_PROC_RECORD) (cost : Z)
    : option OMXVDEC_LOWDELAY_PROC_RECORD :=
  let r := r <| rec_index := r.(rec_index) +u 1 |> in
  if r.(rec_index) <? count then Some (r <| time_cost_sum := r.(time_cost_sum) +u cost |>)
  else if count =? 0 then None
  else Some (r <| average_time_cost := r.(time_cost_sum) / count |>
               <| rec_index := 0 |> <| time_cost_sum := 0 |>).

(** A frame leaves the pipeline. *)
Definition finish_tag (count : Z) (r : OMXVDEC_LOWDELAY_PROC_RECORD) (tag time : Z)
    : option OMXVDEC_LOWDELAY_PROC_RECORD :=
  found ← find_node node_num r.(time_record) (tagged tag) 0;
  r ← match found with
      | Some (i, e) =>
          let e := e <| VPSS_RPO_TIME := time |>
                     <| TOTAL_USED_TIME := time -u e.(ETB_TIME) |> in
          t ← arr_set r.(time_record) i e;
          r ← account_time count (r <| time_record := t |>) e.(TOTAL_USED_TIME);
          t ← arr_set r.(time_record) OMX_LOWDELAY_REC_NODE_NUM e;
          Some (r <| time_record := t |>)
      | None => Some r
      end;
  t ← clear_nodes node_num r.(time_record) tag 0;
  Some (r <| time_record := t |>).

(** [count] is the global [g_lowdelay_count_frame]. *)
Definition channel_add_lowdelay_tag_time (count : Z) (r : OMXVDEC_LOWDELAY_PROC_RECORD)
    (tag : Z) (type : OMX_LOWDELAY_REC) (time : Z) : option OMXVDEC_LOWDELAY_PROC_RECORD :=
  let note f := t ← note_time r.(time_record) tag f; Some (r <| time_record := t |>) in
  match type with
  | OMX_LOWDELAY_REC_ETB_TIME =>
      found ← find_node node_num r.(time_record)
                (fun e => e.(NODE_STATE) =? OMX_LOWDELAY_REC_NODE_FREE) 0;
      match found with
      | Some (i, _) =>
          t ← arr_set r.(time_record) i
                (zero_node <| USERTAG := tag |> <| ETB_TIME := time |>
                           <| NODE_STATE := OMX_LOWDELAY_REC_NODE_WRITED |>);
          Some (r <| time_record := t |>)
      | None => Some r
      end
  | OMX_LOWDELAY_REC_VFMW_RCV_STRM_TIME => note (fun e => e <| RCV_STRM_TIME := time |>)
  | OMX_LOWDELAY_REC_VFMW_RLS_STRM_TIME => note (fun e => e <| RLS_STRM_TIME := time |>)
  | OMX_LOWDELAY_REC_VFMW_RPO_IMG_TIME => note (fun e => e <| RPO_IMG_TIME := time |>)
  | OMX_LOWDELAY_REC_VPSS_RCV_IMG_TIME => note (fun e => e <| VPSS_RCV_TIME := time |>)
  | OMX_LOWDELAY_REC_VPSS_RPO_IMG_TIME => finish_tag count r tag time
  end.

(** ** The record is safe *)

Section DelaySafe.
Implicit Types (t : list time_node) (r : OMXVDEC_LOWDELAY_PROC_RECORD).

Lemma find_node_ok k t test : forall i,
  0 <= i -> i + Z.of_nat k <= Z.of_nat (length t) ->
  exists res, find_node k t test i = Some res
    /\ forall j e, res = Some (j, e) ->
         i <= j < i + Z.of_nat k /\ arr_get t j = Some e /\ test e = true.
Proof.
  induction k as [|k IH]; intros i Hi Hk; simpl; [by exists None|].
  destruct (arr_get_in t i ltac:(lia)) as [e He]. rewrite He. simpl.
  destruct (test e) eqn:Ht.
  - eexists. split; [done|]. intros j e' [= <- <-]. split_and!; [lia|lia|done|done].
  - destruct (IH (i + 1)) as (res & -> & Hres); [lia|lia|].
    exists res. split; [done|]. intros j e' Hj. destruct (Hres _ _ Hj) as (? & ? & ?).
    split_and!; [lia|lia|done|done].
Qed.

Lemma clear_nodes_ok k tag : forall t i,
  0 <= i -> i + Z.of_nat k <= Z.of_nat (length t) ->
  exists t', clear_nodes k t tag i = Some t' /\ length t' = length t
    /\ forall j, arr_get t' j =
         if (i <=? j) && (j <? i + Z.of_nat k) then
           (fun e => if e.(USERTAG) <=? tag then zero_node else e) <$> arr_get t j
         else arr_get t j.
Proof.
  induction k as [|k IH]; intros t i Hi Hk; simpl.
  { exists t. split_and!; [done|done|]. intros j.
    change (Z.of_nat 0) with 0. destruct ((i <=? j) && _) eqn:Hb; [lia|done]. }
  destruct (arr_get_in t i ltac:(lia)) as [e He]. rewrite He. simpl.
  assert (exists t1, (if USERTAG e <=? tag then arr_set t i zero_node else Some t) = Some t1
    /\ length t1 = length t
    /\ forall j, arr_get t1 j = if decide (j = i)
         then Some (if USERTAG e <=? tag then zero_node else e) else arr_get t j)
    as (t1 & -> & Hl1 & Hg1).
  { destruct (USERTAG e <=? tag).
    - rewrite arr_set_in by lia. eexists. split; [done|]. split; [apply length_insert|].
      intros j. case_decide as Hj; [subst; by apply arr_get_set_eq; lia|].
      by apply arr_get_set_ne; lia.
    - eexists. split; [done|]. split; [done|]. intros j. case_decide; [by subst|done]. }
  simpl. destruct (IH t1 (i + 1)) as (t' & -> & Hl & Hg); [lia|lia|].
  exists t'. split_and!; [done|lia|]. intros j. rewrite Hg, Hg1.
  replace (Z.of_nat (S k)) with (Z.of_nat k + 1) by lia.
  destruct (decide (j = i)) as [->|Hj].
  - zfalse ((i + 1 <=? i) && (i <? i + 1 + Z.of_nat k)).
    ztrue ((i <=? i) && (i <? i + (Z.of_nat k + 1))). by rewrite He.
  - replace ((i <=? j) && (j <? i + (Z.of_nat k + 1)))
      with ((i + 1 <=? j) && (j <? i + 1 + Z.of_nat k)) by lia. done.
Qed.

Lemma finish_tag_ok count r tag time :
  0 < count -> length r.(time_record) = 11%nat ->
  exists r', finish_tag count r tag time = Some r' /\ length r'.(time_record) = 11%nat.
Proof.
  intros Hc Hl. unfold finish_tag, node_num, OMX_LOWDELAY_REC_NODE_NUM.
  destruct (find_node_ok 10 (time_record r) (tagged tag) 0) as (res & Hres & Hj); [lia|lia|].
  change (Z.to_nat 10) with 10%nat. rewrite Hres. simpl.
  assert (Hclear : forall r0, length (time_record r0) = 11%nat -> exists r',
    (t ← clear_nodes 10 (time_record r0) tag 0; Some (r0 <| time_record := t |>)) = Some r'
    /\ length (time_record r') = 11%nat).
  { intros r0 H0. destruct (clear_nodes_ok 10 tag (time_record r0) 0) as (t & -> & Ht & _);
      [lia|lia|]. simpl. eexists. split; [done|]. simpl. lia. }
  destruct res as [[i e]|]; [|by apply Hclear].
  destruct (Hj i e eq_refl) as (Hi & _). rewrite arr_set_in by lia. simpl.
  assert (Hacc : forall r0 cost, exists r1, account_time count r0 cost = Some r1
            /\ time_record r1 = time_record r0).
  { intros r0 cost. unfold account_time. cbv zeta. case_match; [by eexists|].
    zfalse (count =? 0). by eexists. }
  match goal with |- context [account_time count ?r0 ?cost] =>
    destruct (Hacc r0 cost) as (r1 & -> & Hr1) end.
  simpl in *. rewrite Hr1. rewrite arr_set_in by (rewrite length_insert; lia). simpl.
  apply Hclear. simpl. by rewrite !length_insert.
Qed.

Lemma add_tag_ok count r tag type time :
  0 < count -> length r.(time_record) = 11%nat ->
  exists r', channel_add_lowdelay_tag_time count r tag type time = Some r'
    /\ length r'.(time_record) = 11%nat.
Proof.
  intros Hc Hl. destruct type; unfold channel_add_lowdelay_tag_time; cbv zeta.
  1: { destruct (find_node_ok 10 (time_record r)
                   (fun e => e.(NODE_STATE) =? OMX_LOWDELAY_REC_NODE_FREE) 0)
         as (res & Hres & Hj); [lia|lia|].
       change node_num with 10%nat. rewrite Hres. simpl. destruct res as [[i e]|]; [|eauto].
       destruct (Hj i e eq_refl) as (Hi & _). rewrite arr_set_in by lia. simpl.
       eexists. split; [done|]. simpl. by rewrite length_insert. }
  all: try by apply finish_tag_ok.
  all: unfold note_time; change node_num with 10%nat;
    destruct (find_node_ok 10 (time_record r) (tagged tag) 0) as (res & Hres & Hj); [lia|lia|];
    rewrite Hres; simpl; destruct res as [[i e]|]; [|simpl; by eexists];
    destruct (Hj i e eq_refl) as (Hi & _); rewrite arr_set_in by lia; simpl;
    eexists; split; [done|]; simpl; by rewrite length_insert.
Qed.
End DelaySafe.
