(* ===== verification/OmxChan.v ===== *)
(** * Decoder channels

    Models omxvdec/channel.c: the context of a decoder channel, the tables of
    the buffers its user has bound, the two queues of submitted buffers, and the
    calls of the user on them. The queues are kernel lists (KList.v) through nodes
    embedded in the table slots and in [last_frame]. [None] is a fault: a
    null or poisoned list pointer, an access outside a table. *)

From S2P Require Import Prelude KList FrameRate PtsRec OmxDelay.

(** ** Data *)

Inductive eCHAN_STATE :=
| CHAN_STATE_INVALID | CHAN_STATE_IDLE | CHAN_STATE_WORK
| CHAN_STATE_PAUSE | CHAN_STATE_PAUSE_PENDING.

Inductive eBUFFER_STATE :=
| BUF_STATE_INVALID | BUF_STATE_IDLE | BUF_STATE_QUEUED | BUF_STATE_USING.

Inductive eDFS_STATE :=
| DFS_INIT | DFS_WAIT_ALLOC | DFS_WAIT_INSERT | DFS_WAIT_BIND
| DFS_WAIT_FILL | DFS_WAIT_ACTIVATE | DFS_ALREADY_ALLOC.

#[export] Instance chan_state_eq_dec : EqDecision eCHAN_STATE.
Proof. solve_decision. Defined.
#[export] Instance buffer_state_eq_dec : EqDecision eBUFFER_STATE.
Proof. solve_decision. Defined.
#[export] Instance dfs_state_eq_dec : EqDecision eDFS_STATE.
Proof. solve_decision. Defined.

(** Values of the interface shared with user space ([ePORT_DIR],
    [eBUFFER_TYPE], flags and message codes). They arrive in user memory and can be anything. *)
Definition PORT_DIR_INPUT : Z := 0.
Definition PORT_DIR_OUTPUT : Z := 1.
Definition PORT_DIR_BOTH : Z := 4294967295.
Definition OMX_USE_NATIVE : Z := 2.
Definition OMX_ALLOCATE_DRIVER : Z := 4.
Definition VDEC_BUFFERFLAG_EOS : Z := 1.
Definition VDEC_BUFFERFLAG_ENDOFFRAME : Z := 16.

Definition VDEC_S_SUCCESS : Z := 0.
Definition VDEC_S_FAILED : Z := 1.
Definition VDEC_ERR_ILLEGAL_OP : Z := 0x20003.
Definition VDEC_ERR_BAD_STATE : Z := 0x20008.
Definition VDEC_ERR_HW_FATAL : Z := 0x2000a.

Definition VDEC_MSG_RESP_START_DONE : Z := 0x10002.
Definition VDEC_MSG_RESP_STOP_DONE : Z := 0x10003.
Definition VDEC_MSG_RESP_PAUSE_DONE : Z := 0x10004.
Definition VDEC_MSG_RESP_RESUME_DONE : Z := 0x10005.
Definition VDEC_MSG_RESP_FLUSH_INPUT_DONE : Z := 0x10006.
Definition VDEC_MSG_RESP_FLUSH_OUTPUT_DONE : Z := 0x10007.
Definition VDEC_MSG_RESP_INPUT_DONE : Z := 0x10008.
Definition VDEC_MSG_RESP_OUTPUT_DONE : Z := 0x10009.
Definition VDEC_EVT_REPORT_IMG_SIZE_CHG : Z := 0x30001.

(** Constants and macros of headers that are not in the repository, and the
    module's global switches. *)
Class OmxEnv := {
  LAST_FRAME_BUF_ID : Z;
  LAST_FRAME_BUF_SIZE : Z;
  HI_ID_VDEC : Z;
  LAST_FRAME_FLAG : Z;              (* DEF_HI_DRV_VPSS_LAST_FRAME_FLAG *)
  VPSS_INVALID_HANDLE : Z;
  PORTHANDLE_TO_VPSSID : Z -> Z;
  HI_SYS_GET_STRIDE : Z -> Z;
  kernel_va : Z -> Z;               (* __va *)
  g_FastOutputMode : bool;
  g_LowDelayStatistics : bool;
  g_SaveYuvEnable : bool;
  g_lowdelay_count_frame : Z;
}.

(** A buffer; its list node is in the channel's [links]. *)
Record OMXVDEC_BUF_S := mkBuf {
  buf_type : Z;
  status : eBUFFER_STATE;
  phy_addr : Z;
  private_phy_addr : Z;
  buf_len : Z;
  act_len : Z;
  private_len : Z;
  offset : Z;
  flags : Z;
  buf_id : Z;
  time_stamp : Z;
  usr_tag : Z;
  user_vaddr : Z;
  kern_vaddr : Z;
  client_data : Z;
}.

#[export] Instance buf_fields : Fields OMXVDEC_BUF_S := fun r =>
  mkBuf r.(buf_type) r.(status) r.(phy_addr) r.(private_phy_addr) r.(buf_len) r.(act_len)
    r.(private_len) r.(offset) r.(flags) r.(buf_id) r.(time_stamp) r.(usr_tag)
    r.(user_vaddr) r.(kern_vaddr) r.(client_data).

Definition zero_buf : OMXVDEC_BUF_S := mkBuf 0 BUF_STATE_INVALID 0 0 0 0 0 0 0 0 0 0 0 0 0.

Record OMXVDEC_FRAME_S := mkOutFrame {
  phyaddr_Y : Z; phyaddr_C : Z; stride : Z; width : Z; height : Z; save_yuv : bool;
}.

#[export] Instance out_frame_fields : Fields OMXVDEC_FRAME_S := fun r =>
  mkOutFrame r.(phyaddr_Y) r.(phyaddr_C) r.(stride) r.(width) r.(height) r.(save_yuv).

(** The description of a buffer that the user and the driver exchange. *)
Record OMXVDEC_BUF_DESC := mkDesc {
  phyaddr : Z;
  buffer_len : Z;
  data_offset : Z;
  data_len : Z;
  private_phyaddr : Z;
  d_private_len : Z;
  d_flags : Z;
  timestamp : Z;
  buffer_type : Z;
  dir : Z;
  out_frame : OMXVDEC_FRAME_S;
  bufferaddr : Z;
  d_client_data : Z;
  u32FrameIndex : Z;
  hTunnelSrc : Z;
  u32FrameRate : Z;
}.

#[export] Instance desc_fields : Fields OMXVDEC_BUF_DESC := fun r =>
  mkDesc r.(phyaddr) r.(buffer_len) r.(data_offset) r.(data_len) r.(private_phyaddr)
    r.(d_private_len) r.(d_flags) r.(timestamp) r.(buffer_type) r.(dir) r.(out_frame)
    r.(bufferaddr) r.(d_client_data) r.(u32FrameIndex) r.(hTunnelSrc) r.(u32FrameRate).

Definition zero_desc : OMXVDEC_BUF_DESC :=
  mkDesc 0 0 0 0 0 0 0 0 0 0 (mkOutFrame 0 0 0 0 0 false) 0 0 0 0 0.

(** The two ports, and the list nodes of a channel: the head of each port's
    queue, the node in every slot of its table, and the one in [last_frame]. *)
Inductive port_dir := IN | OUT.
Inductive node := QHead (p : port_dir) | Slot (p : port_dir) (i : Z) | LastFrame.

#[export] Instance port_dir_eq_dec : EqDecision port_dir.
Proof. solve_decision. Defined.
#[export] Instance node_eq_dec : EqDecision node.
Proof. solve_decision. Defined.
#[export] Instance port_dir_countable : Countable port_dir.
Proof.
  refine (inj_countable' (fun p => match p with IN => true | OUT => false end)
            (fun b : bool => if b then IN else OUT) _); by intros [].
Defined.
#[export] Instance node_countable : Countable node.
Proof.
  refine (inj_countable'
    (fun n => match n with
              | QHead p => inl p | Slot p i => inr (inl (p, i)) | LastFrame => inr (inr ())
              end)
    (fun x : port_dir + (port_dir * Z + ()) => match x with
              | inl p => QHead p | inr (inl (p, i)) => Slot p i | inr (inr _) => LastFrame
              end) _); by intros [].
Defined.

(** The fields of the context that exist once per port: [in_buf_table] and
    [out_buf_table], [input_buf_num] and [output_buf_num], [max_in_buf_num] and
    [max_out_buf_num], [raw_use_cnt] and [yuv_use_cnt], [input_flush_pending] and
    [output_flush_pending]. *)
Record PORT := mkPort {
  buf_table : list OMXVDEC_BUF_S;
  buf_num : Z;
  max_buf_num : Z;
  use_cnt : Z;
  flush_pending : bool;
}.

#[export] Instance port_fields : Fields PORT := fun r =>
  mkPort r.(buf_table) r.(buf_num) r.(max_buf_num) r.(use_cnt) r.(flush_pending).

(** What a call does outside the channel, in order: the messages given to
    [message_queue], the commands given to the decoder firmware and to VPSS,
    the mappings returned, and the end marker written into a stream buffer. *)
Inductive msgdata :=
| NoData | BufData (d : OMXVDEC_BUF_DESC) | ImgSize (w h s : Z).

Inductive vfmw_cmd :=
| START_CHAN | STOP_CHAN | RESET_CHAN_WITH_OPTION | RELEASE_STREAM | DESTROY_CHAN
| STOP_LOWDLAY_CALC | EXTRA_WAKEUP_THREAD | SET_FRAME_RATE (r : Z).

Inductive vpss_cmd :=
| STOREPRIV (b : bool) | ENABLE_PORT (b : bool) | VPSS_START | VPSS_STOP | VPSS_RESET
| DESTROY_PORT | DESTROY_VPSS | IMAGEREADY.

Inductive event :=
| MSG (code st : Z) (data : msgdata)
| VFMW (cmd : vfmw_cmd)
| VPSS (cmd : vpss_cmd)
| MMZ_UNMAP (phy virt : Z)
| WRITE_END (addr len : Z).

Record OMXVDEC_CHAN_STATINFO := mkStat {
  DecoderIn : Z; DecoderOut : Z; ProcessorIn : Z; ProcessorOut : Z;
}.

#[export] Instance stat_fields : Fields OMXVDEC_CHAN_STATINFO := fun r =>
  mkStat r.(DecoderIn) r.(DecoderOut) r.(ProcessorIn) r.(ProcessorOut).

Record OMXVDEC_CHAN_CTX := mkCtx {
  channel_id : Z;
  decoder_id : Z;
  processor_id : Z;
  port_id : Z;
  m_use_native_buf : bool;
  out_width : Z;
  out_height : Z;
  out_stride : Z;
  protocol : Z;
  bReversed : Z;
  bStorePrivateData : bool;
  inp : PORT;
  outp : PORT;
  pause_pending : bool;
  eos_in_list : bool;
  eos_recv_flag : Z;      (* one bit *)
  eof_send_flag : Z;      (* one bit *)
  recfg_flag : bool;
  reset_pending : bool;
  seek_pending : bool;
  progress : bool;
  file_dec : Z;
  last_frame_processor_got : Z;   (* HI_U8 *)
  last_frame_image_id : Z;        (* HI_U8 *)
  last_frame_info0 : Z;           (* last_frame_info[0], [1] *)
  last_frame_info1 : Z;
  bLowdelay : Z;
  state : eCHAN_STATE;
  dfs_alloc_flag : eDFS_STATE;
  dfs_delay_time : Z;
  ref_frame_num : Z;
  ref_frame_size : Z;
  last_frame : OMXVDEC_BUF_S;
  last_frame_rate : Z;            (* last_frame.u32FrameRate *)
  links : gmap node (list_head node);
  trace : list event;
  omx_chan_statinfo : OMXVDEC_CHAN_STATINFO;
  lowdelay_rec : option OMXVDEC_LOWDELAY_PROC_RECORD;
}.

#[export] Instance ctx_fields : Fields OMXVDEC_CHAN_CTX := fun r =>
  mkCtx r.(channel_id) r.(decoder_id) r.(processor_id) r.(port_id) r.(m_use_native_buf)
    r.(out_width) r.(out_height) r.(out_stride) r.(protocol) r.(bReversed)
    r.(bStorePrivateData) r.(inp) r.(outp) r.(pause_pending) r.(eos_in_list)
    r.(eos_recv_flag) r.(eof_send_flag) r.(recfg_flag) r.(reset_pending) r.(seek_pending)
    r.(progress) r.(file_dec) r.(last_frame_processor_got) r.(last_frame_image_id)
    r.(last_frame_info0) r.(last_frame_info1) r.(bLowdelay) r.(state) r.(dfs_alloc_flag)
    r.(dfs_delay_time) r.(ref_frame_num) r.(ref_frame_size) r.(last_frame)
    r.(last_frame_rate) r.(links) r.(trace) r.(omx_chan_statinfo) r.(lowdelay_rec).

(** ** Access *)

Definition port (p : port_dir) (c : OMXVDEC_CHAN_CTX) : PORT :=
  match p with IN => c.(inp) | OUT => c.(outp) end.

Definition on_port (p : port_dir) (f : PORT -> PORT) (c : OMXVDEC_CHAN_CTX) : OMXVDEC_CHAN_CTX :=
  match p with IN => c <| inp ::= f |> | OUT => c <| outp ::= f |> end.

(** The buffer a list node belongs to; a queue head belongs to none. *)
Definition node_buf (c : OMXVDEC_CHAN_CTX) (n : node) : option OMXVDEC_BUF_S :=
  match n with
  | Slot p i => arr_get (port p c).(buf_table) i
  | LastFrame => Some c.(last_frame)
  | QHead _ => None
  end.

Definition set_buf (c : OMXVDEC_CHAN_CTX) (n : node) (b : OMXVDEC_BUF_S)
    : option OMXVDEC_CHAN_CTX :=
  match n with
  | Slot p i =>
      t ← arr_set (port p c).(buf_table) i b;
      Some (on_port p (fun P => P <| buf_table := t |>) c)
  | LastFrame => Some (c <| last_frame := b |>)
  | QHead _ => None
  end.

Definition alter_buf (c : OMXVDEC_CHAN_CTX) (n : node) (f : OMXVDEC_BUF_S -> OMXVDEC_BUF_S)
    : option OMXVDEC_CHAN_CTX :=
  b ← node_buf c n; set_buf c n (f b).

(** Runs a list operation on the channel's nodes. *)
Definition on_links (c : OMXVDEC_CHAN_CTX)
    (f : gmap node (list_head node) -> option (gmap node (list_head node)))
    : option OMXVDEC_CHAN_CTX :=
  m ← f c.(links); Some (c <| links := m |>).

Definition post (c : OMXVDEC_CHAN_CTX) (e : event) : OMXVDEC_CHAN_CTX :=
  c <| trace ::= fun l => l ++ [e] |>.

Definition message_queue (c : OMXVDEC_CHAN_CTX) (code st : Z) (d : msgdata) : OMXVDEC_CHAN_CTX :=
  post c (MSG code st d).

(** The port a description names, if it names one. *)
Definition port_of (d : Z) : option port_dir :=
  if d =? PORT_DIR_INPUT then Some IN else if d =? PORT_DIR_OUTPUT then Some OUT else None.

Definition dir_of (p : port_dir) : Z :=
  match p with IN => PORT_DIR_INPUT | OUT => PORT_DIR_OUTPUT end.

(** The first slot from [i] on with the address; the number of buffers if none. *)
Fixpoint addr_index (fuel : nat) (t : list OMXVDEC_BUF_S) (num pa i : Z) : option Z :=
  match fuel with
  | O => None
  | S fuel =>
      if i <? num then
        b ← arr_get t i;
        if pa =? b.(phy_addr) then Some i else addr_index fuel t num pa (i + 1)
      else Some i
  end.

Definition find_addr (P : PORT) (pa : Z) : option Z :=
  addr_index (S (length P.(buf_table))) P.(buf_table) P.(buf_num) pa 0.

Section Channel.
Context {C : HiConsts} {E : OmxEnv}.
Implicit Types (c : OMXVDEC_CHAN_CTX) (d : OMXVDEC_BUF_DESC) (p : port_dir) (n : node).

Definition lowdelay_on c : bool :=
  (negb (c.(bLowdelay) =? 0) || g_FastOutputMode) && bool_decide (is_Some c.(lowdelay_rec)).

Definition add_tag_time c (tag : Z) (type : OMX_LOWDELAY_REC) (now : Z)
    : option OMXVDEC_CHAN_CTX :=
  r ← c.(lowdelay_rec);
  r ← channel_add_lowdelay_tag_time g_lowdelay_count_frame r tag type now;
  Some (c <| lowdelay_rec := Some r |>).

(** ** Binding buffers *)

(** The kernel address of a buffer: native memory is already mapped, [mapped]
    is the answer of [HI_DRV_MMZ_Map] for other memory. *)
Definition channel_map_kernel_viraddr d (mapped : option Z) : option Z :=
  if d.(buffer_type) =? OMX_USE_NATIVE then Some (kernel_va d.(phyaddr)) else mapped.

Definition channel_unmap_kernel_viraddr c (b : OMXVDEC_BUF_S) : OMXVDEC_CHAN_CTX :=
  post c (MMZ_UNMAP b.(phy_addr) b.(kern_vaddr)).

(** The bound buffer at the description's address; its user address is updated. *)
Definition channel_lookup_addr_table c d : option (OMXVDEC_CHAN_CTX * option node) :=
  match port_of d.(dir) with
  | None => Some (c, None)
  | Some p =>
      i ← find_addr (port p c) d.(phyaddr);
      if i <? (port p c).(buf_num) then
        c ← alter_buf c (Slot p i) (fun b => b <| user_vaddr := d.(bufferaddr) |>);
        Some (c, Some (Slot p i))
      else Some (c, None)
  end.

(** The slot of a newly bound buffer. *)
Definition bound_buf (b : OMXVDEC_BUF_S) d (kern num : Z) : OMXVDEC_BUF_S :=
  b <| user_vaddr := d.(bufferaddr) |> <| phy_addr := d.(phyaddr) |>
    <| private_phy_addr := d.(private_phyaddr) |> <| kern_vaddr := kern |>
    <| client_data := d.(d_client_data) |> <| buf_len := d.(buffer_len) |>
    <| act_len := 0 |> <| private_len := d.(d_private_len) |> <| offset := 0 |>
    <| buf_type := d.(buffer_type) |> <| status := BUF_STATE_IDLE |> <| buf_id := num |>.

Definition channel_insert_addr_table c d (mapped : option Z)
    : option (OMXVDEC_CHAN_CTX * Z) :=
  match port_of d.(dir) with
  | None => Some (c, HI_FAILURE)
  | Some p =>
      let P := port p c in
      if P.(buf_num) >=? P.(max_buf_num) then Some (c, HI_FAILURE) else
      i ← find_addr P d.(phyaddr);
      if i <? P.(buf_num) then Some (c, HI_FAILURE) else
      match channel_map_kernel_viraddr d mapped with
      | None => Some (c, HI_FAILURE)
      | Some kern =>
          c ← alter_buf c (Slot p P.(buf_num)) (fun b => bound_buf b d kern P.(buf_num));
          let c := on_port p (fun P => P <| buf_num ::= fun k => k + 1 |>) c in
          Some (match p with
                | IN => c
                | OUT => c <| bStorePrivateData :=
                           negb ((d.(private_phyaddr) =? 4294967295)
                                 || (d.(private_phyaddr) =? 0)) |>
                end, HI_SUCCESS)
      end
  end.

(** The last slot takes the place of slot [i]: the copy includes the list node. A
    queued node at the old place is replaced by the new one, at the end of the queue. *)
Definition move_last_slot c p (i : Z) : option OMXVDEC_CHAN_CTX :=
  let last := (port p c).(buf_num) - 1 in
  b ← node_buf c (Slot p last);
  c ← set_buf c (Slot p i) (b <| buf_id := i |>);
  ln ← c.(links) !! Slot p last;
  let c := c <| links ::= <[Slot p i := ln]> |> in
  empty ← list_empty c.(links) (QHead p);
  if (empty : bool) then Some c else
  found ← list_find_entry c.(links) (QHead p)
            (fun n => q ← node_buf c n; Some (b.(phy_addr) =? q.(phy_addr)));
  match found with
  | Some q =>
      c ← on_links c (fun m => list_del m q);
      on_links c (fun m => list_add_tail m (Slot p i) (QHead p))
  | None => Some c
  end.

(** [memset] of a slot: its list node becomes null pointers. *)
Definition clear_slot c p (i : Z) : option OMXVDEC_CHAN_CTX :=
  c ← set_buf c (Slot p i) zero_buf;
  Some (c <| links ::= <[Slot p i := mkHead None None]> |>).

Definition channel_delete_addr_table c d : option (OMXVDEC_CHAN_CTX * Z) :=
  match port_of d.(dir) with
  | None => Some (c, HI_FAILURE)
  | Some p =>
      i ← find_addr (port p c) d.(phyaddr);
      if i =? (port p c).(buf_num) then Some (c, HI_FAILURE) else
      b ← node_buf c (Slot p i);
      let c := if negb (d.(buffer_type) =? OMX_ALLOCATE_DRIVER)
               then channel_unmap_kernel_viraddr c b else c in
      c ← alter_buf c (Slot p i) (fun b => b <| kern_vaddr := 0 |>);
      c ← (if i <? (port p c).(buf_num) - 1 then move_last_slot c p i else Some c);
      c ← clear_slot c p ((port p c).(buf_num) - 1);
      Some (on_port p (fun P => P <| buf_num ::= fun k => k - 1 |>) c, HI_SUCCESS)
  end.

Definition channel_bind_user_buffer c d (mapped : option Z) : option (OMXVDEC_CHAN_CTX * Z) :=
  if d.(phyaddr) =? 0 then Some (c, HI_FAILURE) else
  '(c, ret) ← channel_insert_addr_table c d mapped;
  if negb (ret =? HI_SUCCESS) then Some (c, HI_FAILURE) else
  Some (if negb (c.(out_stride) =? d.(out_frame).(stride))
        then c <| out_stride := d.(out_frame).(stride) |> else c, HI_SUCCESS).

Definition channel_unbind_user_buffer c d : option (OMXVDEC_CHAN_CTX * Z) :=
  if d.(phyaddr) =? 0 then Some (c, HI_FAILURE) else
  '(c, ret) ← channel_delete_addr_table c d;
  if negb (ret =? HI_SUCCESS) then Some (c, HI_FAILURE) else Some (c, HI_SUCCESS).

(** ** Submitting buffers *)

(** Queues a node, unless a buffer with its address is queued. *)
Definition channel_insert_in_list c p n : option (OMXVDEC_CHAN_CTX * Z) :=
  empty ← list_empty c.(links) (QHead p);
  b ← node_buf c n;
  found ← (if (empty : bool) then Some None else
           list_find_entry c.(links) (QHead p)
             (fun q => e ← node_buf c q; Some (b.(phy_addr) =? e.(phy_addr))));
  match found with
  | Some _ => Some (c, HI_FAILURE)
  | None =>
      c ← alter_buf c n (fun b => b <| status := BUF_STATE_QUEUED |>);
      c ← on_links c (fun m => list_add_tail m n (QHead p));
      Some (c, HI_SUCCESS)
  end.

Definition channel_insert_in_raw_list c n := channel_insert_in_list c IN n.
Definition channel_insert_in_yuv_list c n := channel_insert_in_list c OUT n.

Definition channel_add_last_frame c n : option OMXVDEC_CHAN_CTX :=
  alter_buf c n (fun b => b <| act_len := b.(buf_len) |> <| offset := 0 |>
    <| flags := VDEC_BUFFERFLAG_ENDOFFRAME |> <| time_stamp := HI_INVALID_PTS |>
    <| buf_id := LAST_FRAME_BUF_ID |>).

(** The end of the stream is a buffer of its own, queued once. *)
Definition queue_last_frame c : option OMXVDEC_CHAN_CTX :=
  c ← (if negb c.(eos_in_list) then
         c ← channel_add_last_frame c LastFrame;
         c ← alter_buf c LastFrame (fun b => b <| status := BUF_STATE_QUEUED |>);
         c ← on_links c (fun m => list_add_tail m LastFrame (QHead IN));
         Some (c <| eos_in_list := true |>)
       else Some c);
  Some (c <| eos_recv_flag ::= fun x => (x + 1) mod 2 |>).

(** A stream buffer of a low-delay channel gets the next tag. *)
Definition tag_stream c n (now : Z) : option OMXVDEC_CHAN_CTX :=
  if lowdelay_on c then
    r ← c.(lowdelay_rec);
    let tag := r.(current_tag) in
    c ← alter_buf c n (fun b => b <| usr_tag := tag |>);
    let c := c <| lowdelay_rec := Some (r <| current_tag := tag +u r.(interval) |>) |> in
    add_tag_time c tag OMX_LOWDELAY_REC_ETB_TIME now
  else Some c.

(** A buffer with data: [None] as its node when it is refused. *)
Definition submit_stream c d (now : Z) : option (OMXVDEC_CHAN_CTX * Z) :=
  let refuse c := Some (message_queue c VDEC_MSG_RESP_INPUT_DONE VDEC_ERR_ILLEGAL_OP (BufData d),
                        HI_FAILURE) in
  '(c, found) ← channel_lookup_addr_table c d;
  match found with
  | None => refuse c
  | Some n =>
      c ← alter_buf c n (fun b => b <| act_len := d.(data_len) |> <| offset := d.(data_offset) |>
            <| time_stamp := d.(timestamp) |> <| flags := d.(d_flags) |>);
      c ← tag_stream c n now;
      '(c, ret) ← channel_insert_in_raw_list c n;
      if negb (ret =? HI_SUCCESS) then refuse c else Some (c, HI_SUCCESS)
  end.

(** What follows the buffer itself: the end of the stream, the answer to a buffer
    without data, and the wake-up of a low-delay decoder. *)
Definition finish_stream c d : option (OMXVDEC_CHAN_CTX * Z) :=
  c ← (if negb (Z.land d.(d_flags) VDEC_BUFFERFLAG_EOS =? 0) then queue_last_frame c else Some c);
  let c := if d.(data_len) =? 0
           then message_queue c VDEC_MSG_RESP_INPUT_DONE VDEC_S_SUCCESS (BufData d) else c in
  let c := if (c.(bLowdelay) =? 1) || g_FastOutputMode
           then post c (VFMW EXTRA_WAKEUP_THREAD) else c in
  Some (c, HI_SUCCESS).

Definition channel_empty_this_stream c d (now : Z) : option (OMXVDEC_CHAN_CTX * Z) :=
  '(c, ret) ← (if negb (d.(data_len) =? 0) then submit_stream c d now else Some (c, HI_SUCCESS));
  if negb (ret =? HI_SUCCESS) then Some (c, ret) else finish_stream c d.

Definition channel_fill_this_frame c d : option (OMXVDEC_CHAN_CTX * Z) :=
  let refuse c := Some (message_queue c VDEC_MSG_RESP_OUTPUT_DONE VDEC_ERR_ILLEGAL_OP (BufData d),
                        HI_FAILURE) in
  '(c, found) ← channel_lookup_addr_table c d;
  match found with
  | None => refuse c
  | Some n =>
      c ← alter_buf c n (fun b => b <| offset := d.(data_offset) |> <| act_len := 0 |>);
      '(c, ret) ← channel_insert_in_yuv_list c n;
      if negb (ret =? HI_SUCCESS) then refuse c else Some (c, HI_SUCCESS)
  end.

(** ** Flushing *)

(** What the user is told of a buffer given back unused: a cleared description
    with these fields. *)
Definition returned_desc p (b : OMXVDEC_BUF_S) : OMXVDEC_BUF_DESC :=
  zero_desc <| dir := dir_of p |> <| bufferaddr := b.(user_vaddr) |>
    <| buffer_len := b.(buf_len) |> <| d_client_data := b.(client_data) |>
    <| data_len := 0 |> <| timestamp := 0 |>.

Definition flush_in_one c n : option OMXVDEC_CHAN_CTX :=
  b ← node_buf c n;
  if decide (b.(status) = BUF_STATE_USING) then Some c else
  c ← alter_buf c n (fun b => b <| status := BUF_STATE_IDLE |>);
  c ← on_links c (fun m => list_del m n);
  if negb (b.(buf_id) =? LAST_FRAME_BUF_ID) then
    c ← alter_buf c n (fun b => b <| act_len := 0 |>);
    Some (message_queue c VDEC_MSG_RESP_INPUT_DONE VDEC_S_SUCCESS (BufData (returned_desc IN b)))
  else Some (c <| eos_in_list := false |>).

Definition channel_flush_in_port c : option (OMXVDEC_CHAN_CTX * Z) :=
  c ← list_for_each_entry_safe links flush_in_one (QHead IN) c;
  let c := if c.(inp).(use_cnt) >? 0
           then on_port IN (fun P => P <| flush_pending := true |>) c
           else message_queue c VDEC_MSG_RESP_FLUSH_INPUT_DONE VDEC_S_SUCCESS NoData in
  let c := if c.(inp).(flush_pending) then post c (VFMW RELEASE_STREAM) else c in
  Some (c, HI_SUCCESS).

Definition flush_out_one c n : option OMXVDEC_CHAN_CTX :=
  b ← node_buf c n;
  if decide (b.(status) = BUF_STATE_USING) then Some c else
  c ← alter_buf c n (fun b => b <| status := BUF_STATE_IDLE |>);
  c ← on_links c (fun m => list_del m n);
  Some (message_queue c VDEC_MSG_RESP_OUTPUT_DONE VDEC_S_SUCCESS (BufData (returned_desc OUT b))).

(** The reset of the decoder, VPSS and the time-stamp recovery; [a_vpss] and
    [a_vfmw] are the answers of the first two. *)
Definition channel_reset_inst c (t : chan_table) (a_vpss a_vfmw : Z)
    : option (OMXVDEC_CHAN_CTX * chan_table * Z) :=
  let c := c <| reset_pending := true |> in
  let c := post c (VPSS VPSS_RESET) in
  let c := post c (VFMW RESET_CHAN_WITH_OPTION) in
  '(t, _) ← OMX_PTSREC_Reset t c.(channel_id);
  Some (c <| reset_pending := false |>, t, a_vfmw).

Definition channel_flush_out_port c (t : chan_table) (a_vpss a_vfmw : Z)
    : option (OMXVDEC_CHAN_CTX * chan_table * Z) :=
  '(c, t) ← (if c.(recfg_flag) then Some (c <| recfg_flag := false |>, t) else
             '(c, t, _) ← channel_reset_inst c t a_vpss a_vfmw;
             Some (c <| seek_pending := true |>, t));
  c ← list_for_each_entry_safe links flush_out_one (QHead OUT) c;
  let c := if c.(outp).(use_cnt) >? 0
           then on_port OUT (fun P => P <| flush_pending := true |>) c
           else message_queue c VDEC_MSG_RESP_FLUSH_OUTPUT_DONE VDEC_S_SUCCESS NoData in
  Some (c, t, HI_SUCCESS).

(** The port argument is copied from user memory. *)
Definition channel_flush_inst c (t : chan_table) (which a_vpss a_vfmw : Z)
    : option (OMXVDEC_CHAN_CTX * chan_table * Z) :=
  '(c, ret_in) ← (if (which =? PORT_DIR_INPUT) || (which =? PORT_DIR_BOTH)
                  then channel_flush_in_port c else Some (c, HI_SUCCESS));
  '(c, t, ret_out) ← (if (which =? PORT_DIR_OUTPUT) || (which =? PORT_DIR_BOTH)
                      then channel_flush_out_port c t a_vpss a_vfmw
                      else Some (c, t, HI_SUCCESS));
  Some (c, t, Z.lor ret_in ret_out).

Definition channel_report_message c (code : Z) (data : msgdata) : OMXVDEC_CHAN_CTX * Z :=
  (message_queue c code VDEC_S_SUCCESS data, HI_SUCCESS).

Definition channel_check_avaible_frame_buffer c : option Z :=
  found ← list_find_entry c.(links) (QHead OUT)
            (fun n => b ← node_buf c n; Some (bool_decide (b.(status) = BUF_STATE_QUEUED)));
  match found with Some _ => Some HI_SUCCESS | None => Some HI_FAILURE end.

(** ** The state of a channel *)

(** Commands to the decoder firmware and to VPSS; [a] is their answer. *)
Definition decoder_start_inst c (a : Z) : OMXVDEC_CHAN_CTX * Z := (post c (VFMW START_CHAN), a).
Definition decoder_stop_inst c (a : Z) : OMXVDEC_CHAN_CTX * Z := (post c (VFMW STOP_CHAN), a).

Definition processor_start_inst c (a_enable a_start : Z) : OMXVDEC_CHAN_CTX * Z :=
  let c := post c (VPSS (STOREPRIV c.(bStorePrivateData))) in
  let c := post c (VPSS (ENABLE_PORT true)) in
  if negb (a_enable =? HI_SUCCESS) then (c, HI_FAILURE) else
  let c := post c (VPSS VPSS_START) in
  if negb (a_start =? HI_SUCCESS) then (c, HI_FAILURE) else (c, HI_SUCCESS).

Definition processor_stop_inst c (a_disable a_stop : Z) : OMXVDEC_CHAN_CTX * Z :=
  let c := post c (VPSS (ENABLE_PORT false)) in
  if negb (a_disable =? HI_SUCCESS) then (c, HI_FAILURE) else
  let c := post c (VPSS VPSS_STOP) in
  if negb (a_stop =? HI_SUCCESS) then (c, HI_FAILURE) else (c, HI_SUCCESS).

(** The answers of the hardware during a start or a stop. *)
Record hw_answers := mkAns {
  a_dec : Z;       (* decoder started or stopped *)
  a_port : Z;      (* VPSS port enabled or disabled *)
  a_proc : Z;      (* VPSS started or stopped *)
  a_undo : Z;      (* decoder stopped after VPSS failed to start *)
}.

Definition channel_start_inst c (t : chan_table) (a : hw_answers)
    : option (OMXVDEC_CHAN_CTX * chan_table * Z) :=
  let done c t ret st :=
    Some (message_queue c VDEC_MSG_RESP_START_DONE st NoData, t, ret) in
  if decide (c.(state) = CHAN_STATE_WORK) then done c t HI_FAILURE VDEC_S_FAILED else
  let c := if lowdelay_on c then c <| lowdelay_rec ::= fmap start_delay |> else c in
  let '(c, ret) := decoder_start_inst c a.(a_dec) in
  if negb (ret =? HI_SUCCESS) then done c t ret VDEC_S_FAILED else
  let '(c, ret) := processor_start_inst c a.(a_port) a.(a_proc) in
  if negb (ret =? HI_SUCCESS) then
    let '(c, ret) := decoder_stop_inst c a.(a_undo) in done c t ret VDEC_S_FAILED
  else
  '(t, _) ← OMX_PTSREC_Start t c.(channel_id);
  done (c <| state := CHAN_STATE_WORK |>) t ret VDEC_S_SUCCESS.

Definition channel_stop_inst c (t : chan_table) (a : hw_answers)
    : option (OMXVDEC_CHAN_CTX * chan_table * Z) :=
  if decide (c.(state) = CHAN_STATE_IDLE) then
    Some (message_queue c VDEC_MSG_RESP_STOP_DONE VDEC_ERR_BAD_STATE NoData, t, HI_FAILURE)
  else
  let c := c <| state := CHAN_STATE_IDLE |> in
  let '(c, ret1) := decoder_stop_inst c a.(a_dec) in
  let '(c, ret2) := processor_stop_inst c a.(a_port) a.(a_proc) in
  let st := if negb (ret1 =? HI_SUCCESS) || negb (ret2 =? HI_SUCCESS)
            then VDEC_ERR_HW_FATAL else VDEC_S_SUCCESS in
  '(t, _) ← OMX_PTSREC_Stop t c.(channel_id);
  Some (message_queue c VDEC_MSG_RESP_STOP_DONE st NoData, t, HI_SUCCESS).

Definition channel_pause_inst c : OMXVDEC_CHAN_CTX * Z :=
  if decide (c.(state) = CHAN_STATE_WORK) then
    let c := c <| state := CHAN_STATE_PAUSE |> in
    if 0 =? c.(outp).(use_cnt)
    then (message_queue c VDEC_MSG_RESP_PAUSE_DONE VDEC_S_SUCCESS NoData, HI_SUCCESS)
    else (c <| pause_pending := true |>, HI_SUCCESS)
  else (message_queue c VDEC_MSG_RESP_PAUSE_DONE VDEC_ERR_BAD_STATE NoData, HI_FAILURE).

Definition channel_resume_inst c : OMXVDEC_CHAN_CTX * Z :=
  if decide (c.(state) = CHAN_STATE_PAUSE) then
    let c := if c.(pause_pending) then c <| pause_pending := false |> else c in
    let c := c <| state := CHAN_STATE_WORK |> in
    (message_queue c VDEC_MSG_RESP_RESUME_DONE VDEC_S_SUCCESS NoData, HI_SUCCESS)
  else (message_queue c VDEC_MSG_RESP_RESUME_DONE VDEC_ERR_BAD_STATE NoData, HI_FAILURE).
End Channel.
