(* ===== verification/OmxHw.v ===== *)
(** * The hardware side of a decoder channel

    Models the callbacks of omxvdec/decoder_vfmw.c and processor_vpss.c: the
    decoder firmware takes stream buffers from a channel and returns them, VPSS
    takes frame buffers, reports pictures in them or gives them back. What the
    firmware and VPSS answer is an argument. *)

From S2P Require Import Prelude KList FrameRate PtsRec OmxDelay OmxChan.

Definition STD_H264 : Z := 0.
Definition STD_H263 : Z := 4.
Definition STD_VP6 : Z := 10.
Definition STD_VP6F : Z := 11.
Definition STD_VP6A : Z := 12.
Definition STD_SORENSON : Z := 14.
Definition STD_MVC : Z := 15.
Definition STD_MJPEG : Z := 21.

Definition LAST_FRAME_FLAG_NULL : Z := 0.
Definition DECODER_REPORT_LAST_FRAME : Z := 1.
Definition PROCESSOR_GOT_LAST_FRAME : Z := 2.
Definition REPORT_LAST_FRAME_SUCCESS : Z := 0.
Definition REPORT_LAST_FRAME_FAIL : Z := 1.
Definition REPORT_LAST_FRAME_WITH_ID : Z := 2.

(** What the decoder is given of a stream buffer. *)
Record STREAM_DATA_S := mkStream {
  PhyAddr : Z;
  VirAddr : Z;
  Length : Z;
  Pts : Z;
  RawFlags : Z;
  BufLen : Z;
  CfgWidth : Z;
  CfgHeight : Z;
  UserTag : Z;
  IsSeekPending : bool;
  is_not_last_packet_flag : bool;
  is_stream_end_flag : bool;
}.

#[export] Instance stream_fields : Fields STREAM_DATA_S := fun r =>
  mkStream r.(PhyAddr) r.(VirAddr) r.(Length) r.(Pts) r.(RawFlags) r.(BufLen) r.(CfgWidth)
    r.(CfgHeight) r.(UserTag) r.(IsSeekPending) r.(is_not_last_packet_flag)
    r.(is_stream_end_flag).

(** A frame buffer as VPSS gets it. *)
Record EXTERNAL_FRAME_STORE_S := mkStore {
  fs_PhyAddr : Z; fs_VirAddr : Z; fs_Length : Z; PrivatePhyAddr : Z; PrivateLength : Z;
}.

(** The fields of a video frame that are read when VPSS reports it. *)
Record report_frame := mkReport {
  r_addr_Y : Z;        (* stBufAddr[0] *)
  r_addr_C : Z;
  r_stride_Y : Z;
  r_addr1_Y : Z;       (* stBufAddr[1], the right eye *)
  r_addr1_C : Z;
  r_stride1_Y : Z;
  r_width : Z;
  r_height : Z;
  r_index : Z;
  r_tunnel : Z;
  r_rate : Z;
  r_pts : Z;
  r_last : Z;          (* u32LastFlag *)
  r_stereo : bool;     (* eFrmType is not HI_DRV_FT_NOT_STEREO *)
  r_tag : Z;           (* u32Usertag *)
}.

#[export] Instance report_fields : Fields report_frame := fun r =>
  mkReport r.(r_addr_Y) r.(r_addr_C) r.(r_stride_Y) r.(r_addr1_Y) r.(r_addr1_C)
    r.(r_stride1_Y) r.(r_width) r.(r_height) r.(r_index) r.(r_tunnel) r.(r_rate) r.(r_pts)
    r.(r_last) r.(r_stereo) r.(r_tag).

Definition zero_report : report_frame := mkReport 0 0 0 0 0 0 0 0 0 0 0 0 0 false 0.

Section Hardware.
Context {C : HiConsts} {E : OmxEnv}.
Implicit Types (c : OMXVDEC_CHAN_CTX) (d : OMXVDEC_BUF_DESC) (n : node).

(** [raw_use_cnt] and [yuv_use_cnt] stay at zero when they are zero. *)
Definition drop_use (P : PORT) : PORT :=
  P <| use_cnt ::= fun u => if u >? 0 then u - 1 else 0 |>.

Definition count_use (P : PORT) : PORT := P <| use_cnt ::= fun u => u +u 1 |>.

(** The address the hardware knows a buffer by. *)
Definition hw_addr (b : OMXVDEC_BUF_S) : Z := b.(phy_addr) +u b.(offset).

(** ** The decoder takes a stream buffer *)

Definition stream_of c (b : OMXVDEC_BUF_S) : STREAM_DATA_S :=
  mkStream (hw_addr b) (b.(kern_vaddr) +u b.(offset)) b.(act_len) b.(time_stamp) b.(flags)
    b.(buf_len) c.(out_width) c.(out_height) b.(usr_tag) c.(seek_pending)
    (Z.land b.(flags) VDEC_BUFFERFLAG_ENDOFFRAME =? 0)
    (b.(buf_id) =? LAST_FRAME_BUF_ID).

(** The end marker is appended to the last packet of a frame, if it fits. *)
Definition add_end_flag c (s : STREAM_DATA_S) : OMXVDEC_CHAN_CTX * STREAM_DATA_S :=
  if (negb (c.(bLowdelay) =? 0) || g_FastOutputMode)
     && negb s.(is_not_last_packet_flag) && (c.(protocol) =? STD_H264)
  then if (s.(Length) +u 16) >? s.(BufLen) then (c, s)
       else (post c (WRITE_END (s.(VirAddr) +u s.(Length)) 16),
             s <| Length := s.(Length) +u 16 |>)
  else (c, s).

Definition get_stream c (now : Z) : option (OMXVDEC_CHAN_CTX * option STREAM_DATA_S * Z) :=
  if negb (bool_decide (c.(state) = CHAN_STATE_WORK)) then Some (c, None, HI_FAILURE) else
  empty ← list_empty c.(links) (QHead IN);
  if (empty : bool) then Some (c, None, HI_FAILURE) else
  if c.(inp).(flush_pending) then Some (c, None, HI_FAILURE) else
  found ← list_find_entry c.(links) (QHead IN)
            (fun n => b ← node_buf c n; Some (negb (bool_decide (b.(status) = BUF_STATE_USING))));
  match found with
  | None => Some (c, None, HI_FAILURE)
  | Some n =>
      b ← node_buf c n;
      c ← set_buf c n (b <| status := BUF_STATE_USING |>);
      let s := stream_of c b in
      let c := if c.(seek_pending) then c <| seek_pending := false |> else c in
      let c := on_port IN count_use c in
      c ← (if lowdelay_on c
           then add_tag_time c s.(UserTag) OMX_LOWDELAY_REC_VFMW_RCV_STRM_TIME now else Some c);
      let c := c <| omx_chan_statinfo ::= fun i => i <| DecoderIn ::= fun k => k +u 1 |> |> in
      let '(c, s) := add_end_flag c s in
      Some (c, Some s, HI_SUCCESS)
  end.

(** The node that the hardware's address names. *)
Definition find_hw (c : OMXVDEC_CHAN_CTX) (p : port_dir) (addr : Z) : option (option node) :=
  list_find_entry c.(links) (QHead p) (fun n => b ← node_buf c n; Some (addr =? hw_addr b)).

(** The decoder returns it; [stack] is what the description holds before its
    fields are set. *)
Definition release_stream c (addr tag : Z) (stack : OMXVDEC_BUF_DESC) (now : Z)
    : option (OMXVDEC_CHAN_CTX * Z) :=
  empty ← list_empty c.(links) (QHead IN);
  if (empty : bool) then Some (c, 0) else
  found ← find_hw c IN addr;
  match found with
  | None => Some (c, HI_FAILURE)
  | Some n =>
      c ← alter_buf c n (fun b => b <| status := BUF_STATE_IDLE |>);
      c ← on_links c (fun m => list_del m n);
      b ← node_buf c n;
      c ← (if negb (b.(buf_id) =? LAST_FRAME_BUF_ID) then
             c ← alter_buf c n (fun b => b <| act_len := 0 |>);
             Some (message_queue c VDEC_MSG_RESP_INPUT_DONE VDEC_S_SUCCESS
                     (BufData (stack <| dir := PORT_DIR_INPUT |> <| bufferaddr := b.(user_vaddr) |>
                                 <| buffer_len := b.(buf_len) |>
                                 <| d_client_data := b.(client_data) |> <| data_len := 0 |>
                                 <| timestamp := 0 |> <| phyaddr := b.(phy_addr) |>)))
           else Some (c <| eos_in_list := false |>));
      let c := on_port IN drop_use c in
      let c := if c.(inp).(flush_pending) && (c.(inp).(use_cnt) =? 0)
               then on_port IN (fun P => P <| flush_pending := false |>)
                      (message_queue c VDEC_MSG_RESP_FLUSH_INPUT_DONE VDEC_S_SUCCESS NoData)
               else c in
      c ← (if lowdelay_on c
           then add_tag_time c tag OMX_LOWDELAY_REC_VFMW_RLS_STRM_TIME now else Some c);
      Some (c, HI_SUCCESS)
  end.

(** ** VPSS takes, returns and reports frame buffers *)

Definition processor_get_frame c (expect_length : Z)
    : option (OMXVDEC_CHAN_CTX * option EXTERNAL_FRAME_STORE_S * Z) :=
  if negb (bool_decide (c.(state) = CHAN_STATE_WORK)) then Some (c, None, HI_FAILURE) else
  if c.(outp).(flush_pending) then Some (c, None, HI_FAILURE) else
  empty ← list_empty c.(links) (QHead OUT);
  if (empty : bool) then Some (c, None, HI_FAILURE) else
  found ← list_find_entry c.(links) (QHead OUT)
            (fun n => b ← node_buf c n;
               Some (negb (bool_decide (b.(status) = BUF_STATE_USING))
                     && negb (expect_length >? b.(buf_len))));
  match found with
  | None => Some (c, None, HI_FAILURE)
  | Some n =>
      b ← node_buf c n;
      c ← set_buf c n (b <| status := BUF_STATE_USING |>);
      let fs := mkStore (hw_addr b) (b.(kern_vaddr) +u b.(offset)) b.(buf_len)
                  b.(private_phy_addr) b.(private_len) in
      Some (on_port OUT count_use c, Some fs, HI_SUCCESS)
  end.

(** A flush or a pause that waited for the last buffer in use is done. *)
Definition finish_pending c : OMXVDEC_CHAN_CTX :=
  if 0 =? c.(outp).(use_cnt) then
    let c := if c.(outp).(flush_pending)
             then on_port OUT (fun P => P <| flush_pending := false |>)
                    (message_queue c VDEC_MSG_RESP_FLUSH_OUTPUT_DONE VDEC_S_SUCCESS NoData)
             else c in
    if c.(pause_pending)
    then (message_queue c VDEC_MSG_RESP_PAUSE_DONE VDEC_S_SUCCESS NoData)
           <| pause_pending := false |>
    else c
  else c.

(** Returning an unused buffer, in two parts: the list's lock is released
    between them. The first marks the buffer, the second counts it and unlinks it
    or queues it again. *)
Definition release_frame_mark c (addr : Z) : option (OMXVDEC_CHAN_CTX * (node + Z)) :=
  if addr =? 0 then Some (c, inr HI_FAILURE) else
  empty ← list_empty c.(links) (QHead OUT);
  if (empty : bool) then Some (c, inr 0) else
  found ← find_hw c OUT addr;
  match found with
  | None => Some (c, inr HI_FAILURE)
  | Some n => c ← alter_buf c n (fun b => b <| status := BUF_STATE_IDLE |>); Some (c, inl n)
  end.

Definition release_frame_finish c n : option (OMXVDEC_CHAN_CTX * Z) :=
  let c := on_port OUT drop_use c in
  if c.(outp).(flush_pending) || c.(pause_pending) then
    c ← on_links c (fun m => list_del m n);
    b ← node_buf c n;
    let c := message_queue c VDEC_MSG_RESP_OUTPUT_DONE VDEC_S_SUCCESS
               (BufData (returned_desc OUT b)) in
    Some (finish_pending c, HI_SUCCESS)
  else
    c ← alter_buf c n (fun b => b <| status := BUF_STATE_QUEUED |>);
    Some (c, HI_SUCCESS).

Definition processor_release_frame c (addr : Z) : option (OMXVDEC_CHAN_CTX * Z) :=
  '(c, r) ← release_frame_mark c addr;
  match r with inl n => release_frame_finish c n | inr ret => Some (c, ret) end.

(** What the user is told of a picture. *)
Definition report_desc c (b : OMXVDEC_BUF_S) (f : report_frame) (eos : bool) : OMXVDEC_BUF_DESC :=
  let pending := c.(outp).(flush_pending) in
  mkDesc f.(r_addr_Y) b.(buf_len) 0
    (if pending then 0 else ((f.(r_stride_Y) *u f.(r_height)) *u 3) / 2) 0 0
    (if eos then Z.lor VDEC_BUFFERFLAG_ENDOFFRAME VDEC_BUFFERFLAG_EOS
     else VDEC_BUFFERFLAG_ENDOFFRAME)
    (if pending then 0 else f.(r_pts)) 0 PORT_DIR_OUTPUT
    (mkOutFrame f.(r_addr_Y) f.(r_addr_C) f.(r_stride_Y) f.(r_width) f.(r_height) g_SaveYuvEnable)
    b.(user_vaddr) b.(client_data) f.(r_index) f.(r_tunnel) f.(r_rate).

Definition processor_report_frame c (f : report_frame) : option (OMXVDEC_CHAN_CTX * Z) :=
  if f.(r_addr_Y) =? 0 then Some (c, HI_FAILURE) else
  empty ← list_empty c.(links) (QHead OUT);
  if (empty : bool) then Some (c, HI_FAILURE) else
  found ← find_hw c OUT f.(r_addr_Y);
  match found with
  | None => Some (c, HI_FAILURE)
  | Some n =>
      c ← alter_buf c n (fun b => b <| status := BUF_STATE_IDLE |>);
      c ← on_links c (fun m => list_del m n);
      b ← node_buf c n;
      let eos := (c.(last_frame_info0) =? PROCESSOR_GOT_LAST_FRAME)
                 && (f.(r_last) =? LAST_FRAME_FLAG) in
      let desc := report_desc c b f eos in
      c ← alter_buf c n (fun b => b <| act_len := desc.(data_len) |>);
      let c := if eos then c <| last_frame_info0 := LAST_FRAME_FLAG_NULL |>
                             <| eof_send_flag ::= fun x => (x + 1) mod 2 |> else c in
      let c := message_queue c VDEC_MSG_RESP_OUTPUT_DONE VDEC_S_SUCCESS (BufData desc) in
      Some (finish_pending (on_port OUT drop_use c), HI_SUCCESS)
  end.

(** ** The events of VPSS *)

Definition HI_OMX_GET_STRIDE (w : Z) : Z := Z.land (w +u 15) (Z.lnot 15).
Definition DEFAULT_FRAME_SIZE (w h : Z) : Z := ((w *u h) *u 3) / 2.

Record HI_DRV_VPSS_FRMBUF_S := mkFrmBuf {
  hPort : Z;
  u32FrmW : Z;
  u32FrmH : Z;
  u32Stride : Z;
  u32StartPhyAddr : Z;
  u32StartVirAddr : Z;
  u32PrivDataPhyAddr : Z;
  u32PrivDataSize : Z;
}.

#[export] Instance frmbuf_fields : Fields HI_DRV_VPSS_FRMBUF_S := fun r =>
  mkFrmBuf r.(hPort) r.(u32FrmW) r.(u32FrmH) r.(u32Stride) r.(u32StartPhyAddr)
    r.(u32StartVirAddr) r.(u32PrivDataPhyAddr) r.(u32PrivDataSize).

Definition port_matches c (h : Z) : bool :=
  (PORTHANDLE_TO_VPSSID h =? c.(processor_id)) && (h =? c.(port_id)).

(** A new picture size is reported to the user, and no buffer is given. *)
Definition report_size c (w h : Z) : OMXVDEC_CHAN_CTX :=
  let s := if c.(m_use_native_buf) then HI_SYS_GET_STRIDE w else HI_OMX_GET_STRIDE w in
  let c := c <| out_width := w |> <| out_height := h |> <| out_stride := s |>
             <| recfg_flag := true |> in
  fst (channel_report_message c VDEC_EVT_REPORT_IMG_SIZE_CHG (ImgSize w h s)).

Definition processor_get_frame_buffer c (f : HI_DRV_VPSS_FRMBUF_S)
    : option (OMXVDEC_CHAN_CTX * HI_DRV_VPSS_FRMBUF_S * Z) :=
  if negb (port_matches c f.(hPort)) then Some (c, f, HI_FAILURE) else
  if negb (f.(u32FrmW) =? c.(out_width)) || negb (f.(u32FrmH) =? c.(out_height))
  then Some (report_size c f.(u32FrmW) f.(u32FrmH), f, HI_FAILURE) else
  if negb (c.(out_stride) >=? c.(out_width)) then Some (c, f, HI_FAILURE) else
  let f := f <| u32Stride := c.(out_stride) |> in
  '(c, fs, ret) ← processor_get_frame c (DEFAULT_FRAME_SIZE f.(u32Stride) f.(u32FrmH));
  match fs with
  | None => Some (c, f, HI_FAILURE)
  | Some fs =>
      if negb (fs.(fs_PhyAddr) =? 0) && negb (fs.(fs_VirAddr) =? 0)
      then Some (c, f <| u32StartPhyAddr := fs.(fs_PhyAddr) |>
                      <| u32StartVirAddr := fs.(fs_VirAddr) |>
                      <| u32PrivDataPhyAddr := fs.(PrivatePhyAddr) |>
                      <| u32PrivDataSize := fs.(PrivateLength) |>, HI_SUCCESS)
      else Some (c, f, HI_SUCCESS)
  end.

(** The argument is read both as a frame description (its last-frame flag) and as
    a frame buffer (its address). *)
Definition processor_release_frame_buffer c (port last addr : Z)
    : option (OMXVDEC_CHAN_CTX * Z) :=
  if negb (port_matches c port) then Some (c, HI_FAILURE) else
  let c := if (c.(last_frame_info0) =? PROCESSOR_GOT_LAST_FRAME) && (last =? LAST_FRAME_FLAG)
           then c <| last_frame_info0 := LAST_FRAME_FLAG_NULL |> else c in
  '(c, ret) ← processor_release_frame c addr;
  if negb (ret =? HI_SUCCESS) then Some (c, HI_FAILURE) else Some (c, HI_SUCCESS).

(** A stereo picture is two buffers: the second address is reported as a frame
    of its own. *)
Definition processor_report_new_frame c (port : Z) (f : report_frame) (now : Z)
    : option (OMXVDEC_CHAN_CTX * Z) :=
  if negb (port_matches c port) then Some (c, HI_FAILURE) else
  '(c, ret) ← processor_report_frame c f;
  if negb (ret =? HI_SUCCESS) then Some (c, HI_FAILURE) else
  '(c, ret) ← (if f.(r_stereo)
               then processor_report_frame c
                      (f <| r_addr_Y := f.(r_addr1_Y) |> <| r_addr_C := f.(r_addr1_C) |>
                         <| r_stride_Y := f.(r_stride1_Y) |>)
               else Some (c, ret));
  if negb (ret =? HI_SUCCESS) then Some (c, HI_FAILURE) else
  c ← (if lowdelay_on c
       then add_tag_time c f.(r_tag) OMX_LOWDELAY_REC_VPSS_RPO_IMG_TIME now else Some c);
  Some (c <| omx_chan_statinfo ::= fun i => i <| ProcessorOut ::= fun k => k +u 1 |> |>,
        HI_SUCCESS).

(** A made-up last frame is reported in any free buffer. While there is none the
    thread sleeps; [others k] is what happens to the channel during the sleep
    after the [k]-th failure. It gives up after 501 of them. *)
Fixpoint last_frame_loop (fuel : nat) (others : Z -> OMXVDEC_CHAN_CTX -> OMXVDEC_CHAN_CTX)
    c (FailedNum : Z) : option (OMXVDEC_CHAN_CTX * Z) :=
  match fuel with
  | O => None
  | S fuel =>
      '(c, fs, ret) ← processor_get_frame c 0;
      match fs with
      | Some fs =>
          '(c, _) ← processor_report_frame c
                      (zero_report <| r_last := LAST_FRAME_FLAG |>
                                   <| r_addr_Y := fs.(fs_PhyAddr) |>);
          Some (c, HI_SUCCESS)
      | None =>
          let FailedNum := FailedNum + 1 in
          let c := others FailedNum c in
          if FailedNum >? 500 then Some (c, HI_FAILURE)
          else last_frame_loop fuel others c FailedNum
      end
  end.

Definition processor_report_last_frame c others := last_frame_loop 501 others c 0.

Inductive vpss_event :=
| EV_CHECK_FRAMEBUFFER
| EV_BUFLIST_FULL
| EV_GET_FRMBUFFER (f : HI_DRV_VPSS_FRMBUF_S)
| EV_REL_FRMBUFFER (port last addr : Z)
| EV_NEW_FRAME (port : Z) (f : report_frame).

(** What the handler writes back into its argument. *)
Inductive vpss_reply := NoReply | Available (b : bool) | FrmBuf (f : HI_DRV_VPSS_FRMBUF_S).

Definition vpss_event_on c (ev : vpss_event) (now : Z)
    : option (OMXVDEC_CHAN_CTX * vpss_reply * Z) :=
  match ev with
  | EV_CHECK_FRAMEBUFFER =>
      ret ← channel_check_avaible_frame_buffer c;
      Some (c, Available (ret =? HI_SUCCESS), HI_SUCCESS)
  | EV_BUFLIST_FULL => Some (c, NoReply, HI_SUCCESS)
  | EV_GET_FRMBUFFER f =>
      '(c, f, ret) ← processor_get_frame_buffer c f;
      Some (c, FrmBuf f, if negb (ret =? HI_SUCCESS) then HI_FAILURE else HI_SUCCESS)
  | EV_REL_FRMBUFFER port last addr =>
      '(c, ret) ← processor_release_frame_buffer c port last addr;
      Some (c, NoReply, if negb (ret =? HI_SUCCESS) then HI_FAILURE else HI_SUCCESS)
  | EV_NEW_FRAME port f =>
      '(c, ret) ← processor_report_new_frame c port f now;
      Some (c, NoReply, if negb (ret =? HI_SUCCESS) then HI_FAILURE else HI_SUCCESS)
  end.

(** ** The events of the decoder *)

Inductive decoder_event :=
| EVNT_NEW_IMAGE (tag : option Z)           (* the image's tag; no image: None *)
| EVNT_NEED_ARRANGE (num size now : Z)
| EVNT_LAST_FRAME (report : option Z)
| EVNT_OTHER.

(** [a] is VPSS's answer to [IMAGEREADY]. *)
Definition processor_inform_img_ready c (a : Z) : OMXVDEC_CHAN_CTX * Z :=
  (post c (VPSS IMAGEREADY), a).

Definition decoder_event_on c (ev : decoder_event) (now a : Z) : option (OMXVDEC_CHAN_CTX * Z) :=
  match ev with
  | EVNT_NEW_IMAGE None => Some (c, HI_SUCCESS)
  | EVNT_NEW_IMAGE (Some tag) =>
      c ← (if lowdelay_on c
           then add_tag_time c tag OMX_LOWDELAY_REC_VFMW_RPO_IMG_TIME now else Some c);
      let c := c <| omx_chan_statinfo ::= fun i => i <| DecoderOut ::= fun k => k +u 1 |> |> in
      Some (processor_inform_img_ready c a)
  | EVNT_NEED_ARRANGE num size stamp =>
      Some (c <| dfs_alloc_flag := DFS_WAIT_ALLOC |> <| dfs_delay_time := stamp |>
              <| ref_frame_num := num |> <| ref_frame_size := size |>, HI_SUCCESS)
  | EVNT_LAST_FRAME None => Some (c, HI_FAILURE)
  | EVNT_LAST_FRAME (Some r) =>
      let c := c <| last_frame_info0 := DECODER_REPORT_LAST_FRAME |>
                 <| last_frame_info1 := u8 r |> in
      Some (if (r =? REPORT_LAST_FRAME_SUCCESS) || (r =? REPORT_LAST_FRAME_FAIL) then c
            else c <| last_frame_info1 := REPORT_LAST_FRAME_WITH_ID |>
                   <| last_frame_image_id := u8 r |>, HI_SUCCESS)
  | EVNT_OTHER => Some (c, HI_SUCCESS)
  end.
End Hardware.
