(* ===== verification/OmxQueue.v ===== *)
(** * The queues of a decoder channel

    The invariant of a channel's tables and queues, as an abstract state [q]:
    the sequence of nodes queued at each port. Every call of the user and of the
    hardware is defined on a channel with the invariant, keeps it, and changes the
    sequences as stated. *)

From S2P Require Import Prelude KList FrameRate PtsRec OmxDelay OmxChan OmxHw.

(** ** Everything of a channel but its buffers *)

Definition no_table (P : PORT) : PORT := P <| buf_table := [] |>.

Definition frame (c : OMXVDEC_CHAN_CTX) : OMXVDEC_CHAN_CTX :=
  c <| inp ::= no_table |> <| outp ::= no_table |> <| last_frame := zero_buf |>.

Section Frame.
Implicit Types (c : OMXVDEC_CHAN_CTX) (p : port_dir) (n : node).

(** A field that is no buffer is a function of the frame. *)
Lemma frame_get {T} (f : OMXVDEC_CHAN_CTX -> T) c c' :
  (forall c, f (frame c) = f c) -> frame c' = frame c -> f c' = f c.
Proof. intros Hf E. by rewrite <- (Hf c'), E. Qed.

Definition num p c : Z := (port p c).(buf_num).
Definition max_num p c : Z := (port p c).(max_buf_num).
Definition uses p c : Z := (port p c).(use_cnt).
Definition pending p c : bool := (port p c).(flush_pending).

Lemma frame_num p c : num p (frame c) = num p c.
Proof. by destruct p. Qed.
Lemma frame_max p c : max_num p (frame c) = max_num p c.
Proof. by destruct p. Qed.
Lemma frame_uses p c : uses p (frame c) = uses p c.
Proof. by destruct p. Qed.
Lemma frame_pending p c : pending p (frame c) = pending p c.
Proof. by destruct p. Qed.

Lemma frame_nums c c' :
  frame c' = frame c ->
  forall p, num p c' = num p c /\ max_num p c' = max_num p c /\ uses p c' = uses p c
    /\ pending p c' = pending p c.
Proof.
  intros E p. split_and!.
  - by rewrite <- (frame_num p c), <- E, frame_num.
  - by rewrite <- (frame_max p c), <- E, frame_max.
  - by rewrite <- (frame_uses p c), <- E, frame_uses.
  - by rewrite <- (frame_pending p c), <- E, frame_pending.
Qed.

Lemma port_on p p' f c :
  port p (on_port p' f c) = if decide (p = p') then f (port p c) else port p c.
Proof. by destruct p, p'. Qed.

Lemma set_buf_ok c n b b0 :
  node_buf c n = Some b0 ->
  exists c', set_buf c n b = Some c' /\ frame c' = frame c
    /\ (forall n', node_buf c' n' = if decide (n' = n) then Some b else node_buf c n').
Proof.
  intros Hn. destruct n as [p|p i|]; simpl in *; [done| |].
  - pose proof (arr_get_Some _ _ _ Hn) as Hi. rewrite arr_set_in by done. simpl.
    eexists. split; [done|]. split; [by destruct p|].
    intros [p'|p' j|]; simpl; [done| |by destruct p].
    rewrite port_on. destruct (decide (p' = p)) as [->|Hp].
    + simpl. destruct (decide (Slot p j = Slot p i)) as [[= ->]|Hj].
      * by rewrite arr_get_set_eq.
      * apply arr_get_set_ne; [lia|congruence].
    + by rewrite decide_False by congruence.
  - eexists. split; [done|]. split; [done|]. intros [p'|p' j|]; simpl; [done| |done].
    by destruct p'.
Qed.

Lemma alter_buf_ok c n f b :
  node_buf c n = Some b ->
  exists c', alter_buf c n f = Some c' /\ frame c' = frame c
    /\ (forall n', node_buf c' n' = if decide (n' = n) then Some (f b) else node_buf c n').
Proof.
  intros Hn. unfold alter_buf. rewrite Hn. simpl. by eapply set_buf_ok.
Qed.

(** A change of a channel that is none to its buffers. *)
Lemma node_buf_tables c c' :
  (forall p, (port p c').(buf_table) = (port p c).(buf_table)) -> last_frame c' = last_frame c ->
  forall n, node_buf c' n = node_buf c n.
Proof. intros Ht Hl [|p i|]; simpl; [done|by rewrite Ht|by rewrite Hl]. Qed.
End Frame.

(** Everything but the buffers, the list nodes, the events and the flag of the
    end of the stream. *)
Definition rest (c : OMXVDEC_CHAN_CTX) : OMXVDEC_CHAN_CTX :=
  (frame c) <| links := ∅ |> <| trace := [] |> <| eos_in_list := false |>.

Lemma rest_frame c c' : frame c' = frame c -> rest c' = rest c.
Proof. unfold rest. by intros ->. Qed.

Lemma rest_nums c c' :
  rest c' = rest c ->
  forall p, num p c' = num p c /\ max_num p c' = max_num p c /\ uses p c' = uses p c
    /\ pending p c' = pending p c.
Proof.
  intros E p. pose proof (f_equal (port p) E) as Hp.
  pose proof (f_equal buf_num Hp). pose proof (f_equal max_buf_num Hp).
  pose proof (f_equal use_cnt Hp). pose proof (f_equal flush_pending Hp).
  destruct p; split_and!; done.
Qed.

(** Fields that are no buffers, carried over an equality of frames. *)
Ltac framed E :=
  lazymatch type of E with
  | frame ?c' = frame ?c =>
      pose proof (f_equal links E : links c' = links c);
      pose proof (f_equal trace E : trace c' = trace c);
      pose proof (f_equal eos_in_list E : eos_in_list c' = eos_in_list c);
      pose proof (f_equal lowdelay_rec E : lowdelay_rec c' = lowdelay_rec c);
      pose proof (frame_nums c c' E)
  end.

(** ** The invariant *)

Section Invariant.
Context {C : HiConsts} {E : OmxEnv}.
Implicit Types (c : OMXVDEC_CHAN_CTX) (p : port_dir) (n : node) (q : port_dir -> list node).

(** A bound buffer is with the user, or queued and not yet back. *)
Record slot_ok (b : OMXVDEC_BUF_S) (i : Z) (queued : Prop) : Prop := {
  so_bound : b.(status) <> BUF_STATE_INVALID;
  so_idle : b.(status) = BUF_STATE_IDLE <-> ~ queued;
  so_id : b.(buf_id) = i;
}.

Record queues_ok c q : Prop := {
  qo_list : forall p, is_list c.(links) (QHead p) (q p);
  qo_dom : forall n b, node_buf c n = Some b -> n ∈ dom c.(links);
  qo_size : forall p, 0 <= num p c <= max_num p c;
  qo_slots : forall p i, is_Some (node_buf c (Slot p i)) <-> 0 <= i < max_num p c;
  qo_node : forall p n, n ∈ q p ->
    (n = LastFrame /\ p = IN) \/ exists i, n = Slot p i /\ 0 <= i < num p c;
  qo_buf : forall p i b, 0 <= i < num p c -> node_buf c (Slot p i) = Some b ->
    slot_ok b i (Slot p i ∈ q p);
  qo_addr : forall p i j bi bj, 0 <= i < num p c -> 0 <= j < num p c ->
    node_buf c (Slot p i) = Some bi -> node_buf c (Slot p j) = Some bj ->
    bi.(phy_addr) = bj.(phy_addr) -> i = j;
  qo_last : c.(eos_in_list) = true <-> LastFrame ∈ q IN;
  qo_last_buf : LastFrame ∈ q IN ->
    (c.(last_frame).(status) = BUF_STATE_QUEUED \/ c.(last_frame).(status) = BUF_STATE_USING)
    /\ c.(last_frame).(buf_id) = LAST_FRAME_BUF_ID;
  qo_last_addr : forall i b, 0 <= i < num IN c -> node_buf c (Slot IN i) = Some b ->
    b.(phy_addr) <> c.(last_frame).(phy_addr);
  qo_last_id : max_num IN c <= LAST_FRAME_BUF_ID;
  qo_small : forall p, max_num p c < 2147483648;
  qo_delay : forall r, c.(lowdelay_rec) = Some r -> length r.(time_record) = 11%nat;
}.

Definition upd p (l : list node) q : port_dir -> list node :=
  fun p' => if decide (p' = p) then l else q p'.

Lemma upd_eq p l q : upd p l q p = l.
Proof. unfold upd. by rewrite decide_True. Qed.
Lemma upd_ne p p' l q : p' <> p -> upd p l q p' = q p'.
Proof. intros. unfold upd. by rewrite decide_False. Qed.

Lemma upd_upd p l l0 q p' : upd p l (upd p l0 q) p' = upd p l q p'.
Proof. unfold upd. by destruct (decide _). Qed.

(** A node that may be queued at a port. *)
Definition legit c p n : Prop :=
  (n = LastFrame /\ p = IN) \/ exists i, n = Slot p i /\ 0 <= i < num p c.

Section Given.
Context c q (Hok : queues_ok c q).

Lemma legit_buf p n : legit c p n -> exists b, node_buf c n = Some b.
Proof.
  intros [[-> _]|(i & -> & Hi)]; [by eexists|].
  apply (qo_slots _ _ Hok). pose proof (qo_size _ _ Hok p). lia.
Qed.

Lemma queued_buf p n : n ∈ q p -> exists b, node_buf c n = Some b.
Proof. intros Hn. by eapply legit_buf, (qo_node _ _ Hok). Qed.

Lemma legit_port p p' n : legit c p n -> legit c p' n -> p = p'.
Proof. intros [[-> ->]|(i & -> & _)] [[? ->]|(j & ? & _)]; congruence. Qed.

Lemma queued_other p p' n : legit c p n -> p' <> p -> n ∉ q p'.
Proof.
  intros Hl Hp Hn. apply Hp. symmetry. eapply legit_port; [done|]. by apply (qo_node _ _ Hok).
Qed.

Lemma legit_head p p' n : legit c p n -> n <> QHead p'.
Proof. intros [[-> _]|(i & -> & _)]; congruence. Qed.

Lemma queue_nodup p : NoDup (q p).
Proof. destruct (qo_list _ _ Hok p) as [Hnd _]. by apply NoDup_cons in Hnd as [_ ?]. Qed.

Lemma queue_short p : Z.of_nat (length (q p)) <= num p c + 1.
Proof.
  assert (Hs : q p ⊆ LastFrame :: map (fun k => Slot p (Z.of_nat k)) (seq 0 (Z.to_nat (num p c)))).
  { intros n Hn. destruct (qo_node _ _ Hok p n Hn) as [[-> _]|(i & -> & Hi)]; [set_solver|].
    right. apply list_elem_of_In, in_map_iff. exists (Z.to_nat i).
    split; [by rewrite Z2Nat.id by lia|]. apply in_seq. lia. }
  pose proof (submseteq_length _ _ (NoDup_submseteq _ _ (queue_nodup p) Hs)) as Hl.
  simpl in Hl. rewrite length_map, length_seq in Hl.
  pose proof (qo_size _ _ Hok p). lia.
Qed.

(** A search of a queue by a test on the buffers. *)
Lemma find_queued p (test : OMXVDEC_BUF_S -> bool) :
  list_find_entry c.(links) (QHead p) (fun n => b ← node_buf c n; Some (test b))
  = Some (List.find (fun n => from_option test false (node_buf c n)) (q p)).
Proof.
  eapply list_find_entry_ok; [apply (qo_list _ _ Hok)|].
  intros n Hn. by destruct (queued_buf p n Hn) as [b ->].
Qed.

Lemma queue_empty p : list_empty c.(links) (QHead p) = Some (bool_decide (q p = [])).
Proof. apply list_empty_ok, (qo_list _ _ Hok). Qed.
End Given.

(** One node changes: its buffer keeps its address and its number, and it may
    enter or leave the queue of its port. *)
Lemma move_ok c c' q q' p n b b' :
  queues_ok c q -> legit c p n -> node_buf c n = Some b ->
  (forall p, num p c' = num p c /\ max_num p c' = max_num p c) ->
  dom c'.(links) = dom c.(links) ->
  (forall r, c'.(lowdelay_rec) = Some r -> length r.(time_record) = 11%nat) ->
  (forall n', node_buf c' n' = if decide (n' = n) then Some b' else node_buf c n') ->
  b'.(phy_addr) = b.(phy_addr) ->
  (n = LastFrame \/ b'.(buf_id) = b.(buf_id)) ->
  (forall p', is_list c'.(links) (QHead p') (q' p')) ->
  (forall p', p' <> p -> q' p' = q p') ->
  (forall n', n' <> n -> n' ∈ q' p <-> n' ∈ q p) ->
  b'.(status) <> BUF_STATE_INVALID ->
  (b'.(status) = BUF_STATE_IDLE <-> n ∉ q' p) ->
  (c'.(eos_in_list) = true <-> LastFrame ∈ q' IN) ->
  (n = LastFrame -> LastFrame ∈ q' IN -> b'.(buf_id) = LAST_FRAME_BUF_ID) ->
  queues_ok c' q'.
Proof.
  intros Hok Hleg Hn Hnum Hdom Hrec Hbuf Hphy Hid Hlist Hother Hin Hst Hidle Heos Hlid.
  assert (Hsame : forall n0 b0, node_buf c' n0 = Some b0 ->
            exists b1, node_buf c n0 = Some b1 /\ b0.(phy_addr) = b1.(phy_addr)).
  { intros n0 b0. rewrite Hbuf. case_decide; [|eauto]. intros [= <-]. subst. eauto. }
  assert (Hlast : (LastFrame = n /\ last_frame c' = b' /\ b = last_frame c)
                  \/ (LastFrame <> n /\ last_frame c' = last_frame c)).
  { specialize (Hbuf LastFrame). simpl in Hbuf.
    destruct (decide (LastFrame = n)) as [<-|]; [left|right]; simpl in *; naive_solver. }
  assert (Hlphy : phy_addr (last_frame c') = phy_addr (last_frame c)).
  { destruct Hlast as [(_ & -> & ->)|[_ ->]]; done. }
  split.
  - done.
  - intros n0 b0 Hb. rewrite Hdom. destruct (Hsame _ _ Hb) as (b1 & Hb1 & _).
    by eapply (qo_dom _ _ Hok).
  - intros p0. destruct (Hnum p0) as [-> ->]. apply (qo_size _ _ Hok).
  - intros p0 i. destruct (Hnum p0) as [_ ->]. rewrite <- (qo_slots _ _ Hok), Hbuf.
    case_decide; [subst; rewrite Hn; split; eauto|done].
  - intros p0 n0 Hn0. destruct (Hnum p0) as [-> _]. fold (legit c p0 n0).
    destruct (decide (p0 = p)) as [->|]; [|rewrite Hother in Hn0 by done; by apply (qo_node _ _ Hok)].
    destruct (decide (n0 = n)) as [->|]; [done|].
    apply (qo_node _ _ Hok), Hin; done.
  - intros p0 i b0. destruct (Hnum p0) as [-> _]. intros Hi. rewrite Hbuf.
    case_decide as Hd; [intros [= <-]|intros Hb].
    + subst n. destruct Hleg as [[? _]|(j & [= <- <-] & _)]; [done|].
      destruct Hid as [?|Hid]; [done|].
      destruct (qo_buf _ _ Hok p0 i b Hi Hn) as [_ _ ?].
      split; [done| |congruence]. by rewrite Hidle.
    + destruct (qo_buf _ _ Hok p0 i b0 Hi Hb) as [H1 H2 H3]. split; [done| |done].
      rewrite H2. destruct (decide (p0 = p)) as [->|]; [by rewrite Hin|by rewrite Hother].
  - intros p0 i j bi bj. destruct (Hnum p0) as [-> _]. intros Hi Hj Hbi Hbj Heq.
    destruct (Hsame _ _ Hbi) as (bi' & ? & ?), (Hsame _ _ Hbj) as (bj' & ? & ?).
    eapply (qo_addr _ _ Hok p0 i j bi' bj'); [done..|congruence].
  - done.
  - intros Hq. destruct Hlast as [(<- & -> & ->)|[Hd ->]].
    + split; [|by apply Hlid].
      destruct Hleg as [[_ ->]|(? & ? & _)]; [|done].
      destruct (b'.(status)) eqn:Eb; [done| |by left|by right].
      by destruct (proj1 Hidle eq_refl).
    + apply (qo_last_buf _ _ Hok). destruct (decide (p = IN)) as [->|].
      * by apply Hin.
      * by rewrite <- Hother by congruence.
  - intros i b0 Hi Hb. destruct (Hnum IN) as [Hn1 _]. rewrite Hn1 in Hi.
    destruct (Hsame _ _ Hb) as (b1 & Hb1 & ->). rewrite Hlphy.
    by eapply (qo_last_addr _ _ Hok).
  - destruct (Hnum IN) as [_ ->]. apply (qo_last_id _ _ Hok).
  - intros p'. destruct (Hnum p') as [_ ->]. apply (qo_small _ _ Hok).
  - done.
Qed.

(** ** Rings of nodes

    The two queues as lists of nodes, each of the nodes of its own port. *)

Definition home n : option port_dir :=
  match n with Slot p _ => Some p | LastFrame => Some IN | QHead _ => None end.

Record rings (m : gmap node (list_head node)) q : Prop := {
  rg_list : forall p, is_list m (QHead p) (q p);
  rg_home : forall p n, n ∈ q p -> home n = Some p;
}.

Lemma legit_home c p n : legit c p n -> home n = Some p.
Proof. intros [[-> ->]|(i & -> & _)]; done. Qed.

Lemma rings_ok c q : queues_ok c q -> rings c.(links) q.
Proof.
  intros Hok. split; [apply (qo_list _ _ Hok)|].
  intros p n Hn. apply (legit_home c). by apply (qo_node _ _ Hok).
Qed.

Lemma rings_ext m q q' : (forall p, q' p = q p) -> rings m q -> rings m q'.
Proof.
  intros Hq [H1 H2]. split; intros p; rewrite Hq; [apply H1|apply H2].
Qed.

Section Rings.
Context m q (Hr : rings m q).

(** Where a ring's nodes are not. *)
Lemma ring_apart p p' x : p' <> p -> x ∈ QHead p' :: q p' -> x ∉ QHead p :: q p.
Proof.
  intros Hp Hx Hx'. pose proof (rg_home _ _ Hr p x). pose proof (rg_home _ _ Hr p' x).
  apply elem_of_cons in Hx, Hx'. destruct Hx as [->|Hx], Hx' as [Hx'|Hx']; naive_solver.
Qed.

Lemma rings_add p n :
  home n = Some p -> n ∉ q p -> n ∈ dom m ->
  exists m', list_add_tail m n (QHead p) = Some m' /\ dom m' = dom m
    /\ rings m' (upd p (q p ++ [n]) q).
Proof.
  intros Hh Hn Hd.
  destruct (list_add_tail_ok m n (QHead p) (q p) (rg_list _ _ Hr p)) as (m' & E' & D & L' & F).
  { apply not_elem_of_cons. split; [by intros ->|done]. }
  { done. }
  exists m'. split_and!; [done|done|]. split; intros p';
    (destruct (decide (p' = p)) as [->|Hp]; [rewrite upd_eq|rewrite upd_ne by done]).
  - done.
  - eapply is_list_same; [|apply (rg_list _ _ Hr)]. intros x Hx. apply F.
    intros [->|Hx']%elem_of_cons; [|by eapply (ring_apart p p')].
    apply elem_of_cons in Hx as [->|Hx]; [done|]. apply (rg_home _ _ Hr) in Hx. congruence.
  - intros x [Hx| ->%list_elem_of_singleton]%elem_of_app; [by apply (rg_home _ _ Hr)|done].
  - apply (rg_home _ _ Hr).
Qed.

Lemma rings_del p n l1 l2 :
  q p = l1 ++ n :: l2 ->
  exists m', list_del m n = Some m' /\ dom m' = dom m /\ rings m' (upd p (l1 ++ l2) q).
Proof.
  intros Hq. pose proof (rg_list _ _ Hr p) as Hl. rewrite Hq in Hl.
  destruct (list_del_ok _ _ _ _ _ Hl) as (m' & E' & D & L' & F).
  exists m'. split_and!; [done|done|]. split; intros p';
    (destruct (decide (p' = p)) as [->|Hp]; [rewrite upd_eq|rewrite upd_ne by done]).
  - done.
  - eapply is_list_same; [|apply (rg_list _ _ Hr)]. intros x Hx. apply F. rewrite <- Hq.
    by eapply (ring_apart p p').
  - intros x Hx. apply (rg_home _ _ Hr). rewrite Hq. set_solver.
  - apply (rg_home _ _ Hr).
Qed.

(** A node that is in no queue may be overwritten. *)
Lemma rings_insert n v p : home n = Some p -> n ∉ q p -> rings (<[n := v]> m) q.
Proof.
  intros Hh Hn. split; [|apply (rg_home _ _ Hr)]. intros p'.
  eapply is_list_same; [|apply (rg_list _ _ Hr)]. intros x Hx. apply lookup_insert_ne. intros ->.
  apply elem_of_cons in Hx as [->|Hx]; [done|].
  pose proof (rg_home _ _ Hr _ _ Hx). congruence.
Qed.
End Rings.

Lemma links_add c q p n :
  queues_ok c q -> legit c p n -> n ∉ q p ->
  exists m', list_add_tail c.(links) n (QHead p) = Some m' /\ dom m' = dom c.(links)
    /\ forall p', is_list m' (QHead p') (upd p (q p ++ [n]) q p').
Proof.
  intros Hok Hl Hn. destruct (legit_buf _ _ Hok p n Hl) as [b Hb].
  destruct (rings_add _ _ (rings_ok _ _ Hok) p n) as (m' & E' & D & R).
  - by eapply legit_home.
  - done.
  - by eapply (qo_dom _ _ Hok).
  - exists m'. split_and!; [done|done|apply R].
Qed.

Lemma links_del c q p n l1 l2 :
  queues_ok c q -> q p = l1 ++ n :: l2 ->
  exists m', list_del c.(links) n = Some m' /\ dom m' = dom c.(links)
    /\ forall p', is_list m' (QHead p') (upd p (l1 ++ l2) q p').
Proof.
  intros Hok Hq. destruct (rings_del _ _ (rings_ok _ _ Hok) p n l1 l2 Hq) as (m' & E' & D & R).
  exists m'. split_and!; [done|done|apply R].
Qed.

(** Nothing of the buffers and the queues changes. *)
Lemma queues_ok_same c c' q :
  queues_ok c q ->
  (forall n, node_buf c' n = node_buf c n) -> c'.(links) = c.(links) ->
  (forall p, num p c' = num p c /\ max_num p c' = max_num p c) ->
  c'.(eos_in_list) = c.(eos_in_list) ->
  (forall r, c'.(lowdelay_rec) = Some r -> length r.(time_record) = 11%nat) ->
  queues_ok c' q.
Proof.
  intros Hok Hbuf Hl Hnum Heos Hrec.
  assert (Hlast : last_frame c' = last_frame c).
  { specialize (Hbuf LastFrame). simpl in Hbuf. congruence. }
  split.
  - intros p. rewrite Hl. apply (qo_list _ _ Hok).
  - intros n b. rewrite Hbuf, Hl. apply (qo_dom _ _ Hok).
  - intros p. destruct (Hnum p) as [-> ->]. apply (qo_size _ _ Hok).
  - intros p i. destruct (Hnum p) as [_ ->]. rewrite Hbuf. apply (qo_slots _ _ Hok).
  - intros p n. destruct (Hnum p) as [-> _]. apply (qo_node _ _ Hok).
  - intros p i b. destruct (Hnum p) as [-> _]. rewrite Hbuf. apply (qo_buf _ _ Hok).
  - intros p i j bi bj. destruct (Hnum p) as [-> _]. rewrite !Hbuf. apply (qo_addr _ _ Hok).
  - rewrite Heos. apply (qo_last _ _ Hok).
  - rewrite Hlast. apply (qo_last_buf _ _ Hok).
  - intros i b. destruct (Hnum IN) as [-> _]. rewrite Hbuf, Hlast. apply (qo_last_addr _ _ Hok).
  - destruct (Hnum IN) as [_ ->]. apply (qo_last_id _ _ Hok).
  - intros p'. destruct (Hnum p') as [_ ->]. apply (qo_small _ _ Hok).
  - done.
Qed.

(** ** Submitting a buffer *)

Lemma find_none (test : node -> bool) (l : list node) :
  (forall n, n ∈ l -> test n = false) -> List.find test l = None.
Proof.
  induction l as [|x l IH]; intros H; simpl; [done|].
  rewrite H by set_solver. apply IH. set_solver.
Qed.

Lemma find_split (test : node -> bool) (l : list node) n :
  List.find test l = Some n ->
  exists l1 l2, l = l1 ++ n :: l2 /\ test n = true /\ forall m, m ∈ l1 -> test m = false.
Proof.
  induction l as [|x l IH]; simpl; [done|]. destruct (test x) eqn:Hx.
  - intros [= <-]. exists [], l. split_and!; [done|done|]. intros m Hm. by apply elem_of_nil in Hm.
  - intros (l1 & l2 & -> & Hn & Hl)%IH. exists (x :: l1), l2. split_and!; [done|done|].
    intros m [->|Hm]%elem_of_cons; auto.
Qed.

(** Two queued buffers, or a queued one and a bound one, with one address are
    the same. *)
Lemma same_addr c q p n m b bm :
  queues_ok c q -> legit c p n -> legit c p m ->
  node_buf c n = Some b -> node_buf c m = Some bm -> b.(phy_addr) = bm.(phy_addr) -> n = m.
Proof.
  intros Hok Hn Hm Hb Hbm He.
  destruct Hn as [[-> ->]|(i & -> & Hi)], Hm as [[-> Hp]|(j & -> & Hj)]; [done| | |].
  - exfalso. eapply (qo_last_addr _ _ Hok j bm); [done|done|]. simpl in Hb. congruence.
  - subst. exfalso. eapply (qo_last_addr _ _ Hok i b); [done|done|]. simpl in Hbm. congruence.
  - f_equal. by eapply (qo_addr _ _ Hok p i j).
Qed.

Lemma find_by_addr c q p n b :
  queues_ok c q -> legit c p n -> node_buf c n = Some b ->
  list_find_entry c.(links) (QHead p)
    (fun m => e ← node_buf c m; Some (b.(phy_addr) =? e.(phy_addr)))
  = Some (if decide (n ∈ q p) then Some n else None).
Proof.
  intros Hok Hl Hb. rewrite (find_queued _ _ Hok p (fun e => b.(phy_addr) =? e.(phy_addr))).
  f_equal.
  assert (Ht : forall m, m ∈ q p ->
            from_option (fun e => b.(phy_addr) =? e.(phy_addr)) false (node_buf c m)
            = bool_decide (m = n)).
  { intros m Hm. destruct (queued_buf _ _ Hok p m Hm) as [bm Hbm]. rewrite Hbm. simpl.
    destruct (Z.eqb_spec b.(phy_addr) bm.(phy_addr)) as [He|He].
    - symmetry. apply bool_decide_eq_true. symmetry.
      eapply (same_addr c q p); [done|done|by apply (qo_node _ _ Hok)|done..].
    - symmetry. apply bool_decide_eq_false. intros ->. congruence. }
  case_decide as Hin.
  - apply list_elem_of_split in Hin as (l1 & l2 & Hq).
    pose proof (queue_nodup _ _ Hok p) as Hnd. rewrite Hq in Ht, Hnd |- *.
    rewrite NoDup_app, NoDup_cons in Hnd. destruct Hnd as (_ & Hd & _).
    clear Hq. induction l1 as [|x l1 IH]; simpl.
    + rewrite Ht by set_solver. by rewrite bool_decide_true.
    + rewrite Ht by set_solver. rewrite bool_decide_false by (intros ->; set_solver).
      apply IH; [intros m Hm; apply Ht; set_solver|set_solver].
  - apply find_none. intros m Hm. rewrite Ht by done. apply bool_decide_eq_false.
    intros ->. done.
Qed.

Lemma insert_in_list_ok c q p i b :
  queues_ok c q -> 0 <= i < num p c -> node_buf c (Slot p i) = Some b ->
  (Slot p i ∈ q p -> channel_insert_in_list c p (Slot p i) = Some (c, HI_FAILURE))
  /\ (Slot p i ∉ q p ->
      exists c', channel_insert_in_list c p (Slot p i) = Some (c', HI_SUCCESS)
        /\ queues_ok c' (upd p (q p ++ [Slot p i]) q)
        /\ rest c' = rest c /\ trace c' = trace c /\ c'.(eos_in_list) = c.(eos_in_list)
        /\ forall n, node_buf c' n =
             if decide (n = Slot p i) then Some (b <| status := BUF_STATE_QUEUED |>)
             else node_buf c n).
Proof.
  intros Hok Hi Hb. assert (Hl : legit c p (Slot p i)) by (right; eauto).
  unfold channel_insert_in_list. rewrite (queue_empty _ _ Hok). cbn [mbind option_bind].
  rewrite Hb. cbn [mbind option_bind]. rewrite (find_by_addr c q p (Slot p i) b Hok Hl Hb).
  split; intros Hq.
  - rewrite bool_decide_eq_false_2 by (intros H0; rewrite H0 in Hq; set_solver).
    by rewrite decide_True.
  - rewrite decide_False by done.
    replace (if bool_decide (q p = []) then Some None else Some (None (A := node)))
      with (Some (None (A := node))) by (by case_bool_decide).
    cbn [mbind option_bind].
    destruct (alter_buf_ok c (Slot p i) (fun b => b <| status := BUF_STATE_QUEUED |>) b Hb)
      as (c1 & -> & Hf & Hbuf). cbn [mbind option_bind]. framed Hf.
    destruct (links_add c q p (Slot p i) Hok Hl Hq) as (m' & Em & Dm & Lm).
    unfold on_links. rewrite H, Em. cbn [mbind option_bind].
    eexists. split; [done|]. split; [|split_and!; [by apply rest_frame in Hf|done|done|]].
    2: { intros n. rewrite <- Hbuf. by apply node_buf_tables; [intros []|]. }
    eapply (move_ok c _ q _ p (Slot p i) b (b <| status := BUF_STATE_QUEUED |>)); try done.
    + intros p'. destruct (H3 p') as (? & ? & _). by destruct p'.
    + simpl. rewrite H2. apply (qo_delay _ _ Hok).
    + by right.
    + intros p' Hp. by rewrite upd_ne.
    + intros n' Hn'. rewrite upd_eq. set_solver.
    + rewrite upd_eq. simpl. split; [done|set_solver].
    + simpl. rewrite H1. rewrite (qo_last _ _ Hok). unfold upd. case_decide; [subst|done].
      set_solver.
Qed.
End Invariant.

(** ** What a call leaves alone *)

Section Quiet.
Context {C : HiConsts} {E : OmxEnv}.
Implicit Types (c : OMXVDEC_CHAN_CTX) (p : port_dir) (n : node) (q : port_dir -> list node).

Definition delay_ok c : Prop :=
  forall r, c.(lowdelay_rec) = Some r -> length r.(time_record) = 11%nat.

(** What no call on a channel changes but its creation and its release. *)
Definition fixed c : Z * Z * Z * Z * Z * bool :=
  (c.(file_dec), c.(decoder_id), c.(processor_id), c.(port_id), c.(bLowdelay),
   match c.(lowdelay_rec) with Some _ => true | None => false end).

(** The counters and the state are the same. *)
Record calm c c' : Prop := {
  cm_num : forall p, num p c' = num p c;
  cm_max : forall p, max_num p c' = max_num p c;
  cm_uses : forall p, uses p c' = uses p c;
  cm_pending : forall p, pending p c' = pending p c;
  cm_state : c'.(state) = c.(state);
  cm_pause : c'.(pause_pending) = c.(pause_pending);
  cm_id : c'.(channel_id) = c.(channel_id);
  cm_fixed : fixed c' = fixed c;
  cm_delay : delay_ok c' <-> delay_ok c;
}.

(** What the invariant and the accounts say of a buffer. *)
Definition core (b : OMXVDEC_BUF_S) : eBUFFER_STATE * Z * Z * Z :=
  (b.(status), b.(phy_addr), b.(buf_id), b.(client_data)).

(** Nothing of the queues has changed. *)
Record quiet c c' : Prop := {
  qt_calm : calm c c';
  qt_core : forall n, core <$> node_buf c' n = core <$> node_buf c n;
  qt_links : c'.(links) = c.(links);
  qt_eos : c'.(eos_in_list) = c.(eos_in_list);
}.

#[export] Instance calm_equiv : Equivalence calm.
Proof.
  split.
  - intros c. by split.
  - intros c c' []. by split.
  - intros c1 c2 c3 [] []. split; intros; try congruence. tauto.
Qed.

#[export] Instance quiet_equiv : Equivalence quiet.
Proof.
  split.
  - intros c. by split.
  - intros c c' []. by split.
  - intros c1 c2 c3 [H1 H2 H3 H4] [H1' H2' H3' H4'].
    split; [by transitivity c2|intros n; by rewrite H2'|congruence|congruence].
Qed.

Lemma rest_calm c c' : rest c' = rest c -> calm c c'.
Proof.
  intros Er. pose proof (rest_nums _ _ Er) as Hn. split; try (intros p; apply (Hn p)).
  - exact (f_equal state Er).
  - exact (f_equal pause_pending Er).
  - exact (f_equal channel_id Er).
  - exact (f_equal fixed Er).
  - pose proof (f_equal lowdelay_rec Er) as Hl. unfold delay_ok.
    change (lowdelay_rec c' = lowdelay_rec c) in Hl. by rewrite Hl.
Qed.

Lemma quiet_ok c c' q : queues_ok c q -> quiet c c' -> queues_ok c' q.
Proof.
  intros Hok [Hcalm Hcore Hl Heos].
  assert (Hbuf : forall n b', node_buf c' n = Some b' ->
            exists b, node_buf c n = Some b /\ core b' = core b).
  { intros n b' Hb. specialize (Hcore n). rewrite Hb in Hcore.
    destruct (node_buf c n) as [b|]; [|done]. injection Hcore as ????. exists b. split; [done|].
    unfold core. congruence. }
  assert (Hlast : core (last_frame c') = core (last_frame c)).
  { specialize (Hcore LastFrame). by injection Hcore as [=]; unfold core; congruence. }
  split.
  - intros p. rewrite Hl. apply (qo_list _ _ Hok).
  - intros n b (b0 & Hb & _)%Hbuf. rewrite Hl. by eapply (qo_dom _ _ Hok).
  - intros p. rewrite (cm_num _ _ Hcalm), (cm_max _ _ Hcalm). apply (qo_size _ _ Hok).
  - intros p i. rewrite (cm_max _ _ Hcalm), <- (qo_slots _ _ Hok).
    by rewrite <- (fmap_is_Some core), Hcore, fmap_is_Some.
  - intros p n. rewrite (cm_num _ _ Hcalm). apply (qo_node _ _ Hok).
  - intros p i b. rewrite (cm_num _ _ Hcalm). intros Hi (b0 & Hb & [= E1 E2 E3 E4])%Hbuf.
    destruct (qo_buf _ _ Hok p i b0 Hi Hb). by split; rewrite ?E1, ?E3.
  - intros p i j bi bj. rewrite (cm_num _ _ Hcalm).
    intros Hi Hj (b1 & Hb1 & [= _ E1 _ _])%Hbuf (b2 & Hb2 & [= _ E2 _ _])%Hbuf ?.
    eapply (qo_addr _ _ Hok p i j b1 b2); [done..|congruence].
  - rewrite Heos. apply (qo_last _ _ Hok).
  - injection Hlast as E1 _ E3 _. rewrite E1, E3. apply (qo_last_buf _ _ Hok).
  - intros i b. rewrite (cm_num _ _ Hcalm). intros Hi (b1 & Hb1 & [= _ E1 _ _])%Hbuf.
    injection Hlast as _ E2 _ _. rewrite E1, E2. by eapply (qo_last_addr _ _ Hok).
  - rewrite (cm_max _ _ Hcalm). apply (qo_last_id _ _ Hok).
  - intros p. rewrite (cm_max _ _ Hcalm). apply (qo_small _ _ Hok).
  - exact (proj2 (cm_delay _ _ Hcalm) (qo_delay _ _ Hok)).
Qed.

(** A change of a buffer that its core does not show. *)
Lemma benign_ok c n b f :
  node_buf c n = Some b -> core (f b) = core b ->
  exists c', alter_buf c n f = Some c' /\ quiet c c' /\ trace c' = trace c
    /\ frame c' = frame c
    /\ forall n', node_buf c' n' = if decide (n' = n) then Some (f b) else node_buf c n'.
Proof.
  intros Hb Hf. destruct (alter_buf_ok c n f b Hb) as (c' & E' & Hfr & Hbuf).
  exists c'. split_and!; [done| |exact (f_equal trace Hfr)|done|done].
  split.
  - by apply rest_calm, rest_frame.
  - intros n'. rewrite Hbuf. destruct (decide (n' = n)) as [->|]; [|done].
    rewrite Hb. simpl. by rewrite Hf.
  - exact (f_equal links Hfr).
  - exact (f_equal eos_in_list Hfr).
Qed.

(** A channel whose buffers, lists and counters are those of another. *)
Lemma quiet_same c c' :
  (forall n, node_buf c' n = node_buf c n) -> links c' = links c ->
  eos_in_list c' = eos_in_list c -> calm c c' -> quiet c c'.
Proof. intros Hb ???. split; try done. intros n. by rewrite Hb. Qed.

Lemma post_quiet c e : quiet c (post c e).
Proof.
  apply quiet_same; [by apply node_buf_tables; [intros []|]|done..|].
  by split.
Qed.

(** ** Accounts *)

(** The user's tags of the queued buffers. *)
Definition owes c n : list Z :=
  match n with
  | Slot _ _ => option_list (client_data <$> node_buf c n)
  | _ => []
  end.

Definition owed c (l : list node) : list Z := flat_map (owes c) l.

(** The buffers the hardware has. *)
Definition in_use c n : bool :=
  from_option (fun b => bool_decide (b.(status) = BUF_STATE_USING)) false (node_buf c n).

Definition taken c (l : list node) : Z := Z.of_nat (length (List.filter (in_use c) l)).

Lemma owed_app c l1 l2 : owed c (l1 ++ l2) = owed c l1 ++ owed c l2.
Proof. apply flat_map_app. Qed.

Lemma taken_app c l1 l2 : taken c (l1 ++ l2) = taken c l1 + taken c l2.
Proof. unfold taken. rewrite List.filter_app, length_app. lia. Qed.

Lemma taken_cons c n l : taken c (n :: l) = (if in_use c n then 1 else 0) + taken c l.
Proof. unfold taken. simpl. destruct (in_use c n); simpl; lia. Qed.

Lemma taken_nonneg c l : 0 <= taken c l.
Proof. unfold taken. lia. Qed.

Lemma owed_ext c c' l :
  (forall n, n ∈ l -> core <$> node_buf c' n = core <$> node_buf c n) -> owed c' l = owed c l.
Proof.
  intros Hc. unfold owed. induction l as [|n l IH]; simpl; [done|].
  rewrite IH by set_solver. f_equal. specialize (Hc n ltac:(set_solver)).
  destruct n as [|p i|]; [done| |done]. unfold owes.
  unfold core in Hc. destruct (node_buf c' _), (node_buf c _); simplify_eq/=; congruence.
Qed.

Lemma taken_ext c c' l :
  (forall n, n ∈ l -> core <$> node_buf c' n = core <$> node_buf c n) -> taken c' l = taken c l.
Proof.
  intros Hc. induction l as [|n l IH]; [done|]. rewrite !taken_cons, IH by set_solver.
  assert (in_use c' n = in_use c n) as ->; [|done].
  specialize (Hc n ltac:(set_solver)). unfold in_use, core in *.
  destruct (node_buf c' n), (node_buf c n); simpl in *; try done.
  injection Hc as -> _ _ _. done.
Qed.
End Quiet.
