(* ===== verification/OmxCalls.v ===== *)
(** * Every call on a decoder channel

    Each call of the user and of the hardware, on a channel with the invariant
    of OmxQueue.v: it is defined, it keeps the invariant, and it keeps two
    accounts. Of the buffers: what was submitted is queued or was given back.
    Of the hardware: the counters count the buffers it has. *)

From S2P Require Import Prelude KList FrameRate PtsRec OmxDelay OmxChan OmxHw OmxQueue.

(** The message that gives a buffer of a port back. *)
Definition done_code (p : port_dir) : Z :=
  match p with IN => VDEC_MSG_RESP_INPUT_DONE | OUT => VDEC_MSG_RESP_OUTPUT_DONE end.

Definition flushed_code (p : port_dir) : Z :=
  match p with IN => VDEC_MSG_RESP_FLUSH_INPUT_DONE | OUT => VDEC_MSG_RESP_FLUSH_OUTPUT_DONE end.

(** The user's tags of the buffers that a sequence of events gives back. *)
Definition back (p : port_dir) (e : event) : list Z :=
  match e with
  | MSG code st (BufData d) =>
      if (code =? done_code p) && (st =? VDEC_S_SUCCESS) then [d.(d_client_data)] else []
  | _ => []
  end.

Definition returned (p : port_dir) (evs : list event) : list Z := flat_map (back p) evs.

Section Effects.
Context {C : HiConsts} {E : OmxEnv}.
Implicit Types (c : OMXVDEC_CHAN_CTX) (p : port_dir) (n : node) (q : port_dir -> list node).

Lemma returned_app p l1 l2 : returned p (l1 ++ l2) = returned p l1 ++ returned p l2.
Proof. apply flat_map_app. Qed.

(** From [c] and [q] to [c'] and [q'], [acc] being the tags of the buffers that
    the call accepted: every buffer is accounted for. *)
Definition balanced c q c' q' (acc : port_dir -> list Z) : Prop :=
  exists evs, trace c' = trace c ++ evs
    /\ forall p, owed c' (q' p) ++ returned p evs ≡ₚ owed c (q p) ++ acc p.

Definition nothing : port_dir -> list Z := fun _ => [].

(** The counters of the hardware's buffers are right, and a flush or a pause only
    waits while there are any. *)
Record counted c q : Prop := {
  ct_uses : forall p, uses p c = taken c (q p);
  ct_pending : forall p, pending p c = true -> 0 < uses p c;
  ct_pause : c.(pause_pending) = true -> 0 < uses OUT c;
}.

Lemma quiet_owed c c' l : quiet c c' -> owed c' l = owed c l.
Proof. intros H. apply owed_ext. intros n _. apply (qt_core _ _ H). Qed.

Lemma quiet_taken c c' l : quiet c c' -> taken c' l = taken c l.
Proof. intros H. apply taken_ext. intros n _. apply (qt_core _ _ H). Qed.

Lemma quiet_balanced c c' q :
  quiet c c' -> trace c' = trace c -> balanced c q c' q nothing.
Proof.
  intros Hq Ht. exists []. split; [by rewrite app_nil_r|]. intros p.
  unfold nothing. simpl. by rewrite (quiet_owed _ _ _ Hq).
Qed.

(** A quiet call that posts events. *)
Lemma quiet_post_balanced c c' q evs acc :
  quiet c c' -> trace c' = trace c ++ evs -> (forall p, returned p evs = acc p) ->
  balanced c q c' q acc.
Proof.
  intros Hq Ht Hr. exists evs. split; [done|]. intros p.
  by rewrite (quiet_owed _ _ _ Hq), Hr.
Qed.

Lemma balanced_trans c1 q1 c2 q2 c3 q3 a1 a2 :
  balanced c1 q1 c2 q2 a1 -> balanced c2 q2 c3 q3 a2 ->
  balanced c1 q1 c3 q3 (fun p => a1 p ++ a2 p).
Proof.
  intros (e1 & T1 & B1) (e2 & T2 & B2). exists (e1 ++ e2).
  split; [by rewrite T2, T1, app_assoc|]. intros p.
  rewrite returned_app, (app_assoc (owed c1 _)), <- (B1 p).
  rewrite (Permutation_app_comm (owed c2 _)), <- app_assoc, <- (B2 p).
  rewrite !app_assoc. apply Permutation_app_tail. solve_Permutation.
Qed.

Lemma counted_calm c c' q :
  counted c q -> calm c c' -> (forall p, taken c' (q p) = taken c (q p)) -> counted c' q.
Proof.
  intros [H1 H2 H3] Hc Ht. split.
  - intros p. by rewrite (cm_uses _ _ Hc), Ht.
  - intros p. rewrite (cm_uses _ _ Hc), (cm_pending _ _ Hc). apply H2.
  - rewrite (cm_uses _ _ Hc), (cm_pause _ _ Hc). apply H3.
Qed.

Lemma counted_quiet c c' q : counted c q -> quiet c c' -> counted c' q.
Proof.
  intros Hct Hq. eapply counted_calm; [done|apply (qt_calm _ _ Hq)|].
  intros p. by apply quiet_taken.
Qed.

(** ** A buffer enters or leaves a queue *)

Section OneNode.
Context c c' p n (b b' : OMXVDEC_BUF_S) q (Hok : queues_ok c q) (Hl : legit c p n).
Context (Hb : node_buf c n = Some b).
Context (Hbuf : forall n', node_buf c' n' = if decide (n' = n) then Some b' else node_buf c n').

Lemma other_core (l : list node) : n ∉ l -> forall m, m ∈ l -> core <$> node_buf c' m = core <$> node_buf c m.
Proof. intros Hn m Hm. rewrite Hbuf, decide_False by (intros ->; done). done. Qed.

Lemma owes_new : b'.(client_data) = b.(client_data) -> owes c' n = owes c n.
Proof.
  intros Hcl. unfold owes. destruct n; try done. rewrite Hbuf, decide_True, Hb by done.
  simpl. by rewrite Hcl.
Qed.

Lemma enqueue_effect :
  n ∉ q p -> b'.(status) <> BUF_STATE_USING -> b'.(client_data) = b.(client_data) ->
  forall p', owed c' (upd p (q p ++ [n]) q p')
      = owed c (q p') ++ (if decide (p' = p) then owes c n else [])
    /\ taken c' (upd p (q p ++ [n]) q p') = taken c (q p').
Proof.
  intros Hn Hst Hcl p'. destruct (decide (p' = p)) as [->|Hp].
  - rewrite upd_eq, owed_app, taken_app.
    rewrite (owed_ext c c' (q p)) by (by apply other_core).
    rewrite (taken_ext c c' (q p)) by (by apply other_core).
    split.
    + simpl. by rewrite app_nil_r, owes_new.
    + rewrite taken_cons. unfold in_use. rewrite Hbuf, decide_True by done. simpl.
      rewrite bool_decide_eq_false_2 by done. unfold taken. simpl. lia.
  - rewrite upd_ne by done. rewrite app_nil_r.
    split; [apply owed_ext|apply taken_ext]; apply other_core; by eapply queued_other.
Qed.

Lemma dequeue_effect l1 l2 :
  q p = l1 ++ n :: l2 ->
  forall p', owed c' (upd p (l1 ++ l2) q p') ++ (if decide (p' = p) then owes c n else [])
      ≡ₚ owed c (q p')
    /\ taken c' (upd p (l1 ++ l2) q p') + (if decide (p' = p) then if in_use c n then 1 else 0 else 0)
      = taken c (q p').
Proof.
  intros Hq p'. destruct (decide (p' = p)) as [->|Hp].
  - pose proof (queue_nodup _ _ Hok p) as Hnd. rewrite Hq in Hnd.
    rewrite NoDup_app, NoDup_cons in Hnd. destruct Hnd as (_ & H1 & H2 & _).
    assert (n ∉ l1 ++ l2) as Hn by set_solver.
    rewrite upd_eq, (owed_ext c c' (l1 ++ l2)), (taken_ext c c' (l1 ++ l2)) by (by apply other_core).
    rewrite Hq, !owed_app, !taken_app, taken_cons. split; [|lia].
    simpl. rewrite <- app_assoc. apply Permutation_app_head, Permutation_app_comm.
  - rewrite upd_ne by done. rewrite app_nil_r.
    rewrite (owed_ext c c'), (taken_ext c c') by (apply other_core; by eapply queued_other).
    split; [done|lia].
Qed.
End OneNode.

(** ** Looking a buffer up *)

Lemma addr_index_ok (t : list OMXVDEC_BUF_S) (k pa : Z) (fuel : nat) : forall i,
  0 <= i <= k -> k - i < Z.of_nat fuel ->
  (forall j, 0 <= j < k -> exists b, arr_get t j = Some b) ->
  (forall j b, 0 <= j < i -> arr_get t j = Some b -> b.(phy_addr) <> pa) ->
  exists r, addr_index fuel t k pa i = Some r /\ i <= r <= k
    /\ (r < k -> exists b, arr_get t r = Some b /\ b.(phy_addr) = pa)
    /\ (forall j b, 0 <= j < r -> arr_get t j = Some b -> b.(phy_addr) <> pa).
Proof.
  induction fuel as [|fuel IH]; intros i Hi Hf Ht Hne; [lia|]. simpl.
  destruct (Z.ltb_spec i k) as [Hlt|]; [|exists i; split_and!; try done; lia].
  destruct (Ht i ltac:(lia)) as [b Hb]. rewrite Hb. simpl.
  destruct (Z.eqb_spec pa b.(phy_addr)) as [He|Hpa].
  - exists i. split_and!; [done|lia|lia|eauto|done].
  - destruct (IH (i + 1)) as (r & -> & Hr & H1 & H2); [lia|lia|done| |].
    + intros j bj Hj Hbj. destruct (decide (j = i)) as [->|]; [|apply (Hne j); [lia|done]].
      congruence.
    + exists r. split_and!; [done|lia|lia|done|done].
Qed.

(** The bound buffer at an address, if there is one. *)
Definition bound_at c p (pa : Z) : option OMXVDEC_BUF_S :=
  i ← find_addr (port p c) pa; if i <? num p c then node_buf c (Slot p i) else None.

Lemma find_addr_ok c q p pa :
  queues_ok c q ->
  exists i, find_addr (port p c) pa = Some i /\ 0 <= i <= num p c
    /\ (i < num p c -> exists b, node_buf c (Slot p i) = Some b /\ b.(phy_addr) = pa)
    /\ (forall j b, 0 <= j < i -> node_buf c (Slot p j) = Some b -> b.(phy_addr) <> pa).
Proof.
  intros Hok. pose proof (qo_size _ _ Hok p) as Hs.
  assert (Hin : forall j, 0 <= j < num p c -> exists b, arr_get (buf_table (port p c)) j = Some b).
  { intros j Hj. apply (qo_slots _ _ Hok p j). lia. }
  assert (num p c <= Z.of_nat (length (buf_table (port p c)))).
  { destruct (decide (num p c = 0)); [lia|].
    destruct (Hin (num p c - 1) ltac:(lia)) as [b Hb%arr_get_Some]. lia. }
  unfold find_addr, num in *. apply addr_index_ok; [lia|lia|done|].
  intros j b Hj. lia.
Qed.

Lemma lookup_ok c q d p :
  queues_ok c q -> port_of d.(dir) = Some p ->
  (channel_lookup_addr_table c d = Some (c, None) /\ bound_at c p d.(phyaddr) = None)
  \/ exists c' i b, channel_lookup_addr_table c d = Some (c', Some (Slot p i))
       /\ 0 <= i < num p c /\ node_buf c (Slot p i) = Some b /\ b.(phy_addr) = d.(phyaddr)
       /\ bound_at c p d.(phyaddr) = Some b
       /\ quiet c c' /\ trace c' = trace c /\ frame c' = frame c
       /\ node_buf c' (Slot p i) = Some (b <| user_vaddr := d.(bufferaddr) |>).
Proof.
  intros Hok Hp. unfold channel_lookup_addr_table, bound_at. rewrite Hp.
  destruct (find_addr_ok c q p d.(phyaddr) Hok) as (i & -> & Hi & Hb & _).
  cbn [mbind option_bind]. fold (num p c).
  destruct (Z.ltb_spec i (num p c)) as [Hlt|]; [right|by left].
  destruct (Hb Hlt) as (b & Hbi & Hpa).
  destruct (benign_ok c (Slot p i) b (fun b => b <| user_vaddr := d.(bufferaddr) |>) Hbi)
    as (c' & -> & Hq & Ht & Hf & Hbuf); [done|].
  exists c', i, b. split_and!; try done; [lia|]. by rewrite Hbuf, decide_True.
Qed.

(** ** Submitting *)

(** Which channel it is, and its state. *)
Record same_chan c c' : Prop := {
  sm_id : c'.(channel_id) = c.(channel_id);
  sm_fixed : fixed c' = fixed c;
  sm_state : c'.(state) = c.(state);
}.

Lemma calm_same c c' : calm c c' -> same_chan c c'.
Proof. intros H. split; apply H. Qed.

Lemma same_trans c1 c2 c3 : same_chan c1 c2 -> same_chan c2 c3 -> same_chan c1 c3.
Proof. intros [] []. split; congruence. Qed.

(** What a call keeps: the invariant, the account of the buffers, the count of
    the hardware's. *)
Record served c q c' q' (acc : port_dir -> list Z) : Prop := {
  sv_ok : queues_ok c' q';
  sv_balanced : balanced c q c' q' acc;
  sv_counted : counted c q -> counted c' q';
  sv_same : same_chan c c';
}.

Lemma served_quiet c c' q evs acc :
  queues_ok c q -> quiet c c' -> trace c' = trace c ++ evs ->
  (forall p, returned p evs = acc p) -> served c q c' q acc.
Proof.
  intros Hok Hq Ht Ha. split.
  - by eapply quiet_ok.
  - by eapply quiet_post_balanced.
  - intros Hc. by eapply counted_quiet.
  - apply calm_same, Hq.
Qed.

Lemma served_refl c q : queues_ok c q -> served c q c q nothing.
Proof.
  intros Hok. by apply (served_quiet c c q []); [| |rewrite app_nil_r|].
Qed.

Lemma served_trans c1 q1 c2 q2 c3 q3 a1 a2 :
  served c1 q1 c2 q2 a1 -> served c2 q2 c3 q3 a2 ->
  served c1 q1 c3 q3 (fun p => a1 p ++ a2 p).
Proof.
  intros [] []. split; [done|by eapply balanced_trans|tauto|by eapply same_trans].
Qed.

Lemma served_ext c q c' q' a1 a2 :
  (forall p, a1 p = a2 p) -> served c q c' q' a1 -> served c q c' q' a2.
Proof.
  intros Ha [H1 (evs & Ht & Hb) H3 H4]. split; [done| |done|done].
  exists evs. split; [done|]. intros p. by rewrite <- Ha.
Qed.

Definition at_port p (l : list Z) : port_dir -> list Z :=
  fun p' => if decide (p' = p) then l else [].

(** Queueing a bound buffer: refused if it is queued. *)
Lemma insert_served c q p i b :
  queues_ok c q -> 0 <= i < num p c -> node_buf c (Slot p i) = Some b ->
  (Slot p i ∈ q p /\ channel_insert_in_list c p (Slot p i) = Some (c, HI_FAILURE))
  \/ exists c', channel_insert_in_list c p (Slot p i) = Some (c', HI_SUCCESS)
       /\ Slot p i ∉ q p /\ trace c' = trace c /\ calm c c'
       /\ served c q c' (upd p (q p ++ [Slot p i]) q) (at_port p [b.(client_data)]).
Proof.
  intros Hok Hi Hb. destruct (insert_in_list_ok c q p i b Hok Hi Hb) as [H1 H2].
  destruct (decide (Slot p i ∈ q p)) as [Hin|Hin]; [left; auto|right].
  destruct (H2 Hin) as (c' & -> & Hok' & Hr & Ht & He & Hbuf).
  exists c'. split_and!; [done|done|done|by apply rest_calm|].
  assert (Hl : legit c p (Slot p i)) by (right; eauto).
  pose proof (enqueue_effect c c' p (Slot p i) b _ q Hok Hl Hb Hbuf Hin) as He'.
  split; [done| | |].
  - exists []. split; [by rewrite app_nil_r|]. intros p'.
    destruct (He' ltac:(done) ltac:(done) p') as [-> _].
    cbn [returned flat_map]. rewrite app_nil_r. unfold at_port, owes. by rewrite Hb.
  - intros [U P Z]. pose proof (rest_calm _ _ Hr) as Hc. split.
    + intros p'. destruct (He' ltac:(done) ltac:(done) p') as [_ ->].
      by rewrite (cm_uses _ _ Hc).
    + intros p'. rewrite (cm_uses _ _ Hc), (cm_pending _ _ Hc). apply P.
    + rewrite (cm_uses _ _ Hc), (cm_pause _ _ Hc). apply Z.
  - by apply calm_same, rest_calm.
Qed.

Lemma add_tag_time_ok c tag type now :
  0 < g_lowdelay_count_frame -> delay_ok c -> is_Some c.(lowdelay_rec) ->
  exists c', add_tag_time c tag type now = Some c' /\ quiet c c' /\ trace c' = trace c
    /\ forall n, node_buf c' n = node_buf c n.
Proof.
  intros Hg Hd [r Hr]. unfold add_tag_time. rewrite Hr. cbn [mbind option_bind].
  destruct (add_tag_ok g_lowdelay_count_frame r tag type now Hg (Hd r Hr)) as (r' & -> & Hl).
  cbn [mbind option_bind]. eexists. split; [done|].
  assert (forall n, node_buf (c <| lowdelay_rec := Some r' |>) n = node_buf c n)
    by (apply node_buf_tables; [intros []|]; done).
  split; [|done]. apply quiet_same; [done..|].
  split; try done; [unfold fixed; simpl; by rewrite Hr|].
  unfold delay_ok. simpl. split; [intros _; by apply Hd|]. intros _ r0 [= <-]. done.
Qed.

(** The statistics of a low-delay channel, when it keeps them. *)
Lemma note_tag_ok c tag type now :
  0 < g_lowdelay_count_frame -> delay_ok c ->
  exists c', (if lowdelay_on c then add_tag_time c tag type now else Some c) = Some c'
    /\ quiet c c' /\ trace c' = trace c /\ forall n, node_buf c' n = node_buf c n.
Proof.
  intros Hg Hd. destruct (lowdelay_on c) eqn:Hl; [|by exists c].
  apply add_tag_time_ok; [done|done|].
  unfold lowdelay_on in Hl. apply andb_true_iff in Hl as [_ Hl]. by apply bool_decide_eq_true in Hl.
Qed.

Context {Ok : HiConstsOk C}.

Lemma success_ne : (HI_FAILURE =? HI_SUCCESS) = false.
Proof. apply Z.eqb_neq. intros H. by apply hi_codes_ne. Qed.

(** The tags of the buffers that a call of the user hands over. *)
Definition accepted_stream c (d : OMXVDEC_BUF_DESC) (ret : Z) : port_dir -> list Z :=
  at_port IN (if ret =? HI_SUCCESS then
                if d.(data_len) =? 0 then [d.(d_client_data)]
                else option_list (client_data <$> bound_at c IN d.(phyaddr))
              else []).

Definition accepted_frame c (d : OMXVDEC_BUF_DESC) (ret : Z) : port_dir -> list Z :=
  at_port OUT (if ret =? HI_SUCCESS
               then option_list (client_data <$> bound_at c OUT d.(phyaddr)) else []).

Lemma at_port_nil p p' : at_port p [] p' = [].
Proof. unfold at_port. by destruct (decide _). Qed.

(** A refusal is a message that gives nothing back. *)
Lemma refuse_served c c1 q d p :
  queues_ok c q -> quiet c c1 -> trace c1 = trace c ->
  served c q (message_queue c1 (done_code p) VDEC_ERR_ILLEGAL_OP (BufData d)) q nothing.
Proof.
  intros Hok Hq Ht. eapply (served_quiet c _ q [_]); [done| |simpl; by rewrite Ht|].
  - etrans; [done|]. apply post_quiet.
  - intros p'. unfold returned, back, nothing. simpl.
    by destruct (done_code p =? done_code p').
Qed.

(** The time and the tag of a stream buffer. *)
Lemma tag_stream_ok c n b now :
  0 < g_lowdelay_count_frame -> delay_ok c -> node_buf c n = Some b ->
  exists c' b', tag_stream c n now = Some c'
    /\ quiet c c' /\ trace c' = trace c /\ node_buf c' n = Some b' /\ core b' = core b.
Proof.
  intros Hg Hd Hb. unfold tag_stream. destruct (lowdelay_on c) eqn:Hl; [|by eexists c, b].
  unfold lowdelay_on in Hl. apply andb_true_iff in Hl as [_ Hl].
  apply bool_decide_eq_true in Hl as [r Hr]. rewrite Hr. cbn [mbind option_bind]. cbv zeta.
  destruct (benign_ok c n b (fun b => b <| usr_tag := current_tag r |>) Hb)
    as (c1 & -> & Hq1 & Ht1 & _ & Hbuf1); [done|]. cbn [mbind option_bind].
  match goal with |- context [add_tag_time ?x] => set (c2 := x) end.
  assert (quiet c c2) as Hq2.
  { etrans; [done|]. apply quiet_same; [by apply node_buf_tables; [intros []|]|done..|].
    assert (Hfx : fixed c2 = fixed c1).
    { pose proof (cm_fixed _ _ (qt_calm _ _ Hq1)) as Hfx. unfold fixed, c2 in *. simpl.
      rewrite Hr in Hfx. destruct (lowdelay_rec c1); [done|by injection Hfx]. }
    split; try done. unfold delay_ok, c2. simpl. split; intros H r0 Hr0.
    - exact (proj2 (cm_delay _ _ (qt_calm _ _ Hq1)) Hd r0 Hr0).
    - injection Hr0 as <-. by apply (Hd r). }
  destruct (add_tag_time_ok c2 (current_tag r) OMX_LOWDELAY_REC_ETB_TIME now)
    as (c3 & -> & Hq3 & Ht3 & Hbuf3); [done| |by eexists|].
  { by apply (cm_delay _ _ (qt_calm _ _ Hq2)). }
  exists c3, (b <| usr_tag := current_tag r |>).
  split_and!; [done|by etrans|by rewrite Ht3|rewrite Hbuf3|done].
  transitivity (node_buf c1 n); [apply node_buf_tables; [intros []|]; done|].
  by rewrite Hbuf1, decide_True.
Qed.

Lemma submit_ok c q d now :
  0 < g_lowdelay_count_frame -> queues_ok c q -> port_of d.(dir) <> Some OUT ->
  exists c' q' ret, submit_stream c d now = Some (c', ret)
    /\ served c q c' q' (at_port IN (if ret =? HI_SUCCESS then
                           option_list (client_data <$> bound_at c IN d.(phyaddr)) else []))
    /\ ((ret = HI_FAILURE /\ q' = q)
        \/ (ret = HI_SUCCESS /\ exists i, q' = upd IN (q IN ++ [Slot IN i]) q)).
Proof.
  intros Hg Hok Hd. unfold submit_stream.
  assert (Href : forall c1, quiet c c1 -> trace c1 = trace c ->
    exists c' q' ret,
      Some (message_queue c1 VDEC_MSG_RESP_INPUT_DONE VDEC_ERR_ILLEGAL_OP (BufData d), HI_FAILURE)
        = Some (c', ret)
      /\ served c q c' q' (at_port IN (if ret =? HI_SUCCESS then
                           option_list (client_data <$> bound_at c IN d.(phyaddr)) else []))
      /\ ((ret = HI_FAILURE /\ q' = q)
          \/ (ret = HI_SUCCESS /\ exists i, q' = upd IN (q IN ++ [Slot IN i]) q))).
  { intros c1 Hq1 Ht1. eexists _, q, _. split; [done|]. split; [|by left].
    rewrite success_ne. eapply served_ext; [|by apply (refuse_served c c1 q d IN)].
    intros p. by rewrite at_port_nil. }
  destruct (port_of d.(dir)) as [[]|] eqn:Hp; [|done|].
  2: { unfold channel_lookup_addr_table. rewrite Hp. cbn [mbind option_bind]. by apply Href. }
  destruct (lookup_ok c q d IN Hok Hp)
    as [[-> _]|(c1 & i & b & -> & Hi & Hb & Hpa & Hbd & Hq1 & Ht1 & _ & Hb1)];
    cbn [mbind option_bind]; [by apply Href|].
  match goal with |- context [alter_buf c1 _ ?f] =>
    destruct (benign_ok c1 (Slot IN i) _ f Hb1) as (c2 & -> & Hq2 & Ht2 & _ & Hbuf2); [done|] end.
  cbn [mbind option_bind].
  assert (quiet c c2) as Hqc2 by (by etrans).
  destruct (tag_stream_ok c2 (Slot IN i) _ now Hg
              (proj2 (cm_delay _ _ (qt_calm _ _ Hqc2)) (qo_delay _ _ Hok))
              (eq_trans (Hbuf2 _) (decide_True _ _ eq_refl)))
    as (c3 & b3 & -> & Hq3 & Ht3 & Hb3 & Hcore3). cbn [mbind option_bind].
  assert (quiet c c3) as Hqc3 by (by etrans).
  pose proof (quiet_ok _ _ _ Hok Hqc3) as Hok3.
  assert (0 <= i < num IN c3) as Hi3 by (rewrite (cm_num _ _ (qt_calm _ _ Hqc3)); lia).
  unfold channel_insert_in_raw_list.
  destruct (insert_served c3 q IN i b3 Hok3 Hi3 Hb3) as [[_ ->]|(c4 & -> & _ & Ht4 & _ & Hs4)];
    cbn [mbind option_bind].
  - rewrite success_ne. cbn [negb]. apply Href; [done|congruence].
  - rewrite Z.eqb_refl. cbn [negb]. eexists _, _, _. split; [done|]. split; [|right; eauto].
    rewrite Z.eqb_refl. rewrite Hbd. simpl.
    assert (b3.(client_data) = b.(client_data)) as <- by (injection Hcore3; simpl; congruence).
    eapply (served_ext _ _ _ _ (fun p => nothing p ++ _ p)); [done|].
    eapply served_trans; [|exact Hs4].
    eapply (served_quiet c c3 q []); [done|done|rewrite app_nil_r; congruence|done].
Qed.

Lemma counted_enqueue c c' q p n :
  counted c q -> calm c c' -> (forall p', taken c' (upd p (q p ++ [n]) q p') = taken c (q p')) ->
  counted c' (upd p (q p ++ [n]) q).
Proof.
  intros [U P Z] Hc Ht. split.
  - intros p'. by rewrite Ht, (cm_uses _ _ Hc).
  - intros p'. rewrite (cm_uses _ _ Hc), (cm_pending _ _ Hc). apply P.
  - rewrite (cm_uses _ _ Hc), (cm_pause _ _ Hc). apply Z.
Qed.

(** The end of the stream joins the queue of stream buffers, unless it is there. *)
Lemma queue_last_frame_ok c q :
  queues_ok c q ->
  exists c' q', queue_last_frame c = Some c' /\ served c q c' q' nothing
    /\ (q' = q \/ (LastFrame ∉ q IN /\ q' = upd IN (q IN ++ [LastFrame]) q)).
Proof.
  intros Hok. unfold queue_last_frame. destruct (eos_in_list c) eqn:Heos; cbn [negb].
  { cbn [mbind option_bind]. eexists _, q. split; [done|]. split; [|by left].
    eapply (served_quiet _ _ _ []); [done| |by rewrite app_nil_r|done].
    apply quiet_same; [by apply node_buf_tables; [intros []|]|done..|by split]. }
  assert (Hn : LastFrame ∉ q IN).
  { intros Hin. apply (qo_last _ _ Hok) in Hin. congruence. }
  assert (Hl : legit c IN LastFrame) by (by left).
  unfold channel_add_last_frame, alter_buf at 1. cbn [node_buf set_buf mbind option_bind].
  unfold alter_buf. cbn [node_buf set_buf mbind option_bind].
  destruct (links_add c q IN LastFrame Hok Hl Hn) as (m' & Em & Dm & Lm).
  unfold on_links. simpl links. rewrite Em. cbn [mbind option_bind].
  match goal with |- context [Some ?x = Some _ /\ _] => set (c' := x) end.
  set (b' := last_frame c'). exists c', (upd IN (q IN ++ [LastFrame]) q).
  split; [done|]. split; [|by right].
  assert (Hbuf : forall n', node_buf c' n' = if decide (n' = LastFrame) then Some b'
                                             else node_buf c n').
  { intros [|p i|]; simpl; [done|by destruct p|done]. }
  pose proof (enqueue_effect c c' IN LastFrame (last_frame c) b' q Hok Hl eq_refl Hbuf Hn
                ltac:(done) ltac:(done)) as Heff.
  assert (Hcalm : calm c c') by (by split; try (by intros [])).
  split; [| | |by apply calm_same].
  - eapply (move_ok c c' q _ IN LastFrame (last_frame c) b'); try done.
    + apply (qo_delay _ _ Hok).
    + by left.
    + intros p' Hp. by rewrite upd_ne.
    + intros n' Hn'. rewrite upd_eq. set_solver.
    + rewrite upd_eq. simpl. split; [done|set_solver].
    + rewrite upd_eq. simpl. split; [set_solver|done].
  - exists []. split; [by rewrite app_nil_r|]. intros p'. destruct (Heff p') as [-> _].
    unfold nothing.
    cbn [returned flat_map owes]. by destruct (decide _); rewrite !app_nil_r.
  - intros Hc. eapply counted_enqueue; [done|done|]. intros p'. by destruct (Heff p').
Qed.

Lemma finish_stream_ok c q d :
  queues_ok c q ->
  exists c' q', finish_stream c d = Some (c', HI_SUCCESS)
    /\ served c q c' q' (at_port IN (if d.(data_len) =? 0 then [d.(d_client_data)] else [])).
Proof.
  intros Hok. unfold finish_stream.
  assert (exists c2 q2, (if negb (Z.land (d_flags d) VDEC_BUFFERFLAG_EOS =? 0)
                         then queue_last_frame c else Some c) = Some c2
            /\ served c q c2 q2 nothing) as (c2 & q2 & -> & Hs2).
  { case_match.
    - destruct (queue_last_frame_ok c q Hok) as (c2 & q2 & -> & Hs & _). eauto.
    - exists c, q. split; [done|].
      eapply (served_quiet _ _ _ []); [done|done|by rewrite app_nil_r|done]. }
  cbn [mbind option_bind]. eexists _, q2. split; [done|].
  eapply (served_ext _ _ _ _ (fun p => nothing p ++ at_port IN _ p)); [done|].
  eapply served_trans; [exact Hs2|]. cbv zeta.
  set (c3 := if data_len d =? 0 then _ else _).
  set (e1 := if data_len d =? 0 then [MSG VDEC_MSG_RESP_INPUT_DONE VDEC_S_SUCCESS (BufData d)]
             else []).
  set (e2 := if (bLowdelay c3 =? 1) || g_FastOutputMode then [VFMW EXTRA_WAKEUP_THREAD] else []).
  eapply (served_quiet _ _ _ (e1 ++ e2)); [apply Hs2| | |].
  - assert (quiet c2 c3) by (unfold c3; case_match; [apply post_quiet|done]).
    case_match; [|done]. etrans; [done|apply post_quiet].
  - unfold e1, e2. fold c3. destruct ((bLowdelay c3 =? 1) || _); unfold c3;
      destruct (data_len d =? 0); simpl; rewrite ?app_nil_r, <- ?app_assoc; done.
  - intros p. unfold e1, e2, returned, at_port.
    destruct p, (data_len d =? 0), ((bLowdelay c3 =? 1) || _); done.
Qed.

Lemma empty_this_stream_ok c q d now :
  0 < g_lowdelay_count_frame -> queues_ok c q -> port_of d.(dir) <> Some OUT ->
  exists c' q' ret, channel_empty_this_stream c d now = Some (c', ret)
    /\ served c q c' q' (accepted_stream c d ret).
Proof.
  intros Hg Hok Hd. unfold channel_empty_this_stream.
  destruct (data_len d =? 0) eqn:Hlen; cbn [negb].
  - cbn [mbind option_bind]. rewrite Z.eqb_refl. cbn [negb].
    destruct (finish_stream_ok c q d Hok) as (c' & q' & -> & Hs). exists c', q', HI_SUCCESS. split; [done|].
    unfold accepted_stream. rewrite Z.eqb_refl. by rewrite Hlen in *.
  - destruct (submit_ok c q d now Hg Hok Hd) as (c1 & q1 & ret & -> & Hs1 & Hret).
    cbn [mbind option_bind]. destruct Hret as [[-> _]|[-> _]].
    + rewrite success_ne in *. cbn [negb]. eexists _, _, _. split; [done|].
      unfold accepted_stream. by rewrite success_ne.
    + rewrite Z.eqb_refl in *. cbn [negb].
      destruct (finish_stream_ok c1 q1 d (sv_ok _ _ _ _ _ Hs1)) as (c' & q' & -> & Hs).
      exists c', q', HI_SUCCESS. split; [done|].
      unfold accepted_stream. rewrite Z.eqb_refl, Hlen.
      rewrite Hlen in Hs. eapply served_ext; [|eapply served_trans; [exact Hs1|exact Hs]].
      intros p. simpl. by rewrite at_port_nil, app_nil_r.
Qed.

Lemma fill_this_frame_ok c q d :
  queues_ok c q -> port_of d.(dir) <> Some IN ->
  exists c' q' ret, channel_fill_this_frame c d = Some (c', ret)
    /\ served c q c' q' (accepted_frame c d ret).
Proof.
  intros Hok Hd. unfold channel_fill_this_frame, accepted_frame.
  assert (Href : forall c1, quiet c c1 -> trace c1 = trace c ->
    exists c' q' ret,
      Some (message_queue c1 VDEC_MSG_RESP_OUTPUT_DONE VDEC_ERR_ILLEGAL_OP (BufData d), HI_FAILURE)
        = Some (c', ret)
      /\ served c q c' q' (at_port OUT (if ret =? HI_SUCCESS then
                           option_list (client_data <$> bound_at c OUT d.(phyaddr)) else []))).
  { intros c1 Hq1 Ht1. eexists _, q, _. split; [done|].
    rewrite success_ne. eapply served_ext; [|by apply (refuse_served c c1 q d OUT)].
    intros p. by rewrite at_port_nil. }
  destruct (port_of d.(dir)) as [[]|] eqn:Hp; [done| |].
  2: { unfold channel_lookup_addr_table. rewrite Hp. cbn [mbind option_bind]. by apply Href. }
  destruct (lookup_ok c q d OUT Hok Hp)
    as [[-> _]|(c1 & i & b & -> & Hi & Hb & Hpa & Hbd & Hq1 & Ht1 & _ & Hb1)];
    cbn [mbind option_bind]; [by apply Href|].
  match goal with |- context [alter_buf c1 _ ?f] =>
    destruct (benign_ok c1 (Slot OUT i) _ f Hb1) as (c2 & -> & Hq2 & Ht2 & _ & Hbuf2); [done|] end.
  cbn [mbind option_bind].
  assert (quiet c c2) as Hqc2 by (by etrans).
  pose proof (quiet_ok _ _ _ Hok Hqc2) as Hok2.
  assert (0 <= i < num OUT c2) as Hi2 by (rewrite (cm_num _ _ (qt_calm _ _ Hqc2)); lia).
  unfold channel_insert_in_yuv_list.
  destruct (insert_served c2 q OUT i _ Hok2 Hi2 (eq_trans (Hbuf2 _) (decide_True _ _ eq_refl)))
    as [[_ ->]|(c4 & -> & _ & Ht4 & _ & Hs4)]; cbn [mbind option_bind].
  - rewrite success_ne. cbn [negb]. apply Href; [done|congruence].
  - rewrite Z.eqb_refl. cbn [negb]. eexists _, _, _. split; [done|].
    rewrite Z.eqb_refl. rewrite Hbd. simpl.
    eapply (served_ext _ _ _ _ (fun p => nothing p ++ _ p)); [done|].
    eapply served_trans; [|exact Hs4].
    eapply (served_quiet c c2 q []); [done|done|rewrite app_nil_r; congruence|done].
Qed.

(** ** A buffer leaves a queue *)

(** A queued buffer is marked and unlinked. *)
Lemma unqueue_ok c q p n l1 l2 b :
  queues_ok c q -> q p = l1 ++ n :: l2 -> node_buf c n = Some b ->
  exists c1 m', alter_buf c n (fun b => b <| status := BUF_STATE_IDLE |>) = Some c1
    /\ list_del (links c1) n = Some m'
    /\ let c2 := c1 <| links := m' |> in
       calm c c2 /\ rest c2 = rest c /\ trace c2 = trace c
       /\ eos_in_list c2 = eos_in_list c
       /\ (forall n', node_buf c2 n' = if decide (n' = n)
             then Some (b <| status := BUF_STATE_IDLE |>) else node_buf c n')
       /\ (n <> LastFrame -> queues_ok c2 (upd p (l1 ++ l2) q))
       /\ (n = LastFrame -> queues_ok (c2 <| eos_in_list := false |>) (upd p (l1 ++ l2) q)).
Proof.
  intros Hok Hq Hb.
  assert (Hin : n ∈ q p) by (rewrite Hq; set_solver).
  pose proof (qo_node _ _ Hok p n Hin) as Hl. fold (legit c p n) in Hl.
  destruct (alter_buf_ok c n (fun b => b <| status := BUF_STATE_IDLE |>) b Hb)
    as (c1 & -> & Hf & Hbuf).
  destruct (links_del c q p n l1 l2 Hok Hq) as (m' & Em & Dm & Lm).
  pose proof (f_equal links Hf : links c1 = links c) as Hlk.
  pose proof (f_equal eos_in_list Hf : eos_in_list c1 = eos_in_list c) as Heos. rewrite <- Hlk in Em.
  exists c1, m'. split; [done|]. split; [done|]. intros c2.
  assert (Hr : rest c2 = rest c) by (by apply rest_frame in Hf).
  assert (Hbuf2 : forall n', node_buf c2 n' = if decide (n' = n)
             then Some (b <| status := BUF_STATE_IDLE |>) else node_buf c n').
  { intros n'. rewrite <- Hbuf. by apply node_buf_tables; [intros []|]. }
  pose proof (rest_calm _ _ Hr) as Hcalm.
  assert (Hnd : n ∉ l1 ++ l2).
  { pose proof (queue_nodup _ _ Hok p) as Hnd. rewrite Hq, NoDup_app, NoDup_cons in Hnd.
    destruct Hnd as (_ & ? & ? & _). set_solver. }
  assert (Hmove : forall c3, (forall n', node_buf c3 n' = node_buf c2 n') -> links c3 = m' ->
    calm c2 c3 -> (eos_in_list c3 = true <-> LastFrame ∈ upd p (l1 ++ l2) q IN) ->
    queues_ok c3 (upd p (l1 ++ l2) q)).
  { intros c3 Hb3 Hl3 Hc3 He3.
    assert (calm c c3) as Hc by (by etrans).
    eapply (move_ok c c3 q _ p n b (b <| status := BUF_STATE_IDLE |>)); try done.
    - intros p'. split; [apply (cm_num _ _ Hc)|apply (cm_max _ _ Hc)].
    - by rewrite Hl3, Dm.
    - exact (proj2 (cm_delay _ _ Hc) (qo_delay _ _ Hok)).
    - intros n'. by rewrite Hb3.
    - by right.
    - by rewrite Hl3.
    - intros p' Hp. by rewrite upd_ne.
    - intros n' Hn'. rewrite upd_eq, Hq. set_solver.
    - by rewrite upd_eq.
    - intros -> Hin'. exfalso. destruct Hl as [[_ ->]|(? & ? & _)]; [|done].
      by rewrite upd_eq in Hin'. }
  split_and!; [done|done|exact (f_equal trace Hf)|exact (f_equal eos_in_list Hf)|done| |].
  - intros Hn. apply Hmove; [done|done|done|].
    change (eos_in_list c2) with (eos_in_list c1). rewrite Heos, (qo_last _ _ Hok). unfold upd. destruct (decide (IN = p)) as [<-|]; [|done].
    rewrite Hq. set_solver.
  - intros ->. apply Hmove; [by apply node_buf_tables; [intros []|]|done|by split|].
    simpl. destruct Hl as [[_ ->]|(? & ? & _)]; [|done]. rewrite upd_eq. split; [done|]. done.
Qed.

(** A stream buffer is unqueued and given back with the description [desc]; of the
    end of the stream there is nothing to give back. *)
Definition give_in (desc : OMXVDEC_BUF_DESC) c n : option OMXVDEC_CHAN_CTX :=
  b ← node_buf c n;
  if negb (b.(buf_id) =? LAST_FRAME_BUF_ID) then
    c ← alter_buf c n (fun b => b <| act_len := 0 |>);
    Some (message_queue c VDEC_MSG_RESP_INPUT_DONE VDEC_S_SUCCESS (BufData desc))
  else Some (c <| eos_in_list := false |>).

Definition gives (p : port_dir) (desc : OMXVDEC_BUF_DESC) n : list event :=
  match n with Slot _ _ => [MSG (done_code p) VDEC_S_SUCCESS (BufData desc)] | _ => [] end.

(** The state after a node has left its queue. *)
Record left_queue c c' q' p n (evs : list event) : Prop := {
  lq_ok : queues_ok c' q';
  lq_calm : calm c c';
  lq_trace : trace c' = trace c ++ evs;
  lq_buf : exists b', forall n', node_buf c' n' = if decide (n' = n) then Some b' else node_buf c n';
}.

(** The first two steps, always the same. *)
Definition unqueue c n : option OMXVDEC_CHAN_CTX :=
  c ← alter_buf c n (fun b => b <| status := BUF_STATE_IDLE |>);
  on_links c (fun m => list_del m n).

Lemma node_buf_flag c v n : node_buf (c <| eos_in_list := v |>) n = node_buf c n.
Proof. by apply node_buf_tables; [intros []|]. Qed.

Lemma node_buf_post c e n : node_buf (post c e) n = node_buf c n.
Proof. by apply node_buf_tables; [intros []|]. Qed.

Lemma unqueue_in_ok c q n l1 l2 b desc :
  queues_ok c q -> q IN = l1 ++ n :: l2 -> node_buf c n = Some b ->
  exists c2 c3, unqueue c n = Some c2
    /\ node_buf c2 n = Some (b <| status := BUF_STATE_IDLE |>)
    /\ give_in desc c2 n = Some c3
    /\ left_queue c c3 (upd IN (l1 ++ l2) q) IN n (gives IN desc n).
Proof.
  intros Hok Hq Hb. assert (Hl : legit c IN n) by (apply (qo_node _ _ Hok); rewrite Hq; set_solver).
  destruct (unqueue_ok c q IN n l1 l2 b Hok Hq Hb) as (c1 & m' & E1 & Em & Hrest).
  unfold unqueue, on_links. rewrite E1. cbn [mbind option_bind]. rewrite Em. cbn [mbind option_bind].
  set (c2 := c1 <| links := m' |>) in *. cbv zeta in Hrest.
  destruct Hrest as (Hcalm & _ & Ht & He & Hbuf & Hslot & Hlastf).
  assert (Hb2 : node_buf c2 n = Some (b <| status := BUF_STATE_IDLE |>))
    by (by rewrite Hbuf, decide_True).
  exists c2. unfold give_in. rewrite Hb2. cbn [mbind option_bind]. simpl buf_id.
  destruct Hl as [[-> _]|(i & -> & Hi)].
  - assert (Hid : b.(buf_id) = LAST_FRAME_BUF_ID).
    { destruct (qo_last_buf _ _ Hok) as [_ Hid]; [rewrite Hq; set_solver|]. simpl in Hb. congruence. }
    rewrite Hid, Z.eqb_refl. cbn [negb]. eexists. split_and!; [done..|]. split.
    + by apply Hlastf.
    + etrans; [done|]. by split.
    + simpl. by rewrite app_nil_r.
    + eexists. intros n'. rewrite node_buf_flag. apply Hbuf.
  - destruct (qo_buf _ _ Hok IN i b Hi Hb) as [_ _ Hid].
    pose proof (qo_last_id _ _ Hok) as Hmax. pose proof (qo_size _ _ Hok IN) as Hsz.
    destruct (Z.eqb_spec b.(buf_id) LAST_FRAME_BUF_ID); [lia|]. cbn [negb].
    destruct (benign_ok c2 (Slot IN i) _ (fun b => b <| act_len := 0 |>) Hb2)
      as (c3 & -> & Hq3 & Ht3 & Hf3 & Hbuf3); [done|]. cbn [mbind option_bind].
    eexists. split_and!; [done..|]. split.
    + eapply quiet_ok; [by apply Hslot|]. etrans; [exact Hq3|apply post_quiet].
    + etrans; [done|]. apply rest_calm, (rest_frame _ _ Hf3).
    + simpl. congruence.
    + eexists. intros n'. unfold message_queue. rewrite node_buf_post, Hbuf3.
      destruct (decide (n' = Slot IN i)) as [|Hn]; [done|]. by rewrite Hbuf, decide_False.
Qed.

Lemma unqueue_out_ok c q n l1 l2 b :
  queues_ok c q -> q OUT = l1 ++ n :: l2 -> node_buf c n = Some b ->
  exists c2, unqueue c n = Some c2
    /\ node_buf c2 n = Some (b <| status := BUF_STATE_IDLE |>)
    /\ left_queue c c2 (upd OUT (l1 ++ l2) q) OUT n [] /\ rest c2 = rest c.
Proof.
  intros Hok Hq Hb.
  destruct (unqueue_ok c q OUT n l1 l2 b Hok Hq Hb) as (c1 & m' & E1 & Em & Hrest).
  unfold unqueue, on_links. rewrite E1. cbn [mbind option_bind]. rewrite Em. cbn [mbind option_bind].
  set (c2 := c1 <| links := m' |>) in *. cbv zeta in Hrest.
  destruct Hrest as (Hcalm & Hrest & Ht & He & Hbuf & Hslot & _).
  exists c2. split_and!; [done|by rewrite Hbuf, decide_True| |done]. split.
  - apply Hslot. intros ->. destruct (qo_node _ _ Hok OUT LastFrame) as [[_ ?]|(? & ? & _)]; [|done|done].
    rewrite Hq. set_solver.
  - done.
  - rewrite Ht. by rewrite app_nil_r.
  - eauto.
Qed.

Lemma left_queue_post c c' q' p n evs e :
  left_queue c c' q' p n evs -> left_queue c (post c' e) q' p n (evs ++ [e]).
Proof.
  intros [H1 H2 H3 (b' & H4)]. split.
  - eapply quiet_ok; [done|apply post_quiet].
  - etrans; [done|apply post_quiet].
  - simpl. rewrite H3. by rewrite app_assoc.
  - exists b'. intros n'. by rewrite node_buf_post.
Qed.

(** ** Flushing *)

(** What a flush tells the user of a queued node. *)
Definition flush_event c p n : list event :=
  if in_use c n then [] else
  match n with
  | Slot _ _ => from_option (fun b => [MSG (done_code p) VDEC_S_SUCCESS
                                         (BufData (returned_desc p b))]) [] (node_buf c n)
  | _ => []
  end.

Lemma flush_returned c p n : in_use c n = false -> returned p (flush_event c p n) = owes c n.
Proof.
  intros Hu. unfold flush_event. rewrite Hu. destruct n as [|p' i|]; [done| |done].
  unfold owes. destruct (node_buf c _) as [b|]; [|done]. simpl.
  unfold returned. simpl. by rewrite Z.eqb_refl.
Qed.

Lemma flush_other c p p' n : p' <> p -> returned p' (flush_event c p n) = [].
Proof.
  intros Hp. unfold flush_event. destruct (in_use c n); [done|].
  destruct n as [|p0 i|]; try done. destruct (node_buf c _) as [b|]; [|done].
  by destruct p, p'.
Qed.

(** A buffer that is not in use is unqueued and given back. *)
Lemma give_back_served c c' q p n l1 l2 b b' :
  queues_ok c q -> q p = l1 ++ n :: l2 -> node_buf c n = Some b -> in_use c n = false ->
  queues_ok c' (upd p (l1 ++ l2) q) -> calm c c' ->
  (forall n', node_buf c' n' = if decide (n' = n) then Some b' else node_buf c n') ->
  trace c' = trace c ++ flush_event c p n ->
  served c q c' (upd p (l1 ++ l2) q) nothing.
Proof.
  intros Hok Hq Hb Hu Hok' Hcalm Hbuf Ht.
  assert (Hl : legit c p n) by (apply (qo_node _ _ Hok); rewrite Hq; set_solver).
  pose proof (dequeue_effect c c' p n b b' q Hok Hl Hb Hbuf l1 l2 Hq) as Heff.
  split; [done| | |by apply calm_same].
  - exists (flush_event c p n). split; [done|]. intros p'. unfold nothing. rewrite app_nil_r.
    destruct (Heff p') as [Ho _]. rewrite <- Ho. apply Permutation_app_head.
    destruct (decide (p' = p)) as [->|Hp]; [by rewrite flush_returned|by rewrite flush_other].
  - intros [U P Z]. split.
    + intros p'. destruct (Heff p') as [_ Ht']. rewrite Hu in Ht'.
      rewrite (cm_uses _ _ Hcalm), U, <- Ht'. destruct (decide _); lia.
    + intros p'. rewrite (cm_uses _ _ Hcalm), (cm_pending _ _ Hcalm). apply P.
    + rewrite (cm_uses _ _ Hcalm), (cm_pause _ _ Hcalm). apply Z.
Qed.

(** One step of a flush. *)
Definition flush_one p : OMXVDEC_CHAN_CTX -> node -> option OMXVDEC_CHAN_CTX :=
  match p with IN => flush_in_one | OUT => flush_out_one end.

Lemma flush_one_eq p c n b :
  node_buf c n = Some b ->
  flush_one p c n = if in_use c n then Some c else
    c ← unqueue c n;
    match p with
    | IN => give_in (returned_desc IN b) c n
    | OUT => Some (message_queue c (done_code OUT) VDEC_S_SUCCESS (BufData (returned_desc OUT b)))
    end.
Proof.
  intros Hb. unfold in_use. rewrite Hb. cbn [from_option].
  destruct p; simpl; unfold flush_in_one, flush_out_one, unqueue, give_in;
    rewrite Hb; cbn [mbind option_bind];
    (destruct (decide (b.(status) = BUF_STATE_USING)) as [Hs|Hs];
     [by rewrite bool_decide_eq_true_2|rewrite bool_decide_eq_false_2 by done]).
  - destruct (alter_buf_ok c n (fun b => b <| status := BUF_STATE_IDLE |>) b Hb)
      as (c1 & -> & _ & Hbuf).
    cbn [mbind option_bind]. unfold on_links. destruct (list_del (links c1) n); [|done].
    cbn [mbind option_bind]. set (c2 := c1 <| links := _ |>).
    assert (node_buf c2 n = node_buf c1 n) as -> by (by apply node_buf_tables; [intros []|]).
    rewrite Hbuf, decide_True by done. done.
  - by destruct (alter_buf c n _).
Qed.

Lemma flush_one_ok c q p n l1 l2 :
  queues_ok c q -> q p = l1 ++ n :: l2 ->
  if in_use c n then flush_one p c n = Some c else
  exists c', flush_one p c n = Some c' /\ served c q c' (upd p (l1 ++ l2) q) nothing
    /\ calm c c' /\ trace c' = trace c ++ flush_event c p n
    /\ (forall n', n' <> n -> node_buf c' n' = node_buf c n').
Proof.
  intros Hok Hq. assert (Hin : n ∈ q p) by (rewrite Hq; set_solver).
  destruct (queued_buf _ _ Hok p n Hin) as [b Hb]. rewrite (flush_one_eq p c n b Hb).
  destruct (in_use c n) eqn:Hu; [done|].
  assert (Hev : flush_event c p n = gives p (returned_desc p b) n).
  { unfold flush_event. rewrite Hu. destruct n as [| |]; try done. by rewrite Hb. }
  assert (exists c', (c ← unqueue c n;
      match p with
      | IN => give_in (returned_desc IN b) c n
      | OUT => Some (message_queue c (done_code OUT) VDEC_S_SUCCESS (BufData (returned_desc OUT b)))
      end) = Some c' /\ left_queue c c' (upd p (l1 ++ l2) q) p n (gives p (returned_desc p b) n))
    as (c' & -> & [H1 H2 H3 (b' & H4)]).
  { destruct p.
    - destruct (unqueue_in_ok c q n l1 l2 b (returned_desc IN b) Hok Hq Hb)
        as (c2 & c3 & -> & _ & E3 & Hl). exists c3. cbn [mbind option_bind]. by split.
    - destruct (unqueue_out_ok c q n l1 l2 b Hok Hq Hb) as (c2 & -> & _ & Hl & _).
      cbn [mbind option_bind]. eexists. split; [done|].
      assert (gives OUT (returned_desc OUT b) n
              = [] ++ [MSG (done_code OUT) VDEC_S_SUCCESS (BufData (returned_desc OUT b))]) as ->.
      { destruct (qo_node _ _ Hok OUT n Hin) as [[_ ?]|(i & -> & _)]; done. }
      by apply left_queue_post. }
  exists c'. rewrite Hev. split_and!; [done| |done|done|].
  - eapply (give_back_served c c' q p n l1 l2 b b'); try done. by rewrite Hev.
  - intros n' Hn'. by rewrite H4, decide_False.
Qed.

Lemma flush_walk_ok c q p :
  queues_ok c q ->
  exists c' q', list_for_each_entry_safe links (flush_one p) (QHead p) c = Some c'
    /\ served c q c' q' nothing /\ calm c c'
    /\ trace c' = trace c ++ flat_map (flush_event c p) (q p)
    /\ q' p = List.filter (in_use c) (q p) /\ (forall p', p' <> p -> q' p' = q p').
Proof.
  intros Hok.
  set (Inv := fun (kept rest : list node) s => exists q' seen,
    q p = seen ++ rest /\ kept = List.filter (in_use c) seen /\ q' p = kept ++ rest
    /\ (forall p', p' <> p -> q' p' = q p') /\ served c q s q' nothing /\ calm c s
    /\ trace s = trace c ++ flat_map (flush_event c p) seen
    /\ (forall m, m ∈ rest -> node_buf s m = node_buf c m)).
  destruct (for_each_safe_ok links (flush_one p) (QHead p) Inv) with (s := c) (l := q p)
    as (c' & kept & -> & q' & seen & Hq & -> & Hq' & Ho & Hs & Hc & Ht & _).
  - intros kept rest s (q' & seen & _ & _ & Hq' & _ & Hs & _).
    rewrite <- Hq'. apply (qo_list _ _ (sv_ok _ _ _ _ _ Hs)).
  - intros kept x rest s (q' & seen & Hq & -> & Hq' & Ho & Hs & Hc & Ht & Hb).
    pose proof (flush_one_ok s q' p x _ rest (sv_ok _ _ _ _ _ Hs) Hq') as Hone.
    assert (in_use s x = in_use c x) as Hux by (unfold in_use; by rewrite Hb by set_solver).
    assert (flush_event s p x = flush_event c p x) as Hex
      by (unfold flush_event; rewrite Hux; by rewrite Hb by set_solver).
    assert (Hx : x ∉ rest).
    { pose proof (queue_nodup _ _ Hok p) as Hnd. rewrite Hq, NoDup_app, NoDup_cons in Hnd. tauto. }
    assert (Hseen : q p = (seen ++ [x]) ++ rest) by (by rewrite <- app_assoc).
    assert (Hev : flat_map (flush_event c p) (seen ++ [x])
                  = flat_map (flush_event c p) seen ++ flush_event c p x)
      by (rewrite flat_map_app; simpl; by rewrite app_nil_r).
    rewrite Hux in Hone. destruct (in_use c x) eqn:Hu.
    + rewrite Hone. exists s, (List.filter (in_use c) (seen ++ [x])). split; [done|].
      exists q', (seen ++ [x]). rewrite List.filter_app. simpl. rewrite Hu.
      split_and!; [done|done| |done|done|done| |intros m Hm; apply Hb; set_solver].
      * by rewrite Hq', <- app_assoc.
      * rewrite Hev. unfold flush_event at 2. by rewrite Hu, app_nil_r.
    + destruct Hone as (s' & -> & Hs' & Hc' & Ht' & Hb').
      exists s', (List.filter (in_use c) (seen ++ [x])). split; [done|].
      eexists _, (seen ++ [x]). rewrite List.filter_app. simpl. rewrite Hu, app_nil_r.
      split_and!; [done|done|by rewrite upd_eq| | |by etrans| |].
      * intros p' Hp. rewrite upd_ne by done. by apply Ho.
      * exact (served_trans _ _ _ _ _ _ nothing nothing Hs Hs').
      * by rewrite Ht', Ht, Hex, Hev, app_assoc.
      * intros m Hm. rewrite Hb' by (intros ->; done). apply Hb. set_solver.
  - exists q, []. split_and!; try done; [|by rewrite app_nil_r].
    eapply (served_quiet _ _ _ []); [done|done|by rewrite app_nil_r|done].
  - exists c', q'. rewrite app_nil_r in Hq, Hq'. subst seen. by split_and!.
Qed.
End Effects.
