(* ===== verification/OmxServe.v ===== *)
(** * Flushes and the hardware's calls on a decoder channel

    The calls that take buffers out of the queues: flushes, the decoder's and
    VPSS's requests, and what they return. Each is defined on a channel with the
    invariant, keeps the invariant and the account of the buffers, and, when the
    hardware returns what it has, the count of the hardware's. *)

From S2P Require Import Prelude KList FrameRate PtsRec OmxDelay OmxChan OmxHw OmxQueue OmxCalls.

Section Flush.
Context {C : HiConsts} {E : OmxEnv} {Ok : HiConstsOk C}.
Implicit Types (c : OMXVDEC_CHAN_CTX) (p : port_dir) (n : node) (q : port_dir -> list node).

(** Buffers and lists are the same; flags and counters may have changed. *)
Record parked c c' : Prop := {
  pk_buf : forall n, node_buf c' n = node_buf c n;
  pk_links : c'.(links) = c.(links);
  pk_eos : c'.(eos_in_list) = c.(eos_in_list);
  pk_num : forall p, num p c' = num p c /\ max_num p c' = max_num p c;
  pk_delay : delay_ok c -> delay_ok c';
  pk_id : c'.(channel_id) = c.(channel_id);
  pk_fixed : fixed c' = fixed c;
}.

Lemma parked_trans c1 c2 c3 : parked c1 c2 -> parked c2 c3 -> parked c1 c3.
Proof.
  intros [] []. split; intros; try congruence; [|tauto].
  destruct (pk_num0 p), (pk_num1 p). split; congruence.
Qed.

Lemma parked_ok c c' q : queues_ok c q -> parked c c' -> queues_ok c' q.
Proof.
  intros Hok [? ? ? ? Hd ? ?]. eapply queues_ok_same; try done. by apply Hd; intros r; apply (qo_delay _ _ Hok).
Qed.

Lemma parked_owed c c' l : parked c c' -> owed c' l = owed c l.
Proof. intros Hp. apply owed_ext. intros n _. by rewrite (pk_buf _ _ Hp). Qed.

Lemma parked_taken c c' l : parked c c' -> taken c' l = taken c l.
Proof. intros Hp. apply taken_ext. intros n _. by rewrite (pk_buf _ _ Hp). Qed.

(** The invariant and the account of the buffers alone. *)
Record kept c q c' q' (acc : port_dir -> list Z) : Prop := {
  kp_ok : queues_ok c' q';
  kp_balanced : balanced c q c' q' acc;
  kp_id : c'.(channel_id) = c.(channel_id);
  kp_fixed : fixed c' = fixed c;
}.

Lemma served_kept c q c' q' acc : served c q c' q' acc -> kept c q c' q' acc.
Proof. intros [H1 H2 _ []]. by split. Qed.

Lemma kept_trans c1 q1 c2 q2 c3 q3 a1 a2 :
  kept c1 q1 c2 q2 a1 -> kept c2 q2 c3 q3 a2 -> kept c1 q1 c3 q3 (fun p => a1 p ++ a2 p).
Proof. intros [] []. split; [done|by eapply balanced_trans|congruence|congruence]. Qed.

Lemma parked_kept c c' q evs :
  queues_ok c q -> parked c c' -> trace c' = trace c ++ evs ->
  (forall p, returned p evs = []) -> kept c q c' q nothing.
Proof.
  intros Hok Hp Ht Hr. split; [by eapply parked_ok| |apply Hp|apply Hp].
  exists evs. split; [done|]. intros p. by rewrite (parked_owed _ _ _ Hp), Hr.
Qed.

Lemma kept_refl c q : queues_ok c q -> kept c q c q nothing.
Proof.
  intros Hok. apply (parked_kept c c q []); [done|by split|by rewrite app_nil_r|done].
Qed.

(** A port's flag and counter. *)
Lemma on_port_parked c p (f : PORT -> PORT) :
  (forall P, (f P).(buf_table) = P.(buf_table) /\ (f P).(buf_num) = P.(buf_num)
             /\ (f P).(max_buf_num) = P.(max_buf_num)) ->
  parked c (on_port p f c).
Proof.
  intros Hf. split; [|by destruct p|by destruct p| |by destruct p|by destruct p|by destruct p].
  - apply node_buf_tables; [|by destruct p]. intros p'. rewrite port_on.
    destruct (decide _) as [|]; [apply Hf|done].
  - intros p'. unfold num, max_num. rewrite port_on.
    destruct (decide _) as [|]; [split; apply Hf|done].
Qed.

Definition set_pending (v : bool) (P : PORT) : PORT := P <| flush_pending := v |>.

(** The end of a flush: it is done, or waits for the buffers in use. *)
Definition flush_tail p c : OMXVDEC_CHAN_CTX :=
  if (port p c).(use_cnt) >? 0 then on_port p (set_pending true) c
  else message_queue c (flushed_code p) VDEC_S_SUCCESS NoData.

Lemma flush_tail_ok p c q :
  queues_ok c q -> served c q (flush_tail p c) q nothing
    /\ (forall n, node_buf (flush_tail p c) n = node_buf c n)
    /\ (forall p', uses p' (flush_tail p c) = uses p' c)
    /\ (counted c q -> pending p (flush_tail p c) = (uses p c >? 0))
    /\ trace (flush_tail p c) = trace c ++
         (if uses p c >? 0 then [] else [MSG (flushed_code p) VDEC_S_SUCCESS NoData]).
Proof.
  intros Hok. unfold flush_tail. fold (uses p c). destruct (Z.gtb_spec (uses p c) 0) as [Hu|Hu].
  - assert (Hp : parked c (on_port p (set_pending true) c)) by (by apply on_port_parked).
    assert (Huse : forall p', uses p' (on_port p (set_pending true) c) = uses p' c).
    { intros p'. unfold uses. rewrite port_on. by destruct (decide _). }
    split_and!; [|apply Hp|done| |].
    + assert (trace (on_port p (set_pending true) c) = trace c ++ [])
        by (rewrite app_nil_r; by destruct p).
      destruct (parked_kept _ _ _ _ Hok Hp H ltac:(done)).
      split; [done|done| |by destruct p].
      intros [U P Z]. split.
      * intros p'. by rewrite Huse, (parked_taken _ _ _ Hp).
      * intros p'. rewrite Huse. unfold pending. rewrite port_on.
        destruct (decide (p' = p)) as [->|]; [lia|apply P].
      * rewrite Huse. intros Hz. apply Z. by destruct p.
    + intros _. unfold pending. rewrite port_on. by destruct (decide _).
    + rewrite app_nil_r. by destruct p.
  - split_and!; [|intros n; apply node_buf_post|by intros []| |done].
    + eapply served_quiet; [done|apply post_quiet|done|by destruct p].
    + intros [_ P _]. destruct (pending p c) eqn:Hp; [|by destruct p].
      specialize (P p Hp). lia.
Qed.

(** A flush of the stream buffers: those the decoder does not have are given back
    in order, the others stay; it is done at once or pending. *)
Lemma flush_in_port_ok c q :
  queues_ok c q ->
  exists c' q', channel_flush_in_port c = Some (c', HI_SUCCESS)
    /\ served c q c' q' nothing
    /\ q' IN = List.filter (in_use c) (q IN) /\ (forall p', p' <> IN -> q' p' = q p')
    /\ uses IN c' = uses IN c
    /\ (counted c q -> pending IN c' = (uses IN c >? 0)
        /\ trace c' = trace c ++ flat_map (flush_event c IN) (q IN) ++
             (if uses IN c >? 0 then [VFMW RELEASE_STREAM]
              else [MSG (flushed_code IN) VDEC_S_SUCCESS NoData])).
Proof.
  intros Hok. unfold channel_flush_in_port.
  destruct (flush_walk_ok c q IN Hok) as (c1 & q1 & E1 & Hs1 & Hc1 & Ht1 & Hq1 & Ho1).
  unfold flush_one in E1. rewrite E1. cbn [mbind option_bind].
  change (if c1.(inp).(use_cnt) >? 0 then _ else _) with (flush_tail IN c1). cbv zeta.
  destruct (flush_tail_ok IN c1 q1 (sv_ok _ _ _ _ _ Hs1)) as (Hs2 & Hb2 & Hu2 & Hp2 & Ht2).
  set (c2 := flush_tail IN c1) in *.
  eexists _, q1. split; [done|]. split_and!; [|done|done| |].
  - eapply (served_ext _ _ _ _ (fun p => nothing p ++ nothing p)); [done|].
    eapply served_trans; [exact Hs1|].
    eapply (served_ext _ _ _ _ (fun p => nothing p ++ nothing p)); [done|].
    eapply served_trans; [exact Hs2|]. destruct (flush_pending (inp c2)).
    + eapply served_quiet; [apply Hs2|apply post_quiet|done|by intros []].
    + eapply (served_quiet _ _ _ []); [apply Hs2|done|by rewrite app_nil_r|done].
  - rewrite <- (cm_uses _ _ Hc1), <- Hu2. by destruct (flush_pending (inp c2)).
  - intros Hct. rewrite (cm_uses _ _ Hc1) in *.
    specialize (Hp2 (sv_counted _ _ _ _ _ Hs1 Hct)). unfold pending in Hp2. simpl port in Hp2.
    split; [unfold pending; simpl; destruct (flush_pending (inp c2)) eqn:Hf; simpl; congruence|].
    rewrite Hp2.
    destruct (uses IN c >? 0).
    + simpl. rewrite Ht2, Ht1, app_nil_r. by rewrite <- app_assoc.
    + rewrite Ht2, Ht1. by rewrite <- app_assoc.
Qed.

(** A reset leaves the queues alone. *)
Lemma reset_inst_ok c t a_vpss a_vfmw :
  table_ok t -> 0 <= c.(channel_id) ->
  exists c' t', channel_reset_inst c t a_vpss a_vfmw = Some (c', t', a_vfmw)
    /\ table_ok t' /\ quiet c c' /\ (forall n, node_buf c' n = node_buf c n)
    /\ trace c' = trace c ++ [VPSS VPSS_RESET; VFMW RESET_CHAN_WITH_OPTION].
Proof.
  intros Ht Hid. unfold channel_reset_inst.
  destruct (reset_ok t (channel_id c) Ht Hid) as (t' & r & Er & Ht').
  simpl channel_id. rewrite Er. cbn [mbind option_bind]. eexists _, t'.
  assert (Hb : forall c', inp c' = inp c -> outp c' = outp c -> last_frame c' = last_frame c ->
                forall n, node_buf c' n = node_buf c n).
  { intros c' E1 E2 E3. apply node_buf_tables; [intros []|done]; simpl; by rewrite ?E1, ?E2. }
  split_and!; [done|done| |by apply Hb|simpl; by rewrite <- app_assoc].
  apply quiet_same; [by apply Hb|done..|]. by split; try (by intros []).
Qed.

Definition reset_events c : list event :=
  if c.(recfg_flag) then [] else [VPSS VPSS_RESET; VFMW RESET_CHAN_WITH_OPTION].

Lemma flush_out_port_ok c q t a_vpss a_vfmw :
  queues_ok c q -> table_ok t -> 0 <= c.(channel_id) ->
  exists c' t' q', channel_flush_out_port c t a_vpss a_vfmw = Some (c', t', HI_SUCCESS)
    /\ table_ok t' /\ served c q c' q' nothing
    /\ q' OUT = List.filter (in_use c) (q OUT) /\ (forall p', p' <> OUT -> q' p' = q p')
    /\ (counted c q -> pending OUT c' = (uses OUT c >? 0)
        /\ trace c' = trace c ++ reset_events c ++ flat_map (flush_event c OUT) (q OUT) ++
             (if uses OUT c >? 0 then []
              else [MSG (flushed_code OUT) VDEC_S_SUCCESS NoData])).
Proof.
  intros Hok Htab Hid. unfold channel_flush_out_port, reset_events.
  assert (exists c0 t0, (if recfg_flag c then Some (c <| recfg_flag := false |>, t)
            else '(c, t, _) ← channel_reset_inst c t a_vpss a_vfmw;
                 Some (c <| seek_pending := true |>, t)) = Some (c0, t0)
          /\ table_ok t0 /\ quiet c c0 /\ (forall n, node_buf c0 n = node_buf c n)
          /\ trace c0 = trace c ++ reset_events c) as (c0 & t0 & -> & Ht0 & Hq0 & Hb0 & Htr0).
  { unfold reset_events. destruct (recfg_flag c).
    - eexists _, _. split_and!; [done|done| |by apply node_buf_tables; [intros []|]|].
      + apply quiet_same; [by apply node_buf_tables; [intros []|]|done..|]. by split; try (by intros []).
      + by rewrite app_nil_r.
    - destruct (reset_inst_ok c t a_vpss a_vfmw Htab Hid) as (c1 & t1 & -> & Ht1 & Hq1 & Hb1 & Htr1).
      cbn [mbind option_bind]. eexists _, t1.
      assert (Hb : forall n, node_buf (c1 <| seek_pending := true |>) n = node_buf c1 n)
        by (by apply node_buf_tables; [intros []|]).
      split_and!; [done|done| | |exact Htr1].
      + etrans; [exact Hq1|]. apply quiet_same; [exact Hb|done..|].
        by split; try (by intros []).
      + intros n. by rewrite Hb. }
  cbn [mbind option_bind].
  pose proof (quiet_ok _ _ _ Hok Hq0) as Hok0.
  destruct (flush_walk_ok c0 q OUT Hok0) as (c1 & q1 & E1 & Hs1 & Hc1 & Ht1 & Hq1 & Ho1).
  unfold flush_one in E1. rewrite E1. cbn [mbind option_bind].
  change (if c1.(outp).(use_cnt) >? 0 then _ else _) with (flush_tail OUT c1).
  destruct (flush_tail_ok OUT c1 q1 (sv_ok _ _ _ _ _ Hs1)) as (Hs2 & Hb2 & Hu2 & Hp2 & Ht2).
  eexists _, t0, q1. split; [done|]. split; [done|].
  assert (Hiu : forall n, in_use c0 n = in_use c n) by (intros n; unfold in_use; by rewrite Hb0).
  assert (Hfe : forall n, flush_event c0 OUT n = flush_event c OUT n)
    by (intros n; unfold flush_event; by rewrite Hiu, Hb0).
  split_and!; [|rewrite Hq1; by apply List.filter_ext|done|].
  - eapply (served_ext _ _ _ _ (fun p => nothing p ++ nothing p)); [done|].
    eapply served_trans; [eapply (served_quiet _ _ _ (reset_events c)); [done|done|exact Htr0|]|].
    { unfold reset_events. by destruct (recfg_flag c), p. }
    eapply (served_ext _ _ _ _ (fun p => nothing p ++ nothing p)); [done|].
    by eapply served_trans.
  - intros Hct. rewrite (cm_uses _ _ Hc1), (cm_uses _ _ (qt_calm _ _ Hq0)) in *.
    split; [by apply Hp2, (sv_counted _ _ _ _ _ Hs1), (counted_quiet c)|].
    rewrite Ht2, Ht1, Htr0, (flat_map_ext _ _ Hfe). by rewrite <- !app_assoc.
Qed.
End Flush.

(** ** The hardware takes a buffer *)

Section Take.
Context {C : HiConsts} {E : OmxEnv} {Ok : HiConstsOk C}.
Implicit Types (c : OMXVDEC_CHAN_CTX) (p : port_dir) (n : node) (q : port_dir -> list node).

Lemma taken_all c l : (forall n, n ∈ l -> in_use c n = true) -> taken c l = Z.of_nat (length l).
Proof.
  induction l as [|x l IH]; intros H; [done|].
  rewrite taken_cons, H, IH by set_solver. simpl. lia.
Qed.

Lemma taken_le c l : taken c l <= Z.of_nat (length l).
Proof.
  induction l as [|x l IH]; [done|]. rewrite taken_cons. destruct (in_use c x); simpl; lia.
Qed.

(** A queued buffer changes hands in its place. *)
Lemma restatus_ok c c' q p n b s :
  queues_ok c q -> n ∈ q p -> node_buf c n = Some b ->
  s = BUF_STATE_USING \/ s = BUF_STATE_QUEUED ->
  (forall n', node_buf c' n' = if decide (n' = n) then Some (b <| status := s |>)
                               else node_buf c n') ->
  (forall p', num p' c' = num p' c /\ max_num p' c' = max_num p' c) ->
  links c' = links c -> eos_in_list c' = eos_in_list c -> (delay_ok c -> delay_ok c') ->
  queues_ok c' q /\ (forall p', owed c' (q p') = owed c (q p'))
  /\ (forall p', taken c' (q p') = taken c (q p') + if decide (p' = p) then
        (if decide (s = BUF_STATE_USING) then 1 else 0) - (if in_use c n then 1 else 0) else 0).
Proof.
  intros Hok Hn Hb Hs Hbuf Hnum Hl He Hd.
  pose proof (qo_node _ _ Hok p n Hn) as Hleg. fold (legit c p n) in Hleg.
  split_and!.
  - eapply (move_ok c c' q q p n b (b <| status := s |>)); try done.
    + by rewrite Hl.
    + apply Hd. intros r. apply (qo_delay _ _ Hok).
    + by right.
    + rewrite Hl. apply (qo_list _ _ Hok).
    + by destruct Hs as [-> | ->].
    + simpl. by destruct Hs as [-> | ->].
    + rewrite He. apply (qo_last _ _ Hok).
    + intros -> Hl'. destruct (qo_last_buf _ _ Hok Hl') as [_ Hid]. injection Hb as <-. exact Hid.
  - intros p'. apply flat_map_ext. intros n'. unfold owes. destruct n' as [|p0 i|]; try done.
    rewrite Hbuf. destruct (decide (Slot p0 i = n)) as [<-|]; [by rewrite Hb|done].
  - intros p'. destruct (decide (p' = p)) as [->|Hp].
    + pose proof (queue_nodup _ _ Hok p) as Hnd.
      apply list_elem_of_split in Hn as (l1 & l2 & Hq). rewrite Hq in Hnd |- *.
      rewrite NoDup_app, NoDup_cons in Hnd. destruct Hnd as (_ & Hd1 & Hd2 & _).
      rewrite !taken_app, !taken_cons, !(taken_ext c c').
      2-3: intros m Hm; rewrite Hbuf, decide_False; [done|]; intros ->; set_solver.
      unfold in_use at 1. rewrite Hbuf, decide_True by done. simpl.
      destruct (decide (s = BUF_STATE_USING)) as [->|Hne]; [|rewrite bool_decide_eq_false_2 by done];
        simpl; lia.
    + rewrite (taken_ext c c'); [lia|]. intros m Hm. rewrite Hbuf, decide_False; [done|].
      intros ->. by eapply queued_other.
Qed.

(** A free queued buffer becomes one in use, and is counted. *)
Lemma take_served c c' q p n b evs :
  queues_ok c q -> n ∈ q p -> node_buf c n = Some b -> in_use c n = false ->
  (forall n', node_buf c' n' = if decide (n' = n) then Some (b <| status := BUF_STATE_USING |>)
                               else node_buf c n') ->
  calm c (on_port p (fun P => P <| use_cnt := uses p c |>) c') ->
  links c' = links c -> eos_in_list c' = eos_in_list c -> uses p c' = uses p c +u 1 ->
  trace c' = trace c ++ evs -> (forall p', returned p' evs = []) ->
  served c q c' q nothing /\ in_use c' n = true.
Proof.
  intros Hok Hn Hb Hu Hbuf Hcalm Hl He Huse Ht Hret.
  pose proof Hcalm as [H1 H2 H3 H4 H5 H6 H7 H8 H9].
  assert (Huses : forall p', uses p' c' = if decide (p' = p) then uses p c +u 1 else uses p' c).
  { intros p'. destruct (decide (p' = p)) as [->|Hp]; [done|].
    rewrite <- H3. unfold uses. by rewrite port_on, decide_False. }
  destruct (restatus_ok c c' q p n b BUF_STATE_USING Hok Hn Hb (or_introl eq_refl) Hbuf)
    as (Hok' & Ho & Htk); [|done|done| |].
  { intros p'. rewrite <- H1, <- H2. unfold num, max_num. rewrite port_on.
    by destruct (decide _) as [->|]. }
  { intros Hd. apply H9 in Hd. by destruct p. }
  split; [|unfold in_use; by rewrite Hbuf, decide_True].
  split; [done| | |by split; destruct p].
  - exists evs. split; [done|]. intros p'. by rewrite Hret, Ho.
  - intros [U P Z]. rewrite Hu in Htk.
    assert (Hwrap : uses p c +u 1 = uses p c + 1).
    { apply u32_small. unfold is_u32. rewrite U.
      pose proof (taken_nonneg c (q p)). pose proof (taken_le c (q p)).
      pose proof (queue_short _ _ Hok p). pose proof (qo_size _ _ Hok p).
      pose proof (qo_small _ _ Hok p). lia. }
    rewrite Hwrap in Huses. pose proof (taken_nonneg c (q p)). split.
    + intros p'. rewrite Huses, Htk, !U. destruct (decide (p' = p)) as [->|]; simpl; lia.
    + intros p' Hp'. rewrite Huses. destruct (decide (p' = p)) as [->|]; [rewrite U; lia|].
      apply P. rewrite <- H4. unfold pending. by rewrite port_on, decide_False.
    + intros Hz. rewrite Huses. specialize (Z (eq_trans (eq_sym H6) ltac:(by destruct p))).
      destruct (decide (OUT = p)) as [<-|]; lia.
Qed.

(** What holds of the buffer that the hardware is given: it is the first of
    the queue that is not in use and has the property [fits]. *)
Definition first_free c (l : list node) (fits : OMXVDEC_BUF_S -> bool) n (b : OMXVDEC_BUF_S) : Prop :=
  node_buf c n = Some b /\ in_use c n = false /\ fits b = true
  /\ exists l1 l2, l = l1 ++ n :: l2 /\
       forall m bm, m ∈ l1 -> node_buf c m = Some bm -> in_use c m = true \/ fits bm = false.

Definition none_free c (l : list node) (fits : OMXVDEC_BUF_S -> bool) : Prop :=
  forall m bm, m ∈ l -> node_buf c m = Some bm -> in_use c m = true \/ fits bm = false.

Lemma find_free c q p (test fits : OMXVDEC_BUF_S -> bool) :
  queues_ok c q ->
  (forall b, test b = negb (bool_decide (b.(status) = BUF_STATE_USING)) && fits b) ->
  exists r, list_find_entry c.(links) (QHead p) (fun n => b ← node_buf c n; Some (test b)) = Some r
    /\ match r with
       | None => none_free c (q p) fits
       | Some n => exists b, first_free c (q p) fits n b
       end.
Proof.
  intros Hok Hfits. rewrite (find_queued _ _ Hok p test).
  eexists. split; [done|].
  assert (Htest : forall m bm, node_buf c m = Some bm ->
    from_option test false (node_buf c m) = negb (in_use c m) && fits bm).
  { intros m bm Hm. unfold in_use. rewrite Hm. apply Hfits. }
  destruct (List.find _ (q p)) as [n|] eqn:Hf.
  - apply find_split in Hf as (l1 & l2 & Hq & Hn & Hl).
    destruct (queued_buf _ _ Hok p n) as [b Hb]; [rewrite Hq; set_solver|].
    rewrite (Htest _ _ Hb) in Hn. apply andb_true_iff in Hn as [Hn1 Hn2].
    exists b. split_and!; [done|by apply negb_true_iff|done|]. exists l1, l2. split; [done|].
    intros m bm Hm Hbm. specialize (Hl m Hm). rewrite (Htest _ _ Hbm) in Hl.
    destruct (in_use c m); [by left|by right].
  - intros m bm Hm Hbm. apply list_elem_of_In in Hm.
    pose proof (List.find_none _ _ Hf m Hm) as Ht. cbn beta in Ht. rewrite (Htest _ _ Hbm) in Ht.
    destruct (in_use c m); [by left|by right].
Qed.

Lemma note_served c q tag type now :
  0 < g_lowdelay_count_frame -> queues_ok c q ->
  exists c', (if lowdelay_on c then add_tag_time c tag type now else Some c) = Some c'
    /\ quiet c c' /\ trace c' = trace c /\ forall n, node_buf c' n = node_buf c n.
Proof. intros Hg Hok. apply note_tag_ok; [done|]. intros r. apply (qo_delay _ _ Hok). Qed.

Lemma end_flag_ok c s :
  exists evs, quiet c (fst (add_end_flag c s)) /\ trace (fst (add_end_flag c s)) = trace c ++ evs
    /\ (forall p, returned p evs = [])
    /\ (forall n, node_buf (fst (add_end_flag c s)) n = node_buf c n)
    /\ (snd (add_end_flag c s)) <| Length := 0 |> = s <| Length := 0 |>.
Proof.
  unfold add_end_flag. repeat case_match;
    [exists []|eexists [_]|exists []]; simpl; rewrite ?app_nil_r; by split_and!.
Qed.

Lemma get_stream_ok c q now :
  0 < g_lowdelay_count_frame -> queues_ok c q ->
  exists c' s ret, get_stream c now = Some (c', s, ret) /\ served c q c' q nothing
    /\ match s with
       | None => ret = HI_FAILURE /\ c' = c
           /\ (state c <> CHAN_STATE_WORK \/ pending IN c = true
               \/ none_free c (q IN) (fun _ => true))
       | Some s => ret = HI_SUCCESS /\ state c = CHAN_STATE_WORK /\ pending IN c = false
           /\ exists n b, first_free c (q IN) (fun _ => true) n b /\ in_use c' n = true
                /\ s <| Length := 0 |> = (stream_of c b) <| Length := 0 |>
                /\ forall m, m <> n -> node_buf c' m = node_buf c m
       end.
Proof.
  intros Hg Hok. unfold get_stream.
  assert (Href : forall P : Prop, P -> exists c' (s : option STREAM_DATA_S) ret,
    Some (c, None, HI_FAILURE) = Some (c', s, ret) /\ served c q c' q nothing
    /\ match s with
       | None => ret = HI_FAILURE /\ c' = c /\ P
       | Some s => ret = HI_SUCCESS /\ state c = CHAN_STATE_WORK /\ pending IN c = false
           /\ exists n b, first_free c (q IN) (fun _ => true) n b /\ in_use c' n = true
                /\ s <| Length := 0 |> = (stream_of c b) <| Length := 0 |>
                /\ forall m, m <> n -> node_buf c' m = node_buf c m
       end).
  { intros P HP. eexists _, _, _. split; [done|]. split; [|done].
    by apply served_refl. }
  destruct (bool_decide (state c = CHAN_STATE_WORK)) eqn:Hst; cbn [negb].
  2: { apply Href. left. by apply bool_decide_eq_false in Hst. }
  apply bool_decide_eq_true in Hst.
  rewrite (queue_empty _ _ Hok). cbn [mbind option_bind]. case_bool_decide as He.
  { apply Href. right; right. intros m bm Hm. rewrite He in Hm. by apply elem_of_nil in Hm. }
  destruct (flush_pending (inp c)) eqn:Hp; [apply Href; by right; left|].
  destruct (find_free c q IN (fun b => negb (bool_decide (b.(status) = BUF_STATE_USING)))
              (fun _ => true) Hok) as (r & -> & Hr); [intros b; by rewrite andb_true_r|].
  cbn [mbind option_bind].
  destruct r as [n|]; [|apply Href; by right; right]. destruct Hr as (b & Hfree).
  destruct Hfree as (Hb & Hu & Hfit & Hsplit). rewrite Hb. cbn [mbind option_bind].
  assert (Hn : n ∈ q IN) by (destruct Hsplit as (l1 & l2 & -> & _); set_solver).
  destruct (set_buf_ok c n (b <| status := BUF_STATE_USING |>) b Hb) as (c1 & -> & Hf & Hbuf).
  cbn [mbind option_bind]. cbv zeta.
  set (c2 := on_port IN count_use _).
  assert (Hbuf2 : forall n', node_buf c2 n' = node_buf c1 n').
  { unfold c2. destruct (seek_pending c1); by apply node_buf_tables; [intros []|]. }
  destruct (take_served c c2 q IN n b [] Hok Hn Hb Hu) as [Hs2 Hin2].
  { intros n'. by rewrite Hbuf2. }
  { etrans; [by apply rest_calm, rest_frame|]. unfold c2.
    assert (uses IN c = uses IN c1) as -> by (symmetry; apply (frame_nums _ _ Hf IN)).
    destruct (seek_pending c1); by split; try (by intros []). }
  { framed Hf. unfold c2. by destruct (seek_pending c1). }
  { framed Hf. unfold c2. by destruct (seek_pending c1). }
  { rewrite <- (proj1 (proj2 (proj2 (frame_nums _ _ Hf IN)))). unfold c2.
    by destruct (seek_pending c1). }
  { framed Hf. rewrite app_nil_r. unfold c2. by destruct (seek_pending c1). }
  { done. }
  destruct (note_served c2 q (UserTag (stream_of c1 b)) OMX_LOWDELAY_REC_VFMW_RCV_STRM_TIME now Hg
              (sv_ok _ _ _ _ _ Hs2)) as (c3 & E3 & Hq3 & Ht3 & Hb3).
  assert (stream_of c1 b = stream_of c b) as Hso.
  { unfold stream_of. f_equal; [exact (f_equal out_width Hf)|exact (f_equal out_height Hf)
      |exact (f_equal seek_pending Hf)]. }
  unfold lowdelay_on in *. rewrite E3. cbn [mbind option_bind].
  set (c4 := c3 <| omx_chan_statinfo ::= _ |>).
  destruct (end_flag_ok c4 (stream_of c1 b)) as (evs & Hq5 & Ht5 & Hr5 & Hb5 & Hlen).
  destruct (add_end_flag c4 (stream_of c1 b)) as [c5 s5]. simpl in Hq5, Ht5, Hb5, Hlen.
  assert (Hb4 : forall n', node_buf c4 n' = node_buf c3 n') by (by apply node_buf_tables; [intros []|]).
  eexists _, _, _. split; [done|]. split.
  - eapply (served_ext _ _ _ _ (fun p => nothing p ++ nothing p)); [done|].
    eapply served_trans; [exact Hs2|].
    eapply (served_quiet _ _ _ evs); [apply Hs2| |rewrite Ht5; change (trace c4) with (trace c3);
      by rewrite Ht3|done].
    etrans; [exact Hq3|]. etrans; [|exact Hq5].
    apply quiet_same; [done|done|done|by split].
  - split_and!; [done|done|done|]. exists n, b. split_and!; [by split_and!| |by rewrite Hlen, Hso|].
    + rewrite <- Hin2. unfold in_use. by rewrite Hb5, Hb4, Hb3.
    + intros m Hm. by rewrite Hb5, Hb4, Hb3, Hbuf2, Hbuf, decide_False.
Qed.

Definition big_enough (len : Z) (b : OMXVDEC_BUF_S) : bool := negb (len >? b.(buf_len)).

Lemma get_frame_ok c q len :
  queues_ok c q ->
  exists c' s ret, processor_get_frame c len = Some (c', s, ret) /\ served c q c' q nothing
    /\ trace c' = trace c
    /\ match s with
       | None => ret = HI_FAILURE /\ c' = c
           /\ (state c <> CHAN_STATE_WORK \/ pending OUT c = true
               \/ none_free c (q OUT) (big_enough len))
       | Some s => ret = HI_SUCCESS /\ state c = CHAN_STATE_WORK /\ pending OUT c = false
           /\ exists n b, first_free c (q OUT) (big_enough len) n b /\ in_use c' n = true
                /\ node_buf c' n = Some (b <| status := BUF_STATE_USING |>)
                /\ s = mkStore (hw_addr b) (b.(kern_vaddr) +u b.(offset)) b.(buf_len)
                         b.(private_phy_addr) b.(private_len)
       end.
Proof.
  intros Hok. unfold processor_get_frame.
  pose proof (served_refl c q Hok) as Hself.
  destruct (bool_decide (state c = CHAN_STATE_WORK)) eqn:Hst; cbn [negb].
  2: { eexists _, None, _. split_and!; try done. left. by apply bool_decide_eq_false in Hst. }
  apply bool_decide_eq_true in Hst.
  destruct (flush_pending (outp c)) eqn:Hp; [eexists _, None, _; split_and!; eauto|].
  rewrite (queue_empty _ _ Hok). cbn [mbind option_bind]. case_bool_decide as He.
  { eexists _, None, _. split_and!; try done. right; right. intros m bm Hm.
    rewrite He in Hm. by apply elem_of_nil in Hm. }
  destruct (find_free c q OUT (fun b => negb (bool_decide (b.(status) = BUF_STATE_USING))
              && negb (len >? b.(buf_len))) (big_enough len) Hok (fun b => eq_refl)) as (r & -> & Hr).
  cbn [mbind option_bind].
  destruct r as [n|]; [|eexists _, None, _; split_and!; eauto]. destruct Hr as (b & Hfree).
  pose proof Hfree as (Hb & Hu & _ & Hsplit). rewrite Hb. cbn [mbind option_bind].
  assert (Hn : n ∈ q OUT) by (destruct Hsplit as (l1 & l2 & -> & _); set_solver).
  destruct (set_buf_ok c n (b <| status := BUF_STATE_USING |>) b Hb) as (c1 & -> & Hf & Hbuf).
  cbn [mbind option_bind]. cbv zeta. set (c2 := on_port OUT count_use c1).
  assert (Hbuf2 : forall n', node_buf c2 n' = node_buf c1 n')
    by (by apply node_buf_tables; [intros []|]).
  framed Hf. destruct (take_served c c2 q OUT n b [] Hok Hn Hb Hu) as [Hs2 Hin2]; try done.
  { intros n'. by rewrite Hbuf2. }
  { etrans; [by apply rest_calm, rest_frame|].
    assert (uses OUT c = uses OUT c1) as -> by (symmetry; apply (H3 OUT)).
    by split; try (by intros []). }
  { by rewrite <- (proj1 (proj2 (proj2 (H3 OUT)))). }
  { by rewrite app_nil_r. }
  eexists _, (Some _), _. split_and!; [done|done|done|done|done|done|].
  exists n, b. split_and!; [done|done| |done]. by rewrite Hbuf2, Hbuf, decide_True.
Qed.
End Take.
