(* ===== verification/OmxReturn.v ===== *)
(** * The hardware returns buffers to a decoder channel

    The decoder returns stream buffers, VPSS returns and reports frame buffers.
    A returned buffer leaves its queue and goes back to the user, and what waited
    for the last one is done. *)

From S2P Require Import Prelude KList FrameRate PtsRec OmxDelay OmxChan OmxHw OmxQueue OmxCalls.
From S2P Require Import OmxServe.

Section Return.
Context {C : HiConsts} {E : OmxEnv} {Ok : HiConstsOk C}.
Implicit Types (c : OMXVDEC_CHAN_CTX) (p : port_dir) (n : node) (q : port_dir -> list node).

(** The first queued buffer that the hardware's address names. *)
Record named c (l : list node) (addr : Z) n (b : OMXVDEC_BUF_S) (l1 l2 : list node) : Prop := {
  nm_split : l = l1 ++ n :: l2;
  nm_buf : node_buf c n = Some b;
  nm_addr : hw_addr b = addr;
  nm_first : forall m bm, m ∈ l1 -> node_buf c m = Some bm -> hw_addr bm <> addr;
}.

Lemma find_hw_ok c q p addr :
  queues_ok c q ->
  exists r, find_hw c p addr = Some r
    /\ match r with
       | None => forall n b, n ∈ q p -> node_buf c n = Some b -> hw_addr b <> addr
       | Some n => exists b l1 l2, named c (q p) addr n b l1 l2
       end.
Proof.
  intros Hok. unfold find_hw. rewrite (find_queued _ _ Hok p (fun b => addr =? hw_addr b)).
  eexists. split; [done|]. destruct (List.find _ (q p)) as [n|] eqn:Hf.
  - apply find_split in Hf as (l1 & l2 & Hq & Hn & Hl).
    destruct (queued_buf _ _ Hok p n) as [b Hb]; [rewrite Hq; set_solver|].
    exists b, l1, l2. rewrite Hb in Hn. simpl in Hn.
    split; [done|done|lia|]. intros m bm Hm Hbm. specialize (Hl m Hm). rewrite Hbm in Hl.
    simpl in Hl. lia.
  - intros n b Hn Hb. apply list_elem_of_In in Hn.
    pose proof (List.find_none _ _ Hf n Hn) as Ht. cbn beta in Ht. rewrite Hb in Ht.
    simpl in Ht. lia.
Qed.

(** ** A buffer leaves *)

Lemma leave_kept c c' q p n l1 l2 b evs :
  queues_ok c q -> q p = l1 ++ n :: l2 -> node_buf c n = Some b ->
  left_queue c c' (upd p (l1 ++ l2) q) p n evs ->
  (forall p', returned p' evs = if decide (p' = p) then owes c n else []) ->
  kept c q c' (upd p (l1 ++ l2) q) nothing
  /\ forall p', taken c' (upd p (l1 ++ l2) q p')
        = taken c (q p') - (if decide (p' = p) then if in_use c n then 1 else 0 else 0).
Proof.
  intros Hok Hq Hb [H1 H2 H3 (b' & H4)] Hr.
  assert (Hl : legit c p n) by (apply (qo_node _ _ Hok); rewrite Hq; set_solver).
  pose proof (dequeue_effect c c' p n b b' q Hok Hl Hb H4 l1 l2 Hq) as Heff.
  split; [|intros p'; destruct (Heff p') as [_ Hk]; lia].
  split; [done| |apply H2|apply H2].
  exists evs. split; [done|]. intros p'. unfold nothing. rewrite app_nil_r, Hr. apply Heff.
Qed.

Lemma drop_parked p c : parked c (on_port p drop_use c).
Proof. by apply on_port_parked. Qed.

Lemma drop_uses p p' c :
  uses p' (on_port p drop_use c)
  = if decide (p' = p) then (if uses p c >? 0 then uses p c - 1 else 0) else uses p' c.
Proof. unfold uses. rewrite port_on. by destruct (decide _) as [->|]. Qed.

(** After a returned buffer that was in use: the counters are right, and only
    what waits at its port may be over. *)
Record dropped p c q : Prop := {
  dr_uses : forall p', uses p' c = taken c (q p');
  dr_pending : forall p', p' <> p -> pending p' c = true -> 0 < uses p' c;
  dr_pause : p <> OUT -> c.(pause_pending) = true -> 0 < uses OUT c;
}.

Lemma leave_dropped c c' q p n l1 l2 b evs :
  queues_ok c q -> q p = l1 ++ n :: l2 -> node_buf c n = Some b ->
  left_queue c c' (upd p (l1 ++ l2) q) p n evs ->
  (forall p', returned p' evs = if decide (p' = p) then owes c n else []) ->
  in_use c n = true -> counted c q ->
  dropped p (on_port p drop_use c') (upd p (l1 ++ l2) q)
  /\ uses p (on_port p drop_use c') = uses p c - 1.
Proof.
  intros Hok Hq Hb Hlq Hr Hu [U P Z].
  destruct (leave_kept c c' q p n l1 l2 b evs Hok Hq Hb Hlq Hr) as [_ Htk].
  pose proof (lq_calm _ _ _ _ _ _ Hlq) as Hc.
  assert (Hpos : 0 < uses p c).
  { rewrite U, Hq, taken_app, taken_cons, Hu. pose proof (taken_nonneg c l1).
    pose proof (taken_nonneg c l2). lia. }
  assert (Hone : uses p (on_port p drop_use c') = uses p c - 1).
  { rewrite drop_uses, decide_True, (cm_uses _ _ Hc) by done.
    destruct (Z.gtb_spec (uses p c) 0); lia. }
  split; [|done]. split.
  - intros p'. rewrite (parked_taken _ _ _ (drop_parked p c')), Htk.
    destruct (decide (p' = p)) as [->|Hp]; [rewrite Hone, Hu, U; lia|].
    rewrite drop_uses, decide_False, (cm_uses _ _ Hc), U by done. lia.
  - intros p' Hp. rewrite drop_uses, decide_False, (cm_uses _ _ Hc) by done.
    intros Hpend. apply P. rewrite <- (cm_pending _ _ Hc). unfold pending in *.
    by rewrite port_on, decide_False in Hpend.
  - intros Hp. rewrite drop_uses, decide_False, (cm_uses _ _ Hc) by congruence.
    intros Hz. apply Z. rewrite <- (cm_pause _ _ Hc). by destruct p.
Qed.

(** The end of a flush of the stream buffers that was waiting. *)
Definition finish_in c : OMXVDEC_CHAN_CTX :=
  if c.(inp).(flush_pending) && (c.(inp).(use_cnt) =? 0)
  then on_port IN (fun P => P <| flush_pending := false |>)
         (message_queue c VDEC_MSG_RESP_FLUSH_INPUT_DONE VDEC_S_SUCCESS NoData)
  else c.

Definition finish_in_events c : list event :=
  if pending IN c && (uses IN c =? 0) then [MSG (flushed_code IN) VDEC_S_SUCCESS NoData] else [].

Lemma finish_in_returned c p : returned p (finish_in_events c) = [].
Proof. unfold finish_in_events. destruct (_ && _), p; done. Qed.

Lemma post_parked c e : parked c (post c e).
Proof. split; try done; try apply node_buf_post; by intros []. Qed.

Lemma finish_in_state c : state (finish_in c) = state c.
Proof. unfold finish_in. by destruct (_ && _). Qed.

Lemma finish_in_port c :
  uses IN (finish_in c) = uses IN c /\ pending IN (finish_in c) = pending IN c && negb (uses IN c =? 0).
Proof.
  unfold finish_in. change (flush_pending (inp c)) with (pending IN c).
  change (use_cnt (inp c)) with (uses IN c).
  destruct (pending IN c) eqn:Hp, (uses IN c =? 0); simpl; by split.
Qed.

Lemma finish_in_ok c :
  parked c (finish_in c) /\ trace (finish_in c) = trace c ++ finish_in_events c
  /\ (forall q, dropped IN c q -> counted (finish_in c) q).
Proof.
  unfold finish_in, finish_in_events.
  change (flush_pending (inp c)) with (pending IN c). change (use_cnt (inp c)) with (uses IN c).
  destruct (pending IN c && (uses IN c =? 0)) eqn:Hd.
  - assert (Hp : parked c (on_port IN (fun P => P <| flush_pending := false |>)
      (message_queue c VDEC_MSG_RESP_FLUSH_INPUT_DONE VDEC_S_SUCCESS NoData))).
    { eapply parked_trans; [apply post_parked|by apply on_port_parked]. }
    split_and!; [done|done|]. intros q [U P Z].
    split.
    + intros p. rewrite (parked_taken _ _ _ Hp), <- U. by destruct p.
    + intros []; [done|]. apply (P OUT). done.
    + by apply Z.
  - split_and!; [by split|by rewrite app_nil_r|]. intros q [U P Z].
    split; [done| |by apply Z]. intros [] Hp; [|by apply (P OUT)].
    rewrite Hp in Hd. simpl in Hd. pose proof (U IN). pose proof (taken_nonneg c (q IN)). lia.
Qed.

Definition finish_out_events c : list event :=
  if 0 =? uses OUT c then
    (if pending OUT c then [MSG (flushed_code OUT) VDEC_S_SUCCESS NoData] else [])
    ++ (if pause_pending c then [MSG VDEC_MSG_RESP_PAUSE_DONE VDEC_S_SUCCESS NoData] else [])
  else [].

Lemma finish_out_returned c p : returned p (finish_out_events c) = [].
Proof.
  unfold finish_out_events. destruct (0 =? _), (pending OUT c), (pause_pending c), p; done.
Qed.

Lemma finish_out_ok c :
  parked c (finish_pending c) /\ trace (finish_pending c) = trace c ++ finish_out_events c
  /\ state (finish_pending c) = state c
  /\ (forall q, dropped OUT c q -> counted (finish_pending c) q).
Proof.
  unfold finish_pending, finish_out_events.
  change (flush_pending (outp c)) with (pending OUT c). change (use_cnt (outp c)) with (uses OUT c).
  destruct (Z.eqb_spec 0 (uses OUT c)) as [Hz|Hz].
  2: { split_and!; [by split|by rewrite app_nil_r|done|]. intros q [U P Z].
       assert (0 < uses OUT c) by (pose proof (U OUT); pose proof (taken_nonneg c (q OUT)); lia).
       split; [done|intros []|]; auto. }
  set (c1 := if pending OUT c then _ else c).
  assert (parked c c1 /\ (forall p, uses p c1 = uses p c) /\ pending OUT c1 = false
          /\ pending IN c1 = pending IN c /\ pause_pending c1 = pause_pending c
          /\ state c1 = state c
          /\ trace c1 = trace c ++ (if pending OUT c
               then [MSG (flushed_code OUT) VDEC_S_SUCCESS NoData] else []))
    as (Hp1 & Hu1 & Hn1 & Hi1 & Hpp1 & Hs1 & Ht1).
  { unfold c1. destruct (pending OUT c) eqn:Hp.
    - split_and!; try done; [|by intros []].
      eapply parked_trans; [apply post_parked|by apply on_port_parked].
    - split_and!; try done. by rewrite app_nil_r. }
  clearbody c1. rewrite Hpp1. destruct (pause_pending c) eqn:Hpp.
  - set (c2 := (message_queue c1 _ _ _) <| pause_pending := false |>).
    assert (Hp2 : parked c c2).
    { eapply parked_trans; [exact Hp1|]. by split. }
    split_and!; [done|simpl; rewrite Ht1; by rewrite <- app_assoc|done|].
    intros q [U P Z]. split.
    + intros p. rewrite (parked_taken _ _ _ Hp2), <- U, <- Hu1. by destruct p.
    + intros [] Hp; [|exfalso; change (pending OUT c2) with (pending OUT c1) in Hp; congruence].
      change (uses IN c2) with (uses IN c1). rewrite Hu1. apply P; [done|]. by rewrite <- Hi1.
    + done.
  - split_and!; [done|by rewrite app_nil_r|done|].
    intros q [U P Z]. split.
    + intros p. by rewrite (parked_taken _ _ _ Hp1), <- U, <- Hu1.
    + intros [] Hp; [|congruence]. rewrite Hu1. apply P; [done|]. by rewrite <- Hi1.
    + congruence.
Qed.

(** ** The decoder returns a stream buffer *)

Lemma unqueue_bind {T} c c2 n (k : OMXVDEC_CHAN_CTX -> option T) :
  unqueue c n = Some c2 ->
  (c ← alter_buf c n (fun b => b <| status := BUF_STATE_IDLE |>);
   c ← on_links c (fun m => list_del m n); k c) = k c2.
Proof.
  unfold unqueue. destruct (alter_buf c n _) as [c1|]; [|done]. cbn [mbind option_bind].
  by intros ->.
Qed.

(** What the decoder's message says of a returned buffer. *)
Definition stream_desc (stack : OMXVDEC_BUF_DESC) (b : OMXVDEC_BUF_S) : OMXVDEC_BUF_DESC :=
  stack <| dir := PORT_DIR_INPUT |> <| bufferaddr := b.(user_vaddr) |>
    <| buffer_len := b.(buf_len) |> <| d_client_data := b.(client_data) |> <| data_len := 0 |>
    <| timestamp := 0 |> <| phyaddr := b.(phy_addr) |>.

Lemma gives_returned p (desc : OMXVDEC_BUF_DESC) c n b :
  node_buf c n = Some b -> desc.(d_client_data) = b.(client_data) ->
  forall p', returned p' (gives p desc n) = if decide (p' = p) then owes c n else [].
Proof.
  intros Hb Hd p'. unfold gives, owes.
  destruct n as [|p0 i|]; [by destruct (decide _)| |by destruct (decide _)].
  rewrite Hb. simpl. rewrite Hd. by destruct p, p'.
Qed.

Lemma release_stream_ok c q addr tag stack now :
  0 < g_lowdelay_count_frame -> queues_ok c q ->
  exists c' q' ret, release_stream c addr tag stack now = Some (c', ret)
    /\ kept c q c' q' nothing /\ state c' = state c
    /\ ((c' = c /\ q' = q /\ (ret = 0 \/ ret = HI_FAILURE)
         /\ forall n b, n ∈ q IN -> node_buf c n = Some b -> hw_addr b <> addr)
        \/ (ret = HI_SUCCESS /\ exists n b l1 l2, named c (q IN) addr n b l1 l2
            /\ q' = upd IN (l1 ++ l2) q
            /\ trace c' = trace c ++ gives IN (stream_desc stack b) n ++
                 (if pending IN c && ((if uses IN c >? 0 then uses IN c - 1 else 0) =? 0)
                  then [MSG (flushed_code IN) VDEC_S_SUCCESS NoData] else [])
            /\ (in_use c n = true -> counted c q -> counted c' q')
            /\ (forall m, m <> n -> node_buf c' m = node_buf c m)
            /\ uses IN c' = (if uses IN c >? 0 then uses IN c - 1 else 0)
            /\ pending IN c' = pending IN c && negb (uses IN c' =? 0))).
Proof.
  intros Hg Hok. unfold release_stream.
  rewrite (queue_empty _ _ Hok). cbn [mbind option_bind]. case_bool_decide as He.
  { eexists _, q, _. split; [done|]. split; [by apply kept_refl|]. split; [done|]. left.
    split_and!; [done|done|by left|]. intros n b Hn. rewrite He in Hn. by apply elem_of_nil in Hn. }
  destruct (find_hw_ok c q IN addr Hok) as (r & -> & Hr). cbn [mbind option_bind].
  destruct r as [n|].
  2: { eexists _, q, _. split; [done|]. split; [by apply kept_refl|]. split; [done|]. left. split_and!; eauto. }
  destruct Hr as (b & l1 & l2 & Hnm). pose proof Hnm as [Hq Hb Ha _].
  destruct (unqueue_in_ok c q n l1 l2 b (stream_desc stack b) Hok Hq Hb)
    as (c2 & c3 & Eu & Hb2 & Eg & Hlq).
  rewrite (unqueue_bind c c2 n _ Eu), Hb2. cbn [mbind option_bind].
  unfold give_in in Eg. rewrite Hb2 in Eg. cbn [mbind option_bind] in Eg.
  match goal with |- context [if negb (?x =? LAST_FRAME_BUF_ID) then ?a else ?e] =>
    replace (if negb (x =? LAST_FRAME_BUF_ID) then a else e) with (Some c3) by exact (eq_sym Eg) end.
  cbn [mbind option_bind]. cbv zeta.
  set (c4 := on_port IN drop_use c3).
  change (if flush_pending (inp c4) && _ then _ else c4) with (finish_in c4).
  pose proof (gives_returned IN (stream_desc stack b) c n b Hb eq_refl) as Hret.
  destruct (leave_kept c c3 q IN n l1 l2 b _ Hok Hq Hb Hlq Hret) as [Hk3 _].
  destruct (finish_in_ok c4) as (Hp5 & Ht5 & Hc5).
  assert (Hk5 : kept c3 (upd IN (l1 ++ l2) q) (finish_in c4) (upd IN (l1 ++ l2) q) nothing).
  { eapply parked_kept; [apply Hk3|eapply parked_trans; [apply drop_parked|exact Hp5]
      |exact Ht5|]. apply finish_in_returned. }
  destruct (note_served (finish_in c4) _ tag OMX_LOWDELAY_REC_VFMW_RLS_STRM_TIME now Hg
              (kp_ok _ _ _ _ _ Hk5)) as (c6 & -> & Hq6 & Ht6 & Hb6).
  cbn [mbind option_bind]. eexists _, _, _. split; [done|].
  pose proof (served_quiet _ c6 _ [] nothing (kp_ok _ _ _ _ _ Hk5) Hq6
                ltac:(by rewrite app_nil_r) ltac:(done)) as Hs6.
  split.
  - eapply (kept_trans _ _ _ _ _ _ nothing (fun p => nothing p ++ nothing p)); [exact Hk3|].
    eapply kept_trans; [exact Hk5|by apply served_kept].
  - split.
    { rewrite (sm_state _ _ (sv_same _ _ _ _ _ Hs6)), finish_in_state.
      apply (cm_state _ _ (lq_calm _ _ _ _ _ _ Hlq)). }
    right. split; [done|]. exists n, b, l1, l2.
    pose proof (lq_calm _ _ _ _ _ _ Hlq) as Hcalm.
    destruct (finish_in_port c4) as (Hu5 & Hp5'). pose proof (qt_calm _ _ Hq6) as Hc6.
    assert (Hu6 : uses IN c6 = if uses IN c >? 0 then uses IN c - 1 else 0).
    { rewrite (cm_uses _ _ Hc6), Hu5. unfold c4. by rewrite drop_uses, decide_True, (cm_uses _ _ Hcalm). }
    split_and!; [done|done| | | |done|].
    + rewrite Ht6, Ht5. unfold c4, finish_in_events. rewrite drop_uses, decide_True by done.
      rewrite (cm_uses _ _ (lq_calm _ _ _ _ _ _ Hlq)).
      change (pending IN (on_port IN drop_use c3)) with (pending IN c3).
      rewrite (cm_pending _ _ (lq_calm _ _ _ _ _ _ Hlq)).
      simpl trace. rewrite (lq_trace _ _ _ _ _ _ Hlq). by rewrite <- app_assoc.
    + intros Hu Hct. apply (sv_counted _ _ _ _ _ Hs6), Hc5.
      by eapply leave_dropped.
    + intros m Hm. rewrite Hb6, (pk_buf _ _ Hp5). destruct (lq_buf _ _ _ _ _ _ Hlq) as (b' & Hb').
      transitivity (node_buf c3 m); [apply (pk_buf _ _ (drop_parked IN c3))|].
      by rewrite Hb', decide_False.
    + rewrite (cm_pending _ _ Hc6), Hp5', <- Hu5, <- (cm_uses _ _ Hc6). f_equal.
      exact (cm_pending _ _ Hcalm IN).
Qed.

(** ** VPSS returns a frame buffer *)

(** A counter that was right and lost one of its buffers, when nothing waits. *)
Lemma requeue_counted c c' q p n b :
  queues_ok c q -> n ∈ q p -> node_buf c n = Some b -> in_use c n = true ->
  pending p c = false -> (p = OUT -> pause_pending c = false) ->
  (forall p', taken c' (q p') = taken c (q p') + if decide (p' = p) then -1 else 0) ->
  (forall p', uses p' c' = if decide (p' = p) then (if uses p c >? 0 then uses p c - 1 else 0)
                           else uses p' c) ->
  (forall p', pending p' c' = pending p' c) -> pause_pending c' = pause_pending c ->
  counted c q -> counted c' q.
Proof.
  intros Hok Hn Hb Hu Hp Hz Htk Huses Hpend Hpause [U P Z]. split.
  - intros p'. rewrite Huses, Htk. destruct (decide (p' = p)) as [->|]; [|rewrite U; lia].
    rewrite U. apply list_elem_of_split in Hn as (l1 & l2 & ->).
    rewrite !taken_app, !taken_cons, Hu.
    pose proof (taken_nonneg c l1). pose proof (taken_nonneg c l2).
    destruct (Z.gtb_spec (taken c l1 + (1 + taken c l2)) 0); lia.
  - intros p'. rewrite Hpend, Huses. intros Hp'. destruct (decide (p' = p)) as [->|]; [congruence|].
    by apply P.
  - rewrite Hpause. intros Hz'. rewrite Huses. destruct (decide (OUT = p)) as [<-|]; [|by apply Z].
    rewrite (Hz eq_refl) in Hz'. done.
Qed.

Definition waiting c : bool := pending OUT c || pause_pending c.

Lemma requeue_ok c c' q n b :
  queues_ok c q -> n ∈ q OUT -> node_buf c n = Some b -> waiting c = false ->
  frame c' = frame (on_port OUT drop_use c) ->
  (forall n', node_buf c' n' = if decide (n' = n) then Some (b <| status := BUF_STATE_QUEUED |>)
                               else node_buf c n') ->
  kept c q c' q nothing /\ trace c' = trace c /\ state c' = state c
  /\ (in_use c n = true -> counted c q -> counted c' q).
Proof.
  intros Hok Hn Hb Hw Hf Hbuf. framed Hf. apply orb_false_iff in Hw as [Hw1 Hw2].
  destruct (restatus_ok c c' q OUT n b BUF_STATE_QUEUED Hok Hn Hb (or_intror eq_refl) Hbuf)
    as (Hok' & Ho & Htk); [|done|done| |].
  { intros p. destruct (H3 p) as (-> & -> & _). by destruct p. }
  { unfold delay_ok. by rewrite H2. }
  split_and!; [split| | |].
  - done.
  - exists []. split; [by rewrite app_nil_r|]. intros p. by rewrite Ho.
  - exact (f_equal channel_id Hf).
  - exact (f_equal fixed Hf).
  - done.
  - exact (f_equal state Hf).
  - intros Hu. eapply (requeue_counted c c' q OUT n b); try done.
    + intros p. rewrite Htk, Hu. by destruct (decide (p = OUT)).
    + intros p. destruct (H3 p) as (_ & _ & -> & _). apply drop_uses.
    + intros p. destruct (H3 p) as (_ & _ & _ & ->). by destruct p.
    + exact (f_equal pause_pending Hf).
Qed.

(** The last buffer that a flush or a pause waited for. *)
Definition last_out_events c : list event :=
  if (if uses OUT c >? 0 then uses OUT c - 1 else 0) =? 0 then
    (if pending OUT c then [MSG (flushed_code OUT) VDEC_S_SUCCESS NoData] else [])
    ++ (if pause_pending c then [MSG VDEC_MSG_RESP_PAUSE_DONE VDEC_S_SUCCESS NoData] else [])
  else [].

(** Unqueueing a frame buffer, telling the user, counting, and ending what waited. *)
Lemma leave_out_ok c q n b l1 l2 desc c2 c3 :
  queues_ok c q -> q OUT = l1 ++ n :: l2 -> node_buf c n = Some b ->
  unqueue c n = Some c2 -> left_queue c c2 (upd OUT (l1 ++ l2) q) OUT n [] ->
  desc.(d_client_data) = b.(client_data) ->
  quiet c2 c3 -> trace c3 = trace c2 -> (forall n', n' <> n -> node_buf c3 n' = node_buf c2 n') ->
  let c4 := on_port OUT drop_use (message_queue c3 (done_code OUT) VDEC_S_SUCCESS (BufData desc)) in
  let q' := upd OUT (l1 ++ l2) q in
  kept c q (finish_pending c4) q' nothing
  /\ trace (finish_pending c4) = trace c ++ [MSG (done_code OUT) VDEC_S_SUCCESS (BufData desc)]
       ++ last_out_events c
  /\ state (finish_pending c4) = state c
  /\ (in_use c n = true -> counted c q -> counted (finish_pending c4) q').
Proof.
  intros Hok Hq Hb Eu Hlq Hdesc Hq3 Ht3 Hb3 c4 q'.
  set (c5 := message_queue c3 (done_code OUT) VDEC_S_SUCCESS (BufData desc)) in *.
  assert (Hslot : exists i, n = Slot OUT i).
  { destruct (qo_node _ _ Hok OUT n) as [[_ ?]|(i & -> & _)]; [rewrite Hq; set_solver|done|eauto]. }
  destruct Hslot as [i ->].
  assert (Hgives : [MSG (done_code OUT) VDEC_S_SUCCESS (BufData desc)] = gives OUT desc (Slot OUT i))
    by done.
  assert (Hl5 : left_queue c c5 q' OUT (Slot OUT i) (gives OUT desc (Slot OUT i))).
  { destruct Hlq as [H1 H2 H3 (b' & H4)]. split.
    - eapply quiet_ok; [exact H1|]. etrans; [exact Hq3|apply post_quiet].
    - etrans; [exact H2|]. etrans; [apply Hq3|apply post_quiet].
    - simpl. rewrite Ht3, H3. by rewrite app_nil_r.
    - destruct (node_buf c3 (Slot OUT i)) as [b3|] eqn:E3.
      + exists b3. intros n'. unfold c5, message_queue. rewrite node_buf_post.
        destruct (decide (n' = Slot OUT i)) as [->|Hn]; [done|].
        by rewrite Hb3, H4, decide_False.
      + exfalso. pose proof (qt_core _ _ Hq3 (Slot OUT i)) as Hc. rewrite E3, H4 in Hc.
        by rewrite decide_True in Hc. }
  pose proof (gives_returned OUT desc c _ b Hb Hdesc) as Hret.
  destruct (leave_kept c c5 q OUT _ l1 l2 b _ Hok Hq Hb Hl5 Hret) as [Hk5 _].
  destruct (finish_out_ok c4) as (Hp6 & Ht6 & Hs6 & Hc6).
  pose proof (lq_calm _ _ _ _ _ _ Hl5) as Hcalm. split_and!.
  - eapply (kept_trans _ _ _ _ _ _ nothing nothing); [exact Hk5|].
    eapply parked_kept; [apply Hk5|eapply parked_trans; [apply drop_parked|exact Hp6]|exact Ht6|].
    apply finish_out_returned.
  - rewrite Ht6. change (trace c4) with (trace c5). rewrite (lq_trace _ _ _ _ _ _ Hl5), <- app_assoc.
    f_equal. f_equal. unfold finish_out_events, last_out_events.
    unfold c4. rewrite drop_uses, decide_True, (cm_uses _ _ Hcalm), Z.eqb_sym by done.
    change (pending OUT (on_port OUT drop_use c5)) with (pending OUT c5).
    change (pause_pending (on_port OUT drop_use c5)) with (pause_pending c5).
    by rewrite (cm_pending _ _ Hcalm), (cm_pause _ _ Hcalm).
  - rewrite Hs6. change (state c4) with (state c5). apply (cm_state _ _ Hcalm).
  - intros Hu Hct. apply Hc6. by eapply leave_dropped.
Qed.

Lemma release_frame_ok c q addr :
  queues_ok c q ->
  exists c' q' ret, processor_release_frame c addr = Some (c', ret)
    /\ kept c q c' q' nothing /\ state c' = state c
    /\ ((c' = c /\ q' = q /\ (ret = 0 \/ ret = HI_FAILURE)
         /\ (addr = 0 \/ forall n b, n ∈ q OUT -> node_buf c n = Some b -> hw_addr b <> addr))
        \/ (ret = HI_SUCCESS /\ exists n b l1 l2, named c (q OUT) addr n b l1 l2
            /\ (in_use c n = true -> counted c q -> counted c' q')
            /\ if waiting c then q' = upd OUT (l1 ++ l2) q
                 /\ trace c' = trace c ++ [MSG (done_code OUT) VDEC_S_SUCCESS
                      (BufData (returned_desc OUT b))] ++ last_out_events c
               else q' = q /\ trace c' = trace c
                 /\ node_buf c' n = Some (b <| status := BUF_STATE_QUEUED |>))).
Proof.
  intros Hok. unfold processor_release_frame, release_frame_mark.
  destruct (Z.eqb_spec addr 0) as [Hz|Hz].
  { eexists _, q, _. split; [done|]. split; [by apply kept_refl|]. split; [done|]. left.
    split_and!; auto. }
  rewrite (queue_empty _ _ Hok). cbn [mbind option_bind]. case_bool_decide as He.
  { eexists _, q, _. split; [done|]. split; [by apply kept_refl|]. split; [done|]. left.
    split_and!; [done|done|by left|]. right. intros n b Hn. rewrite He in Hn.
    by apply elem_of_nil in Hn. }
  destruct (find_hw_ok c q OUT addr Hok) as (r & -> & Hr). cbn [mbind option_bind].
  destruct r as [n|].
  2: { eexists _, q, _. split; [done|]. split; [by apply kept_refl|]. split; [done|]. left.
    split_and!; auto. }
  destruct Hr as (b & l1 & l2 & Hnm). pose proof Hnm as [Hq Hb Ha _].
  destruct (alter_buf_ok c n (fun b => b <| status := BUF_STATE_IDLE |>) b Hb)
    as (c1 & E1 & Hf & Hbuf). rewrite E1. cbn [mbind option_bind].
  unfold release_frame_finish. cbv zeta.
  assert (Hfp : flush_pending (outp (on_port OUT drop_use c1)) = pending OUT c)
    by (apply (frame_nums _ _ Hf OUT)).
  assert (Hpp : pause_pending (on_port OUT drop_use c1) = pause_pending c)
    by exact (f_equal pause_pending Hf).
  rewrite Hfp, Hpp. fold (waiting c). destruct (waiting c) eqn:Hw.
  - destruct (unqueue_out_ok c q n l1 l2 b Hok Hq Hb) as (c2 & Eu & Hb2 & Hlq & Hr2).
    pose proof (leave_out_ok c q n b l1 l2 (returned_desc OUT (b <| status := BUF_STATE_IDLE |>))
                  c2 c2 Hok Hq Hb Eu Hlq eq_refl ltac:(done) eq_refl ltac:(done))
      as (Hk & Ht & Hs & Hct).
    unfold unqueue in Eu. rewrite E1 in Eu. cbn [mbind option_bind] in Eu.
    assert (on_links (on_port OUT drop_use c1) (fun m => list_del m n)
            = Some (on_port OUT drop_use c2)) as ->.
    { unfold on_links in *. change (links (on_port OUT drop_use c1)) with (links c1).
      destruct (list_del (links c1) n); [|done]. by injection Eu as <-. }
    cbn [mbind option_bind].
    assert (node_buf (on_port OUT drop_use c2) n = Some (b <| status := BUF_STATE_IDLE |>)) as ->.
    { rewrite <- Hb2. by apply node_buf_tables; [intros []|]. }
    cbn [mbind option_bind]. eexists _, _, _. split; [done|]. split; [exact Hk|].
    split; [exact Hs|]. right. split; [done|]. exists n, b, l1, l2. split_and!; [done|done|done|].
    exact Ht.
  - destruct (alter_buf_ok (on_port OUT drop_use c1) n (fun b => b <| status := BUF_STATE_QUEUED |>)
                (b <| status := BUF_STATE_IDLE |>)) as (c2 & -> & Hf2 & Hbuf2).
    { transitivity (node_buf c1 n); [by apply node_buf_tables; [intros []|]|].
      by rewrite Hbuf, decide_True. }
    cbn [mbind option_bind]. eexists _, q, _. split; [done|].
    destruct (requeue_ok c c2 q n b Hok) as (Hk & Ht & Hs & Hct); try done.
    { rewrite Hq. set_solver. }
    { rewrite Hf2. exact (f_equal (on_port OUT drop_use) Hf). }
    { intros n'. rewrite Hbuf2. destruct (decide (n' = n)) as [|Hn]; [done|].
      transitivity (node_buf c1 n'); [by apply node_buf_tables; [intros []|]|].
      by rewrite Hbuf, decide_False. }
    split; [done|]. split; [done|]. right. split; [done|]. exists n, b, l1, l2.
    split_and!; try done. by rewrite Hbuf2, decide_True.
Qed.

(** ** VPSS reports a picture *)

Definition is_eos c (f : report_frame) : bool :=
  (c.(last_frame_info0) =? PROCESSOR_GOT_LAST_FRAME) && (f.(r_last) =? LAST_FRAME_FLAG).

Lemma report_frame_ok c q f :
  queues_ok c q ->
  exists c' q' ret, processor_report_frame c f = Some (c', ret)
    /\ kept c q c' q' nothing /\ state c' = state c
    /\ ((c' = c /\ q' = q /\ ret = HI_FAILURE
         /\ (f.(r_addr_Y) = 0 \/
             forall n b, n ∈ q OUT -> node_buf c n = Some b -> hw_addr b <> f.(r_addr_Y)))
        \/ (ret = HI_SUCCESS /\ exists n b l1 l2, named c (q OUT) f.(r_addr_Y) n b l1 l2
            /\ q' = upd OUT (l1 ++ l2) q
            /\ trace c' = trace c ++ [MSG (done_code OUT) VDEC_S_SUCCESS
                 (BufData (report_desc c b f (is_eos c f)))] ++ last_out_events c
            /\ (in_use c n = true -> counted c q -> counted c' q'))).
Proof.
  intros Hok. unfold processor_report_frame.
  destruct (Z.eqb_spec f.(r_addr_Y) 0) as [Hz|Hz].
  { eexists _, q, _. split; [done|]. split; [by apply kept_refl|]. split; [done|]. left.
    split_and!; auto. }
  rewrite (queue_empty _ _ Hok). cbn [mbind option_bind]. case_bool_decide as He.
  { eexists _, q, _. split; [done|]. split; [by apply kept_refl|]. split; [done|]. left.
    split_and!; [done..|]. right. intros n b Hn. rewrite He in Hn. by apply elem_of_nil in Hn. }
  destruct (find_hw_ok c q OUT f.(r_addr_Y) Hok) as (r & -> & Hr). cbn [mbind option_bind].
  destruct r as [n|].
  2: { eexists _, q, _. split; [done|]. split; [by apply kept_refl|]. split; [done|]. left.
       split_and!; auto. }
  destruct Hr as (b & l1 & l2 & Hnm). pose proof Hnm as [Hq Hb Ha _].
  destruct (unqueue_out_ok c q n l1 l2 b Hok Hq Hb) as (c2 & Eu & Hb2 & Hlq & Hr2).
  rewrite (unqueue_bind c c2 n _ Eu), Hb2. cbn [mbind option_bind]. cbv zeta.
  fold (is_eos c2 f).
  assert (is_eos c2 f = is_eos c f) as ->
    by (unfold is_eos; by rewrite (f_equal last_frame_info0 Hr2 : last_frame_info0 c2 = last_frame_info0 c)).
  assert (report_desc c2 (b <| status := BUF_STATE_IDLE |>) f (is_eos c f)
          = report_desc c b f (is_eos c f)) as Hdesc.
  { unfold report_desc. change (flush_pending (outp c2)) with (pending OUT c2).
    by rewrite (cm_pending _ _ (lq_calm _ _ _ _ _ _ Hlq)). }
  match goal with |- context [alter_buf c2 n ?g] =>
    destruct (benign_ok c2 n _ g Hb2) as (c3 & -> & Hq3 & Ht3 & Hf3 & Hb3); [done|] end.
  cbn [mbind option_bind].
  set (c4 := if is_eos c f then _ else c3).
  assert (Hb4 : forall n', node_buf c4 n' = node_buf c3 n')
    by (unfold c4; destruct (is_eos c f); [by apply node_buf_tables; [intros []|]|done]).
  assert (Hq4 : quiet c3 c4).
  { unfold c4. destruct (is_eos c f); [|done].
    apply quiet_same; [by apply node_buf_tables; [intros []|]|done..|]. by split; try (by intros []). }
  destruct (leave_out_ok c q n b l1 l2 (report_desc c b f (is_eos c f)) c2 c4
              Hok Hq Hb Eu Hlq eq_refl) as (Hk & Ht & Hs & Hct).
  { by etrans. }
  { rewrite <- Ht3. unfold c4. by destruct (is_eos c f). }
  { intros n' Hn'. by rewrite Hb4, Hb3, decide_False. }
  rewrite Hdesc. eexists _, _, _. split; [done|]. split; [exact Hk|]. split; [exact Hs|].
  right. split; [done|]. exists n, b, l1, l2. by split_and!.
Qed.
End Return.
