(* ===== verification/OmxBind.v ===== *)
(** * Binding buffers to a decoder channel

    A bind puts a buffer into the first free slot of a port's table, an unbind
    moves the last bound buffer into the slot it frees. The table stays dense,
    every slot holds its own number, and no two hold one address. *)

From S2P Require Import Prelude KList FrameRate PtsRec OmxDelay OmxChan OmxHw OmxQueue OmxCalls.
From S2P Require Import OmxServe.

Section Bind.
Context {C : HiConsts} {E : OmxEnv} {Ok : HiConstsOk C}.
Implicit Types (c : OMXVDEC_CHAN_CTX) (p : port_dir) (n : node) (q : port_dir -> list node).

(** A call that changes the number of buffers bound at port [p]. *)
Record resized p c c' : Prop := {
  rs_num : forall p', p' <> p -> num p' c' = num p' c;
  rs_max : forall p', max_num p' c' = max_num p' c;
  rs_size : 0 <= num p c' <= max_num p c;
  rs_buf : forall n, (forall i, n <> Slot p i) -> node_buf c' n = node_buf c n;
  rs_slots : forall i, is_Some (node_buf c' (Slot p i)) <-> is_Some (node_buf c (Slot p i));
  rs_dom : dom c.(links) ⊆ dom c'.(links);
  rs_eos : c'.(eos_in_list) = c.(eos_in_list);
  rs_delay : delay_ok c -> delay_ok c';
  rs_addr : forall i j bi bj, 0 <= i < num p c' -> 0 <= j < num p c' ->
    node_buf c' (Slot p i) = Some bi -> node_buf c' (Slot p j) = Some bj ->
    bi.(phy_addr) = bj.(phy_addr) -> i = j;
  rs_last : p = IN -> forall i b, 0 <= i < num p c' -> node_buf c' (Slot p i) = Some b ->
    b.(phy_addr) <> c.(last_frame).(phy_addr);
}.

Lemma resized_ok c c' q q' p :
  queues_ok c q -> resized p c c' -> rings c'.(links) q' ->
  (forall p', p' <> p -> q' p' = q p') -> (LastFrame ∈ q' p <-> LastFrame ∈ q p) ->
  (forall n, n ∈ q' p -> legit c' p n) ->
  (forall i b, 0 <= i < num p c' -> node_buf c' (Slot p i) = Some b ->
     slot_ok b i (Slot p i ∈ q' p)) ->
  queues_ok c' q'.
Proof.
  intros Hok [Hnum Hmax Hsize Hbuf Hslots Hdom Heos Hdelay Haddr Hlast] Hr Hother Hlf Hleg Hslot.
  assert (Hb : forall p' i, p' <> p -> node_buf c' (Slot p' i) = node_buf c (Slot p' i)).
  { intros p' i Hp. apply Hbuf. congruence. }
  assert (Hl : last_frame c' = last_frame c).
  { specialize (Hbuf LastFrame ltac:(done)). by injection Hbuf. }
  assert (HlfIN : LastFrame ∈ q' IN <-> LastFrame ∈ q IN).
  { destruct (decide (IN = p)) as [<-|]; [done|by rewrite Hother]. }
  split.
  - apply Hr.
  - intros n b Hn. apply Hdom. destruct n as [p'|p' i|].
    + done.
    + destruct (decide (p' = p)) as [->|Hp].
      * destruct (proj1 (Hslots i) ltac:(eauto)) as [b0 Hb0]. by eapply (qo_dom _ _ Hok).
      * rewrite Hb in Hn by done. by eapply (qo_dom _ _ Hok).
    + by eapply (qo_dom _ _ Hok LastFrame).
  - intros p'. rewrite Hmax. destruct (decide (p' = p)) as [->|]; [done|].
    rewrite Hnum by done. apply (qo_size _ _ Hok).
  - intros p' i. rewrite Hmax, <- (qo_slots _ _ Hok).
    destruct (decide (p' = p)) as [->|]; [apply Hslots|by rewrite Hb].
  - intros p' n Hn. fold (legit c' p' n). destruct (decide (p' = p)) as [->|]; [by apply Hleg|].
    unfold legit. rewrite Hnum by done. apply (qo_node _ _ Hok). by rewrite <- Hother.
  - intros p' i b. destruct (decide (p' = p)) as [->|]; [apply Hslot|].
    rewrite Hnum, Hb, Hother by done. apply (qo_buf _ _ Hok).
  - intros p' i j bi bj. destruct (decide (p' = p)) as [->|]; [apply Haddr|].
    rewrite Hnum, !Hb by done. apply (qo_addr _ _ Hok).
  - by rewrite Heos, HlfIN, (qo_last _ _ Hok).
  - rewrite Hl, HlfIN. apply (qo_last_buf _ _ Hok).
  - intros i b. rewrite Hl. destruct (decide (IN = p)) as [<-|]; [by apply Hlast|].
    rewrite Hnum, Hb by done. apply (qo_last_addr _ _ Hok).
  - rewrite Hmax. apply (qo_last_id _ _ Hok).
  - intros p'. rewrite Hmax. apply (qo_small _ _ Hok).
  - apply Hdelay. intros r. apply (qo_delay _ _ Hok).
Qed.

Lemma on_port_buf p f c n :
  (forall P, (f P).(buf_table) = P.(buf_table)) -> node_buf (on_port p f c) n = node_buf c n.
Proof.
  intros Hf. apply node_buf_tables; [|by destruct p]. intros p'. rewrite port_on.
  destruct (decide _); [apply Hf|done].
Qed.

(** Which buffers the calls let a user bind. *)
Definition not_the_last c (d : OMXVDEC_BUF_DESC) : Prop :=
  port_of d.(dir) = Some IN -> d.(phyaddr) <> c.(last_frame).(phy_addr).

Lemma bound_None c q p pa :
  queues_ok c q -> find_addr (port p c) pa = Some (num p c) ->
  forall i b, 0 <= i < num p c -> node_buf c (Slot p i) = Some b -> b.(phy_addr) <> pa.
Proof.
  intros Hok Hf i b Hi Hb. destruct (find_addr_ok c q p pa Hok) as (r & E' & Hr & _ & Hne).
  assert (r = num p c) as -> by congruence. by eapply Hne.
Qed.

(** What a successful bind changes. *)
Record bound c c' (d : OMXVDEC_BUF_DESC) p (kern : Z) : Prop := {
  bd_new : bound_at c p d.(phyaddr) = None;
  bd_num : num p c' = num p c + 1;
  bd_slot : exists b0, node_buf c' (Slot p (num p c)) = Some (bound_buf b0 d kern (num p c));
  bd_rest : forall n, n <> Slot p (num p c) -> node_buf c' n = node_buf c n;
}.

(** The table with one more buffer: [c1] is the channel after the slot is written. *)
Lemma grow_ok c c' q d p kern b0 :
  queues_ok c q -> not_the_last c d -> port_of d.(dir) = Some p ->
  num p c < max_num p c -> find_addr (port p c) d.(phyaddr) = Some (num p c) ->
  (forall p', num p' c' = if decide (p' = p) then num p c + 1 else num p' c) ->
  (forall p', max_num p' c' = max_num p' c) ->
  (forall n, node_buf c' n = if decide (n = Slot p (num p c))
                             then Some (bound_buf b0 d kern (num p c)) else node_buf c n) ->
  links c' = links c -> eos_in_list c' = eos_in_list c -> (delay_ok c -> delay_ok c') ->
  queues_ok c' q /\ Slot p (num p c) ∉ q p.
Proof.
  intros Hok Hd Hp Hlt Hfind Hnum Hmax Hbuf Hl He Hdelay.
  pose proof (qo_size _ _ Hok p) as Hsz.
  assert (Hnew : Slot p (num p c) ∉ q p).
  { intros Hin. destruct (qo_node _ _ Hok p _ Hin) as [[? _]|(i & [= Hi] & Hlt')]; [done|lia]. }
  assert (Hnump : num p c' = num p c + 1) by (by rewrite Hnum, decide_True).
  assert (Hold : forall i b, 0 <= i < num p c' -> node_buf c' (Slot p i) = Some b ->
    (i = num p c /\ b = bound_buf b0 d kern (num p c))
    \/ (0 <= i < num p c /\ node_buf c (Slot p i) = Some b)).
  { intros i b. rewrite Hnump, Hbuf. intros Hi. destruct (decide _) as [[= ->]|Hne].
    - intros [= <-]. by left.
    - right. split; [|done]. destruct (decide (i = num p c)) as [->|]; [done|lia]. }
  pose proof (bound_None c q p d.(phyaddr) Hok Hfind) as Hfree.
  split; [|done]. eapply (resized_ok c c' q q p); try done.
  - split.
    + intros p' Hp'. by rewrite Hnum, decide_False.
    + done.
    + lia.
    + intros n Hn. rewrite Hbuf, decide_False; [done|apply Hn].
    + intros i. rewrite Hbuf. destruct (decide _) as [[= ->]|]; [|done].
      rewrite (qo_slots _ _ Hok). split; [intros _; lia|eauto].
    + by rewrite Hl.
    + done.
    + done.
    + intros i j bi bj Hi Hj Hbi Hbj Heq.
      destruct (Hold i bi Hi Hbi) as [[-> ->]|[Hi' Hbi']],
               (Hold j bj Hj Hbj) as [[-> ->]|[Hj' Hbj']].
      * done.
      * symmetry in Heq. by apply (Hfree j bj) in Heq.
      * by apply (Hfree i bi) in Heq.
      * by eapply (qo_addr _ _ Hok p i j bi bj).
    + intros -> i b Hi Hb. destruct (Hold i b Hi Hb) as [[-> ->]|[Hi' Hb']].
      * by apply Hd.
      * by eapply (qo_last_addr _ _ Hok).
  - rewrite Hl. by apply rings_ok.
  - intros n Hn. destruct (qo_node _ _ Hok p n Hn) as [?|(i & -> & Hi)]; [by left|].
    right. exists i. split; [done|lia].
  - intros i b Hi Hb. destruct (Hold i b Hi Hb) as [[-> ->]|[Hi' Hb']].
    + by split.
    + by apply (qo_buf _ _ Hok).
Qed.

(** Nothing queued changes. *)
Lemma table_served c c' q :
  queues_ok c q -> queues_ok c' q ->
  (forall p n, n ∈ q p -> node_buf c' n = node_buf c n) ->
  (forall p, uses p c' = uses p c) -> (forall p, pending p c' = pending p c) ->
  pause_pending c' = pause_pending c -> trace c' = trace c -> same_chan c c' ->
  served c q c' q nothing.
Proof.
  intros Hok Hok' Hb Hu Hp Hz Ht Hs. split; [done| | |done].
  - exists []. split; [by rewrite app_nil_r|]. intros p. unfold nothing. rewrite app_nil_r. simpl.
    rewrite app_nil_r. rewrite (owed_ext c c'); [done|]. intros n Hn. by rewrite (Hb p n).
  - intros [U P Z]. split.
    + intros p. rewrite Hu, U. symmetry. apply taken_ext. intros n Hn. by rewrite (Hb p n).
    + intros p. rewrite Hp, Hu. apply P.
    + rewrite Hz, Hu. apply Z.
Qed.

(** [c'] is [c] with [k] more buffers counted at port [p]. *)
Record recount p (k : Z) c c' : Prop := {
  rc_buf : forall n, node_buf c' n = node_buf c n;
  rc_num : forall p', num p' c' = if decide (p' = p) then num p c + k else num p' c;
  rc_max : forall p', max_num p' c' = max_num p' c;
  rc_uses : forall p', uses p' c' = uses p' c;
  rc_pending : forall p', pending p' c' = pending p' c;
  rc_pause : pause_pending c' = pause_pending c;
  rc_trace : trace c' = trace c;
  rc_links : links c' = links c;
  rc_eos : eos_in_list c' = eos_in_list c;
  rc_rec : lowdelay_rec c' = lowdelay_rec c;
  rc_same : same_chan c c';
}.

Lemma recount_port p (g : Z -> Z) k c :
  (forall x, g x = x + k) -> recount p k c (on_port p (fun P => P <| buf_num ::= g |>) c).
Proof.
  intros Hg. split; try by destruct p.
  - intros n. by apply on_port_buf.
  - intros p'. unfold num. rewrite port_on. destruct (decide (p' = p)) as [->|]; [apply Hg|done].
  - intros p'. unfold max_num. rewrite port_on. by destruct (decide _).
  - intros p'. unfold uses. rewrite port_on. by destruct (decide _).
  - intros p'. unfold pending. rewrite port_on. by destruct (decide _).
Qed.

Lemma recount_store p k c c' b :
  recount p k c c' -> recount p k c (c' <| bStorePrivateData := b |>).
Proof.
  intros []. split; try assumption. by destruct rc_same0.
Qed.

Lemma recount_stride p k c c' w :
  recount p k c c' -> recount p k c (c' <| out_stride := w |>).
Proof.
  intros []. split; try assumption. by destruct rc_same0.
Qed.

(** The outcome of a bind whose slot has been written. *)
Lemma inserted_ok c c1 c4 q d p kern b0 :
  queues_ok c q -> not_the_last c d -> port_of d.(dir) = Some p ->
  num p c < max_num p c -> find_addr (port p c) d.(phyaddr) = Some (num p c) ->
  frame c1 = frame c ->
  (forall n, node_buf c1 n = if decide (n = Slot p (num p c))
                             then Some (bound_buf b0 d kern (num p c)) else node_buf c n) ->
  recount p 1 c1 c4 ->
  served c q c4 q nothing /\ bound c c4 d p kern.
Proof.
  intros Hok Hd Hp Hlt Hf Hfr Hbuf []. framed Hfr.
  assert (Hbuf4 : forall n, node_buf c4 n = if decide (n = Slot p (num p c))
            then Some (bound_buf b0 d kern (num p c)) else node_buf c n)
    by (intros n; by rewrite rc_buf0).
  assert (Hnum4 : forall p', num p' c4 = if decide (p' = p) then num p c + 1 else num p' c).
  { intros p'. rewrite rc_num0. destruct (H3 p) as [-> _]. by destruct (H3 p') as [-> _]. }
  destruct (grow_ok c c4 q d p kern b0 Hok Hd Hp Hlt Hf Hnum4) as [Hok4 Hnew]; try done.
  { intros p'. rewrite rc_max0. apply (H3 p'). }
  { congruence. }
  { congruence. }
  { unfold delay_ok. by rewrite rc_rec0, H2. }
  split; [apply table_served; [done|done| | | | | |split]|split].
  - intros p' n Hn. rewrite Hbuf4, decide_False; [done|]. intros ->.
    destruct (decide (p' = p)) as [->|]; [done|].
    by destruct (qo_node _ _ Hok p' _ Hn) as [[? _]|(? & [= ? _] & _)].
  - intros p'. rewrite rc_uses0. apply (H3 p').
  - intros p'. rewrite rc_pending0. apply (H3 p').
  - rewrite rc_pause0. exact (f_equal pause_pending Hfr).
  - congruence.
  - destruct rc_same0 as [-> _ _]. exact (f_equal channel_id Hfr).
  - destruct rc_same0 as [_ -> _]. exact (f_equal fixed Hfr).
  - destruct rc_same0 as [_ _ ->]. exact (f_equal state Hfr).
  - unfold bound_at. rewrite Hf. cbn [mbind option_bind]. by rewrite Z.ltb_irrefl.
  - by rewrite Hnum4, decide_True.
  - exists b0. by rewrite Hbuf4, decide_True.
  - intros n Hn. by rewrite Hbuf4, decide_False.
Qed.

Lemma bind_ok c q d mapped :
  queues_ok c q -> not_the_last c d ->
  exists c' ret, channel_bind_user_buffer c d mapped = Some (c', ret)
    /\ served c q c' q nothing
    /\ ((ret = HI_FAILURE /\ c' = c)
        \/ (ret = HI_SUCCESS /\ d.(phyaddr) <> 0 /\ exists p kern, port_of d.(dir) = Some p
            /\ channel_map_kernel_viraddr d mapped = Some kern /\ num p c < max_num p c
            /\ bound c c' d p kern)).
Proof.
  intros Hok Hd. unfold channel_bind_user_buffer, channel_insert_addr_table.
  pose proof (served_refl c q Hok) as Hself.
  assert (Href : forall X : OMXVDEC_CHAN_CTX -> Z -> Prop, exists c' ret,
    Some (c, HI_FAILURE) = Some (c', ret) /\ served c q c' q nothing
    /\ ((ret = HI_FAILURE /\ c' = c) \/ X c' ret)) by (intros X; eexists _, _; eauto).
  destruct (Z.eqb_spec d.(phyaddr) 0) as [|Hpa]; [exact (Href _)|].
  destruct (port_of d.(dir)) as [p|] eqn:Hp; cbn [mbind option_bind].
  2: { rewrite success_ne. exact (Href _). }
  cbv zeta. fold (num p c) (max_num p c).
  destruct (Z.geb_spec (num p c) (max_num p c)) as [|Hlt]; cbn [mbind option_bind].
  { rewrite success_ne. exact (Href _). }
  destruct (find_addr_ok c q p d.(phyaddr) Hok) as (i & Hf & Hi & _ & _). rewrite Hf.
  cbn [mbind option_bind]. destruct (Z.ltb_spec i (num p c)) as [|Hge]; cbn [mbind option_bind].
  { rewrite success_ne. exact (Href _). }
  assert (i = num p c) as -> by lia.
  destruct (channel_map_kernel_viraddr d mapped) as [kern|] eqn:Hk; cbn [mbind option_bind].
  2: { rewrite success_ne. exact (Href _). }
  pose proof (qo_size _ _ Hok p) as Hsz.
  destruct (proj2 (qo_slots _ _ Hok p (num p c)) ltac:(lia)) as [b0 Hb0].
  destruct (alter_buf_ok c (Slot p (num p c)) (fun b => bound_buf b d kern (num p c)) b0 Hb0)
    as (c1 & -> & Hfr & Hbuf). cbn [mbind option_bind]. rewrite Z.eqb_refl. cbn [negb].
  set (c2 := on_port p (fun P => P <| buf_num ::= fun k => k + 1 |>) c1).
  set (c3 := match p with IN => c2 | OUT => _ end). set (c4 := if negb _ then _ else c3).
  assert (recount p 1 c1 c4) as Hrc.
  { assert (recount p 1 c1 c2) as H2 by by apply recount_port.
    assert (recount p 1 c1 c3) as H3
      by (unfold c3; clearbody c2; destruct p; [done|by apply recount_store]).
    unfold c4. case_match; [by apply recount_stride|done]. }
  clearbody c4. exists c4, HI_SUCCESS. split; [done|].
  destruct (inserted_ok c c1 c4 q d p kern b0 Hok Hd Hp ltac:(lia) Hf Hfr Hbuf Hrc) as [Hs Hb].
  split; [done|]. right. split_and!; [done|done|]. exists p, kern. by split_and!; [..|lia|].
Qed.

(** ** Unbinding *)

(** The queues after slot [i] was given the buffer of slot [last]: if that one was
    queued, its new slot is at the end of the queue. *)
Definition moved q p (last i : Z) q' : Prop :=
  (Slot p last ∉ q p /\ q' = q)
  \/ exists l1 l2, q p = l1 ++ Slot p last :: l2 /\ q' = upd p ((l1 ++ l2) ++ [Slot p i]) q.

Lemma find_moved c c' q p last bl :
  queues_ok c q -> 0 <= last < num p c -> node_buf c (Slot p last) = Some bl ->
  (forall n, n ∈ q p -> node_buf c' n = node_buf c n) -> rings c'.(links) q ->
  list_find_entry c'.(links) (QHead p)
    (fun m => e ← node_buf c' m; Some (bl.(phy_addr) =? e.(phy_addr)))
  = Some (if decide (Slot p last ∈ q p) then Some (Slot p last) else None).
Proof.
  intros Hok Hlast Hbl Hbuf Hr.
  set (tb := fun n => from_option (fun e => bl.(phy_addr) =? e.(phy_addr)) false (node_buf c n)).
  rewrite (list_find_entry_ok _ _ (q p) _ tb); [|apply Hr|].
  - rewrite <- (find_by_addr c q p (Slot p last) bl Hok); [|right; eauto|done].
    by rewrite (find_queued _ _ Hok p (fun e => bl.(phy_addr) =? e.(phy_addr))).
  - intros n Hn. unfold tb. rewrite (Hbuf n Hn). by destruct (queued_buf _ _ Hok p n Hn) as [b ->].
Qed.

Lemma slot_apart c q p i : queues_ok c q -> ~ (0 <= i < num p c) -> Slot p i ∉ q p.
Proof.
  intros Hok Hi Hin. destruct (qo_node _ _ Hok p _ Hin) as [[? _]|(j & [= ->] & ?)]; [done|lia].
Qed.

Lemma move_last_slot_ok c q p i bl :
  queues_ok c q -> 0 <= i < num p c - 1 -> Slot p i ∉ q p ->
  node_buf c (Slot p (num p c - 1)) = Some bl ->
  exists c' q', move_last_slot c p i = Some c' /\ moved q p (num p c - 1) i q'
    /\ rings c'.(links) q' /\ rest c' = rest c /\ trace c' = trace c
    /\ eos_in_list c' = eos_in_list c /\ dom c'.(links) = dom c.(links)
    /\ forall n, node_buf c' n = if decide (n = Slot p i) then Some (bl <| buf_id := i |>)
                                 else node_buf c n.
Proof.
  intros Hok Hi Hfree Hbl. unfold move_last_slot. fold (num p c). cbv zeta.
  rewrite Hbl. cbn [mbind option_bind].
  destruct (proj2 (qo_slots _ _ Hok p i)) as [b0 Hb0].
  { pose proof (qo_size _ _ Hok p). lia. }
  destruct (set_buf_ok c (Slot p i) (bl <| buf_id := i |>) b0 Hb0) as (c1 & -> & Hf & Hbuf).
  cbn [mbind option_bind]. framed Hf. rewrite H.
  assert (Hdl : Slot p (num p c - 1) ∈ dom (links c)) by (by eapply (qo_dom _ _ Hok)).
  assert (Hdi : Slot p i ∈ dom (links c)) by (by eapply (qo_dom _ _ Hok)).
  destruct (proj1 (elem_of_dom _ _) Hdl) as [ln ->]. cbn [mbind option_bind].
  set (c2 := c1 <| links ::= <[Slot p i := ln]> |>).
  assert (Hl2 : links c2 = <[Slot p i := ln]> (links c)) by (simpl; by rewrite H).
  assert (Hr2 : rings (links c2) q).
  { rewrite Hl2. eapply (rings_insert _ _ (rings_ok _ _ Hok)); [|exact Hfree]. done. }
  assert (Hd2 : dom (links c2) = dom (links c)) by (rewrite Hl2, dom_insert_L; set_solver).
  assert (Hb2 : forall m n, node_buf (c2 <| links := m |>) n = node_buf c1 n)
    by (intros m; apply node_buf_tables; [intros []|]; done).
  assert (Hrest2 : forall m, rest (c2 <| links := m |>) = rest c) by (intros m; by apply rest_frame in Hf).
  rewrite (list_empty_ok _ _ _ (rg_list _ _ Hr2 p)). cbn [mbind option_bind].
  assert (Hdone : forall q' m, moved q p (num p c - 1) i q' -> rings m q' -> dom m = dom (links c2) ->
    exists c' q', Some (c2 <| links := m |>) = Some c' /\ moved q p (num p c - 1) i q'
    /\ rings c'.(links) q' /\ rest c' = rest c /\ trace c' = trace c
    /\ eos_in_list c' = eos_in_list c /\ dom c'.(links) = dom c.(links)
    /\ forall n, node_buf c' n = if decide (n = Slot p i) then Some (bl <| buf_id := i |>)
                                 else node_buf c n).
  { intros q' m Hm Hr Hd. eexists _, q'. split_and!; [done|done|done|apply Hrest2|done|done| |].
    - simpl. by rewrite Hd.
    - intros n. by rewrite Hb2. }
  case_bool_decide as He.
  { apply (Hdone q (links c2)); [|done|done]. left. split; [rewrite He; set_solver|done]. }
  rewrite (find_moved c c2 q p (num p c - 1) bl Hok ltac:(lia) Hbl); [|..|exact Hr2].
  2: { intros n Hn. transitivity (node_buf c1 n); [by apply (Hb2 (links c2))|].
       rewrite Hbuf, decide_False; [done|]. intros ->. done. }
  cbn [mbind option_bind]. case_decide as Hin.
  - apply list_elem_of_split in Hin as (l1 & l2 & Hq).
    destruct (rings_del _ _ Hr2 p _ l1 l2 Hq) as (m3 & E3 & D3 & R3).
    destruct (rings_add _ _ R3 p (Slot p i)) as (m4 & E4 & D4 & R4).
    { done. }
    { rewrite upd_eq. rewrite Hq in Hfree. set_solver. }
    { by rewrite D3, Hd2. }
    unfold on_links. rewrite E3. cbn [mbind option_bind]. simpl links. rewrite E4.
    cbn [mbind option_bind].
    apply (Hdone (upd p ((l1 ++ l2) ++ [Slot p i]) q) m4); [right; eauto| |congruence].
    eapply rings_ext; [|exact R4]. intros p'. by rewrite upd_upd, upd_eq.
  - apply (Hdone q (links c2)); [by left|done|done].
Qed.

Lemma moved_other q p last i q' : moved q p last i q' -> forall p', p' <> p -> q' p' = q p'.
Proof. intros [[_ ->]|(l1 & l2 & _ & ->)] p' Hp; [done|by rewrite upd_ne]. Qed.

(** A node is queued after the move if it was before, [last] became [i]. *)
Lemma moved_in q p last i q' :
  NoDup (q p) -> i <> last -> Slot p i ∉ q p -> moved q p last i q' ->
  Slot p last ∉ q' p
  /\ (Slot p i ∈ q' p <-> Slot p last ∈ q p)
  /\ (forall n, n <> Slot p i -> n <> Slot p last -> n ∈ q' p <-> n ∈ q p).
Proof.
  intros Hnd Hne Hi [[Hl ->]|(l1 & l2 & Hq & ->)]; [done|].
  rewrite upd_eq, Hq in *. apply NoDup_app in Hnd as (_ & H1 & H2).
  apply NoDup_cons in H2 as [H2 _]. assert (Slot p last <> Slot p i) by congruence.
  split_and!; [set_solver|set_solver|]. intros n Hn1 Hn2. set_solver.
Qed.

(** The account of the buffers and the count of the hardware's after a move. *)
Lemma moved_served c c' q q' p last i bl :
  queues_ok c q -> queues_ok c' q' -> moved q p last i q' -> Slot p i ∉ q p -> i <> last ->
  node_buf c (Slot p last) = Some bl ->
  (Slot p last ∈ q p -> node_buf c' (Slot p i) = Some (bl <| buf_id := i |>)) ->
  (forall p' n, n ∈ q p' -> n <> Slot p last -> node_buf c' n = node_buf c n) ->
  (forall p, uses p c' = uses p c) -> (forall p, pending p c' = pending p c) ->
  pause_pending c' = pause_pending c -> same_chan c c' ->
  (exists evs, trace c' = trace c ++ evs /\ forall p', returned p' evs = []) ->
  served c q c' q' nothing.
Proof.
  intros Hok Hok' Hm Hi Hne Hbl Hbi Hb Hu Hp Hz Hs (evs & Ht & Hr).
  assert (Hacc : forall p', owed c' (q' p') ≡ₚ owed c (q p') /\ taken c' (q' p') = taken c (q p')).
  { destruct Hm as [[Hl ->]|(l1 & l2 & Hq & ->)]; intros p'.
    { assert (Hsame : forall n, n ∈ q p' -> core <$> node_buf c' n = core <$> node_buf c n).
      { intros n Hn. rewrite (Hb p' n Hn); [done|]. intros ->.
        pose proof (rg_home _ _ (rings_ok _ _ Hok) _ _ Hn) as [= <-]. done. }
      rewrite (owed_ext c c' _ Hsame), (taken_ext c c' _ Hsame). done. }
    destruct (decide (p' = p)) as [->|Hp'].
    - rewrite upd_eq, Hq, !owed_app, !taken_app, taken_cons.
      pose proof (queue_nodup _ _ Hok p) as Hnd. rewrite Hq in Hnd.
      apply NoDup_app in Hnd as (_ & H1 & H2). apply NoDup_cons in H2 as [H2 _].
      assert (Hsame : forall l n, (l = l1 \/ l = l2) -> n ∈ l ->
                core <$> node_buf c' n = core <$> node_buf c n).
      { intros l n Hl Hn. rewrite (Hb p n); [done|rewrite Hq|]; destruct Hl as [-> | ->];
          set_solver. }
      rewrite (owed_ext c c' l1), (owed_ext c c' l2) by (intros n; apply Hsame; auto).
      rewrite (taken_ext c c' l1), (taken_ext c c' l2) by (intros n; apply Hsame; auto).
      assert (Slot p last ∈ q p) as Hin by (rewrite Hq; set_solver).
      specialize (Hbi Hin). split.
      + change (owed c (Slot p last :: l2)) with (owes c (Slot p last) ++ owed c l2).
        change (owed c' [Slot p i]) with (owes c' (Slot p i) ++ []).
        unfold owes. rewrite Hbi, Hbl. simpl. rewrite <- app_assoc.
        apply Permutation_app_head. by rewrite Permutation_app_comm.
      + rewrite taken_cons. unfold in_use. rewrite Hbi, Hbl. unfold taken at 3. simpl. lia.
    - rewrite upd_ne by done.
      assert (Hsame : forall n, n ∈ q p' -> core <$> node_buf c' n = core <$> node_buf c n).
      { intros n Hn. rewrite (Hb p' n Hn); [done|]. intros ->.
        pose proof (rg_home _ _ (rings_ok _ _ Hok) _ _ Hn) as [= <-]. done. }
      by rewrite (owed_ext c c' _ Hsame), (taken_ext c c' _ Hsame). }
  split; [done| | |done].
  - exists evs. split; [done|]. intros p'. rewrite Hr. unfold nothing. by rewrite (proj1 (Hacc p')).
  - intros [U P Z]. split.
    + intros p'. by rewrite Hu, U, (proj2 (Hacc p')).
    + intros p'. rewrite Hp, Hu. apply P.
    + rewrite Hz, Hu. apply Z.
Qed.

(** The end of an unbind: slot [i] is filled from the last one, which is cleared. *)
Definition drop_slot c p (i : Z) : option OMXVDEC_CHAN_CTX :=
  c ← (if i <? (port p c).(buf_num) - 1 then move_last_slot c p i else Some c);
  c ← clear_slot c p ((port p c).(buf_num) - 1);
  Some (on_port p (fun P => P <| buf_num ::= fun k => k - 1 |>) c).

(** What a successful unbind changes at its port. *)
Record dropped_slot c c' q q' p (i : Z) : Prop := {
  ds_num : num p c' = num p c - 1;
  ds_queue : (i = num p c - 1 /\ q' = q) \/ (i < num p c - 1 /\ moved q p (num p c - 1) i q');
  ds_clear : node_buf c' (Slot p (num p c - 1)) = Some zero_buf;
  ds_moved : i < num p c - 1 -> exists bl, node_buf c (Slot p (num p c - 1)) = Some bl
    /\ node_buf c' (Slot p i) = Some (bl <| buf_id := i |>);
  ds_rest : forall n, n <> Slot p i -> n <> Slot p (num p c - 1) ->
    node_buf c' n = node_buf c n;
}.

(** The table with one buffer less. *)
Lemma shrink_ok c c' q q' p i :
  queues_ok c q -> 0 <= i < num p c -> Slot p i ∉ q p ->
  dropped_slot c c' q q' p i -> rings c'.(links) q' ->
  (forall p', p' <> p -> num p' c' = num p' c) -> (forall p', max_num p' c' = max_num p' c) ->
  dom c.(links) ⊆ dom c'.(links) -> eos_in_list c' = eos_in_list c ->
  (delay_ok c -> delay_ok c') -> queues_ok c' q'.
Proof.
  intros Hok Hi Hfree [Hnum Hq Hclr Hmov Hrest] Hr Hno Hmax Hdom He Hdelay.
  pose proof (qo_size _ _ Hok p) as Hsz. set (last := num p c - 1) in *.
  destruct (proj2 (qo_slots _ _ Hok p last) ltac:(lia)) as [bl Hbl].
  assert (Hold : forall j b, 0 <= j < num p c' -> node_buf c' (Slot p j) = Some b ->
    (j <> i /\ node_buf c (Slot p j) = Some b)
    \/ (j = i /\ i < last /\ b = bl <| buf_id := i |>)).
  { intros j b Hj Hb. destruct (decide (j = i)) as [->|Hne]; [right|left].
    - destruct (Hmov ltac:(lia)) as (bl' & Hbl' & Hbi). assert (bl' = bl) as -> by congruence.
      split_and!; [done|lia|congruence].
    - split; [done|]. rewrite <- Hb. symmetry. apply Hrest; [congruence|]. intros [= ->]. lia. }
  assert (Hin : (forall j, 0 <= j < num p c' -> j <> i -> Slot p j ∈ q' p <-> Slot p j ∈ q p)
    /\ (i < last -> Slot p i ∈ q' p <-> Slot p last ∈ q p)
    /\ Slot p last ∉ q' p /\ (LastFrame ∈ q' p <-> LastFrame ∈ q p)
    /\ (forall n, n ∈ q' p -> n = Slot p i \/ n ∈ q p)
    /\ (forall p', p' <> p -> q' p' = q p')).
  { destruct Hq as [[-> ->]|[Hlt Hm]].
    - split_and!; try done; auto.
    - destruct (moved_in q p last i q' (queue_nodup _ _ Hok p) ltac:(lia) Hfree Hm) as (H1 & H2 & H3).
      split_and!; [|done|done|by apply H3| |by eapply moved_other].
      + intros j Hj Hne. apply H3; [congruence|]. intros [= ->]. lia.
      + intros n Hn. destruct (decide (n = Slot p i)) as [|Hn']; [by left|right].
        apply H3; [done| |done]. intros ->. done. }
  destruct Hin as (Hin1 & Hin2 & Hin3 & Hin4 & Hin5 & Hin6).
  assert (Hslots : forall j, is_Some (node_buf c' (Slot p j)) <-> is_Some (node_buf c (Slot p j))).
  { intros j. destruct (decide (j = last)) as [->|]; [rewrite Hclr, Hbl; split; eauto|].
    destruct (decide (j = i)) as [->|].
    - destruct (Hmov ltac:(lia)) as (bl' & _ & ->). rewrite (qo_slots _ _ Hok).
      split; [intros _; lia|eauto].
    - rewrite Hrest; [done|congruence|congruence]. }
  eapply (resized_ok c c' q q' p); try done.
  - split; try done.
    + lia.
    + intros n Hn. by apply Hrest.
    + intros j k bj bk Hj Hk Hbj Hbk Heq.
      destruct (Hold j bj Hj Hbj) as [[Hj1 Hj2]|(-> & Hlt & ->)],
               (Hold k bk Hk Hbk) as [[Hk1 Hk2]|(-> & _ & ->)]; try done.
      * eapply (qo_addr _ _ Hok p j k bj bk); [lia|lia|done..].
      * pose proof (qo_addr _ _ Hok p j last bj bl ltac:(lia) ltac:(lia) Hj2 Hbl Heq). lia.
      * pose proof (qo_addr _ _ Hok p last k bl bk ltac:(lia) ltac:(lia) Hbl Hk2 Heq). lia.
    + intros -> j b Hj Hb. destruct (Hold j b Hj Hb) as [[Hj1 Hj2]|(-> & Hlt & ->)].
      * eapply (qo_last_addr _ _ Hok j b); [lia|done].
      * eapply (qo_last_addr _ _ Hok last bl); [lia|done].
  - intros n Hn. destruct (Hin5 n Hn) as [->|Hn'].
    + right. exists i. split; [done|]. destruct (decide (i = last)) as [->|]; [done|lia].
    + destruct (qo_node _ _ Hok p n Hn') as [?|(j & -> & Hj)]; [by left|].
      right. exists j. split; [done|]. destruct (decide (j = last)) as [->|]; [done|lia].
  - intros j b Hj Hb. destruct (Hold j b Hj Hb) as [[Hj1 Hj2]|(-> & Hlt & ->)].
    + destruct (qo_buf _ _ Hok p j b ltac:(lia) Hj2) as [H1 H2 H3]. split; [done| |done].
      by rewrite (Hin1 j Hj Hj1).
    + destruct (qo_buf _ _ Hok p last bl ltac:(lia) Hbl) as [H1 H2 H3]. split; [done| |done].
      by rewrite (Hin2 Hlt).
Qed.

Lemma clear_slot_ok c q p i b :
  rings c.(links) q -> Slot p i ∉ q p -> node_buf c (Slot p i) = Some b ->
  exists c', clear_slot c p i = Some c' /\ rings c'.(links) q /\ rest c' = rest c
    /\ trace c' = trace c /\ eos_in_list c' = eos_in_list c
    /\ dom c.(links) ⊆ dom c'.(links)
    /\ forall n, node_buf c' n = if decide (n = Slot p i) then Some zero_buf else node_buf c n.
Proof.
  intros Hr Hn Hb. unfold clear_slot.
  destruct (set_buf_ok c (Slot p i) zero_buf b Hb) as (c1 & -> & Hf & Hbuf).
  cbn [mbind option_bind]. framed Hf. eexists. split; [done|].
  split_and!; [|by apply rest_frame in Hf|done|done| |].
  - simpl. rewrite H. by eapply rings_insert.
  - simpl. rewrite H, dom_insert_L. set_solver.
  - intros n. rewrite <- Hbuf. by apply node_buf_tables; [intros []|].
Qed.

(** The first half of an unbind: the last slot's buffer is in slot [i]. *)
Lemma vacate_ok c q p i bl :
  queues_ok c q -> 0 <= i < num p c -> Slot p i ∉ q p ->
  node_buf c (Slot p (num p c - 1)) = Some bl ->
  exists c1 q1, (if i <? num p c - 1 then move_last_slot c p i else Some c) = Some c1
    /\ ((i = num p c - 1 /\ q1 = q) \/ (i < num p c - 1 /\ moved q p (num p c - 1) i q1))
    /\ Slot p (num p c - 1) ∉ q1 p
    /\ rings c1.(links) q1 /\ rest c1 = rest c /\ trace c1 = trace c
    /\ eos_in_list c1 = eos_in_list c /\ dom c1.(links) = dom c.(links)
    /\ forall n, node_buf c1 n = if decide (n = Slot p i /\ i < num p c - 1)
                                 then Some (bl <| buf_id := i |>) else node_buf c n.
Proof.
  intros Hok Hi Hfree Hbl. set (last := num p c - 1) in *.
  destruct (Z.ltb_spec i last) as [Hlt|Hge].
  - destruct (move_last_slot_ok c q p i bl Hok ltac:(lia) Hfree Hbl)
      as (c1 & q1 & -> & Hm & Hr1 & H1 & H2 & H3 & H4 & H5).
    exists c1, q1. split_and!; try done; [by right| |].
    + eapply (moved_in q p last i q1 (queue_nodup _ _ Hok p)); [lia|done|done].
    + intros n. rewrite H5. by destruct (decide (n = Slot p i)), (decide _); try tauto.
  - assert (i = last) as -> by lia. exists c, q. split_and!; try done; [by left|by apply rings_ok|].
    intros n. rewrite decide_False; [done|lia].
Qed.

(** The outcome of an unbind whose slots have been written. *)
Lemma dropped_ok c c2 c3 q q1 p i bl :
  queues_ok c q -> 0 <= i < num p c -> Slot p i ∉ q p ->
  node_buf c (Slot p (num p c - 1)) = Some bl ->
  ((i = num p c - 1 /\ q1 = q) \/ (i < num p c - 1 /\ moved q p (num p c - 1) i q1)) ->
  rings c2.(links) q1 -> rest c2 = rest c -> trace c2 = trace c ->
  eos_in_list c2 = eos_in_list c -> dom c.(links) ⊆ dom c2.(links) ->
  (forall n, node_buf c2 n = if decide (n = Slot p (num p c - 1)) then Some zero_buf
     else if decide (n = Slot p i /\ i < num p c - 1) then Some (bl <| buf_id := i |>)
     else node_buf c n) ->
  recount p (-1) c2 c3 ->
  served c q c3 q1 nothing /\ trace c3 = trace c /\ dropped_slot c c3 q q1 p i.
Proof.
  intros Hok Hi Hfree Hbl Hq1 Hr2 Hrest Ht2 He2 Hd2 Hb2 [].
  pose proof (rest_nums _ _ Hrest) as Hn2. pose proof (rest_calm _ _ Hrest) as Hc2.
  assert (Hds : dropped_slot c c3 q q1 p i).
  { split; [|done| | |].
    - rewrite rc_num0, decide_True by done. rewrite (proj1 (Hn2 p)). lia.
    - by rewrite rc_buf0, Hb2, decide_True.
    - intros Hlt. exists bl. split; [done|]. rewrite rc_buf0, Hb2, decide_False, decide_True;
        [done|done|]. intros [= ?]. lia.
    - intros n Hni Hnl. rewrite rc_buf0, Hb2, decide_False, decide_False; [done|tauto|done]. }
  assert (Hok3 : queues_ok c3 q1).
  { eapply (shrink_ok c c3 q q1 p i); try done; [by rewrite rc_links0| | |by rewrite rc_links0|..].
    - intros p' Hp'. rewrite rc_num0, decide_False by done. apply (proj1 (Hn2 p')).
    - intros p'. rewrite rc_max0. apply (proj1 (proj2 (Hn2 p'))).
    - congruence.
    - intros Hd. apply (cm_delay _ _ Hc2) in Hd. unfold delay_ok. by rewrite rc_rec0. }
  assert (Huse : forall p', uses p' c3 = uses p' c)
    by (intros p'; rewrite rc_uses0; apply (cm_uses _ _ Hc2)).
  assert (Hpend : forall p', pending p' c3 = pending p' c)
    by (intros p'; rewrite rc_pending0; apply (cm_pending _ _ Hc2)).
  assert (Hz : pause_pending c3 = pause_pending c) by (rewrite rc_pause0; apply (cm_pause _ _ Hc2)).
  assert (Hs : same_chan c c3)
    by (apply calm_same in Hc2 as []; destruct rc_same0; split; congruence).
  assert (Ht : trace c3 = trace c) by congruence. split_and!; [|done|done].
  assert (Hhome : forall p' j n, n ∈ q p' -> Slot p j ∉ q p -> n <> Slot p j).
  { intros p' j n Hn Hj ->. pose proof (rg_home _ _ (rings_ok _ _ Hok) _ _ Hn) as [= <-]. done. }
  destruct Hq1 as [[-> ->]|[Hlt Hm]].
  - apply table_served; try done. intros p' n Hn. specialize (Hhome _ _ _ Hn Hfree).
    by rewrite rc_buf0, Hb2, !decide_False by (done || lia).
  - eapply (moved_served c c3 q q1 p _ i bl); try done; [lia| | |].
    + intros _. destruct (ds_moved _ _ _ _ _ _ Hds Hlt) as (bl' & Hx & ?). congruence.
    + intros p' n Hn Hne. apply (ds_rest _ _ _ _ _ _ Hds); [by eapply Hhome|done].
    + exists []. by rewrite app_nil_r.
Qed.

Lemma drop_slot_ok c q p i :
  queues_ok c q -> 0 <= i < num p c -> Slot p i ∉ q p ->
  exists c' q', drop_slot c p i = Some c' /\ served c q c' q' nothing
    /\ trace c' = trace c /\ dropped_slot c c' q q' p i.
Proof.
  intros Hok Hi Hfree. unfold drop_slot. fold (num p c).
  pose proof (qo_size _ _ Hok p) as Hsz.
  destruct (proj2 (qo_slots _ _ Hok p (num p c - 1)) ltac:(lia)) as [bl Hbl].
  destruct (vacate_ok c q p i bl Hok Hi Hfree Hbl)
    as (c1 & q1 & -> & Hq1 & Hl1 & Hr1 & Hrest1 & Ht1 & He1 & Hd1 & Hb1).
  cbn [mbind option_bind]. fold (num p c1). rewrite (proj1 (rest_nums _ _ Hrest1 p)).
  destruct (clear_slot_ok c1 q1 p (num p c - 1) bl Hr1 Hl1)
    as (c2 & -> & Hr2 & Hrest2 & Ht2 & He2 & Hd2 & Hb2).
  { rewrite Hb1. rewrite decide_False; [done|]. intros [[= ?] ?]. lia. }
  cbn [mbind option_bind]. eexists _, q1. split; [done|].
  eapply (dropped_ok c c2 _ q q1 p i bl); try done; try congruence.
  - by rewrite <- Hd1.
  - intros n. rewrite Hb2. by destruct (decide _).
  - apply recount_port. lia.
Qed.

(** The discipline of an unbind: the user names a buffer it has. *)
Definition user_has c q (d : OMXVDEC_BUF_DESC) : Prop :=
  forall p i b, port_of d.(dir) = Some p -> 0 <= i < num p c -> node_buf c (Slot p i) = Some b ->
    b.(phy_addr) = d.(phyaddr) -> Slot p i ∉ q p.

Lemma unbind_ok c q d :
  queues_ok c q -> user_has c q d ->
  exists c' q' ret, channel_unbind_user_buffer c d = Some (c', ret)
    /\ served c q c' q' nothing
    /\ ((ret = HI_FAILURE /\ c' = c /\ q' = q
         /\ (d.(phyaddr) = 0 \/ port_of d.(dir) = None
             \/ exists p, port_of d.(dir) = Some p /\ bound_at c p d.(phyaddr) = None))
        \/ (ret = HI_SUCCESS /\ exists p i b c1, port_of d.(dir) = Some p
            /\ 0 <= i < num p c /\ node_buf c (Slot p i) = Some b /\ b.(phy_addr) = d.(phyaddr)
            /\ quiet c c1 /\ dropped_slot c1 c' q q' p i
            /\ (forall n, n <> Slot p i -> node_buf c1 n = node_buf c n)
            /\ trace c' = trace c ++ (if negb (d.(buffer_type) =? OMX_ALLOCATE_DRIVER)
                                      then [MMZ_UNMAP b.(phy_addr) b.(kern_vaddr)] else []))).
Proof.
  intros Hok Hhas. unfold channel_unbind_user_buffer, channel_delete_addr_table.
  pose proof (served_refl c q Hok) as Hself.
  destruct (Z.eqb_spec d.(phyaddr) 0) as [Hz|Hpa].
  { eexists _, q, _. split; [done|]. split; [done|]. left. split_and!; auto. }
  destruct (port_of d.(dir)) as [p|] eqn:Hp; cbn [mbind option_bind].
  2: { rewrite success_ne. eexists _, q, _. split; [done|]. split; [done|]. left. split_and!; auto. }
  destruct (find_addr_ok c q p d.(phyaddr) Hok) as (i & Hf & Hi & Hb & _). rewrite Hf.
  cbn [mbind option_bind]. fold (num p c).
  destruct (Z.eqb_spec i (num p c)) as [->|Hne]; cbn [mbind option_bind].
  { rewrite success_ne. eexists _, q, _. split; [done|]. split; [done|]. left. split_and!; auto.
    right; right. exists p. split; [done|]. unfold bound_at. rewrite Hf. cbn [mbind option_bind].
    by rewrite Z.ltb_irrefl. }
  destruct (Hb ltac:(lia)) as (b & Hbi & Hpab). rewrite Hbi. cbn [mbind option_bind]. cbv zeta.
  set (unm := negb (d.(buffer_type) =? OMX_ALLOCATE_DRIVER)).
  set (c0 := if unm then channel_unmap_kernel_viraddr c b else c).
  assert (Hq0 : quiet c c0) by (unfold c0; destruct unm; [apply post_quiet|done]).
  assert (Hb0 : forall n, node_buf c0 n = node_buf c n).
  { intros n. unfold c0. destruct unm; [apply node_buf_post|done]. }
  destruct (benign_ok c0 (Slot p i) b (fun b => b <| kern_vaddr := 0 |>))
    as (c1 & -> & Hq1 & Ht1 & _ & Hb1); [by rewrite Hb0|done|]. cbn [mbind option_bind].
  assert (quiet c c1) as Hqc by (by etrans).
  assert (Htr : trace c1 = trace c ++ (if unm then [MMZ_UNMAP b.(phy_addr) b.(kern_vaddr)] else [])).
  { rewrite Ht1. unfold c0. destruct unm; [done|by rewrite app_nil_r]. }
  assert (Hnum1 : num p c1 = num p c) by (apply (cm_num _ _ (qt_calm _ _ Hqc))).
  destruct (drop_slot_ok c1 q p i (quiet_ok _ _ _ Hok Hqc)) as (c' & q' & E' & Hs & Ht & Hds).
  { rewrite Hnum1. lia. }
  { eapply (Hhas p i b); [done|lia|done|done]. }
  assert (Hcode : (c ← (if i <? buf_num (port p c1) - 1 then move_last_slot c1 p i else Some c1);
      c ← clear_slot c p (buf_num (port p c) - 1);
      Some (on_port p (fun P => P <| buf_num ::= fun k => k - 1 |>) c, HI_SUCCESS))
    = Some (c', HI_SUCCESS)).
  { unfold drop_slot in E'. destruct (if i <? _ then _ else _) as [x|]; [|done].
    cbn [mbind option_bind] in *. destruct (clear_slot x p _) as [y|]; [|done].
    cbn [mbind option_bind] in *. by injection E' as ->. }
  rewrite Hcode. cbn [mbind option_bind]. rewrite Z.eqb_refl. cbn [negb].
  eexists _, q', _. split; [done|]. split.
  - eapply (served_ext _ _ _ _ (fun p => nothing p ++ nothing p)); [done|].
    eapply served_trans; [|exact Hs].
    apply (served_quiet c c1 q _ nothing Hok Hqc Htr). intros p'. by destruct unm, p'.
  - right. split; [done|]. exists p, i, b, c1.
    split_and!; [done|lia|lia|done|done|done|done| |by rewrite Ht].
    intros n Hn. rewrite Hb1, decide_False by done. apply Hb0.
Qed.
End Bind.
