(* ===== verification/OmxInit.v ===== *)
(** * Creating a decoder channel's instances

    Models decoder_init_option, decoder_create_inst and decoder_release_inst of
    omxvdec/decoder_vfmw.c and processor_create_inst and processor_release_inst of
    processor_vpss.c, as built without trusted video and without preallocated
    memory: what is asked of the decoder for a stream, and which memory and
    handles are held after every answer. Releasing what is not held is [None]. *)

From S2P Require Import Prelude KList FrameRate PtsRec OmxDelay OmxChan OmxHw.

Definition STD_VC1 : Z := 1.
Definition STD_VP8 : Z := 13.
Definition STD_HEVC : Z := 16.
Definition STD_WMV : Z := 20.

(** Sizes of drv_omxvdec.h, levels of [VDEC_CHAN_CAP_LEVEL_E]. *)
Definition UHD_FRAME_WIDTH : Z := 4096.
Definition UHD_FRAME_HEIGHT : Z := 2304.
Definition HD_FRAME_WIDTH : Z := 1920.
Definition HD_FRAME_HEIGHT : Z := 1088.
Definition SD_FRAME_WIDTH : Z := 1280.
Definition SD_FRAME_HEIGHT : Z := 768.

Definition CAP_LEVEL_MPEG_720 : Z := 3.
Definition CAP_LEVEL_MPEG_FHD : Z := 4.
Definition CAP_LEVEL_H264_720 : Z := 8.
Definition CAP_LEVEL_H264_FHD : Z := 9.
Definition CAP_LEVEL_4096x2160 : Z := 18.
Definition CAP_LEVEL_MVC_FHD : Z := 26.
Definition CAP_LEVEL_HEVC_720 : Z := 30.
Definition CAP_LEVEL_HEVC_FHD : Z := 31.
Definition CAP_LEVEL_HEVC_UHD : Z := 32.

Definition SOFT_DEC_MIN_MEM_SD : Z := 22 * 1024 * 1024.
Definition SOFT_DEC_MIN_MEM_HD : Z := 45 * 1024 * 1024.

(** The user's configuration, as far as it is read. *)
Record OMXVDEC_DRV_CFG := mkCfg {
  cfg_width : Z;
  cfg_height : Z;
  cfg_stride : Z;
  cfg_inbuf_num : Z;
  cfg_outbuf_num : Z;
  cfg_native_buf : bool;
  eVidStd : Z;
  IsAdvProfile : Z;
  Vp6_bReversed : Z;
  s32LowdlyEnable : Z;
}.

(** The options of a decoder channel; fields that are not set are zero. *)
Record VDEC_CHAN_OPTION_S := mkOption {
  s32MaxWidth : Z;
  s32MaxHeight : Z;
  s32SCDBufSize : Z;
  s32MaxRefFrameNum : Z;
  s32SupportH264 : Z;
  s32MaxSliceNum : Z;
  s32MaxSpsNum : Z;
  s32MaxPpsNum : Z;
  s32DisplayFrameNum : Z;
  u32DynamicFrameStoreAllocEn : Z;
  s32ExtraFrameStoreNum : Z;
}.

#[export] Instance option_fields : Fields VDEC_CHAN_OPTION_S := fun r =>
  mkOption r.(s32MaxWidth) r.(s32MaxHeight) r.(s32SCDBufSize) r.(s32MaxRefFrameNum)
    r.(s32SupportH264) r.(s32MaxSliceNum) r.(s32MaxSpsNum) r.(s32MaxPpsNum)
    r.(s32DisplayFrameNum) r.(u32DynamicFrameStoreAllocEn) r.(s32ExtraFrameStoreNum).

Definition zero_option : VDEC_CHAN_OPTION_S := mkOption 0 0 0 0 0 0 0 0 0 0 0.

Inductive eCFG_CAP := CFG_CAP_SD | CFG_CAP_HD | CFG_CAP_UHD.

(** The module's switches that creation reads. *)
Record omx_switches := mkSwitches {
  g_DispNum : Z;
  g_SegSize : Z;
  g_DynamicFsEnable : bool;
}.

(** The class of the picture size, with the sizes and buffers it implies. The
    product is taken in 32 bits. *)
Definition size_class (g : omx_switches) (w h : Z) (o : VDEC_CHAN_OPTION_S)
    : eCFG_CAP * VDEC_CHAN_OPTION_S :=
  if w *u h >? HD_FRAME_WIDTH * HD_FRAME_HEIGHT then
    (CFG_CAP_UHD, o <| s32MaxWidth := s32 (Z.max UHD_FRAME_WIDTH w) |>
      <| s32MaxHeight := s32 (Z.max UHD_FRAME_HEIGHT h) |>
      <| s32SCDBufSize := s32 (4 * g.(g_SegSize) * 1024 * 1024) |> <| s32MaxRefFrameNum := 4 |>)
  else if w *u h >? SD_FRAME_WIDTH * SD_FRAME_HEIGHT then
    (CFG_CAP_HD, o <| s32MaxWidth := s32 (Z.max HD_FRAME_WIDTH w) |>
      <| s32MaxHeight := s32 (Z.max HD_FRAME_HEIGHT h) |>
      <| s32SCDBufSize := s32 (g.(g_SegSize) * 1024 * 1024) |> <| s32MaxRefFrameNum := 10 |>)
  else
    (CFG_CAP_SD, o <| s32MaxWidth := s32 (Z.max SD_FRAME_WIDTH w) |>
      <| s32MaxHeight := s32 (Z.max SD_FRAME_HEIGHT h) |>
      <| s32SCDBufSize := s32 (g.(g_SegSize) * 1024 * 1024) |> <| s32MaxRefFrameNum := 12 |>).

Definition h264_option (o : VDEC_CHAN_OPTION_S) : VDEC_CHAN_OPTION_S :=
  o <| s32SupportH264 := 1 |> <| s32MaxSliceNum := 136 |> <| s32MaxSpsNum := 32 |>
    <| s32MaxPpsNum := 256 |>.

(** The capability level of the protocol and the size class. *)
Definition cap_level (std : Z) (cap : eCFG_CAP) (o : VDEC_CHAN_OPTION_S)
    : Z * VDEC_CHAN_OPTION_S :=
  if std =? STD_HEVC then
    (match cap with
     | CFG_CAP_SD => CAP_LEVEL_HEVC_720 | CFG_CAP_HD => CAP_LEVEL_HEVC_FHD
     | CFG_CAP_UHD => CAP_LEVEL_HEVC_UHD
     end, h264_option o)
  else if (std =? STD_H264) || (std =? STD_MVC) then
    (if std =? STD_MVC then CAP_LEVEL_MVC_FHD else
     match cap with
     | CFG_CAP_SD => CAP_LEVEL_H264_720 | CFG_CAP_HD => CAP_LEVEL_H264_FHD
     | CFG_CAP_UHD => CAP_LEVEL_4096x2160
     end, h264_option o)
  else
    (match cap with
     | CFG_CAP_SD => CAP_LEVEL_MPEG_720 | CFG_CAP_HD => CAP_LEVEL_MPEG_FHD
     | CFG_CAP_UHD => CAP_LEVEL_4096x2160
     end, o <| s32MaxRefFrameNum := if std =? STD_VP8 then 3 else 2 |>).

(** H.263 and Sorenson are decoded in software. *)
Definition soft_std (std : Z) : bool := (std =? STD_H263) || (std =? STD_SORENSON).

Definition decoder_init_option (g : omx_switches) (c : OMXVDEC_CHAN_CTX) (cfg : OMXVDEC_DRV_CFG)
    : OMXVDEC_CHAN_CTX * Z * VDEC_CHAN_OPTION_S :=
  let std := cfg.(eVidStd) in
  let c := c <| protocol := if (std =? STD_VC1) && (cfg.(IsAdvProfile) =? 0) then STD_WMV else std |> in
  let c := c <| bReversed := if (std =? STD_VP6) || (std =? STD_VP6F) || (std =? STD_VP6A)
                             then cfg.(Vp6_bReversed) else 0 |> in
  let o := zero_option <| s32DisplayFrameNum := g.(g_DispNum) |> in
  let '(cap, o) := size_class g c.(out_width) c.(out_height) o in
  let '(level, o) := cap_level std cap o in
  let o := if g.(g_DynamicFsEnable) && negb (soft_std std)
           then o <| u32DynamicFrameStoreAllocEn := 1 |> <| s32ExtraFrameStoreNum := g.(g_DispNum) |>
           else o in
  (c, level, o).

(** ** Resources *)

(** What a channel holds of memory, of the decoder and of VPSS. *)
Inductive resource :=
| VDH_MEM | SCD_MEM | VFMW_CHAN | LOWDLAY_CALC | VPSS_INST | VPSS_PORT
| EXTRA_MEM | DELAY_REC | MSG_QUEUE.

Definition res_num (r : resource) : nat :=
  match r with
  | VDH_MEM => 0 | SCD_MEM => 1 | VFMW_CHAN => 2 | LOWDLAY_CALC => 3 | VPSS_INST => 4
  | VPSS_PORT => 5 | EXTRA_MEM => 6 | DELAY_REC => 7 | MSG_QUEUE => 8
  end.

Definition same_res (r r' : resource) : bool := Nat.eqb (res_num r) (res_num r').

(** A channel under construction: its context, the sizes and addresses in
    [decoder_vdh_buf] and [decoder_scd_buf], and what it holds. *)
Record inst := mkInst {
  ctx : OMXVDEC_CHAN_CTX;
  vdh_buf : Z * Z;
  scd_buf : Z * Z;
  held : list resource;
}.

#[export] Instance inst_fields : Fields inst := fun r =>
  mkInst r.(ctx) r.(vdh_buf) r.(scd_buf) r.(held).

Definition acquire (r : resource) (s : inst) : inst := s <| held ::= fun l => r :: l |>.

(** Giving back what is not held is a double release. *)
Definition hand_back (r : resource) (s : inst) : option inst :=
  if existsb (same_res r) s.(held)
  then Some (s <| held ::= List.filter (fun x => negb (same_res r x)) |>) else None.

(** [omxvdec_release_mem]: nothing for a buffer of no size, which is cleared. *)
Definition release_vdh (s : inst) : option inst :=
  if negb (fst s.(vdh_buf) =? 0) then
    s ← hand_back VDH_MEM s; Some (s <| vdh_buf := (0, 0) |>)
  else Some s.

Definition release_scd (s : inst) : option inst :=
  if negb (fst s.(scd_buf) =? 0) then
    s ← hand_back SCD_MEM s; Some (s <| scd_buf := (0, 0) |>)
  else Some s.

(** The answers of the allocator and of the decoder firmware. *)
Record dec_answers := mkDecAns {
  m_detail : option (Z * Z);      (* VdhDetailMem, ScdDetailMem *)
  m_vdh : option Z;               (* an address *)
  m_vdh_map : bool;
  m_scd : option Z;
  m_scd_map : bool;
  m_create : option Z;            (* the decoder's id *)
  m_cfg : bool;
  m_stream : bool;
  m_image : bool;
  m_calc : bool;
}.

Section Create.
Context {C : HiConsts} {E : OmxEnv}.

(** The size of the frame memory. *)
Definition vdh_size (c : OMXVDEC_CHAN_CTX) (level detail : Z) : Z :=
  if soft_std c.(protocol)
  then if level <? CAP_LEVEL_MPEG_FHD then SOFT_DEC_MIN_MEM_SD else SOFT_DEC_MIN_MEM_HD
  else detail.

(** Frame memory: with a dynamic frame store there is none to allocate. [inl] goes
    on; [inr] is the label of the error path: 0 and 1. *)
Definition alloc_vdh (s : inst) (o : VDEC_CHAN_OPTION_S) (level : Z) (a : dec_answers) (detail : Z)
    : inst + (inst * Z) :=
  let size := vdh_size s.(ctx) level detail in
  if (u32DynamicFrameStoreAllocEn o =? 1) && negb (soft_std s.(ctx).(protocol)) then inl s else
  match a.(m_vdh) with
  | None => inr (s, 0)
  | Some pa =>
      let s := acquire VDH_MEM (s <| vdh_buf := (size, pa) |>) in
      if soft_std s.(ctx).(protocol) && negb a.(m_vdh_map) then inr (s, 1) else inl s
  end.

Definition alloc_scd (s : inst) (a : dec_answers) (detail : Z) : inst + (inst * Z) :=
  if detail >? 0 then
    match a.(m_scd) with
    | None => inr (s, 1)
    | Some pa =>
        let s := acquire SCD_MEM (s <| scd_buf := (detail, pa) |>) in
        if soft_std s.(ctx).(protocol) && negb a.(m_scd_map) then inr (s, 2) else inl s
    end
  else inl s.

(** The labels error3 to error0. *)
Definition create_error (s : inst) (label : Z) : option (inst * Z) :=
  s ← (if label >=? 3 then hand_back VFMW_CHAN s else Some s);
  s ← (if label >=? 2 then release_scd s else Some s);
  s ← (if label >=? 1 then release_vdh s else Some s);
  Some (s, HI_FAILURE).

(** From the created decoder channel on; a failed start of the statistics returns
    at once. *)
Definition configure_decoder (s : inst) (a : dec_answers) (id : Z) : option (inst * Z) :=
  let s := acquire VFMW_CHAN (s <| ctx ::= fun c => c <| decoder_id := id |> |>) in
  if negb a.(m_cfg) then create_error s 3 else
  if negb a.(m_stream) then create_error s 3 else
  if negb a.(m_image) then create_error s 3 else
  if g_LowDelayStatistics then
    if a.(m_calc) then Some (acquire LOWDLAY_CALC s, HI_SUCCESS) else Some (s, HI_FAILURE)
  else Some (s, HI_SUCCESS).

Definition decoder_create_inst (g : omx_switches) (s : inst) (cfg : OMXVDEC_DRV_CFG) (a : dec_answers)
    : option (inst * Z) :=
  let '(c, level, o) := decoder_init_option g s.(ctx) cfg in
  let s := s <| ctx := c |> in
  match a.(m_detail) with
  | None => create_error s 0
  | Some (vdh, scd) =>
      match alloc_vdh s o level a vdh with
      | inr (s, label) => create_error s label
      | inl s =>
          match alloc_scd s a scd with
          | inr (s, label) => create_error s label
          | inl s =>
              match a.(m_create) with
              | None => create_error s 2
              | Some id => configure_decoder s a id
              end
          end
      end
  end.

(** The firmware's answer [a] is returned, and everything released all the same. *)
Definition decoder_release_inst (s : inst) (a : Z) : option (inst * Z) :=
  s ← hand_back VFMW_CHAN s;
  s ← (if negb (fst s.(scd_buf) =? 0) && negb (snd s.(scd_buf) =? 0) then release_scd s else Some s);
  s ← (if negb (fst s.(vdh_buf) =? 0) && negb (snd s.(vdh_buf) =? 0) then release_vdh s else Some s);
  Some (s, a).

(** ** VPSS *)

Record proc_answers := mkProcAns {
  v_default : bool;
  v_create : option Z;        (* the instance *)
  v_hook : bool;
  v_source : bool;
  v_port_default : bool;
  v_port : option Z;
}.

Definition proc_error (s : inst) : option (inst * Z) :=
  s ← hand_back VPSS_INST s;
  Some (s <| ctx ::= fun c => c <| processor_id := VPSS_INVALID_HANDLE |> |>, HI_FAILURE).

Definition processor_create_inst (s : inst) (a : proc_answers) : option (inst * Z) :=
  let s := s <| ctx ::= fun c => c <| processor_id := VPSS_INVALID_HANDLE |>
                                   <| port_id := VPSS_INVALID_HANDLE |> |> in
  if negb a.(v_default) then Some (s, HI_FAILURE) else
  match a.(v_create) with
  | None => Some (s, HI_FAILURE)
  | Some id =>
      let s := acquire VPSS_INST (s <| ctx ::= fun c => c <| processor_id := id |> |>) in
      if negb a.(v_hook) then proc_error s else
      if negb a.(v_source) then proc_error s else
      if negb a.(v_port_default) then proc_error s else
      match a.(v_port) with
      | None => proc_error s
      | Some port => Some (acquire VPSS_PORT (s <| ctx ::= fun c => c <| port_id := port |> |>),
                           HI_SUCCESS)
      end
  end.

Definition processor_release_inst (s : inst) : option (inst * Z) :=
  if s.(ctx).(port_id) =? VPSS_INVALID_HANDLE then Some (s, HI_FAILURE) else
  s ← hand_back VPSS_PORT s;
  let s := s <| ctx ::= fun c => c <| port_id := VPSS_INVALID_HANDLE |> |> in
  if s.(ctx).(processor_id) =? VPSS_INVALID_HANDLE then Some (s, HI_FAILURE) else
  s ← hand_back VPSS_INST s;
  Some (s <| ctx ::= fun c => c <| processor_id := VPSS_INVALID_HANDLE |> |>, HI_SUCCESS).
End Create.
