(* ===== verification/OmxDev.v ===== *)
(** * The decoder device

    Models the rest of omxvdec/channel.c and omxvdec.c: the list of channels of the
    device, creating and releasing one with everything it holds, opening and
    closing the device, and the ioctl that dispatches the calls of the user. A
    channel is an object in memory; the device lists pointers to it. *)

From S2P Require Import Prelude KList FrameRate PtsRec OmxDelay OmxChan OmxHw OmxInit.

(** ** State *)

(** The device: its list of channels holds pointers into [insts]; [pts] is the
    table of the time-stamp recovery. *)
Record OMXVDEC_ENTRY := mkEntry {
  open_count : Z;
  total_chan_num : Z;
  chan_list : list Z;
  insts : gmap Z inst;
  pts : chan_table;
}.

#[export] Instance entry_fields : Fields OMXVDEC_ENTRY := fun r =>
  mkEntry r.(open_count) r.(total_chan_num) r.(chan_list) r.(insts) r.(pts).

Definition MAX_OPEN_COUNT : Z := 32.
Definition EIO : Z := 5.
Definition EAGAIN : Z := 11.
Definition EFAULT : Z := 14.
Definition EBUSY : Z := 16.
Definition EINVAL : Z := 22.
Definition ENOTTY : Z := 25.

(** [sizeof(OMXVDEC_BUF_S)] on 32-bit ARM. *)
Definition SIZEOF_BUF : Z := 80.

(** A context from [kzalloc]. *)
Definition zero_port : PORT := mkPort [] 0 0 0 false.
Definition null_head : list_head node := mkHead None None.
Definition zero_ctx : OMXVDEC_CHAN_CTX :=
  mkCtx 0 0 0 0 false 0 0 0 0 0 false zero_port zero_port false false 0 0 false false false false
    0 0 0 0 0 0 CHAN_STATE_INVALID DFS_INIT 0 0 0 zero_buf 0
    {[QHead IN := null_head; QHead OUT := null_head; LastFrame := null_head]} [] (mkStat 0 0 0 0)
    None.

(** The nodes in the table memory, with whatever they hold. *)
Definition slot_links (p : port_dir) (l : list (OMXVDEC_BUF_S * list_head node))
    : gmap node (list_head node) :=
  list_to_map (imap (fun i x => (Slot p (Z.of_nat i), snd x)) l).

Section Device.
Context {C : HiConsts} {E : OmxEnv}.
Implicit Types (e : OMXVDEC_ENTRY) (p : Z).

(** ** The list of channels *)

Definition deref e p : option inst := e.(insts) !! p.

(** [list_for_each_entry] over the channels with a test and a break. *)
Fixpoint find_chan e (l : list Z) (test : OMXVDEC_CHAN_CTX -> bool) : option (option Z) :=
  match l with
  | [] => Some None
  | p :: l =>
      s ← deref e p;
      if test s.(ctx) then Some (Some p) else find_chan e l test
  end.

Definition on_inst e p (f : inst -> inst) : option OMXVDEC_ENTRY :=
  s ← deref e p; Some (e <| insts ::= <[p := f s]> |>).

(** The search for an unused id starts over after every hit. *)
Fixpoint next_id (fuel : nat) e (id : Z) : option Z :=
  match fuel with
  | O => None
  | S fuel =>
      found ← find_chan e e.(chan_list) (fun c => u32 c.(channel_id) =? id);
      match found with
      | Some _ => next_id fuel e (id +u 1)
      | None => Some id
      end
  end.

Definition channel_add_chan_record e p : option OMXVDEC_ENTRY :=
  id ← (match e.(chan_list) with
        | [] => Some 0
        | _ => next_id (S (length e.(chan_list))) e 0
        end);
  e ← on_inst e p (fun s => s <| ctx ::= fun c => c <| channel_id := s32 id |> |>);
  Some (e <| chan_list ::= fun l => l ++ [p] |> <| total_chan_num ::= fun k => k +u 1 |>).

(** [list_del]: the pointer must be in the list. *)
Definition channel_delete_chan_record e p : option OMXVDEC_ENTRY :=
  if decide (p ∈ e.(chan_list)) then
    Some (e <| chan_list ::= List.filter (fun x => negb (x =? p)) |>
            <| total_chan_num ::= fun k => k -u 1 |>)
  else None.

Definition find_inst e (handle : Z) (get : OMXVDEC_CHAN_CTX -> Z) : option (option Z) :=
  if handle <? 0 then Some None
  else find_chan e e.(chan_list) (fun c => get c =? handle).

Definition channel_find_inst_by_channel_id e handle := find_inst e handle channel_id.
Definition channel_find_inst_by_decoder_id e handle := find_inst e handle decoder_id.
Definition channel_find_inst_by_processor_id e handle := find_inst e handle processor_id.

Definition channel_find_inst_need_wake_up e : option (option Z) :=
  find_chan e e.(chan_list) (fun c => bool_decide (c.(dfs_alloc_flag) = DFS_WAIT_ALLOC)).

(** ** Creating a channel *)

(** What the allocators and the hardware answer to a creation. [n_extra] is the
    memory for the buffer tables: its physical and virtual address and its slots
    with what they hold. *)
Record create_answers := mkCreateAns {
  n_ctx : option Z;
  n_msgq : bool;
  n_dec : dec_answers;
  n_proc : proc_answers;
  n_extra : option (Z * Z * list (OMXVDEC_BUF_S * list_head node));
  n_delay : bool;
  n_times : Z * Z;
  n_release : Z;      (* the firmware's answer when the decoder is destroyed *)
}.

Definition init_ctx (fd : Z) : option OMXVDEC_CHAN_CTX :=
  m ← INIT_LIST_HEAD (links zero_ctx) (QHead IN);
  m ← INIT_LIST_HEAD m (QHead OUT);
  Some (zero_ctx <| links := m |> <| file_dec := u32 fd |>).

(** The bytes asked for the tables and the last frame: in 32 bits. *)
Definition extra_size (cfg : OMXVDEC_DRV_CFG) : Z :=
  LAST_FRAME_BUF_SIZE +u 16 +u ((cfg.(cfg_inbuf_num) +u cfg.(cfg_outbuf_num)) *u SIZEOF_BUF).

(** The tables are laid out in the memory one after the other. *)
Definition set_tables (c : OMXVDEC_CHAN_CTX) (cfg : OMXVDEC_DRV_CFG) (pa va : Z)
    (mem : list (OMXVDEC_BUF_S * list_head node)) : OMXVDEC_CHAN_CTX :=
  let n := Z.to_nat cfg.(cfg_inbuf_num) in
  let tin := take n mem in let tout := drop n mem in
  c <| last_frame ::= fun b => b <| phy_addr := pa |> <| kern_vaddr := va |>
                                 <| buf_len := LAST_FRAME_BUF_SIZE |> |>
    <| last_frame_rate := 30000 |>
    <| inp ::= fun P => P <| buf_table := map fst tin |> <| max_buf_num := cfg.(cfg_inbuf_num) |> |>
    <| outp ::= fun P => P <| buf_table := map fst tout |> <| max_buf_num := cfg.(cfg_outbuf_num) |> |>
    <| links ::= fun m => m ∪ (slot_links IN tin ∪ slot_links OUT tout) |>.

(** The statistics of a low-delay channel; a failed allocation is only reported. *)
Definition set_delay (s : inst) (a : create_answers) : inst :=
  let s := s <| ctx ::= fun c => c <| lowdelay_rec := None |> |> in
  if negb (s.(ctx).(bLowdelay) =? 0) || g_FastOutputMode then
    if a.(n_delay)
    then acquire DELAY_REC
           (s <| ctx ::= fun c => c <| lowdelay_rec := Some (new_delay (fst a.(n_times)) (snd a.(n_times))) |> |>)
    else s
  else s.

Definition config_ctx (cfg : OMXVDEC_DRV_CFG) (c : OMXVDEC_CHAN_CTX) : OMXVDEC_CHAN_CTX :=
  c <| bLowdelay := cfg.(s32LowdlyEnable) |> <| m_use_native_buf := cfg.(cfg_native_buf) |>
    <| out_width := cfg.(cfg_width) |> <| out_height := cfg.(cfg_height) |>
    <| out_stride := cfg.(cfg_stride) |>.

(** Everything after the message queue, on the channel alone: the labels cleanup4
    to cleanup2 are [inr]. *)
Definition build_inst (g : omx_switches) (s : inst) (cfg : OMXVDEC_DRV_CFG) (a : create_answers)
    : option (inst * bool) :=
  let s := s <| ctx ::= config_ctx cfg |> in
  '(s, ret) ← decoder_create_inst g s cfg a.(n_dec);
  if negb (ret =? HI_SUCCESS) then Some (s, false) else
  '(s, ret) ← processor_create_inst s a.(n_proc);
  if negb (ret =? HI_SUCCESS) then
    '(s, _) ← decoder_release_inst s a.(n_release); Some (s, false)
  else
  match a.(n_extra) with
  | None =>
      '(s, _) ← processor_release_inst s;
      '(s, _) ← decoder_release_inst s a.(n_release);
      Some (s, false)
  | Some (pa, va, mem) =>
      let s := acquire EXTRA_MEM (s <| ctx ::= fun c => set_tables c cfg pa va mem |>) in
      Some (set_delay s a, true)
  end.

(** [kfree] of the context: what it still holds is leaked, and returned. *)
Definition free_inst e p : option (OMXVDEC_ENTRY * list resource) :=
  s ← deref e p; Some (e <| insts ::= delete p |>, s.(held)).

(** From the built channel on: its id, or the labels cleanup2 to cleanup0. *)
Definition finish_create e p (s : inst) (ok : bool)
    : option (OMXVDEC_ENTRY * Z * list resource) :=
  if ok then
    '(t, _) ← OMX_PTSREC_Alloc e.(pts) s.(ctx).(channel_id);
    let s := s <| ctx ::= fun c => c <| state := CHAN_STATE_IDLE |> |> in
    Some (e <| insts ::= <[p := s]> |> <| pts := t |>, s.(ctx).(channel_id), [])
  else
    s ← hand_back MSG_QUEUE s;
    let e := e <| insts ::= <[p := s]> |> in
    e ← channel_delete_chan_record e p;
    '(e, leak) ← free_inst e p;
    Some (e, HI_FAILURE, leak).

(** Answers the channel's id, or [HI_FAILURE], and what a failure leaked. *)
Definition channel_create_inst e (fd : Z) (g : omx_switches) (cfg : OMXVDEC_DRV_CFG)
    (a : create_answers) : option (OMXVDEC_ENTRY * Z * list resource) :=
  match a.(n_ctx) with
  | None => Some (e, HI_FAILURE, [])
  | Some p =>
      c ← init_ctx fd;
      let e := e <| insts ::= <[p := mkInst c (0, 0) (0, 0) []]> |> in
      e ← channel_add_chan_record e p;
      if negb a.(n_msgq) then
        e ← channel_delete_chan_record e p;
        '(e, leak) ← free_inst e p;
        Some (e, HI_FAILURE, leak)
      else
      s ← deref e p;
      '(s, ok) ← build_inst g (acquire MSG_QUEUE s) cfg a;
      finish_create e p s ok
  end.

(** ** Releasing a channel *)

(** What the hardware answers to a release. *)
Record release_answers := mkRelAns {
  l_calc : bool;
  l_stop : hw_answers;
  l_release : Z;
}.

(** A bound slot is unmapped, unless its memory is the driver's. *)
Definition unmap_slot (c : OMXVDEC_CHAN_CTX) (b : OMXVDEC_BUF_S) : OMXVDEC_CHAN_CTX :=
  if negb (bool_decide (b.(status) = BUF_STATE_INVALID)) && negb (b.(buf_type) =? OMX_ALLOCATE_DRIVER)
  then post c (MMZ_UNMAP b.(phy_addr) b.(kern_vaddr)) else c.

(** The loop over all slots of a table, bound or not. *)
Fixpoint unmap_from (fuel : nat) (c : OMXVDEC_CHAN_CTX) (d : port_dir) (i : Z)
    : option OMXVDEC_CHAN_CTX :=
  match fuel with
  | O => None
  | S fuel =>
      if i <? (port d c).(max_buf_num) then
        b ← arr_get (port d c).(buf_table) i;
        unmap_from fuel (unmap_slot c b) d (i + 1)
      else Some c
  end.

Definition unmap_table (c : OMXVDEC_CHAN_CTX) (d : port_dir) : option OMXVDEC_CHAN_CTX :=
  unmap_from (S (length (port d c).(buf_table))) c d 0.

(** A channel that runs is stopped; what fails is only reported. *)
Definition stop_running (c : OMXVDEC_CHAN_CTX) (a : hw_answers) : OMXVDEC_CHAN_CTX :=
  if bool_decide (c.(state) = CHAN_STATE_WORK) || bool_decide (c.(state) = CHAN_STATE_PAUSE) then
    let '(c, _) := decoder_stop_inst c a.(a_dec) in
    let '(c, _) := processor_stop_inst c a.(a_port) a.(a_proc) in
    c <| state := CHAN_STATE_IDLE |>
  else c.

(** Everything that a channel holds, given back. *)
Definition dismantle (s : inst) (a : release_answers) : option inst :=
  let s := s <| ctx ::= fun c => stop_running c a.(l_stop) |> in
  '(s, _) ← processor_release_inst s;
  '(s, _) ← decoder_release_inst s a.(l_release);
  c ← unmap_table s.(ctx) IN;
  c ← unmap_table c OUT;
  s ← hand_back EXTRA_MEM (s <| ctx := c |>);
  s ← hand_back MSG_QUEUE s;
  Some (s <| ctx ::= fun c => c <| state := CHAN_STATE_INVALID |> |>).

Definition free_delay (s : inst) : option inst :=
  if (negb (s.(ctx).(bLowdelay) =? 0) || g_FastOutputMode)
     && bool_decide (is_Some s.(ctx).(lowdelay_rec))
  then hand_back DELAY_REC s else Some s.

(** Answers the code and what was leaked with the context. *)
Definition channel_release_inst e p (a : release_answers)
    : option (OMXVDEC_ENTRY * Z * list resource) :=
  s ← deref e p;
  if g_LowDelayStatistics && negb a.(l_calc) then Some (e, HI_FAILURE, []) else
  s ← (if g_LowDelayStatistics then hand_back LOWDLAY_CALC s else Some s);
  s ← dismantle s a;
  '(t, _) ← OMX_PTSREC_Free e.(pts) s.(ctx).(channel_id);
  e ← channel_delete_chan_record (e <| pts := t |>) p;
  s ← free_delay s;
  '(e, leak) ← free_inst (e <| insts ::= <[p := s]> |>) p;
  Some (e, HI_SUCCESS, leak).

(** ** Opening and closing the device *)

(** [o_have_task]: whether the thread of task.c, which is not in the repository,
    exists; [o_task]: whether it could be created. *)
Record open_answers := mkOpenAns {
  o_decoder : bool; o_processor : bool; o_have_task : bool; o_task : bool;
}.

Definition channel_init (a : open_answers) : Z :=
  if negb a.(o_decoder) then HI_FAILURE
  else if negb a.(o_processor) then HI_FAILURE else HI_SUCCESS.

Definition omxvdec_open e (g : omx_switches) (a : open_answers) : option (OMXVDEC_ENTRY * Z) :=
  if e.(open_count) <? MAX_OPEN_COUNT then
    let e := e <| open_count ::= fun k => k + 1 |> in
    let undo e ret := Some (e <| open_count ::= fun k => k - 1 |>, ret) in
    if e.(open_count) =? 1 then
      let ret := channel_init a in
      if negb (ret =? HI_SUCCESS) then undo e ret else
      if g.(g_DynamicFsEnable) && negb a.(o_have_task) && negb a.(o_task) then undo e HI_FAILURE else
      '(t, _) ← OMX_PTSREC_Init e.(pts); Some (e <| pts := t |>, HI_SUCCESS)
    else Some (e, HI_SUCCESS)
  else Some (e, - EBUSY).

(** The channels of the file are released, one after the other; [answers] are the
    hardware's, per channel. *)
Fixpoint release_all e (fd : Z) (l : list Z) (answers : Z -> release_answers)
    : option (OMXVDEC_ENTRY * list resource) :=
  match l with
  | [] => Some (e, [])
  | p :: l =>
      s ← deref e p;
      if (s.(ctx).(file_dec) =? u32 fd) && negb (bool_decide (s.(ctx).(state) = CHAN_STATE_INVALID))
      then
        '(e, _, leak) ← channel_release_inst e p (answers p);
        '(e, leak') ← release_all e fd l answers;
        Some (e, leak ++ leak')
      else release_all e fd l answers
  end.

Definition omxvdec_release e (fd : Z) (answers : Z -> release_answers)
    : option (OMXVDEC_ENTRY * list resource) :=
  '(e, leak) ← release_all e fd e.(chan_list) answers;
  let e := if e.(open_count) >? 0 then e <| open_count ::= fun k => k - 1 |> else e in
  if e.(open_count) =? 0 then
    '(t, _) ← OMX_PTSREC_DeInit e.(pts);
    Some (e <| pts := t |>, leak)
  else Some (e, leak).

(** ** The calls on one channel *)

Inductive chan_cmd :=
| BIND_BUFFER (d : OMXVDEC_BUF_DESC) (mapped : option Z)
| UNBIND_BUFFER (d : OMXVDEC_BUF_DESC)
| EMPTY_INPUT_STREAM (d : OMXVDEC_BUF_DESC) (now : Z)
| FILL_OUTPUT_FRAME (d : OMXVDEC_BUF_DESC)
| FLUSH_PORT (which a_vpss a_vfmw : Z)
| CHAN_PAUSE
| CHAN_RESUME
| CHAN_START (a : hw_answers)
| CHAN_STOP (a : hw_answers).

Definition with_table {T} (t : chan_table) (r : option (OMXVDEC_CHAN_CTX * T))
    : option (OMXVDEC_CHAN_CTX * chan_table * T) :=
  '(c, ret) ← r; Some (c, t, ret).

Definition chan_exec (c : OMXVDEC_CHAN_CTX) (t : chan_table) (cmd : chan_cmd)
    : option (OMXVDEC_CHAN_CTX * chan_table * Z) :=
  match cmd with
  | BIND_BUFFER d mapped => with_table t (channel_bind_user_buffer c d mapped)
  | UNBIND_BUFFER d => with_table t (channel_unbind_user_buffer c d)
  | EMPTY_INPUT_STREAM d now => with_table t (channel_empty_this_stream c d now)
  | FILL_OUTPUT_FRAME d => with_table t (channel_fill_this_frame c d)
  | FLUSH_PORT which av af => channel_flush_inst c t which av af
  | CHAN_PAUSE => with_table t (Some (channel_pause_inst c))
  | CHAN_RESUME => with_table t (Some (channel_resume_inst c))
  | CHAN_START a => channel_start_inst c t a
  | CHAN_STOP a => channel_stop_inst c t a
  end.

(** ** ioctl *)

Inductive ioctl_cmd :=
| VDEC_IOCTL_CHAN_CREATE (cfg : option OMXVDEC_DRV_CFG) (a : create_answers) (copied : bool)
| VDEC_IOCTL_CHAN_RELEASE (a : release_answers)
| VDEC_IOCTL_CHAN_GET_MSG (ret : Z) (copied : bool)
| VDEC_IOCTL_CHAN (cmd : chan_cmd) (copied : bool)
| VDEC_IOCTL_OTHER.

(** The answer to a call whose argument cannot be copied. *)
Definition copy_error (cmd : chan_cmd) (copied : bool) : option Z :=
  if copied then None else
  match cmd with
  | BIND_BUFFER _ _ | UNBIND_BUFFER _ | EMPTY_INPUT_STREAM _ _ | FILL_OUTPUT_FRAME _ => Some (- EIO)
  | FLUSH_PORT _ _ _ => Some (- EFAULT)
  | _ => None
  end.

(** [chan_num] is the user's; [copied] is whether the argument could be copied, or
    the result copied back; [ret] is the answer of the message queue. *)
Definition omxvdec_ioctl e (fd chan_num : Z) (g : omx_switches) (cmd : ioctl_cmd)
    : option (OMXVDEC_ENTRY * Z * list resource) :=
  match cmd with
  | VDEC_IOCTL_CHAN_CREATE cfg a copied =>
      match cfg with
      | None => Some (e, - EFAULT, [])
      | Some cfg =>
          '(e, chan_id, leak) ← channel_create_inst e fd g cfg a;
          if chan_id <? 0 then Some (e, - EFAULT, leak)
          else Some (e, if copied then 0 else - EIO, leak)
      end
  | _ =>
      if chan_num <? 0 then Some (e, - EINVAL, []) else
      found ← channel_find_inst_by_channel_id e chan_num;
      match found with
      | None => Some (e, - EFAULT, [])
      | Some p =>
          match cmd with
          | VDEC_IOCTL_CHAN_RELEASE a =>
              '(e, ret, leak) ← channel_release_inst e p a;
              Some (e, if negb (ret =? HI_SUCCESS) then - EFAULT else 0, leak)
          | VDEC_IOCTL_CHAN_GET_MSG ret copied =>
              Some (e, if negb (ret =? HI_SUCCESS) then if ret =? - EAGAIN then - EAGAIN else - EFAULT
                       else if copied then 0 else - EIO, [])
          | VDEC_IOCTL_CHAN cmd copied =>
              match copy_error cmd copied with
              | Some err => Some (e, err, [])
              | None =>
                  s ← deref e p;
                  '(c, t, ret) ← chan_exec s.(ctx) e.(pts) cmd;
                  Some (e <| insts ::= <[p := s <| ctx := c |>]> |> <| pts := t |>,
                        if negb (ret =? HI_SUCCESS) then - EFAULT else 0, [])
              end
          | _ => Some (e, - ENOTTY, [])
          end
      end
  end.

(** ** The calls of the hardware *)

Inductive hw_call :=
| HW_GET_STREAM (now : Z)
| HW_RELEASE_STREAM (addr tag : Z) (stack : OMXVDEC_BUF_DESC) (now : Z)
| HW_VPSS_EVENT (ev : vpss_event) (now : Z)
| HW_DECODER_EVENT (ev : decoder_event) (now a : Z).

Definition hw_exec (c : OMXVDEC_CHAN_CTX) (h : hw_call) : option OMXVDEC_CHAN_CTX :=
  match h with
  | HW_GET_STREAM now => '(c, _, _) ← get_stream c now; Some c
  | HW_RELEASE_STREAM addr tag stack now => '(c, _) ← release_stream c addr tag stack now; Some c
  | HW_VPSS_EVENT ev now => '(c, _, _) ← vpss_event_on c ev now; Some c
  | HW_DECODER_EVENT ev now a => '(c, _) ← decoder_event_on c ev now a; Some c
  end.

(** The stream calls and VPSS know a channel by its id, the decoder's events by the
    decoder's. A channel that is not found is reported and nothing happens. *)
Definition hw_find e (handle : Z) (h : hw_call) : option (option Z) :=
  match h with
  | HW_DECODER_EVENT _ _ _ => channel_find_inst_by_decoder_id e handle
  | _ => channel_find_inst_by_channel_id e handle
  end.

Definition hw_event e (handle : Z) (h : hw_call) : option OMXVDEC_ENTRY :=
  found ← hw_find e handle h;
  match found with
  | None => Some e
  | Some p =>
      s ← deref e p;
      c ← hw_exec s.(ctx) h;
      Some (e <| insts ::= <[p := s <| ctx := c |>]> |>)
  end.
End Device.
