(* ===== verification/OmxRun.v ===== *)
(** * Runs of a decoder channel

    All calls on a channel as one step function, and what holds of every run of
    the calls that keep the user's side of the contract: nothing faults, no
    buffer is lost or given back twice, and, when the hardware returns only what
    it has, its buffers are counted and no flush waits for nothing. *)

From S2P Require Import Prelude KList FrameRate PtsRec OmxDelay OmxChan OmxHw OmxQueue OmxCalls.
From S2P Require Import OmxServe OmxReturn OmxBind OmxInit OmxDev.

Section States.
Context {C : HiConsts} {E : OmxEnv} {Ok : HiConstsOk C}.
Implicit Types (c : OMXVDEC_CHAN_CTX) (p : port_dir) (n : node) (q : port_dir -> list node).

(** A change of a channel's flags, state and statistics that posts events. *)
Record mild c c' : Prop := {
  md_parked : parked c c';
  md_uses : forall p, uses p c' = uses p c;
  md_pending : forall p, pending p c' = pending p c;
  md_pause : pause_pending c' = true -> pause_pending c = true \/ 0 <> uses OUT c;
  md_trace : exists evs, trace c' = trace c ++ evs /\ forall p, returned p evs = [];
}.

Lemma mild_served c c' q :
  queues_ok c q -> mild c c' -> kept c q c' q nothing /\ (counted c q -> counted c' q).
Proof.
  intros Hok [Hp Hu Hpe Hz (evs & Ht & Hr)]. split; [by eapply parked_kept|].
  intros [U P Z]. split.
  - intros p. by rewrite Hu, (parked_taken _ _ _ Hp).
  - intros p. rewrite Hu, Hpe. apply P.
  - rewrite Hu. intros [Hz'|Hne]%Hz; [by apply Z|].
    pose proof (U OUT). pose proof (taken_nonneg c (q OUT)). lia.
Qed.

Lemma mild_refl c : mild c c.
Proof. split; try done; [auto|]. exists []. by rewrite app_nil_r. Qed.

(** A change of fields that no invariant mentions. *)
Record plain c c' : Prop := {
  pl_buf : forall n, node_buf c' n = node_buf c n;
  pl_links : c'.(links) = c.(links);
  pl_eos : c'.(eos_in_list) = c.(eos_in_list);
  pl_port : forall p, num p c' = num p c /\ max_num p c' = max_num p c /\ uses p c' = uses p c
    /\ pending p c' = pending p c;
  pl_delay : delay_ok c -> delay_ok c';
  pl_id : c'.(channel_id) = c.(channel_id);
  pl_fixed : fixed c' = fixed c;
  pl_trace : c'.(trace) = c.(trace);
}.

Lemma mild_plain c c1 c2 :
  plain c1 c2 -> (pause_pending c2 = true -> pause_pending c1 = true \/ 0 <> uses OUT c1) ->
  mild c c1 -> mild c c2.
Proof.
  intros [H1 H2 H3 H4 H5 H6 H7 H8] Hz [[G1 G2 G3 G4 G5 G6 G7] Hu Hpe Hz' (evs & Ht & Hr)].
  split; [split| | | |].
  - intros n. by rewrite H1.
  - by rewrite H2.
  - by rewrite H3.
  - intros p. destruct (H4 p) as (-> & -> & _). apply G4.
  - auto.
  - by rewrite H6.
  - by rewrite H7.
  - intros p. destruct (H4 p) as (_ & _ & -> & _). apply Hu.
  - intros p. destruct (H4 p) as (_ & _ & _ & ->). apply Hpe.
  - rewrite <- Hu. intros [Hp|?]%Hz; [|by right]. rewrite Hu. auto.
  - exists evs. by rewrite H8.
Qed.

Lemma mild_post c c1 e : (forall p, back p e = []) -> mild c c1 -> mild c (post c1 e).
Proof.
  intros Hb [[] Hu Hpe Hz (evs & Ht & Hr)]. split; [split| | | |]; try done.
  - exists (evs ++ [e]). split; [simpl; by rewrite Ht, app_assoc|].
    intros p. rewrite returned_app, Hr. simpl. by rewrite Hb.
Qed.

Lemma plain_state c s : plain c (c <| state := s |>).
Proof. by split. Qed.
Lemma plain_pause c v : plain c (c <| pause_pending := v |>).
Proof. by split. Qed.
Lemma plain_stat c f : plain c (c <| omx_chan_statinfo ::= f |>).
Proof. by split. Qed.
Lemma plain_start_delay c : plain c (c <| lowdelay_rec ::= fmap start_delay |>).
Proof.
  split; try done; [|unfold fixed; simpl; by destruct (lowdelay_rec c)].
  intros Hd r. simpl. destruct (lowdelay_rec c) as [r0|] eqn:Hr; [|done].
  intros [= <-]. simpl. rewrite length_replicate. by apply Hd.
Qed.
End States.

(** Chains the changes of a call. *)
Ltac mild :=
  repeat first
    [ apply mild_refl
    | apply mild_post; [by intros []|]
    | eapply mild_plain; [apply plain_state|by auto|]
    | eapply mild_plain; [apply plain_stat|by auto|]
    | eapply mild_plain; [apply plain_start_delay|by auto|]
    | case_match ].

Section Calls.
Context {C : HiConsts} {E : OmxEnv} {Ok : HiConstsOk C}.
Implicit Types (c : OMXVDEC_CHAN_CTX) (p : port_dir) (n : node) (q : port_dir -> list node).

Lemma processor_start_mild c a1 a2 : mild c (fst (processor_start_inst c a1 a2)).
Proof. unfold processor_start_inst. repeat case_match; simpl; mild. Qed.

Lemma mild_trans c1 c2 c3 : mild c1 c2 -> mild c2 c3 -> mild c1 c3.
Proof.
  intros [G1 Hu1 Hp1 Hz1 (e1 & Ht1 & Hr1)] [G2 Hu2 Hp2 Hz2 (e2 & Ht2 & Hr2)]. split.
  - by eapply parked_trans.
  - intros p. by rewrite Hu2.
  - intros p. by rewrite Hp2.
  - rewrite <- (Hu1 OUT). intros [H|]%Hz2; [|by right]. rewrite Hu1. auto.
  - exists (e1 ++ e2). split; [by rewrite Ht2, Ht1, app_assoc|].
    intros p. by rewrite returned_app, Hr1, Hr2.
Qed.

(** The answers of a start, on every path. *)
Definition start_code c (a : hw_answers) : Z :=
  if decide (state c = CHAN_STATE_WORK) then HI_FAILURE
  else if negb (a.(a_dec) =? HI_SUCCESS) then a.(a_dec)
  else if negb (a.(a_port) =? HI_SUCCESS) || negb (a.(a_proc) =? HI_SUCCESS) then a.(a_undo)
  else HI_SUCCESS.

Definition start_works c (a : hw_answers) : bool :=
  negb (bool_decide (state c = CHAN_STATE_WORK)) && (a.(a_dec) =? HI_SUCCESS)
  && (a.(a_port) =? HI_SUCCESS) && (a.(a_proc) =? HI_SUCCESS).

Lemma start_inst_ok c t a :
  table_ok t -> 0 <= c.(channel_id) ->
  exists c' t', channel_start_inst c t a = Some (c', t', start_code c a)
    /\ table_ok t' /\ mild c c'
    /\ state c' = (if start_works c a then CHAN_STATE_WORK else state c)
    /\ (exists evs, trace c' = trace c ++ evs ++ [MSG VDEC_MSG_RESP_START_DONE
          (if start_works c a then VDEC_S_SUCCESS else VDEC_S_FAILED) NoData])
    /\ (if start_works c a then exists r, OMX_PTSREC_Start t c.(channel_id) = Some (t', r)
        else t' = t).
Proof.
  intros Ht Hid. unfold channel_start_inst, start_code, start_works.
  destruct (decide (state c = CHAN_STATE_WORK)) as [Hs|Hs].
  { rewrite bool_decide_eq_true_2 by done. eexists _, t. split_and!; [done|done|mild|done| |done].
    by exists []. }
  rewrite bool_decide_eq_false_2 by done. cbn [negb andb].
  set (c0 := if lowdelay_on c then _ else c).
  assert (Hm0 : mild c c0) by (unfold c0; mild).
  assert (Hs0 : state c0 = state c /\ channel_id c0 = channel_id c /\ trace c0 = trace c)
    by (unfold c0; by case_match).
  destruct Hs0 as (Hs0 & Hi0 & Ht0). clearbody c0. unfold decoder_start_inst, decoder_stop_inst.
  destruct (Z.eqb_spec (a_dec a) HI_SUCCESS) as [_|_]; cbn [negb andb].
  2: { eexists _, t. split_and!; [done|done| |done| |done].
       - eapply mild_trans; [exact Hm0|]. mild.
       - exists [VFMW START_CHAN]. simpl. by rewrite Ht0, <- app_assoc. }
  unfold processor_start_inst.
  destruct (Z.eqb_spec (a_port a) HI_SUCCESS) as [_|_]; cbn [negb andb orb];
    [destruct (Z.eqb_spec (a_proc a) HI_SUCCESS) as [_|_]; cbn [negb andb orb]|];
    rewrite ?success_ne, ?Z.eqb_refl; cbn [negb].
  - simpl channel_id. rewrite Hi0. destruct (start_ok t (channel_id c) Ht Hid) as (t' & r & Er & Ht').
    rewrite Er. cbn [mbind option_bind]. eexists _, t'. split_and!; [done|done| |done| |by exists r].
    + eapply mild_trans; [exact Hm0|]. mild.
    + eexists [_; _; _; _]. simpl. by rewrite Ht0, <- !app_assoc.
  - eexists _, t. split_and!; [done|done| |done| |done].
    + eapply mild_trans; [exact Hm0|]. mild.
    + eexists [_; _; _; _; _]. simpl. by rewrite Ht0, <- !app_assoc.
  - eexists _, t. split_and!; [done|done| |done| |done].
    + eapply mild_trans; [exact Hm0|]. mild.
    + eexists [_; _; _; _]. simpl. by rewrite Ht0, <- !app_assoc.
Qed.

Lemma stop_inst_ok c t a :
  table_ok t -> 0 <= c.(channel_id) ->
  exists c' t' ret, channel_stop_inst c t a = Some (c', t', ret)
    /\ table_ok t' /\ mild c c'
    /\ (ret = if decide (state c = CHAN_STATE_IDLE) then HI_FAILURE else HI_SUCCESS)
    /\ state c' = CHAN_STATE_IDLE
    /\ (if decide (state c = CHAN_STATE_IDLE) then t' = t
        else exists r, OMX_PTSREC_Stop t c.(channel_id) = Some (t', r)).
Proof.
  intros Ht Hid. unfold channel_stop_inst. destruct (decide (state c = CHAN_STATE_IDLE)) as [Hs|Hs].
  { eexists _, t, _. split_and!; [done|done|mild|done|done|done]. }
  unfold decoder_stop_inst. cbv zeta beta iota.
  destruct (processor_stop_inst _ (a_port a) (a_proc a)) as [c2 ret2] eqn:E2.
  assert (Hm2 : mild c c2 /\ state c2 = CHAN_STATE_IDLE /\ channel_id c2 = channel_id c).
  { unfold processor_stop_inst in E2. repeat case_match; injection E2 as <- <-;
      (split; [mild|done]). }
  destruct Hm2 as (Hm2 & Hs2 & Hi2). rewrite Hi2.
  destruct (stop_ok t (channel_id c) Ht Hid) as (t' & r & Er & Ht').
  rewrite Er. cbn [mbind option_bind]. eexists _, t', _.
  split_and!; [done|done| |done|done|by exists r].
  eapply mild_trans; [exact Hm2|]. mild.
Qed.

Lemma pause_inst_ok c :
  let '(c', ret) := channel_pause_inst c in
  mild c c' /\ (ret = if decide (state c = CHAN_STATE_WORK) then HI_SUCCESS else HI_FAILURE)
  /\ state c' = (if decide (state c = CHAN_STATE_WORK) then CHAN_STATE_PAUSE else state c)
  /\ (if decide (state c = CHAN_STATE_WORK) then
        if 0 =? uses OUT c then trace c' = trace c ++ [MSG VDEC_MSG_RESP_PAUSE_DONE VDEC_S_SUCCESS NoData]
          /\ pause_pending c' = pause_pending c
        else trace c' = trace c /\ pause_pending c' = true
      else trace c' = trace c ++ [MSG VDEC_MSG_RESP_PAUSE_DONE VDEC_ERR_BAD_STATE NoData]).
Proof.
  unfold channel_pause_inst. destruct (decide (state c = CHAN_STATE_WORK)) as [Hs|Hs].
  2: { split_and!; [mild|done|done|done]. }
  change (use_cnt (outp (c <| state := CHAN_STATE_PAUSE |>))) with (uses OUT c).
  cbv zeta. destruct (Z.eqb_spec 0 (uses OUT c)) as [Hz|Hz].
  - split_and!; [mild|done|done|done|done].
  - split_and!; [|done|done|done|done].
    eapply (mild_plain _ (c <| state := CHAN_STATE_PAUSE |>)); [apply plain_pause|by right|mild].
Qed.

Lemma resume_inst_ok c :
  let '(c', ret) := channel_resume_inst c in
  mild c c' /\ (ret = if decide (state c = CHAN_STATE_PAUSE) then HI_SUCCESS else HI_FAILURE)
  /\ state c' = (if decide (state c = CHAN_STATE_PAUSE) then CHAN_STATE_WORK else state c)
  /\ (state c = CHAN_STATE_PAUSE -> pause_pending c' = false)
  /\ trace c' = trace c ++ [MSG VDEC_MSG_RESP_RESUME_DONE
       (if decide (state c = CHAN_STATE_PAUSE) then VDEC_S_SUCCESS else VDEC_ERR_BAD_STATE) NoData].
Proof.
  unfold channel_resume_inst. destruct (decide (state c = CHAN_STATE_PAUSE)) as [Hs|Hs].
  - destruct (pause_pending c) eqn:Hp; cbv zeta; split_and!; try done; [|mild].
    apply mild_post; [by intros []|]. eapply mild_plain; [apply plain_state|by auto|].
    eapply mild_plain; [apply plain_pause|done|apply mild_refl].
  - split_and!; [mild|done|done|done|done].
Qed.


(** ** The events of the hardware *)

(** The hardware does not name a buffer that it has not got. *)
Definition honest c p (addr : Z) : Prop :=
  forall n b, legit c p n -> node_buf c n = Some b -> b.(status) = BUF_STATE_QUEUED ->
    hw_addr b <> addr.

Lemma honest_in_use c q p addr n b l1 l2 :
  queues_ok c q -> honest c p addr -> named c (q p) addr n b l1 l2 -> in_use c n = true.
Proof.
  intros Hok Hh [Hq Hb Ha _]. assert (Hn : n ∈ q p) by (rewrite Hq; set_solver).
  pose proof (qo_node _ _ Hok p n Hn) as Hl. fold (legit c p n) in Hl.
  unfold in_use. rewrite Hb. apply bool_decide_eq_true. specialize (Hh n b Hl Hb).
  assert (b.(status) = BUF_STATE_QUEUED \/ b.(status) = BUF_STATE_USING) as [Hs|]; [|by elim Hh|done].
  destruct Hl as [[-> ->]|(i & -> & Hi)].
  - destruct (qo_last_buf _ _ Hok Hn) as [Hs _]. injection Hb as <-. done.
  - destruct (qo_buf _ _ Hok p i b Hi Hb) as [H1 H2 _]. destruct (status b) eqn:Es; auto; [done|].
    by destruct (proj1 H2 eq_refl).
Qed.

(** A call of the hardware: always [kept], and [counted] when it is honest. *)
Record hw_ok (H : Prop) c q c' q' : Prop := {
  hw_kept : kept c q c' q' nothing;
  hw_counted : H -> counted c q -> counted c' q';
  hw_state : state c' = state c;
}.

Lemma hw_trans H1 H2 c1 q1 c2 q2 c3 q3 :
  hw_ok H1 c1 q1 c2 q2 -> hw_ok H2 c2 q2 c3 q3 -> hw_ok (H1 /\ H2) c1 q1 c3 q3.
Proof.
  intros [K1 C1 S1] [K2 C2 S2]. split; [|tauto|congruence].
  exact (kept_trans _ _ _ _ _ _ nothing nothing K1 K2).
Qed.

Lemma hw_weaken (H H' : Prop) c q c' q' : (H' -> H) -> hw_ok H c q c' q' -> hw_ok H' c q c' q'.
Proof. intros Hw [K1 C1 S1]. split; auto. Qed.

Lemma hw_mild c c' q : queues_ok c q -> mild c c' -> state c' = state c -> hw_ok True c q c' q.
Proof. intros Hok Hm Hs. destruct (mild_served c c' q Hok Hm). by split. Qed.

Lemma hw_served c c' q q' : served c q c' q' nothing -> hw_ok True c q c' q'.
Proof.
  intros Hs. split; [by apply served_kept|intros _; apply (sv_counted _ _ _ _ _ Hs)|].
  apply (sm_state _ _ (sv_same _ _ _ _ _ Hs)).
Qed.

Lemma hw_refl c q : queues_ok c q -> hw_ok True c q c q.
Proof. intros Hok. by apply hw_served, served_refl. Qed.

Lemma release_frame_hw c q addr :
  queues_ok c q -> exists c' q' ret, processor_release_frame c addr = Some (c', ret)
    /\ hw_ok (honest c OUT addr) c q c' q'.
Proof.
  intros Hok. destruct (release_frame_ok c q addr Hok) as (c' & q' & ret & -> & Hk & Hs & Hcase).
  exists c', q', ret. split; [done|]. split; [done| |done]. intros Hh Hct.
  destruct Hcase as [(-> & -> & _)|(_ & n & b & l1 & l2 & Hnm & Hc & _)]; [done|].
  apply Hc; [|done]. by eapply honest_in_use.
Qed.

Lemma report_frame_hw c q f :
  queues_ok c q -> exists c' q' ret, processor_report_frame c f = Some (c', ret)
    /\ hw_ok (honest c OUT f.(r_addr_Y)) c q c' q'.
Proof.
  intros Hok. destruct (report_frame_ok c q f Hok) as (c' & q' & ret & -> & Hk & Hs & Hcase).
  exists c', q', ret. split; [done|]. split; [done| |done]. intros Hh Hct.
  destruct Hcase as [(-> & -> & _)|(_ & n & b & l1 & l2 & Hnm & _ & _ & Hc)]; [done|].
  apply Hc; [|done]. by eapply honest_in_use.
Qed.

(** The second picture of a stereo pair. *)
Definition right_eye (f : report_frame) : report_frame :=
  f <| r_addr_Y := f.(r_addr1_Y) |> <| r_addr_C := f.(r_addr1_C) |>
    <| r_stride_Y := f.(r_stride1_Y) |>.

(** Each address that an event returns is one of a buffer in use, at that moment. *)
Definition honest_event c (ev : vpss_event) : Prop :=
  match ev with
  | EV_REL_FRMBUFFER _ _ addr => honest c OUT addr
  | EV_NEW_FRAME _ f => honest c OUT f.(r_addr_Y)
      /\ (f.(r_stereo) = true -> forall c' ret, processor_report_frame c f = Some (c', ret) ->
            honest c' OUT f.(r_addr1_Y))
  | _ => True
  end.

Lemma report_new_frame_hw c q port f now :
  0 < g_lowdelay_count_frame -> queues_ok c q ->
  exists c' q' ret, processor_report_new_frame c port f now = Some (c', ret)
    /\ hw_ok (honest_event c (EV_NEW_FRAME port f)) c q c' q'.
Proof.
  intros Hg Hok. unfold processor_report_new_frame.
  destruct (port_matches c port); cbn [negb].
  2: { eexists _, q, _. split; [done|]. eapply hw_weaken; [|by apply hw_refl]. done. }
  destruct (report_frame_hw c q f Hok) as (c1 & q1 & r1 & E1 & H1). simpl honest_event. rewrite E1.
  cbn [mbind option_bind].
  destruct (negb (r1 =? HI_SUCCESS)) eqn:Er1.
  { eexists _, q1, _. split; [done|]. eapply hw_weaken; [|exact H1]. tauto. }
  pose proof (kp_ok _ _ _ _ _ (hw_kept _ _ _ _ _ H1)) as Hok1.
  assert (exists c2 q2 r2, (if r_stereo f then processor_report_frame c1 (right_eye f)
            else Some (c1, r1)) = Some (c2, r2)
          /\ hw_ok (r_stereo f = true -> honest c1 OUT f.(r_addr1_Y)) c1 q1 c2 q2)
    as (c2 & q2 & r2 & E2 & H2).
  { destruct (r_stereo f).
    - destruct (report_frame_hw c1 q1 (right_eye f) Hok1) as (c2 & q2 & r2 & -> & H2).
      eexists _, q2, _. split; [done|]. eapply hw_weaken; [|exact H2]. auto.
    - eexists _, q1, _. split; [done|]. eapply hw_weaken; [|by apply hw_refl]. done. }
  unfold right_eye in E2. rewrite E2. cbn [mbind option_bind].
  pose proof (hw_trans _ _ _ _ _ _ _ _ H1 H2) as H12.
  assert (Hw : honest c OUT (r_addr_Y f) /\ (r_stereo f = true -> forall c' ret,
      Some (c1, r1) = Some (c', ret) -> honest c' OUT (r_addr1_Y f))
    -> honest c OUT (r_addr_Y f) /\ (r_stereo f = true -> honest c1 OUT (r_addr1_Y f)))
    by (intros [Ha Hb]; split; [done|intros Hst; by apply (Hb Hst c1 r1)]).
  destruct (negb (r2 =? HI_SUCCESS)) eqn:Er2.
  { eexists _, q2, _. split; [done|]. by eapply hw_weaken. }
  pose proof (kp_ok _ _ _ _ _ (hw_kept _ _ _ _ _ H2)) as Hok2.
  destruct (note_served c2 q2 (r_tag f) OMX_LOWDELAY_REC_VPSS_RPO_IMG_TIME now Hg Hok2)
    as (c3 & -> & Hq3 & Ht3 & _). cbn [mbind option_bind].
  eexists _, q2, _. split; [done|].
  assert (Hs3 : served c2 q2 c3 q2 nothing)
    by (apply (served_quiet c2 c3 q2 []); [done|done|by rewrite app_nil_r|done]).
  pose proof (hw_trans _ _ _ _ _ _ _ _ H12 (hw_served _ _ _ _ Hs3)) as H123.
  eapply hw_weaken; [|eapply hw_trans; [exact H123|apply hw_mild; [apply Hs3|mild|done]]]. tauto.
Qed.

Lemma report_size_mild c w h : mild c (report_size c w h) /\ state (report_size c w h) = state c.
Proof.
  unfold report_size, channel_report_message. simpl. split; [|done].
  apply mild_post; [by intros []|].
  eapply (mild_plain _ c); [by split|by auto|apply mild_refl].
Qed.

Lemma get_frame_buffer_hw c q f :
  queues_ok c q -> exists c' f' ret, processor_get_frame_buffer c f = Some (c', f', ret)
    /\ hw_ok True c q c' q.
Proof.
  intros Hok. unfold processor_get_frame_buffer.
  destruct (port_matches c (hPort f)); cbn [negb]; [|eexists _, _, _; split; [done|by apply hw_refl]].
  destruct (negb _ || negb _).
  { destruct (report_size_mild c (u32FrmW f) (u32FrmH f)).
    eexists _, _, _. split; [done|]. by apply hw_mild. }
  destruct (out_stride c >=? out_width c); cbn [negb];
    [|eexists _, _, _; split; [done|by apply hw_refl]]. cbv zeta.
  match goal with |- context [processor_get_frame c ?len] =>
    destruct (get_frame_ok c q len Hok) as (c' & s & ret & -> & Hs & _) end.
  cbn [mbind option_bind]. apply hw_served in Hs.
  destruct s as [s|]; [|eexists _, _, _; by split].
  destruct (negb _ && negb _); eexists _, _, _; by split.
Qed.

Lemma vpss_event_ok c q ev now :
  0 < g_lowdelay_count_frame -> queues_ok c q ->
  exists c' q' reply ret, vpss_event_on c ev now = Some (c', reply, ret)
    /\ hw_ok (honest_event c ev) c q c' q'.
Proof.
  intros Hg Hok. destruct ev as [| |f|port last addr|port f]; unfold vpss_event_on.
  - unfold channel_check_avaible_frame_buffer.
    rewrite (find_queued _ _ Hok OUT (fun b => bool_decide (b.(status) = BUF_STATE_QUEUED))).
    cbn [mbind option_bind]. destruct (List.find _ _); cbn [mbind option_bind];
      eexists _, q, _, _; (split; [done|by apply hw_refl]).
  - eexists _, q, _, _. split; [done|by apply hw_refl].
  - destruct (get_frame_buffer_hw c q f Hok) as (c' & f' & ret & -> & Hh). cbn [mbind option_bind].
    eexists _, q, _, _. by split.
  - unfold processor_release_frame_buffer. destruct (port_matches c port); cbn [negb mbind option_bind].
    2: { eexists _, q, _, _. split; [done|]. eapply hw_weaken; [|by apply hw_refl]. done. }
    set (c1 := if _ && _ then _ else c).
    assert (Hp1 : plain c c1) by (unfold c1; by destruct (_ && _)).
    assert (Hs1 : state c1 = state c /\ pause_pending c1 = pause_pending c)
      by (unfold c1; by destruct (_ && _)).
    destruct Hs1 as [Hs1 Hz1].
    assert (Hm1 : mild c c1).
    { eapply mild_plain; [exact Hp1| |apply mild_refl]. rewrite Hz1. auto. }
    pose proof (hw_mild c c1 q Hok Hm1 Hs1) as H1.
    destruct (release_frame_hw c1 q addr (kp_ok _ _ _ _ _ (hw_kept _ _ _ _ _ H1)))
      as (c2 & q2 & ret & -> & H2). cbn [mbind option_bind].
    assert (Hh : hw_ok (honest c OUT addr) c q c2 q2).
    { eapply hw_weaken; [|eapply hw_trans; [exact H1|exact H2]]. intros Hh. split; [done|].
      intros n b Hl. unfold legit in Hl. rewrite (proj1 (pl_port _ _ Hp1 OUT)) in Hl.
      rewrite (pl_buf _ _ Hp1). by apply Hh. }
    destruct (negb _); cbn [mbind option_bind]; eexists _, q2, _, _; by split.
  - destruct (report_new_frame_hw c q port f now Hg Hok) as (c' & q' & ret & -> & Hh).
    cbn [mbind option_bind]. eexists _, q', _, _. by split.
Qed.

Lemma decoder_event_ok c q ev now a :
  0 < g_lowdelay_count_frame -> queues_ok c q ->
  exists c' ret, decoder_event_on c ev now a = Some (c', ret) /\ hw_ok True c q c' q.
Proof.
  intros Hg Hok. destruct ev as [[tag|]|num size stamp|[r|]|]; unfold decoder_event_on.
  - destruct (note_served c q tag OMX_LOWDELAY_REC_VFMW_RPO_IMG_TIME now Hg Hok)
      as (c1 & -> & Hq1 & Ht1 & _). cbn [mbind option_bind]. eexists _, _. split; [done|].
    assert (Hs1 : served c q c1 q nothing)
      by (apply (served_quiet c c1 q []); [done|done|by rewrite app_nil_r|done]).
    eapply hw_weaken; [|eapply hw_trans; [apply hw_served, Hs1|apply hw_mild; [apply Hs1|mild|done]]].
    done.
  - eexists _, _. split; [done|by apply hw_refl].
  - eexists _, _. split; [done|]. apply hw_mild; [done| |done].
    eapply (mild_plain _ c); [by split|by auto|apply mild_refl].
  - eexists _, _. split; [done|]. destruct (_ || _); (apply hw_mild; [done| |done]);
      (eapply (mild_plain _ c); [by split|by auto|apply mild_refl]).
  - eexists _, _. split; [done|by apply hw_refl].
  - eexists _, _. split; [done|by apply hw_refl].
Qed.

Lemma release_stream_hw c q addr tag stack now :
  0 < g_lowdelay_count_frame -> queues_ok c q ->
  exists c' q' ret, release_stream c addr tag stack now = Some (c', ret)
    /\ hw_ok (honest c IN addr) c q c' q'.
Proof.
  intros Hg Hok.
  destruct (release_stream_ok c q addr tag stack now Hg Hok) as (c' & q' & ret & -> & Hk & Hs & Hcase).
  exists c', q', ret. split; [done|]. split; [done| |done]. intros Hh Hct.
  destruct Hcase as [(-> & -> & _)|(_ & n & b & l1 & l2 & Hnm & _ & _ & Hc & _)]; [done|].
  apply Hc; [|done]. by eapply honest_in_use.
Qed.

(** ** The calls of the user *)

(** The user's side of the contract: it binds memory of its own, unbinds buffers
    that it has, and names the direction of the port. *)
Definition allowed c (cmd : chan_cmd) : Prop :=
  match cmd with
  | BIND_BUFFER d _ => not_the_last c d
  | UNBIND_BUFFER d => forall p i b, port_of d.(dir) = Some p -> 0 <= i < num p c ->
      node_buf c (Slot p i) = Some b -> b.(phy_addr) = d.(phyaddr) -> b.(status) = BUF_STATE_IDLE
  | EMPTY_INPUT_STREAM d _ => port_of d.(dir) <> Some OUT
  | FILL_OUTPUT_FRAME d => port_of d.(dir) <> Some IN
  | _ => True
  end.

(** The tags of the buffers that a call takes from the user. *)
Definition handed c (cmd : chan_cmd) (ret : Z) : port_dir -> list Z :=
  match cmd with
  | EMPTY_INPUT_STREAM d _ => accepted_stream c d ret
  | FILL_OUTPUT_FRAME d => accepted_frame c d ret
  | _ => nothing
  end.

(** What a call of the user keeps. *)
Record call_ok c q c' q' (acc : port_dir -> list Z) : Prop := {
  ca_kept : kept c q c' q' acc;
  ca_counted : counted c q -> counted c' q';
  ca_state : state c <> CHAN_STATE_INVALID -> state c' <> CHAN_STATE_INVALID;
}.

Lemma call_served c q c' q' acc : served c q c' q' acc -> call_ok c q c' q' acc.
Proof.
  intros Hs. split; [by apply served_kept|apply (sv_counted _ _ _ _ _ Hs)|].
  by rewrite (sm_state _ _ (sv_same _ _ _ _ _ Hs)).
Qed.

Lemma call_mild c c' q :
  queues_ok c q -> mild c c' -> (state c <> CHAN_STATE_INVALID -> state c' <> CHAN_STATE_INVALID) ->
  call_ok c q c' q nothing.
Proof. intros Hok Hm Hs. destruct (mild_served c c' q Hok Hm). by split. Qed.

Lemma user_has_idle c q d :
  queues_ok c q -> allowed c (UNBIND_BUFFER d) -> user_has c q d.
Proof.
  intros Hok Ha p i b Hp Hi Hb Hpa. destruct (qo_buf _ _ Hok p i b Hi Hb) as [_ Hidle _].
  apply Hidle. by eapply Ha.
Qed.

Lemma flush_inst_ok c q t which a_vpss a_vfmw :
  queues_ok c q -> table_ok t -> 0 <= c.(channel_id) ->
  exists c' t' q' ret, channel_flush_inst c t which a_vpss a_vfmw = Some (c', t', ret)
    /\ table_ok t' /\ served c q c' q' nothing.
Proof.
  intros Hok Ht Hid. unfold channel_flush_inst.
  assert (exists c1 q1, (if (which =? PORT_DIR_INPUT) || (which =? PORT_DIR_BOTH)
      then channel_flush_in_port c else Some (c, HI_SUCCESS)) = Some (c1, HI_SUCCESS)
      /\ served c q c1 q1 nothing) as (c1 & q1 & -> & Hs1).
  { destruct (_ || _); [|exists c, q; split; [done|by apply served_refl]].
    destruct (flush_in_port_ok c q Hok) as (c1 & q1 & -> & Hs & _). eauto. }
  cbn [mbind option_bind].
  assert (0 <= channel_id c1) as Hid1 by (by rewrite (sm_id _ _ (sv_same _ _ _ _ _ Hs1))).
  destruct (_ || _).
  - destruct (flush_out_port_ok c1 q1 t a_vpss a_vfmw (sv_ok _ _ _ _ _ Hs1) Ht Hid1)
      as (c2 & t2 & q2 & -> & Ht2 & Hs2 & _). cbn [mbind option_bind].
    eexists _, t2, q2, _. split_and!; [done|done|].
    exact (served_trans _ _ _ _ _ _ nothing nothing Hs1 Hs2).
  - cbn [mbind option_bind]. eexists _, t, q1, _. by split_and!.
Qed.

Lemma chan_exec_ok c q t cmd :
  0 < g_lowdelay_count_frame -> queues_ok c q -> table_ok t -> 0 <= c.(channel_id) ->
  allowed c cmd ->
  exists c' t' q' ret, chan_exec c t cmd = Some (c', t', ret)
    /\ table_ok t' /\ call_ok c q c' q' (handed c cmd ret).
Proof.
  intros Hg Hok Ht Hid Ha. destruct cmd as [d mapped|d|d now|d|which av af| | |a|a];
    unfold chan_exec, handed; cbn [with_table].
  - destruct (bind_ok c q d mapped Hok Ha) as (c' & ret & -> & Hs & _).
    eexists _, t, q, _. split_and!; [done|done|by apply call_served].
  - destruct (unbind_ok c q d Hok (user_has_idle c q d Hok Ha)) as (c' & q' & ret & -> & Hs & _).
    eexists _, t, q', _. split_and!; [done|done|by apply call_served].
  - destruct (empty_this_stream_ok c q d now Hg Hok Ha) as (c' & q' & ret & -> & Hs).
    eexists _, t, q', _. split_and!; [done|done|by apply call_served].
  - destruct (fill_this_frame_ok c q d Hok Ha) as (c' & q' & ret & -> & Hs).
    eexists _, t, q', _. split_and!; [done|done|by apply call_served].
  - destruct (flush_inst_ok c q t which av af Hok Ht Hid) as (c' & t' & q' & ret & -> & Ht' & Hs).
    eexists _, t', q', _. split_and!; [done|done|by apply call_served].
  - pose proof (pause_inst_ok c) as Hp. destruct (channel_pause_inst c) as [c' ret].
    destruct Hp as (Hm & _ & Hs & _). eexists _, t, q, _. split_and!; [done|done|].
    apply call_mild; [done|done|]. rewrite Hs. by case_match.
  - pose proof (resume_inst_ok c) as Hp. destruct (channel_resume_inst c) as [c' ret].
    destruct Hp as (Hm & _ & Hs & _). eexists _, t, q, _. split_and!; [done|done|].
    apply call_mild; [done|done|]. rewrite Hs. by case_match.
  - destruct (start_inst_ok c t a Ht Hid) as (c' & t' & -> & Ht' & Hm & Hs & _).
    eexists _, t', q, _. split_and!; [done|done|]. apply call_mild; [done|done|]. rewrite Hs. by case_match.
  - destruct (stop_inst_ok c t a Ht Hid) as (c' & t' & ret & -> & Ht' & Hm & _ & Hs & _).
    eexists _, t', q, _. split_and!; [done|done|]. apply call_mild; [done|done|]. by rewrite Hs.
Qed.

(** ** The calls of the hardware *)

Definition honest_call c (h : hw_call) : Prop :=
  match h with
  | HW_RELEASE_STREAM addr _ _ _ => honest c IN addr
  | HW_VPSS_EVENT ev _ => honest_event c ev
  | _ => True
  end.

Lemma hw_exec_ok c q h :
  0 < g_lowdelay_count_frame -> queues_ok c q ->
  exists c' q', hw_exec c h = Some c' /\ hw_ok (honest_call c h) c q c' q'.
Proof.
  intros Hg Hok. destruct h as [now|addr tag stack now|ev now|ev now a]; unfold hw_exec.
  - destruct (get_stream_ok c q now Hg Hok) as (c' & s & ret & -> & Hs & _).
    eexists _, q. split; [done|by apply hw_served].
  - destruct (release_stream_hw c q addr tag stack now Hg Hok) as (c' & q' & ret & -> & Hh).
    by eexists _, q'.
  - destruct (vpss_event_ok c q ev now Hg Hok) as (c' & q' & reply & ret & -> & Hh).
    by eexists _, q'.
  - destruct (decoder_event_ok c q ev now a Hg Hok) as (c' & ret & -> & Hh).
    by eexists _, q.
Qed.

(** ** Runs *)

Inductive chan_call := USER (cmd : chan_cmd) | HARDWARE (h : hw_call).

Definition chan_step c (t : chan_table) (call : chan_call)
    : option (OMXVDEC_CHAN_CTX * chan_table * (port_dir -> list Z)) :=
  match call with
  | USER cmd => '(c', t, ret) ← chan_exec c t cmd; Some (c', t, handed c cmd ret)
  | HARDWARE h => c ← hw_exec c h; Some (c, t, nothing)
  end.

(** A run, with the tags of all buffers that the user handed over in it. *)
Fixpoint chan_run c (t : chan_table) (calls : list chan_call)
    : option (OMXVDEC_CHAN_CTX * chan_table * (port_dir -> list Z)) :=
  match calls with
  | [] => Some (c, t, nothing)
  | call :: calls =>
      '(c, t, acc) ← chan_step c t call;
      '(c, t, acc') ← chan_run c t calls;
      Some (c, t, fun p => acc p ++ acc' p)
  end.

(** Every call of a run meets a condition, in the state it finds. *)
Fixpoint along (P : OMXVDEC_CHAN_CTX -> chan_call -> Prop) c (t : chan_table)
    (calls : list chan_call) : Prop :=
  match calls with
  | [] => True
  | call :: calls =>
      P c call /\ forall c' t' acc, chan_step c t call = Some (c', t', acc) -> along P c' t' calls
  end.

Definition user_keeps c (call : chan_call) : Prop :=
  match call with USER cmd => allowed c cmd | HARDWARE _ => True end.

Definition hardware_keeps c (call : chan_call) : Prop :=
  match call with USER _ => True | HARDWARE h => honest_call c h end.

Lemma chan_step_ok c q t call :
  0 < g_lowdelay_count_frame -> queues_ok c q -> table_ok t -> 0 <= c.(channel_id) ->
  user_keeps c call ->
  exists c' t' q' acc, chan_step c t call = Some (c', t', acc) /\ table_ok t'
    /\ kept c q c' q' acc /\ (hardware_keeps c call -> counted c q -> counted c' q').
Proof.
  intros Hg Hok Ht Hid Hu. destruct call as [cmd|h]; unfold chan_step.
  - destruct (chan_exec_ok c q t cmd Hg Hok Ht Hid Hu) as (c' & t' & q' & ret & -> & Ht' & [Hk Hc _]).
    eexists _, t', q', _. split_and!; [done|done|done|auto].
  - destruct (hw_exec_ok c q h Hg Hok) as (c' & q' & -> & [Hk Hc _]).
    eexists _, t, q', _. by split_and!.
Qed.

Lemma chan_run_ok calls : forall c q t,
  0 < g_lowdelay_count_frame -> queues_ok c q -> table_ok t -> 0 <= c.(channel_id) ->
  along user_keeps c t calls ->
  exists c' t' q' acc, chan_run c t calls = Some (c', t', acc) /\ table_ok t'
    /\ kept c q c' q' acc /\ (along hardware_keeps c t calls -> counted c q -> counted c' q').
Proof.
  induction calls as [|call calls IH]; intros c q t Hg Hok Ht Hid Ha; simpl.
  - eexists _, t, q, _. split_and!; [done|done|by apply kept_refl|auto].
  - destruct Ha as [Hu Ha].
    destruct (chan_step_ok c q t call Hg Hok Ht Hid Hu) as (c1 & t1 & q1 & acc1 & E1 & Ht1 & Hk1 & Hc1).
    rewrite E1. cbn [mbind option_bind].
    destruct (IH c1 q1 t1 Hg (kp_ok _ _ _ _ _ Hk1) Ht1) as (c2 & t2 & q2 & acc2 & -> & Ht2 & Hk2 & Hc2).
    + by rewrite (kp_id _ _ _ _ _ Hk1).
    + by eapply Ha.
    + cbn [mbind option_bind]. eexists _, t2, q2, _. split_and!; [done|done|by eapply kept_trans|].
      intros [Hh Hal] Hct. apply Hc2; [by eapply Hal|auto].
Qed.

(** ** The buffers the driver has, read off the table *)

Definition slots p c : list node :=
  map (fun k => Slot p (Z.of_nat k)) (seq 0 (Z.to_nat (num p c))).

(** The tags of the bound buffers that are not with the user. *)
Definition has c p : list Z :=
  flat_map (fun n => match node_buf c n with
                     | Some b => if bool_decide (b.(status) = BUF_STATE_IDLE) then [] else [b.(client_data)]
                     | None => []
                     end) (slots p c).

Lemma elem_of_slots p c n : n ∈ slots p c <-> exists i, n = Slot p i /\ 0 <= i < num p c.
Proof.
  unfold slots. rewrite list_elem_of_fmap. split.
  - intros (k & -> & Hk%elem_of_seq). exists (Z.of_nat k). split; [done|lia].
  - intros (i & -> & Hi). exists (Z.to_nat i). split; [by rewrite Z2Nat.id by lia|].
    apply elem_of_seq. lia.
Qed.

Lemma NoDup_slots p c : NoDup (slots p c).
Proof. apply NoDup_fmap_2; [intros a b; intros [= H]; lia|apply NoDup_seq]. Qed.

Definition is_slot n : Prop := match n with Slot _ _ => True | _ => False end.
#[local] Instance is_slot_dec n : Decision (is_slot n).
Proof. destruct n; simpl; apply _. Defined.

Lemma owed_slots c (l : list node) : owed c l = owed c (filter is_slot l).
Proof.
  induction l as [|n l IH]; [done|]. rewrite filter_cons. unfold owed in *. simpl.
  destruct n as [|p i|]; simpl; rewrite IH; done.
Qed.

Lemma flat_map_filter {A B} (P : A -> Prop) `{Hdec : !forall x, Decision (P x)} (f : A -> list B) (l : list A) :
  (forall x, x ∈ l -> ~ P x -> f x = []) -> flat_map f (filter P l) = flat_map f l.
Proof.
  induction l as [|x l IH]; intros Hx; [done|]. rewrite filter_cons. simpl.
  destruct (decide (P x)) as [Hp|Hp]; simpl; rewrite IH by (intros; apply Hx; set_solver); [done|].
  by rewrite (Hx x) by (set_solver || done).
Qed.

Lemma has_owed c q p : queues_ok c q -> owed c (q p) ≡ₚ has c p.
Proof.
  intros Hok.
  assert (Hperm : filter is_slot (q p) ≡ₚ filter (fun n => n ∈ q p) (slots p c)).
  { apply NoDup_Permutation.
    - apply NoDup_filter, (queue_nodup _ _ Hok).
    - apply NoDup_filter, NoDup_slots.
    - intros n. rewrite !list_elem_of_filter, elem_of_slots. split.
      + intros [Hs Hn]. split; [done|]. by destruct (qo_node _ _ Hok p n Hn) as [[-> _]|].
      + intros [Hn (i & -> & _)]. done. }
  rewrite owed_slots. unfold owed. rewrite Hperm. unfold has.
  rewrite <- (flat_map_filter (fun n => n ∈ q p) _ (slots p c)).
  - rewrite !flat_map_concat_map. erewrite map_ext_in; [done|]. intros n Hn%list_elem_of_In.
    apply list_elem_of_filter in Hn as [Hn (i & -> & Hi)%elem_of_slots]. unfold owes.
    destruct (queued_buf _ _ Hok p _ Hn) as [b Hb]. rewrite Hb.
    destruct (qo_buf _ _ Hok p i b Hi Hb) as [_ H2 _].
    rewrite bool_decide_eq_false_2; [done|]. intros Hs. by apply H2 in Hs.
  - intros n (i & -> & Hi)%elem_of_slots Hn.
    destruct (node_buf c (Slot p i)) as [b|] eqn:Hb; [|done].
    destruct (qo_buf _ _ Hok p i b Hi Hb) as [_ H2 _]. by rewrite bool_decide_eq_true_2 by (by apply H2).
Qed.

(** The buffers in use, counted on the table. *)
Definition hw_has c p : Z :=
  Z.of_nat (length (List.filter (in_use c) (slots p c)))
  + (match p with IN => if eos_in_list c && in_use c LastFrame then 1 else 0 | OUT => 0 end).

Lemma queue_slots c q p :
  queues_ok c q ->
  q p ≡ₚ filter (fun n => n ∈ q p) (slots p c)
         ++ (if decide (LastFrame ∈ q p) then [LastFrame] else []).
Proof.
  intros Hok. apply NoDup_Permutation.
  - apply (queue_nodup _ _ Hok).
  - apply NoDup_app. split_and!; [apply NoDup_filter, NoDup_slots| |by destruct (decide _); repeat constructor; set_solver].
    intros n Hn. apply list_elem_of_filter in Hn as [_ (i & -> & _)%elem_of_slots].
    destruct (decide _); set_solver.
  - intros n. rewrite elem_of_app, list_elem_of_filter, elem_of_slots. split.
    + intros Hn. destruct (qo_node _ _ Hok p n Hn) as [[-> _]|Hs]; [right|by left].
      rewrite decide_True by done. set_solver.
    + intros [[Hn _]|Hn]; [done|]. destruct (decide _); set_solver.
Qed.

Lemma taken_perm c l l' : l ≡ₚ l' -> taken c l = taken c l'.
Proof. induction 1; rewrite ?taken_cons; lia. Qed.

Lemma hw_has_taken c q p : queues_ok c q -> taken c (q p) = hw_has c p.
Proof.
  intros Hok. rewrite (taken_perm c _ _ (queue_slots c q p Hok)), taken_app. unfold hw_has. f_equal.
  - fold (taken c (slots p c)).
    assert (Hl : forall l, (forall n, n ∈ l -> n ∈ slots p c) ->
              taken c (filter (fun n => n ∈ q p) l) = taken c l); [|by apply Hl].
    induction l as [|n l IH]; intros Hs; [done|]. rewrite filter_cons, taken_cons.
    destruct (decide (n ∈ q p)) as [Hn|Hn]; [rewrite taken_cons|]; rewrite IH by set_solver; [done|].
    destruct (proj1 (elem_of_slots p c n)) as (i & -> & Hi); [apply Hs; set_solver|]. unfold in_use.
    destruct (node_buf c (Slot p i)) as [b|] eqn:Hb; simpl; [|done].
    destruct (qo_buf _ _ Hok p i b Hi Hb) as [_ H2 _].
    rewrite bool_decide_eq_false_2; [done|]. intros Hu. apply H2 in Hn. congruence.
  - destruct p.
    + destruct (eos_in_list c) eqn:He.
      * rewrite decide_True by (by apply (qo_last _ _ Hok)). rewrite taken_cons. simpl.
        destruct (in_use c LastFrame); done.
      * rewrite decide_False; [done|]. intros Hl%(qo_last _ _ Hok). congruence.
    + rewrite decide_False; [done|]. intros Hn. destruct (qo_node _ _ Hok OUT _ Hn) as [[_ ?]|(? & ? & _)]; done.
Qed.

(** Which buffers the hardware has been given and not returned, in terms of the
    table: the reading of [counted] without queues. *)
Record counters_ok c : Prop := {
  cs_uses : forall p, uses p c = hw_has c p;
  cs_pending : forall p, pending p c = true -> 0 < uses p c;
  cs_pause : c.(pause_pending) = true -> 0 < uses OUT c;
}.

Lemma counters_counted c q : queues_ok c q -> counters_ok c <-> counted c q.
Proof.
  intros Hok. split; intros [U P Z]; split; try done; intros p.
  - by rewrite (hw_has_taken c q p Hok).
  - by rewrite <- (hw_has_taken c q p Hok).
Qed.
End Calls.
