(* ===== verification/OmxLife.v ===== *)
(** * The life of a decoder channel

    What a channel holds from its creation to its release: a creation that fails
    gives everything back, a created channel has the invariant of OmxQueue.v, and
    a release gives back all it holds, each once. *)

From S2P Require Import Prelude KList FrameRate PtsRec OmxDelay OmxChan OmxHw OmxQueue OmxCalls.
From S2P Require Import OmxServe OmxReturn OmxBind OmxInit OmxDev OmxRun.

Section Life.
Context {C : HiConsts} {E : OmxEnv} {Ok : HiConstsOk C}.
Implicit Types (c : OMXVDEC_CHAN_CTX) (v d : Z * Z) (l : list resource).

(** What the firmware, the allocator and VPSS document: a request for frame memory
    is positive, memory is not at address 0, a new handle is a valid one. *)
Record answers_ok (a : create_answers) : Prop := {
  an_detail : forall x y, m_detail (n_dec a) = Some (x, y) -> 0 < x;
  an_vdh : forall pa, m_vdh (n_dec a) = Some pa -> pa <> 0;
  an_scd : forall pa, m_scd (n_dec a) = Some pa -> pa <> 0;
  an_vpss : forall id, v_create (n_proc a) = Some id -> id <> VPSS_INVALID_HANDLE;
  an_port : forall id, v_port (n_proc a) = Some id -> id <> VPSS_INVALID_HANDLE;
}.

(** How the buffers' sizes say which memory is held. *)
Definition mem_held (buf : Z * Z) : bool := negb (fst buf =? 0).
Definition vdh_of (buf : Z * Z) : list resource := if mem_held buf then [VDH_MEM] else [].
Definition scd_of (buf : Z * Z) : list resource := if mem_held buf then [SCD_MEM] else [].
Definition addr_ok (buf : Z * Z) : Prop := mem_held buf = true -> snd buf <> 0.

(** A channel under construction that holds [l], its memory and its message queue. *)
Definition building (c : OMXVDEC_CHAN_CTX) (v d : Z * Z) (l : list resource) : inst :=
  mkInst c v d (l ++ scd_of d ++ vdh_of v ++ [MSG_QUEUE]).

Lemma vdh_size_pos c level detail : 0 < detail -> vdh_size c level detail <> 0.
Proof.
  unfold vdh_size, SOFT_DEC_MIN_MEM_SD, SOFT_DEC_MIN_MEM_HD. repeat case_match; lia.
Qed.

Lemma filter_without r l :
  existsb (same_res r) l = false -> List.filter (fun x => negb (same_res r x)) l = l.
Proof.
  induction l as [|x l IH]; [done|]. simpl. intros [Hx Hl]%orb_false_iff.
  by rewrite Hx, IH.
Qed.

Lemma hand_back_ok r c v d l1 l2 :
  existsb (same_res r) l1 = false -> existsb (same_res r) l2 = false ->
  hand_back r (mkInst c v d (l1 ++ r :: l2)) = Some (mkInst c v d (l1 ++ l2)).
Proof.
  intros H1 H2. unfold hand_back. simpl held.
  assert (Hr : same_res r r = true) by (by destruct r).
  rewrite existsb_app. simpl existsb. rewrite Hr, orb_true_r.
  assert (Hf : List.filter (fun x => negb (same_res r x)) (l1 ++ r :: l2) = l1 ++ l2).
  { rewrite List.filter_app. simpl. by rewrite Hr, !filter_without. }
  exact (f_equal (fun h => Some (mkInst c v d h)) Hf).
Qed.

Lemma hand_back_head r c v d l :
  existsb (same_res r) l = false -> hand_back r (mkInst c v d (r :: l)) = Some (mkInst c v d l).
Proof. intros Hl. by apply (hand_back_ok r c v d []). Qed.

Lemma release_scd_ok c v d l :
  existsb (same_res SCD_MEM) l = false ->
  exists d', release_scd (building c v d l) = Some (building c v d' l) /\ mem_held d' = false.
Proof.
  intros Hl. unfold release_scd. cbn [scd_buf building]. fold (mem_held d).
  destruct (mem_held d) eqn:Hd; [|by exists d].
  exists (0, 0). split; [|done]. unfold building, scd_of. rewrite Hd. simpl app.
  rewrite hand_back_ok; [done|done|]. unfold vdh_of. by destruct (mem_held v).
Qed.

Lemma release_vdh_ok c v d l :
  existsb (same_res VDH_MEM) l = false ->
  exists v', release_vdh (building c v d l) = Some (building c v' d l) /\ mem_held v' = false.
Proof.
  intros Hl. unfold release_vdh. cbn [vdh_buf building]. fold (mem_held v).
  destruct (mem_held v) eqn:Hv; [|by exists v].
  exists (0, 0). split; [|done]. unfold building, vdh_of. rewrite Hv. simpl app.
  rewrite app_assoc, hand_back_ok; [by rewrite <- app_assoc| |done].
  rewrite existsb_app, Hl. unfold scd_of. by destruct (mem_held d).
Qed.

(** What each label of the error path has to release. *)
Definition label_ok (label : Z) (v d : Z * Z) (l : list resource) : Prop :=
  (label < 1 -> mem_held v = false) /\ (label < 2 -> mem_held d = false)
  /\ l = if label >=? 3 then [VFMW_CHAN] else [].

Lemma create_error_ok c v d l label :
  label_ok label v d l ->
  exists s, create_error (building c v d l) label = Some (s, HI_FAILURE) /\ s.(held) = [MSG_QUEUE].
Proof.
  intros (Hv & Hd & ->). unfold create_error.
  assert ((if label >=? 3 then hand_back VFMW_CHAN (building c v d (if label >=? 3 then [VFMW_CHAN] else []))
           else Some (building c v d (if label >=? 3 then [VFMW_CHAN] else [])))
          = Some (building c v d [])) as ->.
  { destruct (label >=? 3); [|done]. unfold building. simpl app.
    apply hand_back_head. unfold scd_of, vdh_of.
    by destruct (mem_held d), (mem_held v). }
  cbn [mbind option_bind].
  assert (exists d', (if label >=? 2 then release_scd (building c v d []) else Some (building c v d []))
            = Some (building c v d' []) /\ mem_held d' = false) as (d' & -> & Hd').
  { destruct (Z.geb_spec label 2); [by apply release_scd_ok|exists d; split; [done|apply Hd; lia]]. }
  cbn [mbind option_bind].
  assert (exists v', (if label >=? 1 then release_vdh (building c v d' []) else Some (building c v d' []))
            = Some (building c v' d' []) /\ mem_held v' = false) as (v' & -> & Hv').
  { destruct (Z.geb_spec label 1); [by apply release_vdh_ok|exists v; split; [done|apply Hv; lia]]. }
  cbn [mbind option_bind]. eexists. split; [done|].
  unfold building, scd_of, vdh_of. by rewrite Hd', Hv'.
Qed.

Lemma alloc_vdh_ok c o level a detail :
  answers_ok a -> 0 < detail ->
  match alloc_vdh (building c (0, 0) (0, 0) []) o level (n_dec a) detail with
  | inl s => exists v, s = building c v (0, 0) [] /\ addr_ok v
  | inr (s, label) => exists v, s = building c v (0, 0) [] /\ label_ok label v (0, 0) []
  end.
Proof.
  intros Ha Hd. unfold alloc_vdh. destruct (_ && _); [by exists (0, 0)|].
  destruct (m_vdh (n_dec a)) as [pa|] eqn:Hpa; [|by exists (0, 0)].
  pose proof (vdh_size_pos c level detail Hd) as Hsz. simpl ctx.
  set (size := vdh_size c level detail) in *.
  assert (Hm : mem_held (size, pa) = true) by (apply negb_true_iff, Z.eqb_neq; done).
  assert (Hs : acquire VDH_MEM ((building c (0, 0) (0, 0) []) <| vdh_buf := (size, pa) |>)
               = building c (size, pa) (0, 0) []).
  { unfold building, vdh_of. by rewrite Hm. }
  rewrite Hs. destruct (_ && _); exists (size, pa); (split; [done|]).
  - split_and!; [lia|done|done].
  - intros _. by apply (an_vdh _ Ha).
Qed.

Lemma alloc_scd_ok c v a detail :
  answers_ok a ->
  match alloc_scd (building c v (0, 0) []) (n_dec a) detail with
  | inl s => exists d, s = building c v d [] /\ addr_ok d
  | inr (s, label) => exists d, s = building c v d [] /\ label_ok label v d []
  end.
Proof.
  intros Ha. unfold alloc_scd. destruct (Z.gtb_spec detail 0) as [Hd|]; [|by exists (0, 0)].
  destruct (m_scd (n_dec a)) as [pa|] eqn:Hpa; [|exists (0, 0); split; [done|]; by split].
  assert (Hm : mem_held (detail, pa) = true) by (apply negb_true_iff, Z.eqb_neq; simpl; lia).
  assert (Hs : acquire SCD_MEM ((building c v (0, 0) []) <| scd_buf := (detail, pa) |>)
               = building c v (detail, pa) []).
  { unfold building, scd_of. by rewrite Hm. }
  rewrite Hs. destruct (_ && _); exists (detail, pa); (split; [done|]).
  - split_and!; [lia|lia|done].
  - intros _. by apply (an_scd _ Ha).
Qed.

(** What the decoder's instance holds beside memory. *)
Definition dec_res : list resource :=
  (if g_LowDelayStatistics then [LOWDLAY_CALC] else []) ++ [VFMW_CHAN].

Definition calc_ok (a : create_answers) : Prop :=
  g_LowDelayStatistics = true -> m_calc (n_dec a) = true.

(** Contexts that differ in what creation sets only. *)
Definition core_ctx (c : OMXVDEC_CHAN_CTX) : OMXVDEC_CHAN_CTX :=
  c <| decoder_id := 0 |> <| processor_id := 0 |> <| port_id := 0 |> <| protocol := 0 |>
    <| bReversed := 0 |>.

Lemma configure_ok c v d a id :
  calc_ok a ->
  exists s ret, configure_decoder (building c v d []) (n_dec a) id = Some (s, ret)
    /\ ((ret = HI_FAILURE /\ s.(held) = [MSG_QUEUE])
        \/ (ret = HI_SUCCESS /\ s = building (c <| decoder_id := id |>) v d dec_res)).
Proof.
  intros Hc. unfold configure_decoder. set (c1 := c <| decoder_id := id |>).
  assert (acquire VFMW_CHAN ((building c v d []) <| ctx ::= fun c => c <| decoder_id := id |> |>)
          = building c1 v d [VFMW_CHAN]) as -> by done.
  assert (Herr : exists s, create_error (building c1 v d [VFMW_CHAN]) 3 = Some (s, HI_FAILURE)
                   /\ s.(held) = [MSG_QUEUE]).
  { apply create_error_ok. split_and!; [lia|lia|done]. }
  destruct Herr as (s & Es & Hs).
  destruct (m_cfg (n_dec a)); cbn [negb]; [|eauto 8].
  destruct (m_stream (n_dec a)); cbn [negb]; [|eauto 8].
  destruct (m_image (n_dec a)); cbn [negb]; [|eauto 8].
  unfold dec_res. unfold calc_ok in Hc. destruct g_LowDelayStatistics.
  - rewrite Hc by done. eexists _, _. split; [done|]. by right.
  - eexists _, _. split; [done|]. by right.
Qed.

Lemma decoder_create_ok g c cfg a :
  answers_ok a -> calc_ok a ->
  exists s ret, decoder_create_inst g (building c (0, 0) (0, 0) []) cfg (n_dec a) = Some (s, ret)
    /\ ((ret = HI_FAILURE /\ s.(held) = [MSG_QUEUE])
        \/ (ret = HI_SUCCESS /\ exists c' v d, s = building c' v d dec_res /\ addr_ok v /\ addr_ok d
            /\ core_ctx c' = core_ctx c)).
Proof.
  intros Ha Hc. unfold decoder_create_inst.
  destruct (decoder_init_option g _ cfg) as [[c1 level] o] eqn:Ho.
  assert (Hcore : core_ctx c1 = core_ctx c).
  { unfold decoder_init_option in Ho. destruct (size_class _ _ _ _) as [cap o1].
    destruct (cap_level _ _ _) as [l2 o2]. injection Ho as <- _ _. done. }
  assert ((building c (0, 0) (0, 0) []) <| ctx := c1 |> = building c1 (0, 0) (0, 0) []) as -> by done.
  assert (Herr : forall v d label, label_ok label v d [] -> exists s ret,
    create_error (building c1 v d []) label = Some (s, ret)
    /\ ((ret = HI_FAILURE /\ s.(held) = [MSG_QUEUE])
        \/ (ret = HI_SUCCESS /\ exists c' v d, s = building c' v d dec_res /\ addr_ok v /\ addr_ok d
            /\ core_ctx c' = core_ctx c))).
  { intros v d label Hl. destruct (create_error_ok c1 v d [] label Hl) as (s & -> & Hs). eauto 8. }
  destruct (m_detail (n_dec a)) as [[vdh scd]|] eqn:Hd; [|by apply Herr].
  pose proof (alloc_vdh_ok c1 o level a vdh Ha (an_detail _ Ha _ _ Hd)) as Hv.
  destruct (alloc_vdh _ o level (n_dec a) vdh) as [s|[s label]];
    destruct Hv as (v & -> & Hv); [|by apply Herr].
  pose proof (alloc_scd_ok c1 v a scd Ha) as Hs.
  destruct (alloc_scd _ (n_dec a) scd) as [s|[s label]]; destruct Hs as (d & -> & Hs); [|by apply Herr].
  destruct (m_create (n_dec a)) as [id|]; [|apply Herr; split_and!; [lia|lia|done]].
  destruct (configure_ok c1 v d a id Hc) as (s & ret & -> & [[-> Hh]|[-> ->]]); [eauto 8|].
  eexists _, _. split; [done|]. right. split; [done|]. by eexists _, v, d.
Qed.

(** VPSS adds its instance and its port. *)
Definition proc_res : list resource := [VPSS_PORT; VPSS_INST].

Lemma dec_res_not r : r <> LOWDLAY_CALC -> r <> VFMW_CHAN -> existsb (same_res r) dec_res = false.
Proof. unfold dec_res. by destruct g_LowDelayStatistics, r. Qed.

Lemma building_not v d r :
  r <> SCD_MEM -> r <> VDH_MEM -> r <> MSG_QUEUE ->
  existsb (same_res r) (scd_of d ++ vdh_of v ++ [MSG_QUEUE]) = false.
Proof. intros. unfold scd_of, vdh_of. by destruct (mem_held d), (mem_held v), r. Qed.

Lemma processor_create_ok c v d a :
  answers_ok a ->
  exists c' l ret, processor_create_inst (building c v d dec_res) (n_proc a)
      = Some (building c' v d (l ++ dec_res), ret)
    /\ core_ctx c' = core_ctx c
    /\ ((ret = HI_FAILURE /\ l = [])
        \/ (ret = HI_SUCCESS /\ l = proc_res /\ c'.(port_id) <> VPSS_INVALID_HANDLE
            /\ c'.(processor_id) <> VPSS_INVALID_HANDLE)).
Proof.
  intros Ha. unfold processor_create_inst. 
  set (c1 := c <| processor_id := VPSS_INVALID_HANDLE |> <| port_id := VPSS_INVALID_HANDLE |>).
  assert ((building c v d dec_res) <| ctx ::= fun c => c <| processor_id := VPSS_INVALID_HANDLE |>
            <| port_id := VPSS_INVALID_HANDLE |> |> = building c1 v d dec_res) as -> by done.
  destruct (v_default (n_proc a)); cbn [negb]; [|exists c1, [], HI_FAILURE; auto].
  destruct (v_create (n_proc a)) as [id|] eqn:Hid; [|exists c1, [], HI_FAILURE; auto].
  set (c2 := c1 <| processor_id := id |>).
  assert (acquire VPSS_INST ((building c1 v d dec_res) <| ctx ::= fun c => c <| processor_id := id |> |>)
          = building c2 v d (VPSS_INST :: dec_res)) as -> by done.
  assert (Herr : exists c' l ret, proc_error (building c2 v d (VPSS_INST :: dec_res))
      = Some (building c' v d (l ++ dec_res), ret)
    /\ core_ctx c' = core_ctx c
    /\ ((ret = HI_FAILURE /\ l = [])
        \/ (ret = HI_SUCCESS /\ l = proc_res /\ c'.(port_id) <> VPSS_INVALID_HANDLE
            /\ c'.(processor_id) <> VPSS_INVALID_HANDLE))).
  { unfold proc_error, building. simpl app.
    rewrite hand_back_head.
    - eexists _, [], _. split; [done|]. auto.
    - rewrite existsb_app, dec_res_not, building_not; done. }
  destruct (v_hook (n_proc a)); cbn [negb]; [|done].
  destruct (v_source (n_proc a)); cbn [negb]; [|done].
  destruct (v_port_default (n_proc a)); cbn [negb]; [|done].
  destruct (v_port (n_proc a)) as [port|] eqn:Hport; [|done].
  exists (c2 <| port_id := port |>), proc_res, HI_SUCCESS. split; [done|]. split; [done|]. right.
  split_and!; [done|done|exact (an_port _ Ha _ Hport)|exact (an_vpss _ Ha _ Hid)].
Qed.

(** ** The tables *)

(** A channel before it has tables. *)
Record fresh c : Prop := {
  fr_list : forall p, is_list c.(links) (QHead p) [];
  fr_dom : forall n, n ∈ dom c.(links) <-> ~ is_slot n;
  fr_num : forall p, num p c = 0;
  fr_uses : forall p, uses p c = 0;
  fr_pending : forall p, pending p c = false;
  fr_pause : c.(pause_pending) = false;
  fr_eos : c.(eos_in_list) = false;
}.

Lemma fresh_core c c' : core_ctx c' = core_ctx c -> fresh c -> fresh c'.
Proof.
  intros Hc [L D N U P Z S].
  pose proof (f_equal links Hc : links c' = links c) as Hl.
  pose proof (f_equal pause_pending Hc : pause_pending c' = pause_pending c) as Hz.
  pose proof (f_equal eos_in_list Hc : eos_in_list c' = eos_in_list c) as Hs.
  pose proof (fun p => f_equal (num p) Hc) as Hn. pose proof (fun p => f_equal (uses p) Hc) as Hu.
  pose proof (fun p => f_equal (pending p) Hc) as Hp.
  split; try congruence.
  - intros p. rewrite Hl. apply L.
  - intros n. rewrite Hl. apply D.
  - intros p. rewrite <- (N p). specialize (Hn p). by destruct p.
  - intros p. rewrite <- (U p). specialize (Hu p). by destruct p.
  - intros p. rewrite <- (P p). specialize (Hp p). by destruct p.
Qed.

Lemma init_ctx_ok fd : exists c, init_ctx fd = Some c /\ fresh c /\ c.(file_dec) = u32 fd
  /\ c.(lowdelay_rec) = None.
Proof.
  unfold init_ctx.
  destruct (INIT_LIST_HEAD_ok (links zero_ctx) (QHead IN)) as (m1 & -> & D1 & L1 & F1); [done|].
  cbn [mbind option_bind].
  destruct (INIT_LIST_HEAD_ok m1 (QHead OUT)) as (m2 & -> & D2 & L2 & F2);
    [rewrite D1; done|].
  cbn [mbind option_bind]. eexists. split; [done|]. split; [|done].
  split; try (by intros []).
  - intros []; [|done]. eapply is_list_same; [|done]. intros x Hx. apply F2. set_solver.
  - intros n. simpl. rewrite D2, D1. unfold zero_ctx. simpl.
    rewrite !dom_insert_L, dom_singleton_L.
    destruct n as [[]|p i|]; simpl; set_solver.
  - done.
  - done.
Qed.

(** The memory for the tables: what fits in the bytes asked for. *)
Definition extra_ok (cfg : OMXVDEC_DRV_CFG) (a : create_answers) : Prop :=
  forall pa va mem, n_extra a = Some (pa, va, mem) ->
    Z.of_nat (length mem) = (extra_size cfg - LAST_FRAME_BUF_SIZE - 16) / SIZEOF_BUF.

(** Counts of buffers for which the size does not wrap. *)
Record counts_ok (cfg : OMXVDEC_DRV_CFG) : Prop := {
  co_in : 0 <= cfg.(cfg_inbuf_num);
  co_out : 0 <= cfg.(cfg_outbuf_num);
  co_last : 0 <= LAST_FRAME_BUF_SIZE;
  co_room : LAST_FRAME_BUF_SIZE + 16 + (cfg.(cfg_inbuf_num) + cfg.(cfg_outbuf_num)) * SIZEOF_BUF
            < 2 ^ 32;
  co_id : cfg.(cfg_inbuf_num) <= LAST_FRAME_BUF_ID;
}.

Lemma tables_fit cfg a pa va mem :
  counts_ok cfg -> extra_ok cfg a -> n_extra a = Some (pa, va, mem) ->
  Z.of_nat (length mem) = cfg.(cfg_inbuf_num) + cfg.(cfg_outbuf_num).
Proof.
  intros [Hi Ho Hl Hr _] He Hn. rewrite (He _ _ _ Hn). unfold extra_size, u32.
  unfold SIZEOF_BUF in *. change (2 ^ 32) with 4294967296 in *.
  rewrite (Z.mod_small (cfg_inbuf_num cfg + _)) by lia.
  rewrite (Z.mod_small (_ * 80)) by lia. rewrite (Z.mod_small (LAST_FRAME_BUF_SIZE + 16)) by lia.
  rewrite Z.mod_small by lia.
  replace (_ - _ - 16) with ((cfg_inbuf_num cfg + cfg_outbuf_num cfg) * 80) by lia.
  by apply Z.div_mul.
Qed.

Lemma slot_links_dom p (l : list (OMXVDEC_BUF_S * list_head node)) n :
  n ∈ dom (slot_links p l) <-> exists i, n = Slot p i /\ 0 <= i < Z.of_nat (length l).
Proof.
  unfold slot_links. rewrite dom_list_to_map_L, elem_of_list_to_set, list_elem_of_fmap. split.
  - intros ((n' & v) & -> & Hi). apply list_elem_of_lookup in Hi as [k Hk].
    rewrite list_lookup_imap in Hk. destruct (l !! k) as [x|] eqn:Hx; [|done].
    injection Hk as <- <-. apply lookup_lt_Some in Hx. exists (Z.of_nat k). split; [done|lia].
  - intros (i & -> & Hi). destruct (lookup_lt_is_Some_2 l (Z.to_nat i)) as [x Hx]; [lia|].
    exists (Slot p i, snd x). split; [done|]. apply list_elem_of_lookup. exists (Z.to_nat i).
    rewrite list_lookup_imap, Hx. simpl. by rewrite Z2Nat.id by lia.
Qed.

Lemma arr_get_is_Some {A} (l : list A) i : is_Some (arr_get l i) <-> 0 <= i < Z.of_nat (length l).
Proof.
  split; [intros [x Hx]; by eapply arr_get_Some|]. intros Hi.
  destruct (arr_get_in l i Hi) as [x ->]. by eexists.
Qed.

(** A channel with tables: empty, and in the invariant. *)
Lemma set_tables_ok cfg a c pa va mem :
  fresh c -> counts_ok cfg -> extra_ok cfg a -> n_extra a = Some (pa, va, mem) ->
  lowdelay_rec c = None ->
  queues_ok (set_tables c cfg pa va mem) (fun _ => [])
  /\ counted (set_tables c cfg pa va mem) (fun _ => []).
Proof.
  intros Hf Hc He Hn Hrec. pose proof (tables_fit cfg a pa va mem Hc He Hn) as Hmem.
  destruct Hf as [L D N U P Z S]. destruct Hc as [Hi Ho Hl Hr Hid]. unfold SIZEOF_BUF in Hr.
  set (c' := set_tables c cfg pa va mem).
  assert (Hlen : forall p, Z.of_nat (length (port p c').(buf_table)) = max_num p c').
  { intros []; simpl; rewrite length_map, ?length_take, ?length_drop; unfold max_num; simpl; lia. }
  assert (Hslot : forall p i, is_Some (node_buf c' (Slot p i)) <-> 0 <= i < max_num p c').
  { intros p i. simpl. by rewrite arr_get_is_Some, Hlen. }
  assert (Hnum : forall p, num p c' = 0) by (intros p; rewrite <- (N p); by destruct p).
  split; [split|].
  - intros p. eapply is_list_same; [|apply L]. intros n Hh. apply lookup_union_l'.
    apply elem_of_dom, D. apply list_elem_of_singleton in Hh as ->. simpl. auto.
  - intros n b Hb. simpl. rewrite dom_union_L. destruct (decide (n ∈ dom (links c))) as [|Hn0]; [set_solver|].
    apply elem_of_union_r. rewrite dom_union_L, elem_of_union, !slot_links_dom.
    destruct n as [|p i|]; [done| |destruct Hn0; apply D; simpl; auto].
    assert (0 <= i < max_num p c') as Hr' by (apply Hslot; by eexists). rewrite <- Hlen in Hr'.
    destruct p; simpl in Hr'; rewrite length_map in Hr'; [left|right]; eauto.
  - intros p. rewrite Hnum. rewrite <- Hlen. lia.
  - done.
  - set_solver.
  - intros p i b. rewrite Hnum. lia.
  - intros p i j bi bj. rewrite Hnum. lia.
  - split; [|set_solver]. intros H. change (eos_in_list c = true) in H. congruence.
  - set_solver.
  - intros i b. rewrite Hnum. lia.
  - done.
  - intros []; unfold max_num; simpl; lia.
  - intros r. change (lowdelay_rec c = Some r -> length (time_record r) = 11%nat). by rewrite Hrec.
  - split.
    + intros p. change (taken c' []) with 0. rewrite <- (U p). by destruct p.
    + intros p Hp. assert (pending p c' = pending p c) as Hq by (by destruct p).
      rewrite Hq, P in Hp. done.
    + intros H. change (pause_pending c = true) in H. congruence.
Qed.

(** ** Giving back *)

(** What a creation that fails after the statistics have started leaves running. *)
Definition calc_res : list resource := if g_LowDelayStatistics then [LOWDLAY_CALC] else [].

(** The resources beside memory and the message queue. *)
Definition device_res r : Prop := r <> SCD_MEM /\ r <> VDH_MEM /\ r <> MSG_QUEUE.

Lemma hand_back_building r c v d l1 l2 :
  device_res r -> existsb (same_res r) l1 = false -> existsb (same_res r) l2 = false ->
  hand_back r (building c v d (l1 ++ r :: l2)) = Some (building c v d (l1 ++ l2)).
Proof.
  intros (H1 & H2 & H3) Hl1 Hl2. unfold building. rewrite <- app_assoc. simpl app.
  rewrite hand_back_ok; [by rewrite <- app_assoc|done|].
  by rewrite existsb_app, Hl2, building_not.
Qed.

Definition no_handles c : OMXVDEC_CHAN_CTX :=
  c <| port_id := VPSS_INVALID_HANDLE |> <| processor_id := VPSS_INVALID_HANDLE |>.

Lemma processor_release_ok c v d l l' :
  c.(port_id) <> VPSS_INVALID_HANDLE -> c.(processor_id) <> VPSS_INVALID_HANDLE ->
  existsb (same_res VPSS_PORT) (l ++ l') = false -> existsb (same_res VPSS_INST) (l ++ l') = false ->
  processor_release_inst (building c v d (l ++ proc_res ++ l'))
  = Some (building (no_handles c) v d (l ++ l'), HI_SUCCESS).
Proof.
  intros Hp Hv H1 H2. unfold processor_release_inst.
  change (ctx (building c v d (l ++ proc_res ++ l'))) with c. zfalse (port_id c =? VPSS_INVALID_HANDLE).
  rewrite existsb_app in H1, H2. apply orb_false_iff in H1 as [H1 H1'], H2 as [H2 H2'].
  unfold proc_res. simpl app. rewrite hand_back_building; [|by split_and!|done|done].
  cbn [mbind option_bind].
  set (c1 := c <| port_id := VPSS_INVALID_HANDLE |>).
  assert ((building c v d (l ++ VPSS_INST :: l')) <| ctx ::= fun c => c <| port_id := VPSS_INVALID_HANDLE |> |>
          = building c1 v d (l ++ VPSS_INST :: l')) as -> by done.
  change (ctx (building c1 v d (l ++ VPSS_INST :: l'))) with c1.
  change (processor_id c1) with (processor_id c). zfalse (processor_id c =? VPSS_INVALID_HANDLE).
  by rewrite hand_back_building by (by split_and! || done).
Qed.

Lemma decoder_release_ok c v d l a :
  addr_ok v -> addr_ok d -> existsb (same_res VFMW_CHAN) l = false ->
  existsb (same_res SCD_MEM) l = false -> existsb (same_res VDH_MEM) l = false ->
  exists v' d', decoder_release_inst (building c v d (l ++ [VFMW_CHAN])) a
    = Some (building c v' d' l, a) /\ mem_held v' = false /\ mem_held d' = false.
Proof.
  intros Hv Hd H1 H2 H3. unfold decoder_release_inst.
  rewrite hand_back_building, app_nil_r by (by split_and! || done). cbn [mbind option_bind].
  assert (Hm : forall buf, addr_ok buf ->
            negb (fst buf =? 0) && negb (snd buf =? 0) = mem_held buf).
  { intros buf Hb. unfold addr_ok, mem_held in *. destruct (fst buf =? 0); simpl in *; [done|].
    apply negb_true_iff, Z.eqb_neq. by apply Hb. }
  change (scd_buf (building c v d l)) with d. rewrite Hm by done.
  assert (exists d', (if mem_held d then release_scd (building c v d l) else Some (building c v d l))
            = Some (building c v d' l) /\ mem_held d' = false) as (d' & -> & Hd').
  { destruct (mem_held d) eqn:E'; [by apply release_scd_ok|by exists d]. }
  cbn [mbind option_bind]. change (vdh_buf (building c v d' l)) with v. rewrite Hm by done.
  assert (exists v', (if mem_held v then release_vdh (building c v d' l) else Some (building c v d' l))
            = Some (building c v' d' l) /\ mem_held v' = false) as (v' & -> & Hv').
  { destruct (mem_held v) eqn:E'; [by apply release_vdh_ok|by exists v]. }
  by exists v', d'.
Qed.

(** ** A channel that lives *)

Definition delay_res c : list resource :=
  match c.(lowdelay_rec) with Some _ => [DELAY_REC] | None => [] end.

(** The invariant of a created channel: its queues are in order, and what it holds
    is what its context says. *)
Record live (s : inst) : Prop := {
  lv_queues : exists q, queues_ok s.(ctx) q;
  lv_vdh : addr_ok s.(vdh_buf);
  lv_scd : addr_ok s.(scd_buf);
  lv_held : s.(held) = delay_res s.(ctx) ++ EXTRA_MEM :: proc_res ++ dec_res
              ++ scd_of s.(scd_buf) ++ vdh_of s.(vdh_buf) ++ [MSG_QUEUE];
  lv_port : s.(ctx).(port_id) <> VPSS_INVALID_HANDLE;
  lv_proc : s.(ctx).(processor_id) <> VPSS_INVALID_HANDLE;
  lv_delay : is_Some s.(ctx).(lowdelay_rec) ->
    negb (s.(ctx).(bLowdelay) =? 0) || g_FastOutputMode = true;
}.

(** Every call on a channel keeps it alive. *)
Lemma live_kept s q c' q' acc :
  live s -> kept s.(ctx) q c' q' acc -> live (s <| ctx := c' |>).
Proof.
  intros [Q V D H P R L] [Hok _ _ Hf]. unfold fixed in Hf. injection Hf as H1 H2 H3 H4 H5 H6.
  assert (Hd : delay_res c' = delay_res (ctx s)).
  { unfold delay_res. by destruct (lowdelay_rec c'), (lowdelay_rec (ctx s)). }
  split; [by exists q'|done|done| | | |]; simpl.
  - by rewrite Hd.
  - congruence.
  - congruence.
  - rewrite H5. intros Hs. apply L. destruct (lowdelay_rec c'), (lowdelay_rec (ctx s)); [|done| |done].
    + by eexists.
    + by destruct Hs.
Qed.

(** Memory, handles and tables, in the order of creation. *)
Lemma set_delay_ok c v d a :
  queues_ok c (fun _ => []) -> counted c (fun _ => []) ->
  addr_ok v -> addr_ok d -> c.(port_id) <> VPSS_INVALID_HANDLE ->
  c.(processor_id) <> VPSS_INVALID_HANDLE ->
  exists c', set_delay (building c v d (EXTRA_MEM :: proc_res ++ dec_res)) a
    = building c' v d (delay_res c' ++ EXTRA_MEM :: proc_res ++ dec_res)
    /\ queues_ok c' (fun _ => []) /\ counted c' (fun _ => [])
    /\ c'.(channel_id) = c.(channel_id) /\ c'.(file_dec) = c.(file_dec)
    /\ live (building c' v d (delay_res c' ++ EXTRA_MEM :: proc_res ++ dec_res)).
Proof.
  intros Hok Hct Hv Hd Hp Hr.
  set (c0 := c <| lowdelay_rec := None |>). set (l := EXTRA_MEM :: proc_res ++ dec_res).
  set (r := new_delay (fst (n_times a)) (snd (n_times a))).
  assert (set_delay (building c v d l) a
          = if negb (c.(bLowdelay) =? 0) || g_FastOutputMode
            then if n_delay a then building (c <| lowdelay_rec := Some r |>) v d (DELAY_REC :: l)
                 else building c0 v d l
            else building c0 v d l) as -> by done.
  assert (Hlive : forall c' : OMXVDEC_CHAN_CTX, queues_ok c' (fun _ => []) -> c'.(port_id) = c.(port_id) ->
    c'.(processor_id) = c.(processor_id) ->
    (is_Some c'.(lowdelay_rec) -> negb (c'.(bLowdelay) =? 0) || g_FastOutputMode = true) ->
    live (building c' v d (delay_res c' ++ l))).
  { intros c' Hq Hp' Hr' Hl. split; [by eexists|done|done| |simpl; congruence|simpl; congruence|done].
    unfold building, l. cbn [held ctx scd_buf vdh_buf]. rewrite <- !app_assoc. simpl.
    by rewrite <- ?app_assoc. }
  assert (Hq : forall o : option OMXVDEC_LOWDELAY_PROC_RECORD,
    (forall x, o = Some x -> length x.(time_record) = 11%nat) ->
    queues_ok (c <| lowdelay_rec := o |>) (fun _ => []) /\ counted (c <| lowdelay_rec := o |>) (fun _ => [])).
  { intros o Hlen. split; [by destruct Hok; split|by destruct Hct; split]. }
  destruct (_ || _) eqn:Hl; [destruct (n_delay a)|].
  - exists (c <| lowdelay_rec := Some r |>). split; [done|].
    destruct (Hq (Some r)) as [H1 H2]; [by intros x [= <-]|].
    split_and!; [done..|]. by apply Hlive.
  - exists c0. destruct (Hq None) as [H1 H2]; [done|]. split_and!; [done..|].
    apply Hlive; done || (intros [? Hx]; discriminate Hx).
  - exists c0. destruct (Hq None) as [H1 H2]; [done|]. split_and!; [done..|].
    apply Hlive; done || (intros [? Hx]; discriminate Hx).
Qed.

(** Resources beside the handles and the decoder's memory. *)
Definition others l : Prop := forall r, r ∈ l -> r = EXTRA_MEM \/ r = DELAY_REC \/ r = LOWDLAY_CALC.

Lemma others_not r l :
  others l -> r <> EXTRA_MEM -> r <> DELAY_REC -> r <> LOWDLAY_CALC -> existsb (same_res r) l = false.
Proof.
  intros Hl H1 H2 H3. induction l as [|x l IH]; [done|]. simpl.
  rewrite IH by (intros y Hy; apply Hl; by right).
  destruct (Hl x) as [->|[->| ->]]; [by left| | |]; by destruct r.
Qed.

(** Giving back what VPSS and the decoder hold, on the error paths and at the end. *)
Lemma release_both_ok c v d l l' a :
  addr_ok v -> addr_ok d -> c.(port_id) <> VPSS_INVALID_HANDLE ->
  c.(processor_id) <> VPSS_INVALID_HANDLE -> others (l ++ l') ->
  exists s v' d', processor_release_inst (building c v d (l ++ proc_res ++ l' ++ [VFMW_CHAN]))
      = Some (s, HI_SUCCESS)
    /\ decoder_release_inst s a = Some (building (no_handles c) v' d' (l ++ l'), a)
    /\ mem_held v' = false /\ mem_held d' = false.
Proof.
  intros Hv Hd Hp Hr Hl.
  destruct (decoder_release_ok (no_handles c) v d (l ++ l') a Hv Hd) as (v' & d' & Ed & Hm);
    [by apply others_not..|].
  exists (building (no_handles c) v d (l ++ l' ++ [VFMW_CHAN])), v', d'. split.
  - apply processor_release_ok; try done; rewrite app_assoc, existsb_app, others_not; done.
  - by rewrite app_assoc.
Qed.

(** A creation gives a living channel, or gives everything back but its message
    queue and, once started, the statistics. *)
Lemma build_inst_ok g c cfg a :
  answers_ok a -> calc_ok a -> counts_ok cfg -> extra_ok cfg a -> fresh c -> c.(lowdelay_rec) = None ->
  exists s ok, build_inst g (building c (0, 0) (0, 0) []) cfg a = Some (s, ok)
    /\ if (ok : bool) then live s /\ counters_ok s.(ctx)
                 /\ s.(ctx).(channel_id) = c.(channel_id) /\ s.(ctx).(file_dec) = c.(file_dec)
       else s.(held) = [MSG_QUEUE] \/ s.(held) = calc_res ++ [MSG_QUEUE].
Proof.
  intros Ha Hc Hcfg He Hf Hr. unfold build_inst. cbv zeta.
  set (c0 := config_ctx cfg c).
  assert ((building c (0, 0) (0, 0) []) <| ctx ::= config_ctx cfg |> = building c0 (0, 0) (0, 0) [])
    as -> by done.
  assert (Hf0 : fresh c0) by (by destruct Hf; split).
  assert (Hcalc : others calc_res)
    by (intros r; unfold calc_res; destruct g_LowDelayStatistics; [set_solver|by intros ?%not_elem_of_nil]).
  destruct (decoder_create_ok g c0 cfg a Ha Hc) as (s & ret & -> & Hdec). cbn [mbind option_bind].
  destruct Hdec as [[-> Hh]|[-> (c1 & v & d & -> & Hv & Hd & Hc1)]].
  { rewrite success_ne. cbn [negb]. eexists _, false. split; [done|]. by left. }
  rewrite Z.eqb_refl. cbn [negb].
  destruct (processor_create_ok c1 v d a Ha) as (c2 & l & ret & -> & Hc2 & Hproc).
  cbn [mbind option_bind]. destruct Hproc as [[-> ->]|(-> & -> & Hp & Hi)].
  { rewrite success_ne. cbn [negb].
    destruct (decoder_release_ok c2 v d calc_res (n_release a) Hv Hd) as (v' & d' & Eb & Hv' & Hd');
      [by apply others_not..|]. simpl app. unfold dec_res. fold calc_res. rewrite Eb.
    cbn [mbind option_bind]. eexists _, false. split; [done|]. right.
    simpl. unfold scd_of, vdh_of. by rewrite Hv', Hd'. }
  rewrite Z.eqb_refl. cbn [negb].
  destruct (n_extra a) as [[[pa va] mem]|] eqn:Hx.
  - assert (Hcore : core_ctx c2 = core_ctx c0) by congruence.
    assert (Hrec : lowdelay_rec c2 = None)
      by (rewrite <- Hr; exact (f_equal lowdelay_rec Hcore)).
    destruct (set_tables_ok cfg a c2 pa va mem (fresh_core _ _ Hcore Hf0) Hcfg He Hx Hrec) as [Hok Hct].
    destruct (set_delay_ok (set_tables c2 cfg pa va mem) v d a Hok Hct Hv Hd Hp Hi)
      as (c3 & E3 & Hok3 & Hct3 & Hid3 & Hfd3 & Hl3).
    assert (acquire EXTRA_MEM ((building c2 v d (proc_res ++ dec_res)) <| ctx ::= fun c => set_tables c cfg pa va mem |>)
            = building (set_tables c2 cfg pa va mem) v d (EXTRA_MEM :: proc_res ++ dec_res)) as -> by done.
    rewrite E3. eexists _, true. split; [done|]. split_and!; [done| | |].
    + by eapply counters_counted.
    + simpl. rewrite Hid3. exact (f_equal channel_id Hcore).
    + simpl. rewrite Hfd3. exact (f_equal file_dec Hcore).
  - destruct (release_both_ok c2 v d [] calc_res (n_release a) Hv Hd Hp Hi)
      as (s & v' & d' & Ep & Ed & Hv' & Hd'); [done|].
    change (proc_res ++ dec_res) with ([] ++ proc_res ++ calc_res ++ [VFMW_CHAN]). rewrite Ep. cbn [mbind option_bind].
    rewrite Ed. eexists _, false. split; [done|]. right. simpl. unfold scd_of, vdh_of. by rewrite Hv', Hd'.
Qed.

(** ** The end of a channel *)

(** What the release of a slot of the table does. *)
Definition unmap_event (b : OMXVDEC_BUF_S) : list event :=
  if negb (bool_decide (b.(status) = BUF_STATE_INVALID)) && negb (b.(buf_type) =? OMX_ALLOCATE_DRIVER)
  then [MMZ_UNMAP b.(phy_addr) b.(kern_vaddr)] else [].

Definition add_events (evs : list event) c : OMXVDEC_CHAN_CTX := c <| trace ::= fun tr => tr ++ evs |>.

Lemma add_events_app c e1 e2 : add_events e2 (add_events e1 c) = add_events (e1 ++ e2) c.
Proof.
  exact (f_equal (fun tr => c <| trace := tr |>) (eq_sym (app_assoc c.(trace) e1 e2))).
Qed.

Lemma add_events_nil c : add_events [] c = c.
Proof.
  transitivity (c <| trace := c.(trace) |>); [|by destruct c].
  exact (f_equal (fun tr => c <| trace := tr |>) (app_nil_r c.(trace))).
Qed.

Lemma unmap_slot_events c b : unmap_slot c b = add_events (unmap_event b) c.
Proof.
  unfold unmap_slot, unmap_event. destruct (_ && _); [done|].
  by rewrite add_events_nil.
Qed.

Lemma unmap_from_ok (p : port_dir) fuel : forall c k t,
  (port p c).(buf_table) = t -> Z.of_nat (length t) = max_num p c -> (k <= length t)%nat ->
  (fuel = S (length t - k))%nat ->
  unmap_from fuel c p (Z.of_nat k) = Some (add_events (flat_map unmap_event (drop k t)) c).
Proof.
  induction fuel as [|fuel IH]; intros c k t Ht Hl Hk Hf; [done|]. simpl.
  change (max_buf_num (port p c)) with (max_num p c). rewrite <- Hl, Ht.
  destruct (decide (k = length t)) as [->|Hne].
  - zfalse (Z.of_nat (length t) <? Z.of_nat (length t)). rewrite drop_all.
    by rewrite add_events_nil.
  - ztrue (Z.of_nat k <? Z.of_nat (length t)).
    destruct (arr_get_in t (Z.of_nat k)) as [b Hb]; [lia|]. rewrite Hb. cbn [mbind option_bind].
    replace (Z.of_nat k + 1) with (Z.of_nat (S k)) by lia. rewrite unmap_slot_events.
    rewrite (IH _ (S k) t) by (lia || by destruct p).
    assert (Hk' : t !! k = Some b).
    { unfold arr_get in Hb. case_match; [|done]. by rewrite Nat2Z.id in Hb. }
    by rewrite add_events_app, (drop_S t b k Hk').
Qed.

Lemma table_length c q p : queues_ok c q -> Z.of_nat (length (port p c).(buf_table)) = max_num p c.
Proof.
  intros Hok. pose proof (qo_size _ _ Hok p).
  assert (H' : forall i, 0 <= i < Z.of_nat (length (port p c).(buf_table)) <-> 0 <= i < max_num p c)
    by (intros i; rewrite <- arr_get_is_Some; apply (qo_slots _ _ Hok p i)).
  pose proof (H' (max_num p c)). pose proof (H' (Z.of_nat (length (buf_table (port p c))))). lia.
Qed.

Lemma unmap_table_ok c q p :
  queues_ok c q ->
  unmap_table c p = Some (add_events (flat_map unmap_event (port p c).(buf_table)) c).
Proof.
  intros Hok. unfold unmap_table. rewrite <- (drop_0 (buf_table (port p c))) at 2.
  apply (unmap_from_ok p _ c 0 (port p c).(buf_table)); [done|by eapply table_length|lia|lia].
Qed.

Lemma stop_running_ok c q a :
  queues_ok c q ->
  queues_ok (stop_running c a) q /\ fixed (stop_running c a) = fixed c
  /\ (stop_running c a).(channel_id) = c.(channel_id)
  /\ forall p, (port p (stop_running c a)).(buf_table) = (port p c).(buf_table).
Proof.
  intros Hok. unfold stop_running, decoder_stop_inst. destruct (_ || _); [|done].
  destruct (processor_stop_inst _ _ _) as [c1 r1] eqn:E1.
  assert (H1 : mild c c1 /\ forall p, (port p c1).(buf_table) = (port p c).(buf_table)).
  { unfold processor_stop_inst in E1. repeat case_match; injection E1 as <- <-; (split; [mild|done]). }
  destruct H1 as [Hm Ht].
  assert (Hm' : mild c (c1 <| state := CHAN_STATE_IDLE |>)) by (eapply mild_trans; [exact Hm|]; mild).
  destruct (mild_served _ _ _ Hok Hm') as [[Hok' _ Hid Hf] _]. split_and!; try done.
Qed.

(** The events by which a release gives back the mappings of both tables. *)
Definition unmaps c : list event :=
  flat_map unmap_event (port IN c).(buf_table) ++ flat_map unmap_event (port OUT c).(buf_table).

(** The channel after the stop, without its handles and with its unmappings. *)
Definition dismantled c a : OMXVDEC_CHAN_CTX :=
  add_events (unmaps c) (no_handles (stop_running c a)) <| state := CHAN_STATE_INVALID |>.

(** Everything but the statistics' record is given back, each once: neither the
    answers to the stop nor the firmware's matter. *)
Lemma dismantle_ok s a :
  live s ->
  exists v' d', (s ← (if g_LowDelayStatistics then hand_back LOWDLAY_CALC s else Some s); dismantle s a)
      = Some (mkInst (dismantled s.(ctx) a.(l_stop)) v' d' (delay_res s.(ctx))).
Proof.
  intros [[q Hok] Hv Hd Hh Hp Hr Hl]. destruct s as [c v d l]. simpl in *.
  assert (Hs : mkInst c v d l
               = building c v d ((delay_res c ++ [EXTRA_MEM]) ++ proc_res ++ calc_res ++ [VFMW_CHAN])).
  { rewrite Hh. unfold building, dec_res, calc_res. f_equal. rewrite <- !app_assoc. simpl.
    by rewrite <- ?app_assoc. }
  set (l0 := delay_res c ++ [EXTRA_MEM]) in *.
  assert (Hl0 : others l0).
  { intros r. unfold l0, delay_res. destruct (lowdelay_rec c); set_solver. }
  assert (((if g_LowDelayStatistics then hand_back LOWDLAY_CALC (mkInst c v d l) else Some (mkInst c v d l)))
          = Some (building c v d (l0 ++ proc_res ++ [] ++ [VFMW_CHAN]))) as ->.
  { rewrite Hs. unfold calc_res. destruct g_LowDelayStatistics; [|done]. simpl app.
    change (l0 ++ VPSS_PORT :: VPSS_INST :: LOWDLAY_CALC :: [VFMW_CHAN])
      with (l0 ++ proc_res ++ LOWDLAY_CALC :: [VFMW_CHAN]).
    rewrite app_assoc, hand_back_building, <- app_assoc; [done|by split_and!| |done].
    unfold l0, delay_res. by destruct (lowdelay_rec c). }
  cbn [mbind option_bind]. unfold dismantle.
  destruct (stop_running_ok c q (l_stop a) Hok) as (Hok1 & Hf1 & Hid1 & Ht1).
  change (((building c v d (l0 ++ proc_res ++ [] ++ [VFMW_CHAN])) <| ctx ::= fun c => stop_running c (l_stop a) |>))
    with (building (stop_running c (l_stop a)) v d (l0 ++ proc_res ++ [] ++ [VFMW_CHAN])).
  unfold dismantled. set (c1 := stop_running c (l_stop a)) in *.
  unfold fixed in Hf1. injection Hf1 as _ _ F1 F2 _ _.
  destruct (release_both_ok c1 v d l0 [] (l_release a) Hv Hd) as (s & v' & d' & -> & Ed & Hv' & Hd');
    [congruence|congruence|by rewrite app_nil_r|].
  cbn [mbind option_bind]. rewrite Ed. cbn [mbind option_bind]. exists v', d'.
  assert (Hok2 : queues_ok (no_handles c1) q) by (by destruct Hok1; split).
  change (ctx (building (no_handles c1) v' d' (l0 ++ []))) with (no_handles c1).
  rewrite (unmap_table_ok _ q IN Hok2). cbn [mbind option_bind].
  set (c2 := add_events _ (no_handles c1)).
  assert (Hok3 : queues_ok c2 q) by (by destruct Hok2; split).
  rewrite (unmap_table_ok _ q OUT Hok3). cbn [mbind option_bind].
  change (port OUT c2) with (port OUT c1). unfold c2. change (port IN (no_handles c1)) with (port IN c1).
  rewrite add_events_app, (Ht1 IN), (Ht1 OUT). fold (unmaps c). set (c3 := add_events (unmaps c) _).
  change ((building (no_handles c1) v' d' (l0 ++ [])) <| ctx := c3 |>) with (building c3 v' d' (l0 ++ [])).
  assert (building c3 v' d' (l0 ++ []) = mkInst c3 v' d' (delay_res c ++ EXTRA_MEM :: [MSG_QUEUE])) as ->.
  { unfold building, l0, scd_of, vdh_of. rewrite Hv', Hd', app_nil_r, <- app_assoc. done. }
  assert (Hdl : forall r, r <> DELAY_REC -> existsb (same_res r) (delay_res c) = false).
  { intros r Hne. unfold delay_res. destruct (lowdelay_rec c); [by destruct r|done]. }
  rewrite hand_back_ok by (done || by apply Hdl). cbn [mbind option_bind].
  rewrite hand_back_ok by (done || by apply Hdl). cbn [mbind option_bind]. by rewrite app_nil_r.
Qed.

(** The record of the statistics goes last. *)
Lemma free_delay_ok s a v d :
  live s ->
  free_delay (mkInst (dismantled s.(ctx) a) v d (delay_res s.(ctx)))
  = Some (mkInst (dismantled s.(ctx) a) v d []).
Proof.
  intros Hl. destruct (lv_queues _ Hl) as [q Hq].
  destruct (stop_running_ok (ctx s) q a Hq) as (_ & Hf & _). unfold fixed in Hf.
  injection Hf as _ _ _ _ Hlow Hrec. unfold free_delay. simpl ctx.
  set (c := dismantled (ctx s) a). change (bLowdelay c) with (bLowdelay (stop_running (ctx s) a)).
  change (lowdelay_rec c) with (lowdelay_rec (stop_running (ctx s) a)). rewrite Hlow.
  unfold delay_res. pose proof (lv_delay _ Hl) as Hld.
  destruct (lowdelay_rec (stop_running _ _)), (lowdelay_rec (ctx s)); [|done|done|].
  - by rewrite Hld by (by eexists).
  - by rewrite andb_false_r.
Qed.
End Life.
