(* ===== verification/OmxSafe.v ===== *)
(** * The decoder device is safe

    The invariant of the device: its list points to living channels with ids of
    their own. Opening, closing, every ioctl and every event of the hardware keep
    it; a new channel gets the smallest free id, and a closed file has no channels. *)

From S2P Require Import Prelude KList FrameRate PtsRec OmxDelay OmxChan OmxHw OmxQueue OmxCalls.
From S2P Require Import OmxServe OmxReturn OmxBind OmxInit OmxDev OmxRun OmxLife.

Section Device.
Context {C : HiConsts} {E : OmxEnv} {Ok : HiConstsOk C}.
Implicit Types (e : OMXVDEC_ENTRY) (p : Z) (s : inst).

(** ** Searching the list *)

(** All pointers of [l] are to objects. *)
Definition backed e (l : list Z) : Prop := forall p, p ∈ l -> is_Some (e.(insts) !! p).

Lemma find_chan_ok e test : forall l,
  backed e l ->
  exists r, find_chan e l test = Some r
    /\ match r with
       | Some p => p ∈ l /\ exists s, e.(insts) !! p = Some s /\ test s.(ctx) = true
       | None => forall p s, p ∈ l -> e.(insts) !! p = Some s -> test s.(ctx) = false
       end.
Proof.
  induction l as [|p l IH]; intros Hb; simpl.
  { eexists. split; [done|]. intros p s Hp. by apply not_elem_of_nil in Hp. }
  destruct (Hb p) as [s Hs]; [by left|]. unfold deref. rewrite Hs. cbn [mbind option_bind].
  destruct (test (ctx s)) eqn:Ht.
  - eexists. split; [done|]. split; [by left|eauto].
  - destruct IH as (r & -> & Hr); [intros p' Hp'; apply Hb; by right|].
    exists r. split; [done|]. destruct r as [p'|].
    + destruct Hr as [Hp' Hs']. split; [by right|done].
    + intros p' s' [->|Hp']%elem_of_cons Hs'; [congruence|eauto].
Qed.

(** The ids in use. *)
Definition ids e : list Z :=
  flat_map (fun p => match e.(insts) !! p with Some s => [u32 s.(ctx).(channel_id)] | None => [] end)
    e.(chan_list).

Lemma elem_of_ids e i :
  i ∈ ids e <-> exists p s, p ∈ e.(chan_list) /\ e.(insts) !! p = Some s /\ u32 s.(ctx).(channel_id) = i.
Proof.
  unfold ids. rewrite list_elem_of_In, in_flat_map. split.
  - intros (p & Hp & Hi). apply list_elem_of_In in Hp. destruct (insts e !! p) as [s|] eqn:Hs; [|done].
    destruct Hi as [<-|[]]. eauto.
  - intros (p & s & Hp & Hs & <-). exists p. rewrite Hs. split; [by apply list_elem_of_In|by left].
Qed.

Lemma length_ids e : (length (ids e) <= length e.(chan_list))%nat.
Proof.
  unfold ids. induction (chan_list e) as [|p l IH]; [done|]. simpl.
  destruct (insts e !! p); simpl; lia.
Qed.

(** Too few ids to use up the first numbers. *)
Lemma ids_bound e (k : Z) :
  (forall j, 0 <= j < k -> j ∈ ids e) -> k <= Z.of_nat (length e.(chan_list)).
Proof.
  intros Hj. destruct (decide (k <= 0)); [lia|].
  assert (Hsub : map Z.of_nat (seq 0 (Z.to_nat k)) ⊆+ ids e).
  { apply NoDup_submseteq; [apply NoDup_fmap_2; [intros a b; lia|apply NoDup_seq]|].
    intros x Hx. apply list_elem_of_fmap in Hx as (y & -> & Hy%elem_of_seq). apply Hj. lia. }
  apply submseteq_length in Hsub. rewrite length_map, length_seq in Hsub.
  pose proof (length_ids e). lia.
Qed.

(** The search ends with the smallest id that is not in use. *)
Lemma next_id_ok e fuel : forall id,
  backed e e.(chan_list) -> Z.of_nat (length e.(chan_list)) < 2147483648 -> 0 <= id ->
  (forall j, 0 <= j < id -> j ∈ ids e) -> Z.of_nat fuel + id = Z.of_nat (length e.(chan_list)) + 1 ->
  exists r, next_id fuel e id = Some r /\ 0 <= r <= Z.of_nat (length e.(chan_list)) /\ r ∉ ids e
    /\ forall j, 0 <= j < r -> j ∈ ids e.
Proof.
  induction fuel as [|fuel IH]; intros id Hb Hl Hid Hj Hf.
  - pose proof (ids_bound e id Hj). lia.
  - pose proof (ids_bound e id Hj). simpl.
    destruct (find_chan_ok e (fun c => u32 c.(channel_id) =? id) (chan_list e) Hb) as (r & -> & Hr).
    cbn [mbind option_bind]. destruct r as [p|].
    + destruct Hr as (Hp & s & Hs & Hi%Z.eqb_eq). rewrite (u32_small (id + 1)) by (unfold is_u32; lia).
      apply IH; [done|done|lia| |lia]. intros j Hj'. destruct (decide (j = id)) as [->|]; [|apply Hj; lia].
      apply elem_of_ids. eauto.
    + exists id. split_and!; [done|lia|lia| |done]. intros (p & s & Hp & Hs & Hi)%elem_of_ids.
      specialize (Hr p s Hp Hs). lia.
Qed.

(** ** The invariant *)

Record device_ok e : Prop := {
  dv_nodup : NoDup e.(chan_list);
  dv_list : forall p, p ∈ e.(chan_list) <-> is_Some (e.(insts) !! p);
  dv_live : forall p s, e.(insts) !! p = Some s -> live s /\ s.(ctx).(state) <> CHAN_STATE_INVALID;
  dv_range : forall p s, e.(insts) !! p = Some s -> 0 <= s.(ctx).(channel_id) < 2147483648;
  dv_ids : forall p p' s s', e.(insts) !! p = Some s -> e.(insts) !! p' = Some s' ->
    s.(ctx).(channel_id) = s'.(ctx).(channel_id) -> p = p';
  dv_total : e.(total_chan_num) = u32 (Z.of_nat (length e.(chan_list)));
  dv_len : length e.(pts) = 16%nat;
  dv_table : 0 < e.(open_count) -> table_ok e.(pts);
  dv_open : 0 <= e.(open_count) <= MAX_OPEN_COUNT;
}.

Lemma device_backed e : device_ok e -> backed e e.(chan_list).
Proof. intros Hd p. apply (dv_list _ Hd). Qed.

(** A call on one channel. *)
Lemma device_set e p s s' t :
  device_ok e -> e.(insts) !! p = Some s -> live s' -> s'.(ctx).(state) <> CHAN_STATE_INVALID ->
  s'.(ctx).(channel_id) = s.(ctx).(channel_id) -> length t = 16%nat ->
  (0 < e.(open_count) -> table_ok t) ->
  device_ok (e <| insts ::= <[p := s']> |> <| pts := t |>).
Proof.
  intros [N L V R I T U W O] Hp Hl Hst Hid Hlen Ht.
  assert (Hlook : forall p1 s1, <[p := s']> (insts e) !! p1 = Some s1 ->
    exists s2, insts e !! p1 = Some s2 /\ channel_id (ctx s1) = channel_id (ctx s2)
      /\ live s1 /\ state (ctx s1) <> CHAN_STATE_INVALID).
  { intros p1 s1. destruct (decide (p1 = p)) as [->|Hne].
    - rewrite lookup_insert_eq. intros [= <-]. eauto.
    - rewrite lookup_insert_ne by done. intros H1. destruct (V _ _ H1). eauto. }
  split; try done.
  - intros p1. simpl. rewrite L. destruct (decide (p1 = p)) as [->|Hne].
    + rewrite lookup_insert_eq, Hp. split; by eexists.
    + by rewrite lookup_insert_ne.
  - intros p1 s1 H1. destruct (Hlook _ _ H1) as (s2 & _ & _ & ? & ?). done.
  - intros p1 s1 H1. destruct (Hlook _ _ H1) as (s2 & H2 & -> & _). eauto.
  - intros p1 p2 s1 s2 H1 H2 Hi. destruct (Hlook _ _ H1) as (s3 & H3 & E3 & _).
    destruct (Hlook _ _ H2) as (s4 & H4 & E4 & _). eapply I; [done|done|congruence].
Qed.

(** A new channel. *)
Lemma device_add e p s t :
  device_ok e -> e.(insts) !! p = None -> live s -> s.(ctx).(state) <> CHAN_STATE_INVALID ->
  0 <= s.(ctx).(channel_id) < 2147483648 -> s.(ctx).(channel_id) ∉ ids e -> table_ok t ->
  device_ok (e <| chan_list ::= fun l => l ++ [p] |> <| total_chan_num ::= fun k => k +u 1 |>
               <| insts ::= <[p := s]> |> <| pts := t |>).
Proof.
  intros Hd Hp Hl Hst Hr Hi Ht. pose proof Hd as [N L V R I T U W O].
  assert (Hnew : p ∉ chan_list e) by (rewrite L, Hp; by intros [? [=]]).
  assert (Hother : forall p1 s1, insts e !! p1 = Some s1 -> channel_id (ctx s1) <> channel_id (ctx s)).
  { intros p1 s1 H1 He. apply Hi, elem_of_ids. exists p1, s1. split_and!; [apply L; by eexists|done|].
    rewrite He. apply u32_small. unfold is_u32. lia. }
  split; simpl; try done.
  - apply NoDup_app. split_and!; [done|set_solver|apply NoDup_singleton].
  - intros p1. rewrite elem_of_app, list_elem_of_singleton, L. destruct (decide (p1 = p)) as [->|Hne].
    + rewrite lookup_insert_eq. split; [by eexists|by right].
    + rewrite lookup_insert_ne by done. tauto.
  - intros p1 s1. destruct (decide (p1 = p)) as [->|Hne].
    + rewrite lookup_insert_eq. by intros [= <-].
    + rewrite lookup_insert_ne by done. apply V.
  - intros p1 s1. destruct (decide (p1 = p)) as [->|Hne].
    + rewrite lookup_insert_eq. by intros [= <-].
    + rewrite lookup_insert_ne by done. apply R.
  - intros p1 p2 s1 s2. destruct (decide (p1 = p)) as [->|H1], (decide (p2 = p)) as [->|H2];
      rewrite ?lookup_insert_eq, ?lookup_insert_ne by done; try done.
    + intros [= <-] G2 He. by destruct (Hother _ _ G2).
    + intros G1 [= <-] He. by destruct (Hother _ _ G1).
    + apply I.
  - rewrite T, length_app. simpl. unfold u32. rewrite Zplus_mod_idemp_l. f_equal. lia.
  - apply Ht.
Qed.

Lemma filter_id p (l : list Z) : p ∉ l -> List.filter (fun x => negb (x =? p)) l = l.
Proof.
  induction l as [|x l IH]; [done|]. intros [Hx Hl]%not_elem_of_cons. simpl.
  zfalse (x =? p). simpl. by rewrite IH.
Qed.

Lemma filter_out p (l1 l2 : list Z) :
  NoDup (l1 ++ p :: l2) -> List.filter (fun x => negb (x =? p)) (l1 ++ p :: l2) = l1 ++ l2.
Proof.
  intros (N1 & Hd & [Hp N2]%NoDup_cons)%NoDup_app. rewrite List.filter_app. simpl.
  rewrite Z.eqb_refl. simpl. rewrite !filter_id; [done|done|]. intros H. apply (Hd p H). by left.
Qed.

Lemma u32_pred k : 0 < k -> u32 k -u 1 = u32 (k - 1).
Proof. intros. unfold u32. by rewrite Zminus_mod_idemp_l. Qed.

(** A channel less. *)
Lemma device_del e p t :
  device_ok e -> p ∈ e.(chan_list) -> length t = 16%nat -> (0 < e.(open_count) -> table_ok t) ->
  device_ok (e <| pts := t |> <| chan_list ::= List.filter (fun x => negb (x =? p)) |>
               <| total_chan_num ::= fun k => k -u 1 |> <| insts ::= delete p |>).
Proof.
  intros [N L V R I T U W O] Hp Hlen Ht.
  apply list_elem_of_split in Hp as (l1 & l2 & Hq). rewrite Hq in *.
  assert (Hf := filter_out p l1 l2 N).
  assert (Hl : forall x, x ∈ l1 ++ l2 <-> x ∈ l1 ++ p :: l2 /\ x <> p).
  { intros x. apply NoDup_app in N as (N1 & Hd & [Hp N2]%NoDup_cons).
    split; [intros Hx; split; [set_solver|]|set_solver]. intros ->.
    apply elem_of_app in Hx as [Hx|Hx]; [|done]. apply (Hd p Hx). by left. }
  split; simpl; rewrite ?Hq, ?Hf; try done.
  - apply NoDup_app in N as (N1 & Hd & [Hp N2]%NoDup_cons). apply NoDup_app. split_and!; [done| |done].
    intros x Hx Hx'. apply (Hd x Hx). by right.
  - intros p1. rewrite Hl, L. destruct (decide (p1 = p)) as [->|Hne].
    + rewrite lookup_delete_eq. split; [tauto|by intros [? [=]]].
    + rewrite lookup_delete_ne by done. tauto.
  - intros p1 s1 [_ H1]%lookup_delete_Some. eauto.
  - intros p1 s1 [_ H1]%lookup_delete_Some. eauto.
  - intros p1 p2 s1 s2 [_ H1]%lookup_delete_Some [_ H2]%lookup_delete_Some. eauto.
  - rewrite T, u32_pred by (rewrite length_app; simpl; lia). f_equal. rewrite !length_app. simpl. lia.
Qed.

(** ** Creating a channel *)

Definition least_free e (r : Z) : Prop :=
  0 <= r <= Z.of_nat (length e.(chan_list)) /\ r ∉ ids e /\ forall j, 0 <= j < r -> j ∈ ids e.

(** The device with an object that it does not list. *)
Definition with_obj e p s : OMXVDEC_ENTRY := e <| insts ::= <[p := s]> |>.

Lemma with_obj_backed e p s : device_ok e -> backed (with_obj e p s) e.(chan_list).
Proof.
  intros Hd p1 H1%(dv_list _ Hd). simpl. destruct (decide (p1 = p)) as [->|Hne].
  - rewrite lookup_insert_eq. by eexists.
  - by rewrite lookup_insert_ne.
Qed.

Lemma with_obj_ids e p s i :
  device_ok e -> e.(insts) !! p = None -> i ∈ ids (with_obj e p s) <-> i ∈ ids e.
Proof.
  intros Hd Hp. rewrite !elem_of_ids.
  assert (Hl : forall p1, p1 ∈ e.(chan_list) -> p1 <> p).
  { intros p1 H1%(dv_list _ Hd) ->. rewrite Hp in H1. by destruct H1. }
  split; intros (p1 & s1 & H1 & H2 & H3); exists p1, s1; (split_and!; [done| |done]).
  - simpl in H2. by rewrite lookup_insert_ne in H2 by (symmetry; by apply Hl).
  - simpl. by rewrite lookup_insert_ne by (symmetry; by apply Hl).
Qed.

Lemma add_record_ok e p c :
  device_ok e -> e.(insts) !! p = None -> Z.of_nat (length e.(chan_list)) < 2147483647 ->
  exists r, least_free e r /\
    channel_add_chan_record (with_obj e p (mkInst c (0, 0) (0, 0) [])) p
    = Some (with_obj (e <| chan_list ::= fun l => l ++ [p] |> <| total_chan_num ::= fun k => k +u 1 |>)
              p (mkInst (c <| channel_id := r |>) (0, 0) (0, 0) [])).
Proof.
  intros Hd Hp Hl. unfold channel_add_chan_record. set (s0 := mkInst c (0, 0) (0, 0) []).
  assert (exists r, least_free e r /\
    match chan_list (with_obj e p s0) with
    | [] => Some 0
    | _ => next_id (S (length (chan_list (with_obj e p s0)))) (with_obj e p s0) 0
    end = Some r) as (r & Hr & ->).
  { destruct (next_id_ok (with_obj e p s0) (S (length (chan_list e))) 0) as (r & Hn & Hb & Hni & Hj);
      [exact (with_obj_backed e p s0 Hd)|simpl; lia|lia|lia|simpl; lia|].
    exists r. split.
    - split_and!; [apply Hb|simpl in Hb; lia|by rewrite <- (with_obj_ids e p s0)|].
      intros j Hj'. rewrite <- (with_obj_ids e p s0) by done. by apply Hj.
    - simpl chan_list. destruct (chan_list e) as [|p1 l1] eqn:Hc; [|done].
      simpl in Hb. f_equal. rewrite Hc in Hb. simpl in Hb. lia. }
  exists r. split; [done|]. cbn [mbind option_bind]. unfold on_inst, deref. simpl insts.
  rewrite lookup_insert_eq. cbn [mbind option_bind].
  destruct Hr as [Hr _]. rewrite (s32_small r) by (unfold is_s32; lia). unfold with_obj.
  exact (f_equal (fun m => Some (mkEntry _ _ _ m _)) (insert_insert_eq _ _ _ _)).
Qed.

Definition listed e p : OMXVDEC_ENTRY :=
  e <| chan_list ::= fun l => l ++ [p] |> <| total_chan_num ::= fun k => k +u 1 |>.

(** The end of a creation that fails: the device is as before. *)
Lemma undo_create e p s :
  device_ok e -> e.(insts) !! p = None ->
  (e ← channel_delete_chan_record (with_obj (listed e p) p s) p;
   '(e, leak) ← free_inst e p; Some (e, HI_FAILURE, leak)) = Some (e, HI_FAILURE, s.(held)).
Proof.
  intros Hd Hp. unfold channel_delete_chan_record.
  assert (Hn : p ∉ chan_list e) by (rewrite (dv_list _ Hd), Hp; by intros [? [=]]).
  rewrite decide_True by (simpl; set_solver). cbn [mbind option_bind].
  unfold free_inst, deref. simpl insts. rewrite lookup_insert_eq. cbn [mbind option_bind].
  assert (H1 : List.filter (fun x => negb (x =? p)) (chan_list e ++ [p]) = chan_list e).
  { rewrite List.filter_app, filter_id by done. simpl. rewrite Z.eqb_refl. apply app_nil_r. }
  assert (H2 : (total_chan_num e +u 1) -u 1 = total_chan_num e).
  { rewrite (dv_total _ Hd). unfold u32. rewrite Zplus_mod_idemp_l, Zminus_mod_idemp_l. f_equal. lia. }
  assert (H3 : delete p (<[p := s]> (insts e)) = insts e) by (by apply delete_insert_id).
  destruct e as [n t l m q]. simpl in *.
  exact (f_equal (fun x => Some (x, HI_FAILURE, s.(held)))
           (f_equal3 (fun t l m => mkEntry n t l m q) H2 H1 H3)).
Qed.

(** What is asked of a creation: the answers are as documented, memory is new. *)
Record create_keeps e (cfg : OMXVDEC_DRV_CFG) (a : create_answers) : Prop := {
  ck_answers : answers_ok a;
  ck_calc : calc_ok a;
  ck_counts : counts_ok cfg;
  ck_extra : extra_ok cfg a;
  ck_new : forall p, n_ctx a = Some p -> e.(insts) !! p = None;
  ck_room : Z.of_nat (length e.(chan_list)) < 2147483647;
}.

(** The new channel: idle, its id the smallest that is free. *)
Record created e fd e' p s ret : Prop := {
  cr_live : live s;
  cr_state : s.(ctx).(state) = CHAN_STATE_IDLE;
  cr_counters : counters_ok s.(ctx);
  cr_ret : ret = s.(ctx).(channel_id);
  cr_file : s.(ctx).(file_dec) = u32 fd;
  cr_least : least_free e ret;
  cr_insts : e'.(insts) = <[p := s]> e.(insts);
  cr_list : e'.(chan_list) = e.(chan_list) ++ [p];
}.

Lemma with_obj_twice e p s s' : with_obj (with_obj e p s) p s' = with_obj e p s'.
Proof. unfold with_obj. exact (f_equal (fun m => mkEntry _ _ _ m _) (insert_insert_eq _ _ _ _)). Qed.

Lemma deref_obj e p s : deref (with_obj e p s) p = Some s.
Proof. apply lookup_insert_eq. Qed.

Lemma some_bind {A B} (x : A) (f : A -> option B) : (x ← Some x; f x) = f x.
Proof. done. Qed.

Definition made_idle s : inst := s <| ctx ::= fun c => c <| state := CHAN_STATE_IDLE |> |>.

Lemma made_idle_ok s : live s -> counters_ok s.(ctx) ->
  live (made_idle s) /\ counters_ok (made_idle s).(ctx).
Proof.
  intros Hl [U P Z]. split; [|by split].
  destruct (lv_queues _ Hl) as [q Hq].
  assert (Hm : mild (ctx s) (ctx (made_idle s)))
    by (eapply mild_plain; [apply plain_state|by auto|apply mild_refl]).
  exact (live_kept _ _ _ _ _ Hl (proj1 (mild_served _ _ _ Hq Hm))).
Qed.

Lemma create_done e fd p s t r :
  device_ok e -> e.(insts) !! p = None -> Z.of_nat (length e.(chan_list)) < 2147483647 ->
  live s -> counters_ok s.(ctx) -> s.(ctx).(file_dec) = u32 fd -> s.(ctx).(channel_id) = r ->
  least_free e r -> table_ok t ->
  device_ok ((with_obj (listed e p) p (made_idle s)) <| pts := t |>)
  /\ created e fd ((with_obj (listed e p) p (made_idle s)) <| pts := t |>) p (made_idle s) r.
Proof.
  intros Hd Hp Hl Hs Hc Hf Hid Hr Ht. destruct (made_idle_ok s Hs Hc) as [Hs1 Hc1].
  assert (Hid1 : channel_id (ctx (made_idle s)) = r) by exact Hid. split.
  - destruct Hr as (Hr1 & Hr2 & _).
    apply (device_add e p (made_idle s) t Hd Hp Hs1); [done|lia|by rewrite Hid1|done].
  - by split.
Qed.

(** The end of a creation, on the paths that have built a channel and that have not. *)
Lemma finish_create_ok e fd p s0 s ok r :
  device_ok e -> 0 < e.(open_count) -> e.(insts) !! p = None ->
  Z.of_nat (length e.(chan_list)) < 2147483647 -> least_free e r ->
  (if (ok : bool) then live s /\ counters_ok s.(ctx) /\ s.(ctx).(channel_id) = r
     /\ s.(ctx).(file_dec) = u32 fd
   else s.(held) = [MSG_QUEUE] \/ s.(held) = calc_res ++ [MSG_QUEUE]) ->
  exists e' ret leak, finish_create (with_obj (listed e p) p s0) p s ok = Some (e', ret, leak)
    /\ device_ok e' /\ e'.(open_count) = e.(open_count)
    /\ ((ret = HI_FAILURE /\ e' = e /\ (leak = [] \/ leak = calc_res))
        \/ (leak = [] /\ exists p s, created e fd e' p s ret)).
Proof.
  intros Hd Ho Hp Hroom Hr Hb. unfold finish_create. destruct ok.
  - destruct Hb as (Hl & Hct & Hid & Hfile). fold (made_idle s).
    change (pts (with_obj (listed e p) p s0)) with (pts e).
    destruct (alloc_ok (pts e) (channel_id (ctx s)) (dv_table _ Hd Ho)) as (t & r1 & -> & Ht).
    { rewrite Hid. apply Hr. }
    cbn [mbind option_bind]. fold (with_obj (with_obj (listed e p) p s0) p (made_idle s)).
    rewrite with_obj_twice.
    destruct (create_done e fd p s t r Hd Hp Hroom Hl Hct Hfile Hid Hr Ht) as [Hok Hcr].
    change (channel_id (ctx (made_idle s))) with (channel_id (ctx s)). rewrite Hid.
    eexists _, _, _. split; [done|]. split_and!; [done|done|right; eauto].
  - assert (Hh : exists s1, hand_back MSG_QUEUE s = Some s1 /\ (held s1 = [] \/ held s1 = calc_res)).
    { destruct s as [c2 v d h]. simpl in Hb. unfold calc_res in *.
      destruct Hb as [->| ->]; [|destruct g_LowDelayStatistics]; eexists; (split; [done|]); auto. }
    destruct Hh as (s1 & -> & Hh). cbn [mbind option_bind].
    fold (with_obj (with_obj (listed e p) p s0) p s1).
    rewrite with_obj_twice, undo_create by done. eexists _, _, _. split_and!; [done|done|done|]. by left.
Qed.

Lemma channel_create_ok e fd g cfg a :
  device_ok e -> 0 < e.(open_count) -> create_keeps e cfg a ->
  exists e' ret leak, channel_create_inst e fd g cfg a = Some (e', ret, leak) /\ device_ok e'
    /\ e'.(open_count) = e.(open_count)
    /\ ((ret = HI_FAILURE /\ e' = e /\ (leak = [] \/ leak = calc_res))
        \/ (leak = [] /\ exists p s, created e fd e' p s ret)).
Proof.
  intros Hd Ho [Ha Hcalc Hcfg Hx Hnew Hroom]. unfold channel_create_inst.
  destruct (n_ctx a) as [p|]; [|eexists _, _, _; split_and!; [done|done|done|auto]].
  specialize (Hnew p eq_refl). destruct (init_ctx_ok fd) as (c & -> & Hf & Hfd & Hrec).
  cbn [mbind option_bind].
  destruct (add_record_ok e p c Hd Hnew Hroom) as (r & Hr & Er).
  fold (with_obj e p (mkInst c (0, 0) (0, 0) [])). rewrite Er.
  cbn [mbind option_bind]. fold (listed e p). set (c1 := c <| channel_id := r |>).
  destruct (n_msgq a); cbn [negb].
  2: { rewrite undo_create by done. eexists _, _, _. split_and!; [done|done|done|auto]. }
  rewrite deref_obj, some_bind.
  assert (acquire MSG_QUEUE (mkInst c1 (0, 0) (0, 0) []) = building c1 (0, 0) (0, 0) []) as -> by done.
  destruct (build_inst_ok g c1 cfg a Ha Hcalc Hcfg Hx ltac:(by destruct Hf; split) Hrec)
    as (s & ok & -> & Hb). cbn [mbind option_bind].
  apply (finish_create_ok e fd p _ s ok r); try done.
  destruct ok; [|done]. destruct Hb as (Hl & Hct & Hid & Hfile). by rewrite Hfile.
Qed.

(** ** Releasing a channel *)

(** What is left of the device without a channel. *)
Record dropped_chan e e' p : Prop := {
  dc_ok : device_ok e';
  dc_insts : e'.(insts) = delete p e.(insts);
  dc_list : e'.(chan_list) = List.filter (fun x => negb (x =? p)) e.(chan_list);
  dc_count : e'.(open_count) = e.(open_count);
}.

(** With the decoder's refusal to stop the statistics nothing happens; else the
    channel is gone and nothing is leaked. *)
Lemma channel_release_ok e p s a :
  device_ok e -> 0 < e.(open_count) -> e.(insts) !! p = Some s ->
  exists e' ret, channel_release_inst e p a = Some (e', ret, [])
    /\ if g_LowDelayStatistics && negb a.(l_calc) then e' = e /\ ret = HI_FAILURE
       else dropped_chan e e' p /\ ret = HI_SUCCESS.
Proof.
  intros Hd Ho Hs. unfold channel_release_inst. unfold deref at 1. rewrite Hs, some_bind.
  destruct (g_LowDelayStatistics && negb (l_calc a)); [eauto|].
  destruct (dv_live _ Hd p s Hs) as [Hl Hst]. destruct (dismantle_ok s a Hl) as (v & d & Ed).
  assert (Hin : p ∈ chan_list e) by (apply (dv_list _ Hd); by eexists).
  assert (Hsplit : forall (f : inst -> option (OMXVDEC_ENTRY * Z * list resource)),
    (s ← (if g_LowDelayStatistics then hand_back LOWDLAY_CALC s else Some s); s ← dismantle s a; f s)
    = f (mkInst (dismantled (ctx s) (l_stop a)) v d (delay_res (ctx s)))).
  { intros f. destruct (if g_LowDelayStatistics then hand_back LOWDLAY_CALC s else Some s); [|done].
    cbn [mbind option_bind] in *. by rewrite Ed. }
  rewrite Hsplit. cbn [ctx]. set (c := dismantled (ctx s) (l_stop a)).
  destruct (lv_queues _ Hl) as [q Hq].
  destruct (stop_running_ok (ctx s) q (l_stop a) Hq) as (_ & _ & Hid & _).
  destruct (free_ok (pts e) (channel_id c) (dv_table _ Hd Ho)) as (t & r & -> & Ht).
  { change (0 <= channel_id (stop_running (ctx s) (l_stop a))). rewrite Hid.
    apply (dv_range _ Hd p s Hs). }
  rewrite some_bind. unfold channel_delete_chan_record. rewrite decide_True by done. rewrite some_bind.
  unfold c. rewrite (free_delay_ok s (l_stop a) v d Hl).
  rewrite some_bind. unfold free_inst, deref. simpl insts. rewrite lookup_insert_eq. rewrite !some_bind.
  eexists _, _. split; [done|]. split; [|done]. split; try done.
  - pose proof (device_del e p t Hd Hin (proj1 Ht) (fun _ => Ht)) as Hdel. eapply eq_ind; [exact Hdel|].
    exact (f_equal (fun m => mkEntry _ _ _ m _) (eq_sym (delete_insert_eq _ _ _))).
  - exact (delete_insert_eq _ _ _).
Qed.

(** The firmware stops the statistics when it is asked to. *)
Definition calc_stops (a : release_answers) : Prop := g_LowDelayStatistics = true -> a.(l_calc) = true.

Definition of_file fd s : bool := s.(ctx).(file_dec) =? u32 fd.

Lemma release_all_ok fd answers : forall l e,
  device_ok e -> 0 < e.(open_count) -> NoDup l -> backed e l ->
  exists e', release_all e fd l answers = Some (e', []) /\ device_ok e'
    /\ e'.(open_count) = e.(open_count)
    /\ ((forall p, calc_stops (answers p)) -> forall p s, e'.(insts) !! p = Some s <->
          e.(insts) !! p = Some s /\ (p ∈ l -> of_file fd s = false)).
Proof.
  induction l as [|p l IH]; intros e Hd Ho Hnd Hb; simpl.
  { exists e. split_and!; [done|done|done|]. intros _ p s. split; [|tauto].
    intros Hs. split; [done|]. by intros ?%not_elem_of_nil. }
  apply NoDup_cons in Hnd as [Hp Hnd]. destruct (Hb p) as [s Hs]; [by left|].
  unfold deref. rewrite Hs, some_bind. destruct (dv_live _ Hd p s Hs) as [_ Hst].
  rewrite (bool_decide_eq_false_2 (state (ctx s) = CHAN_STATE_INVALID)) by done.
  cbn [negb]. rewrite andb_true_r. fold (of_file fd s). destruct (of_file fd s) eqn:Hf.
  - destruct (channel_release_ok e p s (answers p) Hd Ho Hs) as (e1 & ret & -> & Hrel).
    rewrite some_bind.
    assert (He1 : device_ok e1 /\ open_count e1 = open_count e /\ backed e1 l
      /\ (calc_stops (answers p) -> insts e1 = delete p (insts e))).
    { unfold calc_stops. destruct (g_LowDelayStatistics && negb (l_calc (answers p))) eqn:Hg.
      - destruct Hrel as [-> _]. split_and!; [done|done|intros x Hx; apply Hb; by right|].
        apply andb_true_iff in Hg as [-> Hg%negb_true_iff]. intros H. by rewrite H in Hg.
      - destruct Hrel as [[H1 H2 _ H4] _]. split_and!; [done|done| |done]. intros x Hx. rewrite H2.
        rewrite lookup_delete_ne by (intros <-; done). apply Hb. by right. }
    destruct He1 as (Hd1 & Ho1 & Hb1 & Hdel).
    destruct (IH e1 Hd1) as (e' & -> & Hd' & Ho' & Hin); [lia|done|done|].
    exists e'. split_and!; [done|done|congruence|]. intros Hstop p1 s1. rewrite Hin, Hdel by auto.
    rewrite lookup_delete_Some, elem_of_cons. split.
    + intros [[Hne H1] H2]. split; [done|]. intros [->|H3]; [done|auto].
    + intros [H1 H2]. destruct (decide (p = p1)) as [->|Hne]; [|auto 6].
      rewrite Hs in H1. injection H1 as <-. rewrite H2 in Hf; auto.
  - destruct (IH e Hd Ho Hnd) as (e' & -> & Hd' & Ho' & Hin); [intros x Hx; apply Hb; by right|].
    exists e'. split_and!; [done|done|done|]. intros Hstop p1 s1. rewrite Hin by done.
    rewrite elem_of_cons. split; intros [H1 H2]; (split; [done|]); [|by auto].
    intros [->|H3]; [|auto]. congruence.
Qed.

(** ** Opening and closing *)

Lemma device_table e t k :
  device_ok e -> length t = 16%nat -> 0 <= k <= MAX_OPEN_COUNT -> (0 < k -> table_ok t) ->
  device_ok (e <| open_count := k |> <| pts := t |>).
Proof. intros [] Hl Hk Ht. by split. Qed.

Lemma entry_count e k :
  k = e.(open_count) -> e <| open_count := k |> = e.
Proof. intros ->. by destruct e. Qed.

Lemma open_ok e g a :
  device_ok e ->
  exists e' ret, omxvdec_open e g a = Some (e', ret) /\ device_ok e'
    /\ ((e' = e /\ (ret = HI_FAILURE \/ ret = - EBUSY))
        \/ (ret = HI_SUCCESS /\ e'.(insts) = e.(insts) /\ e'.(chan_list) = e.(chan_list)
            /\ e'.(open_count) = e.(open_count) + 1)).
Proof.
  intros Hd. pose proof Hd as [_ _ _ _ _ _ Hlen Htab Hopen]. unfold omxvdec_open.
  destruct (Z.ltb_spec (open_count e) MAX_OPEN_COUNT) as [Hlt|]; [|eexists _, _; eauto 6].
  set (e1 := e <| open_count ::= fun k => k + 1 |>). cbv zeta.
  assert (Hundo : e1 <| open_count ::= fun k => k - 1 |> = e).
  { exact (entry_count e (open_count e + 1 - 1) ltac:(lia)). }
  rewrite Hundo. change (open_count e1) with (open_count e + 1).
  destruct (Z.eqb_spec (open_count e + 1) 1) as [H1|H1].
  - assert (Hret : channel_init a = HI_FAILURE \/ channel_init a = HI_SUCCESS)
      by (unfold channel_init; destruct (o_decoder a), (o_processor a); auto).
    destruct (negb (channel_init a =? HI_SUCCESS)) eqn:Hi.
    { eexists _, _. split_and!; [done|done|]. left. split; [done|]. destruct Hret as [|Hr]; [auto|].
      by rewrite Hr, Z.eqb_refl in Hi. }
    destruct (_ && _); [eexists _, _; eauto 6|].
    destruct (init_ok (pts e1) Hlen) as (t & -> & Ht). rewrite some_bind.
    eexists _, _. split; [done|]. split; [|by right].
    exact (device_table e t (open_count e + 1) Hd (proj1 Ht) ltac:(lia) (fun _ => Ht)).
  - eexists _, _. split; [done|]. split; [|by right].
    pose proof (device_table e (pts e) (open_count e + 1) Hd Hlen ltac:(lia)) as Hdt.
    assert (table_ok (pts e)) as Ht by (apply Htab; lia). specialize (Hdt (fun _ => Ht)).
    by destruct e.
Qed.

(** A close releases the channels of its file, and no others. *)
Lemma close_ok e fd answers :
  device_ok e -> 0 < e.(open_count) ->
  exists e', omxvdec_release e fd answers = Some (e', []) /\ device_ok e'
    /\ e'.(open_count) = e.(open_count) - 1
    /\ ((forall p, calc_stops (answers p)) -> forall p s, e'.(insts) !! p = Some s <->
          e.(insts) !! p = Some s /\ of_file fd s = false).
Proof.
  intros Hd Ho. unfold omxvdec_release.
  destruct (release_all_ok fd answers (chan_list e) e Hd Ho (dv_nodup _ Hd) (device_backed _ Hd))
    as (e1 & -> & Hd1 & Ho1 & Hin). rewrite some_bind. cbv zeta.
  assert (Hin' : (forall p, calc_stops (answers p)) -> forall p s, e1.(insts) !! p = Some s <->
          e.(insts) !! p = Some s /\ of_file fd s = false).
  { intros Hs p s. rewrite (Hin Hs). split; intros [H1 H2]; (split; [done|]); [|by auto].
    apply H2, (dv_list _ Hd). by eexists. }
  rewrite Ho1. destruct (Z.gtb_spec (open_count e) 0); [|lia].
  set (e2 := e1 <| open_count ::= fun k => k - 1 |>).
  change (open_count e2) with (open_count e1 - 1). rewrite Ho1.
  pose proof (dv_table _ Hd1) as Ht1. rewrite Ho1 in Ht1. specialize (Ht1 Ho).
  pose proof (dv_open _ Hd1) as Hopen. rewrite Ho1 in Hopen.
  destruct (Z.eqb_spec (open_count e - 1) 0) as [Hz|Hz].
  - destruct (deinit_from_ok 16 (pts e2) 0 Ht1) as (t & r & Et & Ht); [lia|lia|].
    unfold OMX_PTSREC_DeInit. change (Z.to_nat PTS_REC_MAX_NUM) with 16%nat.
    rewrite Et, some_bind. eexists. split; [done|]. split_and!; [| |done].
    + pose proof (device_table e1 t (open_count e1 - 1) Hd1 (proj1 Ht)) as Hdt.
      apply Hdt; [lia|done].
    + simpl. lia.
  - eexists. split; [done|]. split_and!; [|simpl; lia|done].
    pose proof (device_table e1 (pts e1) (open_count e1 - 1) Hd1 (proj1 Ht1)) as Hdt.
    unfold e2. destruct e1. apply Hdt; [simpl in *; lia|done].
Qed.

(** ** Calls on a channel *)

Lemma exec_ok e p s cmd :
  0 < g_lowdelay_count_frame -> device_ok e -> 0 < e.(open_count) -> e.(insts) !! p = Some s ->
  allowed s.(ctx) cmd ->
  exists c t ret, chan_exec s.(ctx) e.(pts) cmd = Some (c, t, ret)
    /\ device_ok (e <| insts ::= <[p := s <| ctx := c |>]> |> <| pts := t |>).
Proof.
  intros Hg Hd Ho Hs Ha. destruct (dv_live _ Hd p s Hs) as [Hl Hst].
  destruct (lv_queues _ Hl) as [q Hq].
  destruct (chan_exec_ok (ctx s) q (pts e) cmd Hg Hq (dv_table _ Hd Ho)) as
    (c & t & q' & ret & -> & Ht & [Hk _ Hinv]); [apply (dv_range _ Hd p s Hs)|done|].
  eexists _, _, _. split; [done|]. eapply device_set; [done|done| | | | |done].
  - by eapply live_kept.
  - by apply Hinv.
  - apply (kp_id _ _ _ _ _ Hk).
  - apply Ht.
Qed.

Lemma hw_on_ok e p s h :
  0 < g_lowdelay_count_frame -> device_ok e -> e.(insts) !! p = Some s ->
  exists c, hw_exec s.(ctx) h = Some c
    /\ device_ok (e <| insts ::= <[p := s <| ctx := c |>]> |>).
Proof.
  intros Hg Hd Hs. destruct (dv_live _ Hd p s Hs) as [Hl Hst].
  destruct (lv_queues _ Hl) as [q Hq].
  destruct (hw_exec_ok (ctx s) q h Hg Hq) as (c & q' & -> & [Hk _ Hstate]).
  exists c. split; [done|].
  assert (Hset : device_ok (e <| insts ::= <[p := s <| ctx := c |>]> |> <| pts := pts e |>)).
  { eapply device_set; [done|done| | | | |].
    - by eapply live_kept.
    - simpl. congruence.
    - apply (kp_id _ _ _ _ _ Hk).
    - apply (dv_len _ Hd).
    - apply (dv_table _ Hd). }
  by destruct e.
Qed.

Lemma find_inst_ok e handle get :
  device_ok e ->
  exists r, find_inst e handle get = Some r
    /\ match r with
       | Some p => 0 <= handle /\ exists s, e.(insts) !! p = Some s /\ get s.(ctx) = handle
       | None => handle < 0 \/ forall p s, e.(insts) !! p = Some s -> get s.(ctx) <> handle
       end.
Proof.
  intros Hd. unfold find_inst. destruct (Z.ltb_spec handle 0); [eexists; split; [done|by left]|].
  destruct (find_chan_ok e (fun c => get c =? handle) (chan_list e) (device_backed _ Hd)) as (r & -> & Hr).
  exists r. split; [done|]. destruct r as [p|].
  - destruct Hr as (_ & s & Hs & Ht%Z.eqb_eq). eauto.
  - right. intros p s Hs. apply Z.eqb_neq. apply (Hr p s); [|done]. apply (dv_list _ Hd). by eexists.
Qed.

(** ** Every call on the device *)

(** What may be leaked: the statistics of a creation that failed after their start. *)
Definition leak_ok (leak : list resource) : Prop :=
  Forall (fun r => r = LOWDLAY_CALC /\ g_LowDelayStatistics = true) leak.

Lemma leak_calc leak : leak = [] \/ leak = calc_res -> leak_ok leak.
Proof.
  intros [-> | ->]; [constructor|]. unfold calc_res. destruct g_LowDelayStatistics eqn:Hg; [|constructor].
  by repeat constructor.
Qed.

(** The side of the user and of the platform in an ioctl. *)
Definition ioctl_keeps e (chan_num : Z) (cmd : ioctl_cmd) : Prop :=
  match cmd with
  | VDEC_IOCTL_CHAN_CREATE (Some cfg) a _ => create_keeps e cfg a
  | VDEC_IOCTL_CHAN cmd _ =>
      forall p s, e.(insts) !! p = Some s -> s.(ctx).(channel_id) = chan_num -> allowed s.(ctx) cmd
  | _ => True
  end.

Lemma ioctl_ok e fd chan_num g cmd :
  0 < g_lowdelay_count_frame -> device_ok e -> 0 < e.(open_count) -> ioctl_keeps e chan_num cmd ->
  exists e' ret leak, omxvdec_ioctl e fd chan_num g cmd = Some (e', ret, leak)
    /\ device_ok e' /\ leak_ok leak.
Proof.
  intros Hg Hd Ho Hk. assert (Hsame : forall ret : Z, exists e' (ret' : Z) leak,
    Some (e, ret, []) = Some (e', ret', leak) /\ device_ok e' /\ leak_ok leak)
    by (intros ret; eexists _, _, _; split_and!; [done|done|constructor]).
  destruct cmd as [[cfg|] a copied|a|ret copied|cmd copied|]; unfold omxvdec_ioctl.
  1: { destruct (channel_create_ok e fd g cfg a Hd Ho Hk) as (e' & ret & leak & -> & Hd' & _ & Hcase).
       rewrite some_bind. assert (leak_ok leak) by (apply leak_calc; naive_solver).
       destruct (ret <? 0); eexists _, _, _; by split_and!. }
  1: apply Hsame.
  all: destruct (chan_num <? 0); [apply Hsame|].
  all: destruct (find_inst_ok e chan_num channel_id Hd) as (found & Ef & Hf);
    unfold channel_find_inst_by_channel_id; rewrite Ef, some_bind;
    destruct found as [p|]; [|apply Hsame].
  all: destruct Hf as (_ & s & Hs & Hid).
  - destruct (channel_release_ok e p s a Hd Ho Hs) as (e' & ret & -> & Hrel). rewrite some_bind.
    eexists _, _, _. split_and!; [done| |constructor].
    destruct (_ && _); [by destruct Hrel as [-> _]|apply Hrel].
  - apply Hsame.
  - destruct (copy_error cmd copied); [apply Hsame|]. unfold deref. rewrite Hs, some_bind.
    destruct (exec_ok e p s cmd Hg Hd Ho Hs) as (c & t & ret & -> & Hd'); [by eapply Hk|].
    rewrite some_bind. eexists _, _, _. split_and!; [done|done|constructor].
  - apply Hsame.
Qed.

Lemma event_ok e handle h :
  0 < g_lowdelay_count_frame -> device_ok e ->
  exists e', hw_event e handle h = Some e' /\ device_ok e'.
Proof.
  intros Hg Hd. unfold hw_event.
  assert (exists found, hw_find e handle h = Some found
    /\ forall p, found = Some p -> exists s, e.(insts) !! p = Some s) as (found & -> & Hf).
  { unfold hw_find, channel_find_inst_by_decoder_id, channel_find_inst_by_channel_id.
    destruct h; [destruct (find_inst_ok e handle channel_id Hd) as (r & -> & Hr)
                |destruct (find_inst_ok e handle channel_id Hd) as (r & -> & Hr)
                |destruct (find_inst_ok e handle channel_id Hd) as (r & -> & Hr)
                |destruct (find_inst_ok e handle decoder_id Hd) as (r & -> & Hr)];
      (exists r; split; [done|]; intros p ->; naive_solver). }
  rewrite some_bind. destruct found as [p|]; [|eauto]. destruct (Hf p eq_refl) as [s Hs].
  unfold deref. rewrite Hs, some_bind. destruct (hw_on_ok e p s h Hg Hd Hs) as (c & -> & Hd').
  rewrite some_bind. eauto.
Qed.

Inductive dev_call :=
| DEV_OPEN (g : omx_switches) (a : open_answers)
| DEV_CLOSE (fd : Z) (answers : Z -> release_answers)
| DEV_IOCTL (fd chan_num : Z) (g : omx_switches) (cmd : ioctl_cmd)
| DEV_EVENT (handle : Z) (h : hw_call).

(** The device after a call, and what the call leaked. *)
Definition dev_step e (call : dev_call) : option (OMXVDEC_ENTRY * list resource) :=
  match call with
  | DEV_OPEN g a => '(e, _) ← omxvdec_open e g a; Some (e, [])
  | DEV_CLOSE fd answers => omxvdec_release e fd answers
  | DEV_IOCTL fd chan_num g cmd => '(e, _, leak) ← omxvdec_ioctl e fd chan_num g cmd; Some (e, leak)
  | DEV_EVENT handle h => e ← hw_event e handle h; Some (e, [])
  end.

(** Files are used and closed while they are open. *)
Definition dev_keeps e (call : dev_call) : Prop :=
  match call with
  | DEV_OPEN _ _ | DEV_EVENT _ _ => True
  | DEV_CLOSE _ _ => 0 < e.(open_count)
  | DEV_IOCTL _ chan_num _ cmd => 0 < e.(open_count) /\ ioctl_keeps e chan_num cmd
  end.

Lemma dev_step_ok e call :
  0 < g_lowdelay_count_frame -> device_ok e -> dev_keeps e call ->
  exists e' leak, dev_step e call = Some (e', leak) /\ device_ok e' /\ leak_ok leak.
Proof.
  intros Hg Hd Hk. destruct call as [g a|fd answers|fd chan_num g cmd|handle h]; unfold dev_step.
  - destruct (open_ok e g a Hd) as (e' & ret & -> & Hd' & _). rewrite some_bind.
    eexists _, _. split_and!; [done|done|constructor].
  - destruct (close_ok e fd answers Hd Hk) as (e' & -> & Hd' & _).
    eexists _, _. split_and!; [done|done|constructor].
  - destruct Hk as [Ho Hk].
    destruct (ioctl_ok e fd chan_num g cmd Hg Hd Ho Hk) as (e' & ret & leak & -> & Hd' & Hl).
    rewrite some_bind. eauto.
  - destruct (event_ok e handle h Hg Hd) as (e' & -> & Hd'). rewrite some_bind.
    eexists _, _. split_and!; [done|done|constructor].
Qed.

Fixpoint dev_run e (calls : list dev_call) : option (OMXVDEC_ENTRY * list resource) :=
  match calls with
  | [] => Some (e, [])
  | call :: calls =>
      '(e, leak) ← dev_step e call; '(e, leak') ← dev_run e calls; Some (e, leak ++ leak')
  end.

Fixpoint dev_along e (calls : list dev_call) : Prop :=
  match calls with
  | [] => True
  | call :: calls =>
      dev_keeps e call /\ forall e' leak, dev_step e call = Some (e', leak) -> dev_along e' calls
  end.

Lemma dev_run_ok calls : forall e,
  0 < g_lowdelay_count_frame -> device_ok e -> dev_along e calls ->
  exists e' leak, dev_run e calls = Some (e', leak) /\ device_ok e' /\ leak_ok leak.
Proof.
  induction calls as [|call calls IH]; intros e Hg Hd Ha; simpl.
  - eexists _, _. split_and!; [done|done|constructor].
  - destruct Ha as [Hk Ha]. destruct (dev_step_ok e call Hg Hd Hk) as (e1 & l1 & E1 & Hd1 & Hl1).
    rewrite E1, some_bind. destruct (IH e1 Hg Hd1 (Ha _ _ E1)) as (e' & l2 & -> & Hd' & Hl2).
    rewrite some_bind. eexists _, _. split_and!; [done|done|by apply Forall_app].
Qed.

(** The module as it is loaded: the time-stamp table is in static memory. *)
Definition loaded (t : chan_table) : OMXVDEC_ENTRY := mkEntry 0 0 [] ∅ t.

Lemma loaded_ok t : length t = 16%nat -> device_ok (loaded t).
Proof.
  intros Hl. split; try done.
  - apply NoDup_nil_2.
  - intros p. split; [by intros ?%not_elem_of_nil|by intros [? [=]]].
Qed.
End Device.
