(* ===== verification/OmxFlush.v ===== *)
(** * Reading the queues of a channel, and the end of a flush

    The sequence of nodes queued at a port, read off the links, is the abstract
    queue of OmxQueue.v. With it the tables have a type that mentions no abstract
    state, and a flush that waits for the hardware ends with its last return. *)

From S2P Require Import Prelude KList FrameRate PtsRec OmxDelay OmxChan OmxHw OmxQueue OmxCalls.
From S2P Require Import OmxServe OmxReturn.

(** The nodes after [n] up to the head. *)
Fixpoint walk (m : gmap node (list_head node)) (h : node) (fuel : nat) (n : node) : list node :=
  match fuel with
  | O => []
  | S fuel =>
      match list_next m n with
      | Some n' => if decide (n' = h) then [] else n' :: walk m h fuel n'
      | None => []
      end
  end.

Definition queue_at (c : OMXVDEC_CHAN_CTX) (p : port_dir) : list node :=
  walk c.(links) (QHead p) (S (size c.(links))) (QHead p).

Lemma walk_ok m h l : forall a fuel,
  seg m a l h -> h ∉ l -> (length l < fuel)%nat -> walk m h fuel a = l.
Proof.
  induction l as [|x l IH]; intros a [|fuel] Hs Hh Hf; simpl in *; try lia.
  - destruct Hs as [-> _]. by rewrite decide_True.
  - destruct Hs as [[-> _] Hs]. apply not_elem_of_cons in Hh as [Hx Hh].
    rewrite decide_False by done. f_equal. apply IH; [done|done|lia].
Qed.

Section Reading.
Context {C : HiConsts} {E : OmxEnv} {Ok : HiConstsOk C}.
Implicit Types (c : OMXVDEC_CHAN_CTX) (p : port_dir) (n : node) (q : port_dir -> list node).

Lemma queue_at_ok c q p : queues_ok c q -> queue_at c p = q p.
Proof.
  intros Hok. pose proof (qo_list _ _ Hok p) as Hl. pose proof Hl as [[Hh _]%NoDup_cons Hs].
  apply walk_ok; [done|done|]. by eapply is_list_length.
Qed.

(** The invariant without an abstract state. *)
Definition sound c : Prop := exists q, queues_ok c q.

(** The tables and queues as their type would state it: bound slots are dense,
    numbered and apart by address; a buffer is idle just when it is not linked
    into its port's queue; slots that are not bound and other ports' slots are
    never linked. *)
Record typed c : Prop := {
  ty_num : forall p, 0 <= num p c <= max_num p c;
  ty_table : forall p i, is_Some (node_buf c (Slot p i)) <-> 0 <= i < max_num p c;
  ty_slot : forall p i b, 0 <= i < num p c -> node_buf c (Slot p i) = Some b ->
    b.(status) <> BUF_STATE_INVALID /\ b.(buf_id) = i
    /\ (b.(status) = BUF_STATE_IDLE <-> Slot p i ∉ queue_at c p);
  ty_addr : forall p i j bi bj, 0 <= i < num p c -> 0 <= j < num p c ->
    node_buf c (Slot p i) = Some bi -> node_buf c (Slot p j) = Some bj ->
    bi.(phy_addr) = bj.(phy_addr) -> i = j;
  ty_queue : forall p n, n ∈ queue_at c p ->
    (n = LastFrame /\ p = IN) \/ exists i, n = Slot p i /\ 0 <= i < num p c;
  ty_once : forall p, NoDup (queue_at c p);
  ty_last : c.(eos_in_list) = true <-> LastFrame ∈ queue_at c IN;
}.

Lemma sound_typed c : sound c -> typed c.
Proof.
  intros [q Hok]. split.
  - apply (qo_size _ _ Hok).
  - apply (qo_slots _ _ Hok).
  - intros p i b Hi Hb. rewrite (queue_at_ok c q p Hok).
    destruct (qo_buf _ _ Hok p i b Hi Hb). by split_and!.
  - apply (qo_addr _ _ Hok).
  - intros p n. rewrite (queue_at_ok c q p Hok). apply (qo_node _ _ Hok).
  - intros p. rewrite (queue_at_ok c q p Hok). apply (queue_nodup _ _ Hok).
  - rewrite (queue_at_ok c q IN Hok). apply (qo_last _ _ Hok).
Qed.

(** ** The hardware returns what it has *)

Definition addr_of c n : Z := from_option hw_addr 0 (node_buf c n).

(** The decoder returns the buffers at the addresses; each with a tag. *)
Fixpoint return_streams (stack : OMXVDEC_BUF_DESC) (now : Z) c (l : list (Z * Z))
    : option OMXVDEC_CHAN_CTX :=
  match l with
  | [] => Some c
  | (addr, tag) :: l =>
      '(c, _) ← release_stream c addr tag stack now; return_streams stack now c l
  end.

Definition flush_done p (e : event) : Prop := exists st d, e = MSG (flushed_code p) st d.

Lemma gives_no_flush desc n : Forall (fun e => ~ flush_done IN e) (gives IN desc n).
Proof.
  unfold gives. destruct n; repeat constructor. by intros (st & d & [=]).
Qed.

(** One return of a buffer in use while a flush waits. *)
Lemma return_one stack now c q addr tag :
  0 < g_lowdelay_count_frame -> queues_ok c q -> counted c q -> pending IN c = true ->
  (forall n, n ∈ q IN -> in_use c n = true) -> NoDup (map (addr_of c) (q IN)) ->
  addr ∈ map (addr_of c) (q IN) ->
  exists c' q' evs, release_stream c addr tag stack now = Some (c', HI_SUCCESS)
    /\ kept c q c' q' nothing /\ counted c' q'
    /\ (forall n, n ∈ q' IN -> in_use c' n = true)
    /\ addr :: map (addr_of c') (q' IN) ≡ₚ map (addr_of c) (q IN)
    /\ Forall (fun e => ~ flush_done IN e) evs
    /\ pending IN c' = negb (bool_decide (q' IN = []))
    /\ trace c' = trace c ++ evs ++
         (if bool_decide (q' IN = []) then [MSG (flushed_code IN) VDEC_S_SUCCESS NoData] else []).
Proof.
  intros Hg Hok Hct Hp Hu Hnd Ha.
  destruct (release_stream_ok c q addr tag stack now Hg Hok)
    as (c' & q' & ret & -> & Hk & _ & [(_ & _ & _ & Hno)|(-> & n & b & l1 & l2 & Hnm & -> & Ht & Hc & Hb & Hus & Hpe)]).
  { exfalso. apply list_elem_of_fmap in Ha as (n & -> & Hn). destruct (queued_buf _ _ Hok IN n Hn) as [b Hb].
    apply (Hno n b Hn Hb). unfold addr_of. by rewrite Hb. }
  destruct Hnm as [Hq Hbn Haddr _]. specialize (Hc (Hu n ltac:(rewrite Hq; set_solver)) Hct).
  pose proof (kp_ok _ _ _ _ _ Hk) as Hok'. pose proof (queue_nodup _ _ Hok IN) as Hndq. rewrite Hq in Hndq.
  assert (Hne : forall m, m ∈ l1 ++ l2 -> m <> n).
  { apply NoDup_app in Hndq as (_ & Hd & [Hn2 _]%NoDup_cons). intros m [Hm|Hm]%elem_of_app ->; [|done].
    apply (Hd n Hm). by left. }
  assert (Huse : forall m, m ∈ l1 ++ l2 -> in_use c' m = true).
  { intros m Hm. unfold in_use. rewrite Hb by (by apply Hne). apply Hu. rewrite Hq. set_solver. }
  assert (Hcnt : uses IN c' = Z.of_nat (length (l1 ++ l2))).
  { rewrite (ct_uses _ _ Hc), upd_eq. by apply taken_all. }
  assert (Hz : (uses IN c' =? 0) = bool_decide (l1 ++ l2 = [])).
  { rewrite Hcnt. destruct (l1 ++ l2) as [|x l]; [done|]. simpl length. rewrite bool_decide_eq_false_2 by done.
    apply Z.eqb_neq. lia. }
  exists c', (upd IN (l1 ++ l2) q), (gives IN (stream_desc stack b) n).
  rewrite upd_eq. split_and!; [done|done|done|done| |apply gives_no_flush|by rewrite Hpe, Hp, Hz|].
  - rewrite Hq, !map_app. simpl. rewrite <- Permutation_middle.
    assert (addr = addr_of c n) as -> by (unfold addr_of; by rewrite Hbn). apply perm_skip.
    rewrite <- map_app, <- map_app. erewrite map_ext_in; [done|].
    intros m Hm%list_elem_of_In. unfold addr_of. by rewrite Hb by (by apply Hne).
  - by rewrite Ht, Hp, <- Hus, Hz.
Qed.

Lemma return_all stack now (l : list (Z * Z)) : forall c q,
  0 < g_lowdelay_count_frame -> queues_ok c q -> counted c q -> pending IN c = true ->
  (forall n, n ∈ q IN -> in_use c n = true) -> NoDup (map fst l) ->
  map fst l ≡ₚ map (addr_of c) (q IN) ->
  exists c' q' evs, return_streams stack now c l = Some c' /\ kept c q c' q' nothing /\ counted c' q'
    /\ q' IN = [] /\ pending IN c' = false
    /\ Forall (fun e => ~ flush_done IN e) evs
    /\ trace c' = trace c ++ evs ++ [MSG (flushed_code IN) VDEC_S_SUCCESS NoData].
Proof.
  induction l as [|[addr tag] l IH]; intros c q Hg Hok Hct Hp Hu Hnd Hl; simpl in *.
  { exfalso. pose proof (ct_pending _ _ Hct IN Hp) as Hpos. rewrite (ct_uses _ _ Hct) in Hpos.
    apply Permutation_nil_l in Hl. symmetry in Hl. apply map_eq_nil in Hl. rewrite Hl in Hpos. done. }
  assert (Hnd' : NoDup (map (addr_of c) (q IN))) by (by rewrite <- Hl).
  destruct (return_one stack now c q addr tag Hg Hok Hct Hp Hu Hnd')
    as (c1 & q1 & evs & -> & Hk1 & Hct1 & Hu1 & Hl1 & He & Hp1 & Ht1); [rewrite <- Hl; by left|].
  pose proof (kp_ok _ _ _ _ _ Hk1) as Hok1.
  cbn [mbind option_bind]. apply NoDup_cons in Hnd as [_ Hnd].
  assert (Hl' : map fst l ≡ₚ map (addr_of c1) (q1 IN)).
  { apply (Permutation_cons_inv (a := addr)). by rewrite Hl, <- Hl1. }
  destruct (decide (q1 IN = [])) as [Hq|Hq].
  - rewrite Hq in Hl'. apply Permutation_nil_r, map_eq_nil in Hl' as ->. simpl.
    rewrite bool_decide_eq_true_2 in Hp1, Ht1 by done. by exists c1, q1, evs.
  - rewrite bool_decide_eq_false_2 in Hp1, Ht1 by done. rewrite app_nil_r in Ht1.
    destruct (IH c1 q1 Hg Hok1 Hct1 Hp1 Hu1 Hnd Hl') as (c2 & q2 & evs2 & -> & Hk2 & Hct2 & Hq2 & Hp2 & He2 & Ht2).
    exists c2, q2, (evs ++ evs2). split_and!; [done| |done|done|done|by apply Forall_app|].
    { exact (kept_trans _ _ _ _ _ _ nothing nothing Hk1 Hk2). }
    by rewrite Ht2, Ht1, !app_assoc.
Qed.

Lemma flush_event_no_done c p n : Forall (fun e => ~ flush_done p e) (flush_event c p n).
Proof.
  unfold flush_event. destruct (in_use c n); [constructor|]. destruct n as [|p' i|]; [constructor| |constructor].
  destruct (node_buf c (Slot p' i)); repeat constructor. intros (st & d & [= H]). by destruct p.
Qed.

Lemma flush_events_no_done c p (l : list node) :
  Forall (fun e => ~ flush_done p e) (flat_map (flush_event c p) l).
Proof.
  induction l as [|n l IH]; [constructor|]. apply Forall_app. split; [apply flush_event_no_done|done].
Qed.

Lemma all_taken c (l : list node) :
  taken c l = Z.of_nat (length l) -> forall n, n ∈ l -> in_use c n = true.
Proof.
  induction l as [|x l IH]; intros Ht n Hn; [by apply not_elem_of_nil in Hn|].
  rewrite taken_cons in Ht. simpl length in Ht.
  assert (taken c l <= Z.of_nat (length l)).
  { unfold taken. pose proof (filter_length_le (in_use c) l). lia. }
  destruct (in_use c x) eqn:Hx; [|lia].
  apply elem_of_cons in Hn as [->|Hn]; [done|]. apply IH; [lia|done].
Qed.

(** After a flush the queue is what the hardware has. *)
Lemma flush_leaves c q :
  queues_ok c q -> counted c q ->
  exists c1 q1, channel_flush_in_port c = Some (c1, HI_SUCCESS) /\ kept c q c1 q1 nothing /\ counted c1 q1
    /\ q1 IN = List.filter (in_use c) (q IN)
    /\ (forall n, n ∈ q1 IN -> in_use c1 n = true)
    /\ pending IN c1 = (uses IN c >? 0)
    /\ trace c1 = trace c ++ flat_map (flush_event c IN) (q IN) ++
         (if uses IN c >? 0 then [VFMW RELEASE_STREAM]
          else [MSG (flushed_code IN) VDEC_S_SUCCESS NoData]).
Proof.
  intros Hok Hct.
  destruct (flush_in_port_ok c q Hok) as (c1 & q1 & -> & Hs & Hq1 & _ & Hu & Hrest).
  destruct (Hrest Hct) as [Hp Ht]. pose proof (sv_counted _ _ _ _ _ Hs Hct) as Hct1.
  exists c1, q1. split_and!; [done|by apply served_kept|done|done| |done|done].
  apply all_taken. rewrite <- (ct_uses _ _ Hct1), Hu, (ct_uses _ _ Hct), Hq1. done.
Qed.
End Reading.
