(* ===== verification/OmxFifo.v ===== *)
(** * The order of the stream buffers

    The stream buffers that wait for the decoder, in the order of the queue. A
    submission appends to them, the decoder takes the first, and every other call
    leaves them as they are; over a run the decoder gets the buffers in the order
    in which they were submitted. *)

From S2P Require Import Prelude KList FrameRate PtsRec OmxDelay OmxChan OmxHw OmxQueue OmxCalls.
From S2P Require Import OmxServe OmxReturn OmxBind OmxInit OmxDev OmxRun OmxFlush.

Section Fifo.
Context {C : HiConsts} {E : OmxEnv} {Ok : HiConstsOk C}.
Implicit Types (c : OMXVDEC_CHAN_CTX) (p : port_dir) (n : node) (q : port_dir -> list node).

(** The user's tags of the queued stream buffers that the decoder has not got. *)
Definition free_tags c n : list Z := if in_use c n then [] else owes c n.
Definition waiting_in c (l : list node) : list Z := flat_map (free_tags c) l.
Definition waits c : list Z := waiting_in c (queue_at c IN).

(** The tag of the buffer that a call of the decoder takes: the one that is in use
    after the call and was not before, and whose address the decoder is given. *)
Definition got c (call : chan_call) : list Z :=
  match call with
  | HARDWARE (HW_GET_STREAM now) =>
      match get_stream c now with
      | Some (c', Some s, _) =>
          flat_map (fun n => if in_use c n then [] else
                             if in_use c' n && (s.(PhyAddr) =? addr_of c n) then owes c n else [])
            (queue_at c IN)
      | _ => []
      end
  | _ => []
  end.

(** The tag of the buffer with data that a call of the user submits: the one bound
    at the address in the description, when the call succeeds. *)
Definition put c (call : chan_call) : list Z :=
  match call with
  | USER (EMPTY_INPUT_STREAM d now) =>
      if d.(data_len) =? 0 then [] else
      match channel_empty_this_stream c d now with
      | Some (_, ret) => if ret =? HI_SUCCESS
                         then option_list (client_data <$> bound_at c IN d.(phyaddr)) else []
      | None => []
      end
  | _ => []
  end.

(** ** Calls that leave the stream buffers alone *)

Record in_same c c' : Prop := {
  is_table : (inp c').(buf_table) = (inp c).(buf_table);
  is_last : c'.(last_frame) = c.(last_frame);
}.

#[local] Instance in_same_equiv : Equivalence in_same.
Proof.
  split.
  - intros c. by split.
  - intros c c' []. by split.
  - intros c1 c2 c3 [] []. split; congruence.
Qed.

Lemma waiting_core c c' (l : list node) :
  (forall n, n ∈ l -> core <$> node_buf c' n = core <$> node_buf c n) ->
  waiting_in c' l = waiting_in c l.
Proof.
  unfold waiting_in. induction l as [|n l IH]; intros Hc; [done|]. cbn [flat_map].
  rewrite IH by set_solver. f_equal. unfold free_tags, in_use, owes.
  specialize (Hc n ltac:(set_solver)).
  destruct (node_buf c' n) as [b'|], (node_buf c n) as [b|]; try done.
  injection Hc as [= H1 H2 H3 H4]. cbn [from_option]. rewrite H1.
  destruct n; try done. cbn. by rewrite H4.
Qed.

Lemma waits_in_same c c' q q' :
  queues_ok c q -> queues_ok c' q' -> q' IN = q IN -> in_same c c' -> waits c' = waits c.
Proof.
  intros Hok Hok' Hq [Ht Hl]. unfold waits. rewrite (queue_at_ok c q IN Hok), (queue_at_ok c' q' IN Hok'), Hq.
  apply waiting_core. intros n Hn. destruct (qo_node _ _ Hok IN n Hn) as [[-> _]|(i & -> & _)]; simpl.
  - by rewrite Hl.
  - by rewrite Ht.
Qed.

Lemma waits_quiet c c' q : queues_ok c q -> quiet c c' -> waits c' = waits c.
Proof.
  intros Hok Hq. unfold waits.
  rewrite (queue_at_ok c q IN Hok), (queue_at_ok c' q IN (quiet_ok _ _ _ Hok Hq)).
  apply waiting_core. intros n _. apply Hq.
Qed.

Lemma waits_parked c c' q : queues_ok c q -> parked c c' -> waits c' = waits c.
Proof.
  intros Hok Hp. unfold waits.
  rewrite (queue_at_ok c q IN Hok), (queue_at_ok c' q IN (parked_ok _ _ _ Hok Hp)).
  apply waiting_core. intros n _. by rewrite (pk_buf _ _ Hp).
Qed.

Lemma queued_out c q n : queues_ok c q -> n ∈ q OUT -> exists i, n = Slot OUT i.
Proof.
  intros Hok Hn. destruct (qo_node _ _ Hok OUT n Hn) as [[_ ?]|(i & -> & _)]; [done|by eexists].
Qed.

(** A change of a frame buffer. *)
Lemma alter_out_same c i f c' : alter_buf c (Slot OUT i) f = Some c' -> in_same c c'.
Proof.
  unfold alter_buf, set_buf. destruct (node_buf c _); [|done]. cbn [mbind option_bind].
  destruct (arr_set _ _ _); [|done]. cbn [mbind option_bind]. intros [= <-]. by split.
Qed.

Lemma on_links_same c f c' : on_links c f = Some c' -> in_same c c'.
Proof. unfold on_links. destruct (f _); [|done]. intros [= <-]. by split. Qed.

Lemma finish_pending_same c : in_same c (finish_pending c).
Proof. unfold finish_pending. repeat case_match; by split. Qed.

Lemma release_frame_same c q addr c' ret :
  queues_ok c q -> processor_release_frame c addr = Some (c', ret) -> in_same c c'.
Proof.
  intros Hok. unfold processor_release_frame, release_frame_mark.
  destruct (addr =? 0); [intros [= <- _]; reflexivity|].
  destruct (list_empty _ _) as [[]|]; cbn [mbind option_bind]; [intros [= <- _]; reflexivity| |done].
  destruct (find_hw_ok c q OUT addr Hok) as (r & -> & Hr). cbn [mbind option_bind].
  destruct r as [n|]; cbn [mbind option_bind]; [|intros [= <- _]; reflexivity].
  destruct Hr as (b & l1 & l2 & [Hq _ _ _]).
  destruct (queued_out c q n Hok) as [i ->]; [rewrite Hq; set_solver|].
  destruct (alter_buf c _ _) as [c1|] eqn:E1; [|done]. cbn [mbind option_bind].
  apply alter_out_same in E1. unfold release_frame_finish. cbv zeta.
  assert (E2 : in_same c1 (on_port OUT drop_use c1)) by (by split).
  destruct (_ || _).
  - destruct (on_links _ _) as [c3|] eqn:E3; [|done]. cbn [mbind option_bind].
    destruct (node_buf c3 _); [|done]. cbn [mbind option_bind]. apply on_links_same in E3.
    intros [= <- _]. rewrite E1, E2, E3. etrans; [|apply finish_pending_same]. by split.
  - destruct (alter_buf (on_port OUT drop_use c1) _ _) as [c3|] eqn:E3; [|done]. cbn [mbind option_bind].
    apply alter_out_same in E3. intros [= <- _]. by rewrite E1, E2, E3.
Qed.

Lemma report_frame_same c q f c' ret :
  queues_ok c q -> processor_report_frame c f = Some (c', ret) -> in_same c c'.
Proof.
  intros Hok. unfold processor_report_frame.
  destruct (_ =? 0); [intros [= <- _]; reflexivity|].
  destruct (list_empty _ _) as [[]|]; cbn [mbind option_bind]; [intros [= <- _]; reflexivity| |done].
  destruct (find_hw_ok c q OUT (r_addr_Y f) Hok) as (r & -> & Hr). cbn [mbind option_bind].
  destruct r as [n|]; cbn [mbind option_bind]; [|intros [= <- _]; reflexivity].
  destruct Hr as (b & l1 & l2 & [Hq _ _ _]).
  destruct (queued_out c q n Hok) as [i ->]; [rewrite Hq; set_solver|].
  destruct (alter_buf c _ _) as [c1|] eqn:E1; [|done]. cbn [mbind option_bind].
  apply alter_out_same in E1.
  destruct (on_links _ _) as [c2|] eqn:E2; [|done]. cbn [mbind option_bind]. apply on_links_same in E2.
  destruct (node_buf c2 _) as [b2|]; [|done]. cbn [mbind option_bind]. cbv zeta.
  destruct (alter_buf c2 _ _) as [c3|] eqn:E3; [|done]. cbn [mbind option_bind].
  apply alter_out_same in E3. intros [= <- _]. etrans; [exact E1|]. etrans; [exact E2|].
  etrans; [exact E3|]. etrans; [|apply finish_pending_same]. case_match; by split.
Qed.

Lemma get_frame_same c q len c' s ret :
  queues_ok c q -> processor_get_frame c len = Some (c', s, ret) -> in_same c c'.
Proof.
  intros Hok. unfold processor_get_frame.
  destruct (negb _); [intros [= <- _]; reflexivity|].
  destruct (flush_pending _); [intros [= <- _]; reflexivity|].
  destruct (list_empty _ _) as [[]|]; cbn [mbind option_bind]; [intros [= <- _]; reflexivity| |done].
  destruct (find_free c q OUT (fun b => negb (bool_decide (b.(status) = BUF_STATE_USING))
              && negb (len >? b.(buf_len))) (big_enough len) Hok (fun b => eq_refl)) as (r & -> & Hr).
  cbn [mbind option_bind]. destruct r as [n|]; [|intros [= <- _]; reflexivity].
  destruct Hr as (b & Hb & _ & _ & l1 & l2 & Hq & _). rewrite Hb. cbn [mbind option_bind].
  destruct (queued_out c q n Hok) as [i ->]; [rewrite Hq; set_solver|].
  unfold set_buf. destruct (arr_set _ _ _); [|done]. cbn [mbind option_bind].
  intros [= <- _]. by split.
Qed.

(** ** The events of VPSS *)

Lemma release_frame_waits c q addr :
  queues_ok c q ->
  exists c' q' ret, processor_release_frame c addr = Some (c', ret) /\ queues_ok c' q'
    /\ waits c' = waits c.
Proof.
  intros Hok. destruct (release_frame_ok c q addr Hok) as (c' & q' & ret & Er & Hk & _ & Hcase).
  pose proof (kp_ok _ _ _ _ _ Hk) as Hok'. exists c', q', ret. split_and!; [done|done|].
  apply (waits_in_same c c' q q' Hok Hok'); [|by eapply release_frame_same].
  destruct Hcase as [(_ & -> & _)|(_ & n & b & l1 & l2 & _ & _ & Hw)]; [done|].
  destruct (waiting c); [|by destruct Hw as [-> _]]. destruct Hw as [-> _]. by rewrite upd_ne.
Qed.

Lemma report_frame_waits c q f :
  queues_ok c q ->
  exists c' q' ret, processor_report_frame c f = Some (c', ret) /\ queues_ok c' q'
    /\ waits c' = waits c.
Proof.
  intros Hok. destruct (report_frame_ok c q f Hok) as (c' & q' & ret & Er & Hk & _ & Hcase).
  pose proof (kp_ok _ _ _ _ _ Hk) as Hok'. exists c', q', ret. split_and!; [done|done|].
  apply (waits_in_same c c' q q' Hok Hok'); [|by eapply report_frame_same].
  destruct Hcase as [(_ & -> & _)|(_ & n & b & l1 & l2 & _ & -> & _)]; [done|]. by rewrite upd_ne.
Qed.

Lemma get_frame_waits c q len :
  queues_ok c q ->
  exists c' s ret, processor_get_frame c len = Some (c', s, ret) /\ waits c' = waits c.
Proof.
  intros Hok. destruct (get_frame_ok c q len Hok) as (c' & s & ret & Er & Hs & _).
  exists c', s, ret. split; [done|].
  apply (waits_in_same c c' q q Hok (sv_ok _ _ _ _ _ Hs) eq_refl). by eapply get_frame_same.
Qed.

Lemma plain_waits c c' q : queues_ok c q -> plain c c' -> queues_ok c' q /\ waits c' = waits c.
Proof.
  intros Hok [H1 H2 H3 H4 H5 H6 H7 H8].
  assert (Hp : parked c c').
  { split; try done. intros p. destruct (H4 p) as (? & ? & _). done. }
  split; [by eapply parked_ok|by eapply waits_parked].
Qed.

Lemma note_waits c q tag type now :
  0 < g_lowdelay_count_frame -> queues_ok c q ->
  exists c', (if lowdelay_on c then add_tag_time c tag type now else Some c) = Some c'
    /\ queues_ok c' q /\ waits c' = waits c.
Proof.
  intros Hg Hok. destruct (note_served c q tag type now Hg Hok) as (c' & Ec & Hq & _ & _).
  exists c'. split_and!; [done|by eapply quiet_ok|by eapply waits_quiet].
Qed.

Lemma vpss_event_waits c q ev now c' reply ret :
  0 < g_lowdelay_count_frame -> queues_ok c q ->
  vpss_event_on c ev now = Some (c', reply, ret) -> waits c' = waits c.
Proof.
  intros Hg Hok. destruct ev as [| |f|port last addr|port f]; unfold vpss_event_on.
  - destruct (channel_check_avaible_frame_buffer c); [|done]. by intros [= <- _ _].
  - by intros [= <- _ _].
  - unfold processor_get_frame_buffer.
    destruct (negb (port_matches _ _)); [by intros [= <- _ _]|].
    destruct (negb _ || negb _).
    { intros [= <- _ _]. destruct (report_size_mild c (u32FrmW f) (u32FrmH f)) as [[Hp _ _ _ _] _].
      by eapply waits_parked. }
    destruct (negb _); [by intros [= <- _ _]|]. cbv zeta.
    match goal with |- context [processor_get_frame c ?len] =>
      destruct (get_frame_waits c q len Hok) as (c1 & s & r & -> & Hw) end.
    cbn [mbind option_bind]. destruct s as [s|]; [destruct (negb _ && negb _)|]; by intros [= <- _ _].
  - unfold processor_release_frame_buffer.
    destruct (negb (port_matches _ _)); [by intros [= <- _ _]|].
    set (c1 := if _ && _ then _ else c).
    assert (Hp1 : plain c c1) by (unfold c1; by destruct (_ && _)).
    destruct (plain_waits c c1 q Hok Hp1) as [Hok1 <-]. clearbody c1.
    destruct (release_frame_waits c1 q addr Hok1) as (c2 & q2 & r & -> & _ & <-).
    cbn [mbind option_bind]. destruct (negb _); by intros [= <- _ _].
  - unfold processor_report_new_frame.
    destruct (negb (port_matches _ _)); [by intros [= <- _ _]|].
    destruct (report_frame_waits c q f Hok) as (c1 & q1 & r1 & -> & Hok1 & <-). cbn [mbind option_bind].
    destruct (negb _); [by intros [= <- _ _]|].
    assert (exists c2 q2 r2, (if r_stereo f then processor_report_frame c1 (right_eye f)
              else Some (c1, r1)) = Some (c2, r2) /\ queues_ok c2 q2 /\ waits c2 = waits c1)
      as (c2 & q2 & r2 & E2 & Hok2 & <-).
    { destruct (r_stereo f); [by apply (report_frame_waits c1 q1)|by eexists _, q1, _]. }
    unfold right_eye in E2. rewrite E2. cbn [mbind option_bind].
    destruct (negb _); [by intros [= <- _ _]|].
    destruct (note_waits c2 q2 (r_tag f) OMX_LOWDELAY_REC_VPSS_RPO_IMG_TIME now Hg Hok2)
      as (c3 & -> & Hok3 & <-). cbn [mbind option_bind]. intros [= <- _ _].
    by apply (plain_waits c3 _ q2 Hok3), plain_stat.
Qed.

Lemma decoder_event_waits c q ev now a c' ret :
  0 < g_lowdelay_count_frame -> queues_ok c q ->
  decoder_event_on c ev now a = Some (c', ret) -> waits c' = waits c.
Proof.
  intros Hg Hok. destruct ev as [[tag|]|num size stamp|[r|]|]; unfold decoder_event_on;
    try (by intros [= <- _]).
  - destruct (note_waits c q tag OMX_LOWDELAY_REC_VFMW_RPO_IMG_TIME now Hg Hok)
      as (c1 & -> & Hok1 & <-). cbn [mbind option_bind]. intros [= <- _].
    destruct (plain_waits c1 _ q Hok1 (plain_stat c1 (fun i => i <| DecoderOut ::= fun k => k +u 1 |>)))
      as [Hok2 <-]. by eapply waits_quiet, post_quiet.
  - destruct (_ || _); intros [= <- _]; refine (proj2 (plain_waits c _ q Hok _)); by split.
Qed.

(** ** The calls of the user that do not submit stream buffers *)

Lemma bind_waits c q d mapped c' ret :
  queues_ok c q -> not_the_last c d ->
  channel_bind_user_buffer c d mapped = Some (c', ret) -> waits c' = waits c.
Proof.
  intros Hok Hd Eb. destruct (bind_ok c q d mapped Hok Hd) as (c1 & r & Eb' & Hs & Hcase).
  rewrite Eb' in Eb. injection Eb as -> ->.
  destruct Hcase as [[_ ->]|(_ & _ & p & kern & _ & _ & _ & [_ _ _ Hrest])]; [done|].
  unfold waits. rewrite (queue_at_ok c q IN Hok), (queue_at_ok c' q IN (sv_ok _ _ _ _ _ Hs)).
  apply waiting_core. intros n Hn. rewrite Hrest; [done|].
  destruct (qo_node _ _ Hok IN n Hn) as [[-> _]|(i & -> & Hi)]; [done|]. intros [= <- Hii]. lia.
Qed.

Lemma fill_waits c q d c' ret :
  queues_ok c q -> port_of d.(dir) <> Some IN ->
  channel_fill_this_frame c d = Some (c', ret) -> waits c' = waits c.
Proof.
  intros Hok Hd. unfold channel_fill_this_frame.
  destruct (port_of d.(dir)) as [[]|] eqn:Hp; [done| |].
  2: { unfold channel_lookup_addr_table. rewrite Hp. cbn [mbind option_bind]. intros [= <- _].
       by eapply waits_quiet, post_quiet. }
  destruct (lookup_ok c q d OUT Hok Hp)
    as [[-> _]|(c1 & i & b & -> & Hi & Hb & Hpa & Hbd & Hq1 & Ht1 & _ & Hb1)]; cbn [mbind option_bind].
  { intros [= <- _]. by eapply waits_quiet, post_quiet. }
  match goal with |- context [alter_buf c1 _ ?f] =>
    destruct (benign_ok c1 (Slot OUT i) _ f Hb1) as (c2 & -> & Hq2 & Ht2 & _ & Hbuf2); [done|] end.
  cbn [mbind option_bind]. assert (quiet c c2) as Hqc2 by (by etrans).
  pose proof (quiet_ok _ _ _ Hok Hqc2) as Hok2.
  assert (0 <= i < num OUT c2) as Hi2 by (rewrite (cm_num _ _ (qt_calm _ _ Hqc2)); lia).
  unfold channel_insert_in_yuv_list.
  destruct (insert_in_list_ok c2 q OUT i _ Hok2 Hi2 (eq_trans (Hbuf2 _) (decide_True _ _ eq_refl))) as [H1 H2].
  rewrite <- (waits_quiet c c2 q Hok Hqc2).
  destruct (decide (Slot OUT i ∈ q OUT)) as [Hin|Hin].
  - rewrite (H1 Hin). cbn [mbind option_bind]. rewrite success_ne. cbn [negb].
    intros [= <- _]. by eapply waits_quiet, post_quiet.
  - destruct (H2 Hin) as (c4 & -> & Hok4 & _ & _ & _ & Hb4). cbn [mbind option_bind].
    rewrite Z.eqb_refl. cbn [negb]. intros [= <- _]. unfold waits.
    rewrite (queue_at_ok c2 q IN Hok2), (queue_at_ok c4 _ IN Hok4), upd_ne by done.
    apply waiting_core. intros n Hn. rewrite Hb4, decide_False; [done|]. intros ->.
    by destruct (qo_node _ _ Hok IN _ Hn) as [[? _]|(? & ? & _)].
Qed.

Lemma mild_waits c c' q : queues_ok c q -> mild c c' -> waits c' = waits c.
Proof. intros Hok [Hp _ _ _ _]. by eapply waits_parked. Qed.

(** ** Submitting a stream buffer *)

(** A node joins the end of the queue of stream buffers. *)
Lemma enqueue_waits c c' q n b' :
  queues_ok c q -> queues_ok c' (upd IN (q IN ++ [n]) q) -> n ∉ q IN ->
  (forall m, node_buf c' m = if decide (m = n) then Some b' else node_buf c m) ->
  waits c' = waits c ++ free_tags c' n.
Proof.
  intros Hok Hok' Hn Hb. unfold waits.
  rewrite (queue_at_ok c q IN Hok), (queue_at_ok c' _ IN Hok'), upd_eq.
  unfold waiting_in. rewrite flat_map_app. cbn [flat_map]. rewrite app_nil_r. f_equal.
  apply waiting_core. intros m Hm. by rewrite Hb, decide_False by (intros ->; done).
Qed.

Lemma submit_waits c q d now :
  0 < g_lowdelay_count_frame -> queues_ok c q -> port_of d.(dir) <> Some OUT ->
  exists c' q' ret, submit_stream c d now = Some (c', ret) /\ queues_ok c' q'
    /\ ((ret = HI_FAILURE /\ waits c' = waits c)
        \/ (ret = HI_SUCCESS /\ exists b, bound_at c IN d.(phyaddr) = Some b
            /\ waits c' = waits c ++ [b.(client_data)])).
Proof.
  intros Hg Hok Hd. unfold submit_stream.
  assert (Href : forall c1, quiet c c1 -> exists c' q' ret,
    Some (message_queue c1 VDEC_MSG_RESP_INPUT_DONE VDEC_ERR_ILLEGAL_OP (BufData d), HI_FAILURE)
      = Some (c', ret) /\ queues_ok c' q'
    /\ ((ret = HI_FAILURE /\ waits c' = waits c)
        \/ (ret = HI_SUCCESS /\ exists b, bound_at c IN d.(phyaddr) = Some b
            /\ waits c' = waits c ++ [b.(client_data)]))).
  { intros c1 Hq1. eexists _, q, _. split; [done|].
    assert (Hq2 : quiet c (message_queue c1 VDEC_MSG_RESP_INPUT_DONE VDEC_ERR_ILLEGAL_OP (BufData d)))
      by (etrans; [done|apply post_quiet]).
    split; [by eapply quiet_ok|]. left. split; [done|]. by eapply waits_quiet. }
  destruct (port_of d.(dir)) as [[]|] eqn:Hp; [|done|].
  2: { unfold channel_lookup_addr_table. rewrite Hp. cbn [mbind option_bind]. by apply Href. }
  destruct (lookup_ok c q d IN Hok Hp)
    as [[-> _]|(c1 & i & b & -> & Hi & Hb & Hpa & Hbd & Hq1 & Ht1 & _ & Hb1)];
    cbn [mbind option_bind]; [by apply Href|].
  match goal with |- context [alter_buf c1 _ ?f] =>
    destruct (benign_ok c1 (Slot IN i) _ f Hb1) as (c2 & -> & Hq2 & Ht2 & _ & Hbuf2); [done|] end.
  cbn [mbind option_bind]. assert (quiet c c2) as Hqc2 by (by etrans).
  destruct (tag_stream_ok c2 (Slot IN i) _ now Hg
              (proj2 (cm_delay _ _ (qt_calm _ _ Hqc2)) (qo_delay _ _ Hok))
              (eq_trans (Hbuf2 _) (decide_True _ _ eq_refl)))
    as (c3 & b3 & -> & Hq3 & Ht3 & Hb3 & Hcore3). cbn [mbind option_bind].
  assert (quiet c c3) as Hqc3 by (by etrans).
  pose proof (quiet_ok _ _ _ Hok Hqc3) as Hok3.
  assert (0 <= i < num IN c3) as Hi3 by (rewrite (cm_num _ _ (qt_calm _ _ Hqc3)); lia).
  unfold channel_insert_in_raw_list.
  destruct (insert_in_list_ok c3 q IN i b3 Hok3 Hi3 Hb3) as [H1 H2].
  destruct (decide (Slot IN i ∈ q IN)) as [Hin|Hin].
  - rewrite (H1 Hin). cbn [mbind option_bind]. rewrite success_ne. cbn [negb]. by apply Href.
  - destruct (H2 Hin) as (c4 & -> & Hok4 & _ & _ & _ & Hb4). cbn [mbind option_bind].
    rewrite Z.eqb_refl. cbn [negb]. eexists _, _, _. split; [done|]. split; [done|]. right.
    split; [done|]. exists b. split; [done|].
    rewrite (enqueue_waits c3 c4 q (Slot IN i) _ Hok3 Hok4 Hin Hb4), (waits_quiet c c3 q Hok Hqc3).
    f_equal. unfold free_tags, in_use, owes. rewrite Hb4, decide_True by done. cbn.
    injection Hcore3 as [= _ _ _ ->]. done.
Qed.

Lemma queue_last_frame_waits c q :
  queues_ok c q ->
  exists c' q', queue_last_frame c = Some c' /\ queues_ok c' q' /\ waits c' = waits c.
Proof.
  intros Hok. destruct (queue_last_frame_ok c q Hok) as (c' & q' & Ec & Hs & Hq).
  pose proof (sv_ok _ _ _ _ _ Hs) as Hok'. exists c', q'. split_and!; [done|done|].
  revert Ec. unfold queue_last_frame. destruct (eos_in_list c) eqn:He; cbn [negb].
  { cbn [mbind option_bind]. intros [= <-]. refine (proj2 (plain_waits c _ q Hok _)). by split. }
  unfold channel_add_last_frame, alter_buf, on_links. cbn [node_buf set_buf mbind option_bind].
  destruct (list_add_tail _ _ _); [|done]. cbn [mbind option_bind]. intros [= Ec].
  assert (Hno : LastFrame ∉ q IN) by (intros Hl; apply (qo_last _ _ Hok) in Hl; congruence).
  destruct Hq as [->|[_ ->]].
  { exfalso. apply Hno, (qo_last _ _ Hok'). by subst c'. }
  unfold waits. rewrite (queue_at_ok c q IN Hok), (queue_at_ok c' _ IN Hok'), upd_eq.
  unfold waiting_in. rewrite flat_map_app. cbn [flat_map]. unfold free_tags at 2. cbn [owes].
  destruct (in_use c' LastFrame); rewrite !app_nil_r; apply waiting_core; intros n Hn;
    (destruct (qo_node _ _ Hok IN n Hn) as [[-> _]|(i & -> & _)]; [done|]; by subst c').
Qed.

Lemma finish_stream_waits c q d :
  queues_ok c q ->
  exists c' q', finish_stream c d = Some (c', HI_SUCCESS) /\ queues_ok c' q' /\ waits c' = waits c.
Proof.
  intros Hok. unfold finish_stream.
  assert (exists c2 q2, (if negb (Z.land (d_flags d) VDEC_BUFFERFLAG_EOS =? 0)
                         then queue_last_frame c else Some c) = Some c2
            /\ queues_ok c2 q2 /\ waits c2 = waits c) as (c2 & q2 & -> & Hok2 & <-).
  { case_match; [by apply (queue_last_frame_waits c q)|by exists c, q]. }
  cbn [mbind option_bind]. cbv zeta. eexists _, q2. split; [done|].
  match goal with |- queues_ok ?x _ /\ _ => assert (Hq : quiet c2 x) end.
  { set (c3 := if data_len d =? 0 then _ else _).
    assert (quiet c2 c3) by (unfold c3; case_match; [apply post_quiet|done]).
    case_match; [|done]. etrans; [done|apply post_quiet]. }
  split; [by eapply quiet_ok|by eapply waits_quiet].
Qed.

(** A submission appends the tag of the buffer, or leaves the order as it is. *)
Lemma empty_waits c q d now c' ret :
  0 < g_lowdelay_count_frame -> queues_ok c q -> port_of d.(dir) <> Some OUT ->
  channel_empty_this_stream c d now = Some (c', ret) ->
  waits c' = waits c ++ put c (USER (EMPTY_INPUT_STREAM d now)).
Proof.
  intros Hg Hok Hd Ec. unfold put. rewrite Ec. revert Ec. unfold channel_empty_this_stream.
  destruct (data_len d =? 0) eqn:Hl; cbn [negb].
  - cbn [mbind option_bind]. rewrite Z.eqb_refl. cbn [negb].
    destruct (finish_stream_waits c q d Hok) as (c1 & q1 & -> & _ & Hw).
    intros [= <- _]. by rewrite app_nil_r.
  - destruct (submit_waits c q d now Hg Hok Hd) as (c1 & q1 & r & -> & Hok1 & Hcase).
    cbn [mbind option_bind]. destruct Hcase as [[-> Hw]|(-> & b & -> & Hw)].
    + rewrite success_ne. cbn [negb]. intros [= <- <-]. by rewrite success_ne, app_nil_r.
    + rewrite Z.eqb_refl. cbn [negb]. destruct (finish_stream_waits c1 q1 d Hok1) as (c2 & q2 & -> & _ & Hw2).
      intros [= <- <-]. by rewrite Z.eqb_refl, Hw2, Hw.
Qed.

(** ** The decoder takes and returns stream buffers *)

Lemma waiting_split c (l1 l2 : list node) n :
  waiting_in c (l1 ++ n :: l2) = waiting_in c l1 ++ free_tags c n ++ waiting_in c l2.
Proof. unfold waiting_in. by rewrite flat_map_app. Qed.

Lemma waiting_used c (l : list node) : (forall m, m ∈ l -> in_use c m = true) -> waiting_in c l = [].
Proof.
  unfold waiting_in. induction l as [|m l IH]; intros Hl; [done|]. cbn [flat_map].
  rewrite IH by set_solver. unfold free_tags. by rewrite Hl by set_solver.
Qed.

Lemma get_waits c q now c' s ret :
  0 < g_lowdelay_count_frame -> queues_ok c q -> get_stream c now = Some (c', s, ret) ->
  got c (HARDWARE (HW_GET_STREAM now)) ++ waits c' = waits c.
Proof.
  intros Hg Hok Eg. unfold got. rewrite Eg.
  destruct (get_stream_ok c q now Hg Hok) as (c1 & s1 & r1 & Eg' & Hs & Hcase).
  rewrite Eg' in Eg. injection Eg as -> -> ->. destruct s as [s|]; [|by destruct Hcase as (_ & -> & _)].
  destruct Hcase as (_ & _ & _ & n & b & (Hb & Hu & _ & l1 & l2 & Hq & Hl1) & Hu' & Hlen & Hrest).
  unfold waits. rewrite (queue_at_ok c q IN Hok), (queue_at_ok c' q IN (sv_ok _ _ _ _ _ Hs)), Hq.
  pose proof (queue_nodup _ _ Hok IN) as Hnd. rewrite Hq in Hnd.
  apply NoDup_app in Hnd as (_ & Hn1 & [Hn2 _]%NoDup_cons).
  assert (Hn1' : n ∉ l1) by (intros Hi; apply (Hn1 n Hi); set_solver).
  assert (Hsame : forall m, m <> n -> in_use c' m = in_use c m)
    by (intros m Hm; unfold in_use; by rewrite Hrest).
  assert (H1 : forall m, m ∈ l1 -> in_use c m = true).
  { intros m Hm. destruct (queued_buf c q Hok IN m) as [bm Hbm]; [rewrite Hq; set_solver|].
    by destruct (Hl1 m bm Hm Hbm). }
  assert (Haddr : (s.(PhyAddr) =? addr_of c n) = true).
  { apply Z.eqb_eq. unfold addr_of. rewrite Hb. exact (f_equal PhyAddr Hlen). }
  rewrite flat_map_app. cbn [flat_map]. rewrite Hu, Hu', Haddr. cbn [andb].
  assert (forall l, n ∉ l -> flat_map (fun m => if in_use c m then [] else
             if in_use c' m && (s.(PhyAddr) =? addr_of c m) then owes c m else []) l = []) as Hnil.
  { induction l as [|m l IH]; intros Hl; [done|]. cbn [flat_map]. rewrite IH by set_solver.
    rewrite Hsame by (intros ->; set_solver). by destruct (in_use c m). }
  rewrite !Hnil by done. rewrite app_nil_r. cbn [app].
  rewrite !waiting_split, (waiting_used c l1 H1).
  rewrite (waiting_used c' l1) by (intros m Hm; rewrite Hsame by (intros ->; done); by apply H1).
  unfold free_tags. rewrite Hu, Hu'. cbn [app]. f_equal.
  apply waiting_core. intros m Hm. by rewrite Hrest by (intros ->; done).
Qed.

Lemma release_waits c q addr tag stack now c' ret :
  0 < g_lowdelay_count_frame -> queues_ok c q -> honest c IN addr ->
  release_stream c addr tag stack now = Some (c', ret) -> waits c' = waits c.
Proof.
  intros Hg Hok Hh Er.
  destruct (release_stream_ok c q addr tag stack now Hg Hok) as (c1 & q' & r & Er' & Hk & _ & Hcase).
  rewrite Er' in Er. injection Er as -> ->.
  destruct Hcase as [(-> & -> & _)|(_ & n & b & l1 & l2 & Hnm & -> & _ & _ & Hrest & _)]; [done|].
  pose proof (honest_in_use _ _ _ _ _ _ _ _ Hok Hh Hnm) as Hu. destruct Hnm as [Hq _ _ _].
  unfold waits. rewrite (queue_at_ok c q IN Hok), (queue_at_ok c' _ IN (kp_ok _ _ _ _ _ Hk)), upd_eq, Hq.
  pose proof (queue_nodup _ _ Hok IN) as Hnd. rewrite Hq in Hnd.
  apply NoDup_app in Hnd as (_ & Hn1 & [Hn2 _]%NoDup_cons).
  rewrite waiting_split. unfold free_tags at 1. rewrite Hu. cbn [app].
  assert (waiting_in c l1 ++ waiting_in c l2 = waiting_in c (l1 ++ l2)) as ->
    by (unfold waiting_in; by rewrite flat_map_app).
  apply waiting_core.
  intros m Hm. rewrite Hrest; [done|]. intros ->. apply elem_of_app in Hm as [Hm|Hm]; [|done].
  apply (Hn1 n Hm). set_solver.
Qed.

(** ** Runs *)

(** Calls that neither flush nor unbind. *)
Definition no_flush c (call : chan_call) : Prop :=
  match call with USER (FLUSH_PORT _ _ _) | USER (UNBIND_BUFFER _) => False | _ => True end.

Lemma step_waits c q t call c' t' acc :
  0 < g_lowdelay_count_frame -> queues_ok c q -> table_ok t -> 0 <= c.(channel_id) ->
  user_keeps c call -> hardware_keeps c call -> no_flush c call ->
  chan_step c t call = Some (c', t', acc) -> got c call ++ waits c' = waits c ++ put c call.
Proof.
  intros Hg Hok Ht Hid Hu Hh Hn. destruct call as [cmd|h]; unfold chan_step.
  - cbn [got app]. destruct cmd as [d mapped|d|d now|d|which av af| | |a|a]; unfold chan_exec, with_table;
      try done; cbn [user_keeps allowed] in Hu.
    + destruct (channel_bind_user_buffer c d mapped) as [[c1 r]|] eqn:Ec; [|done]. cbn [mbind option_bind].
      intros [= <- _ _]. rewrite app_nil_r. by eapply bind_waits.
    + destruct (channel_empty_this_stream c d now) as [[c1 r]|] eqn:Ec; [|done]. cbn [mbind option_bind].
      intros [= <- _ _]. by eapply empty_waits.
    + destruct (channel_fill_this_frame c d) as [[c1 r]|] eqn:Ec; [|done]. cbn [mbind option_bind].
      intros [= <- _ _]. rewrite app_nil_r. by eapply fill_waits.
    + pose proof (pause_inst_ok c) as Hp. destruct (channel_pause_inst c) as [c1 r]. cbn [mbind option_bind].
      intros [= <- _ _]. rewrite app_nil_r. destruct Hp. by eapply mild_waits.
    + pose proof (resume_inst_ok c) as Hp. destruct (channel_resume_inst c) as [c1 r]. cbn [mbind option_bind].
      intros [= <- _ _]. rewrite app_nil_r. destruct Hp. by eapply mild_waits.
    + destruct (start_inst_ok c t a Ht Hid) as (c1 & t1 & -> & _ & Hm & _). cbn [mbind option_bind].
      intros [= <- _ _]. rewrite app_nil_r. by eapply mild_waits.
    + destruct (stop_inst_ok c t a Ht Hid) as (c1 & t1 & r & -> & _ & Hm & _). cbn [mbind option_bind].
      intros [= <- _ _]. rewrite app_nil_r. by eapply mild_waits.
  - cbn [put]. rewrite app_nil_r. destruct h as [now|addr tag stack now|ev now|ev now a]; unfold hw_exec.
    + destruct (get_stream c now) as [[[c1 s] r]|] eqn:Ec; [|done]. cbn [mbind option_bind].
      intros [= <- _ _]. by eapply get_waits.
    + destruct (release_stream c addr tag stack now) as [[c1 r]|] eqn:Ec; [|done]. cbn [mbind option_bind].
      intros [= <- _ _]. by eapply release_waits.
    + destruct (vpss_event_on c ev now) as [[[c1 s] r]|] eqn:Ec; [|done]. cbn [mbind option_bind].
      intros [= <- _ _]. by eapply vpss_event_waits.
    + destruct (decoder_event_on c ev now a) as [[c1 r]|] eqn:Ec; [|done]. cbn [mbind option_bind].
      intros [= <- _ _]. by eapply decoder_event_waits.
Qed.

(** A run, with the tags submitted and the tags taken in it, in order. *)
Fixpoint fifo_run c (t : chan_table) (calls : list chan_call)
    : option (OMXVDEC_CHAN_CTX * chan_table * list Z * list Z) :=
  match calls with
  | [] => Some (c, t, [], [])
  | call :: calls =>
      '(c1, t1, _) ← chan_step c t call;
      '(c2, t2, puts, gots) ← fifo_run c1 t1 calls;
      Some (c2, t2, put c call ++ puts, got c call ++ gots)
  end.

Lemma fifo_run_ok calls : forall c q t,
  0 < g_lowdelay_count_frame -> queues_ok c q -> table_ok t -> 0 <= c.(channel_id) ->
  along user_keeps c t calls -> along hardware_keeps c t calls -> along no_flush c t calls ->
  exists c' t' puts gots, fifo_run c t calls = Some (c', t', puts, gots)
    /\ gots ++ waits c' = waits c ++ puts.
Proof.
  induction calls as [|call calls IH]; intros c q t Hg Hok Ht Hid Hu Hh Hn; cbn [fifo_run].
  - eexists _, _, _, _. split; [done|]. by rewrite app_nil_r.
  - destruct Hu as [Hu1 Hu], Hh as [Hh1 Hh], Hn as [Hn1 Hn].
    destruct (chan_step_ok c q t call Hg Hok Ht Hid Hu1) as (c1 & t1 & q1 & acc & E1 & Ht1 & Hk1 & _).
    pose proof (step_waits c q t call c1 t1 acc Hg Hok Ht Hid Hu1 Hh1 Hn1 E1) as Hw.
    rewrite E1. cbn [mbind option_bind].
    destruct (IH c1 q1 t1 Hg (kp_ok _ _ _ _ _ Hk1) Ht1) as (c2 & t2 & puts & gots & -> & Hr).
    + by rewrite (kp_id _ _ _ _ _ Hk1).
    + by eapply Hu.
    + by eapply Hh.
    + by eapply Hn.
    + cbn [mbind option_bind]. eexists _, _, _, _. split; [done|].
      by rewrite <- app_assoc, Hr, app_assoc, Hw, app_assoc.
Qed.
End Fifo.
