(* ===== verification/OmxFaults.v ===== *)
(** * Calls that leave a channel's queues broken

    Two runs that the contract of the other files leaves out, on any well-typed
    channel: unbinding a stream buffer that is queued, and a flush of the frame
    buffers between the two steps in which VPSS gives one back. Both end in a
    list operation through a null or poisoned pointer. *)

From S2P Require Import Prelude KList FrameRate PtsRec OmxDelay OmxChan OmxHw OmxQueue OmxCalls.
From S2P Require Import OmxServe OmxReturn OmxBind OmxFlush.

(** ** A ring with a cleared node *)

Section Cleared.
Context {L : Type} `{Countable L}.
Implicit Types (m : gmap L (list_head L)) (h x y : L) (l : list L).

(** The ring of [h] through [l1], [y] and [l2], the successor of [y] lost. *)
Definition cut m h l1 y l2 : Prop :=
  exists m0 w, m = <[y := mkHead None w]> m0 /\ is_list m0 h (l1 ++ y :: l2).

Lemma cut_dead m h l1 y l2 : cut m h l1 y l2 -> list_next m y = None.
Proof. intros (m0 & w & -> & _). unfold list_next. by rewrite lookup_insert_eq. Qed.

Lemma cut_next m h l1 y l2 x :
  cut m h l1 y l2 -> x <> y -> exists m0, list_next m x = list_next m0 x /\ is_list m0 h (l1 ++ y :: l2).
Proof.
  intros (m0 & w & -> & Hl) Hx. exists m0. split; [|done].
  unfold list_next. by rewrite lookup_insert_ne.
Qed.

(** What follows a node before the cleared one. *)
Lemma cut_succ m h l1 x l y l2 :
  cut m h (l1 ++ x :: l) y l2 -> list_next m x = Some (hd y l).
Proof.
  intros Hc. assert (x <> y).
  { destruct Hc as (m0 & w & _ & [Hnd _]). rewrite <- app_assoc in Hnd. simpl in Hnd.
    apply NoDup_cons in Hnd as [_ Hnd]. apply NoDup_app in Hnd as (_ & _ & Hnd).
    apply NoDup_cons in Hnd as [Hnd _]. set_solver. }
  destruct (cut_next _ _ _ _ _ x Hc) as (m0 & -> & Hl); [done|].
  rewrite <- app_assoc in Hl. simpl in Hl. rewrite (is_list_succ _ _ _ _ _ Hl).
  by destruct l.
Qed.

Lemma cut_first m h l y l2 : cut m h l y l2 -> list_next m h = Some (hd y l).
Proof.
  intros Hc. assert (h <> y).
  { destruct Hc as (m0 & w & _ & [Hnd _]). apply NoDup_cons in Hnd as [Hnd _]. set_solver. }
  destruct (cut_next _ _ _ _ _ h Hc) as (m0 & -> & [_ Hl]); [done|].
  rewrite (seg_first _ _ _ _ Hl). by destruct l.
Qed.

(** Writes beside a node, and over it. *)
Lemma set_next_beside m y e x v :
  x <> y -> set_next (<[y := e]> m) x v = (fun m => <[y := e]> m) <$> set_next m x v.
Proof.
  intros Hx. unfold set_next. rewrite lookup_insert_ne by done.
  destruct (m !! x); [|done]. cbn. f_equal. by rewrite insert_insert_ne.
Qed.

Lemma set_prev_beside m y e x v :
  x <> y -> set_prev (<[y := e]> m) x v = (fun m => <[y := e]> m) <$> set_prev m x v.
Proof.
  intros Hx. unfold set_prev. rewrite lookup_insert_ne by done.
  destruct (m !! x); [|done]. cbn. f_equal. by rewrite insert_insert_ne.
Qed.

Lemma set_prev_over m y w v m1 :
  set_prev m y v = Some m1 ->
  set_prev (<[y := mkHead None w]> m) y v = Some (<[y := mkHead None v]> m1).
Proof.
  unfold set_prev. rewrite lookup_insert_eq. destruct (m !! y) as [e|]; [|done]. cbn.
  intros [= <-]. by rewrite !insert_insert_eq.
Qed.

(** Unlinking a node before the cleared one. *)
Lemma cut_del m h l1 x l y l2 m' :
  cut m h (l1 ++ x :: l) y l2 -> list_del m x = Some m' -> cut m' h (l1 ++ l) y l2.
Proof.
  intros (m0 & w & -> & Hl) Hd. rewrite <- app_assoc in Hl. simpl in Hl.
  pose proof Hl as [Hnd _]. unfold cut.
  destruct (list_del_ok m0 h l1 x (l ++ y :: l2) Hl) as (m1 & E1 & _ & Hl1 & _).
  assert (Hxy : x <> y).
  { apply NoDup_cons in Hnd as [_ Hnd]. apply NoDup_app in Hnd as (_ & _ & Hnd).
    apply NoDup_cons in Hnd as [Hnd _]. set_solver. }
  unfold list_del in Hd, E1. rewrite lookup_insert_ne in Hd by done.
  destruct (m0 !! x) as [e|] eqn:Ex; [|done]. cbn [mbind option_bind] in *.
  destruct (prev e) as [p|] eqn:Ep; [|done]. cbn [mbind option_bind] in *.
  destruct (next e) as [n|] eqn:En; [|done]. cbn [mbind option_bind] in *.
  assert (Hpy : p <> y).
  { intros ->. destruct Hl as [_ [Hs _]%seg_app].
    destruct (seg_last _ _ _ _ Hs) as (p' & [_ Hp'] & Hin & _).
    unfold list_prev in Hp'. rewrite Ex in Hp'. cbn in Hp'. rewrite Ep in Hp'. injection Hp' as <-.
    apply NoDup_cons in Hnd as [Hh Hnd]. apply NoDup_app in Hnd as (_ & Hnd & _).
    apply elem_of_cons in Hin as [->|Hin]; [set_solver|]. apply (Hnd y Hin). set_solver. }
  destruct (set_prev m0 n (Some p)) as [a1|] eqn:A1; [|done]. cbn [mbind option_bind] in *.
  destruct (set_next a1 p (Some n)) as [a2|] eqn:A2; [|done]. cbn [mbind option_bind] in *.
  destruct (set_next a2 x None) as [a3|] eqn:A3; [|done]. cbn [mbind option_bind] in *.
  assert (exists w', set_prev (<[y := mkHead None w]> m0) n (Some p)
                     = Some (<[y := mkHead None w']> a1)) as [w' B1].
  { destruct (decide (n = y)) as [->|Hn]; [eexists; by apply set_prev_over|].
    exists w. by rewrite set_prev_beside, A1. }
  rewrite B1 in Hd. cbn [mbind option_bind] in Hd.
  rewrite set_next_beside, A2 in Hd by done. cbn [mbind option_bind fmap option_fmap option_map] in Hd.
  rewrite set_next_beside, A3 in Hd by done. cbn [mbind option_bind fmap option_fmap option_map] in Hd.
  rewrite set_prev_beside, E1 in Hd by done. injection Hd as <-.
  exists m1, w'. by rewrite <- app_assoc.
Qed.

(** A walk over the ring dies at the node, whatever its body keeps or unlinks. *)
Lemma walk_cut {S : Type} (mem : S -> gmap L (list_head L)) (body : S -> L -> option S) h y l2 :
  (forall s x s', body s x = Some s' -> mem s' = mem s \/ list_del (mem s) x = Some (mem s')) ->
  forall l kept s fuel, cut (mem s) h (kept ++ l) y l2 -> l <> [] ->
    for_each_safe mem body h fuel s (hd y l) (hd y (tl l)) = None.
Proof.
  intros Hbody. induction l as [|x l IH]; intros kept s fuel Hc Hne; [done|].
  destruct fuel as [|fuel]; [done|]. cbn [for_each_safe hd tl].
  rewrite decide_False.
  2: { intros ->. destruct Hc as (m0 & w & _ & [Hnd _]). apply NoDup_cons in Hnd as [Hnd _]. set_solver. }
  destruct (body s x) as [s'|] eqn:Eb; [|done]. cbn [mbind option_bind].
  assert (exists kept', cut (mem s') h (kept' ++ l) y l2) as [kept' Hc'].
  { destruct (Hbody _ _ _ Eb) as [->|Hd].
    - exists (kept ++ [x]). by rewrite <- app_assoc.
    - exists kept. by eapply cut_del. }
  destruct l as [|x' l]; cbn [hd].
  - rewrite (cut_dead _ _ _ _ _ Hc'). done.
  - rewrite (cut_succ _ _ _ _ _ _ _ Hc'). cbn [mbind option_bind]. by apply (IH kept').
Qed.

Lemma for_each_cut {S : Type} (mem : S -> gmap L (list_head L)) (body : S -> L -> option S) h y l l2 s :
  (forall s x s', body s x = Some s' -> mem s' = mem s \/ list_del (mem s) x = Some (mem s')) ->
  cut (mem s) h l y l2 -> list_for_each_entry_safe mem body h s = None.
Proof.
  intros Hbody Hc. unfold list_for_each_entry_safe. rewrite (cut_first _ _ _ _ _ Hc).
  cbn [mbind option_bind]. destruct l as [|x l]; cbn [hd].
  - by rewrite (cut_dead _ _ _ _ _ Hc).
  - rewrite (cut_succ _ _ [] _ _ _ _ Hc). cbn [mbind option_bind].
    by apply (walk_cut mem body h y l2 Hbody (x :: l) []).
Qed.
End Cleared.

Section Faults.
Context {C : HiConsts} {E : OmxEnv} {Ok : HiConstsOk C}.
Implicit Types (c : OMXVDEC_CHAN_CTX) (p : port_dir) (n : node) (q : port_dir -> list node).

(** ** Unbinding a queued buffer *)

Lemma alter_buf_links c n f c' : alter_buf c n f = Some c' -> c'.(links) = c.(links).
Proof.
  unfold alter_buf. destruct (node_buf c n) as [b|] eqn:Hb; [|done]. cbn [mbind option_bind].
  destruct (set_buf_ok c n (f b) b Hb) as (c1 & -> & Hf & _). intros [= <-].
  exact (f_equal links Hf : links c1 = links c).
Qed.

(** What a step of a flush does to the pointers. *)
Lemma flush_in_one_links c n c' :
  flush_in_one c n = Some c' -> c'.(links) = c.(links) \/ list_del c.(links) n = Some c'.(links).
Proof.
  unfold flush_in_one. destruct (node_buf c n) as [b|]; [|done]. cbn [mbind option_bind].
  case_decide; [intros [= <-]; by left|]. intros Hf. right.
  destruct (alter_buf c n _) as [c1|] eqn:E1; [|done]. apply alter_buf_links in E1.
  cbn [mbind option_bind] in Hf. unfold on_links in Hf. rewrite E1 in Hf.
  destruct (list_del (links c) n) as [m|]; [|done]. cbn [mbind option_bind] in Hf.
  destruct (negb _); [|by injection Hf as <-].
  destruct (alter_buf _ n _) as [c2|] eqn:E2; [|done]. apply alter_buf_links in E2.
  cbn [mbind option_bind] in Hf. injection Hf as <-. simpl. by rewrite E2.
Qed.

(** Unbinding the buffer in the last slot of the table of stream buffers while it
    is queued: the call succeeds, and the next flush faults. *)
Lemma unbind_queued c q (d : OMXVDEC_BUF_DESC) (k : Z) b :
  queues_ok c q -> port_of d.(dir) = Some IN -> d.(phyaddr) <> 0 -> num IN c = k + 1 ->
  node_buf c (Slot IN k) = Some b -> b.(phy_addr) = d.(phyaddr) -> Slot IN k ∈ q IN ->
  exists c', channel_unbind_user_buffer c d = Some (c', HI_SUCCESS)
    /\ node_buf c' (Slot IN k) = Some zero_buf /\ channel_flush_in_port c' = None.
Proof.
  intros Hok Hp Hpa Hk Hb Hba Hin. pose proof (qo_size _ _ Hok IN) as Hsz.
  assert (Hk0 : 0 <= k) by (destruct (qo_node _ _ Hok IN _ Hin) as [[? _]|(i & [= <-] & ?)]; [done|lia]).
  unfold channel_unbind_user_buffer, channel_delete_addr_table. rewrite Hp.
  rewrite (proj2 (Z.eqb_neq _ _) Hpa).
  assert (find_addr (port IN c) d.(phyaddr) = Some k) as ->.
  { destruct (find_addr_ok c q IN d.(phyaddr) Hok) as (i & -> & Hi & Hbi & Hno). f_equal.
    destruct (decide (i < num IN c)) as [Hlt|Hge].
    - destruct (Hbi Hlt) as (b' & Hb' & Ha').
      by apply (qo_addr _ _ Hok IN i k b' b); [lia|lia|done|done|congruence].
    - exfalso. apply (Hno k b); [lia|done|done]. }
  cbn [mbind option_bind]. fold (num IN c). rewrite Hk. rewrite (proj2 (Z.eqb_neq k (k + 1))) by lia.
  rewrite Hb. cbn [mbind option_bind].
  set (c0 := if negb _ then _ else c).
  assert (Hc0 : node_buf c0 (Slot IN k) = Some b /\ links c0 = links c /\ num IN c0 = num IN c)
    by (unfold c0, channel_unmap_kernel_viraddr; case_match; [by rewrite node_buf_post|done]).
  destruct Hc0 as (Hb0 & Hl0 & Hn0). clearbody c0.
  destruct (alter_buf_ok c0 (Slot IN k) (fun b => b <| kern_vaddr := 0 |>) b Hb0)
    as (c1 & -> & Hf1 & Hbuf1). cbn [mbind option_bind].
  assert (Hn1 : num IN c1 = k + 1) by (rewrite <- Hk, <- Hn0; apply (frame_nums _ _ Hf1 IN)).
  assert (Hl1 : links c1 = links c) by (rewrite <- Hl0; exact (f_equal links Hf1 : links c1 = links c0)).
  unfold num in Hn1. rewrite Hn1. rewrite (proj2 (Z.ltb_ge k (k + 1 - 1))) by lia. cbn [mbind option_bind].
  rewrite Hn1. replace (k + 1 - 1) with k by lia.
  unfold clear_slot. destruct (set_buf_ok c1 (Slot IN k) zero_buf _ (eq_trans (Hbuf1 _) (decide_True _ _ eq_refl)))
    as (c2 & -> & Hf2 & Hbuf2). cbn [mbind option_bind]. rewrite Z.eqb_refl. cbn [negb].
  assert (Hl2 : links c2 = links c) by (rewrite <- Hl1; exact (f_equal links Hf2 : links c2 = links c1)).
  eexists. split; [done|]. split.
  { rewrite on_port_buf by done. rewrite (node_buf_tables c2) by (by try intros []).
    by rewrite Hbuf2, decide_True. }
  apply list_elem_of_split in Hin as (l1 & l2 & Hq).
  unfold channel_flush_in_port.
  erewrite (for_each_cut links flush_in_one (QHead IN) (Slot IN k) l1 l2); [done|apply flush_in_one_links|].
  exists (links c), None. split; [|rewrite <- Hq; apply (qo_list _ _ Hok)].
  change (<[Slot IN k := mkHead None None]> (links c2) = <[Slot IN k := mkHead None None]> (links c)).
  by rewrite Hl2.
Qed.

(** ** A flush between the two steps of a return *)

(** The walk of a flush from a state in which the buffer of [n] is queued but
    marked idle. [lost] is what holds of [n] once the walk has passed it. *)
Definition lost c1 n (b : OMXVDEC_BUF_S) c : Prop :=
  c.(links) !! n = Some (mkHead None None)
  /\ exists evs, trace c = trace c1 ++ evs /\ b.(client_data) ∈ returned OUT evs.

Record walking c1 n b (kept rest : list node) c : Prop := {
  wk_list : is_list c.(links) (QHead OUT) (kept ++ rest);
  wk_buf : forall m, m ∈ rest -> node_buf c m = node_buf c1 m;
  wk_uses : uses OUT c = uses OUT c1;
  wk_kept : n ∉ kept;
  wk_trace : exists evs, trace c = trace c1 ++ evs;
  wk_lost : n ∈ rest \/ lost c1 n b c;
}.

Lemma list_del_dead (m m' : gmap node (list_head node)) n :
  list_del m n = Some m' -> m' !! n = Some (mkHead None None).
Proof.
  unfold list_del. destruct (m !! n) as [e|]; [|done]. cbn [mbind option_bind].
  destruct (prev e) as [x|]; [|done]. cbn [mbind option_bind].
  destruct (next e) as [y|]; [|done]. cbn [mbind option_bind].
  destruct (set_prev m y _) as [m1|]; [|done]. cbn [mbind option_bind].
  destruct (set_next m1 x _) as [m2|]; [|done]. cbn [mbind option_bind].
  unfold set_next, set_prev. destruct (m2 !! n) as [f|]; [|done]. cbn [mbind option_bind next prev].
  rewrite lookup_insert_eq. cbn. intros [= <-]. by rewrite lookup_insert_eq.
Qed.

Lemma list_del_at_dead (m : gmap node (list_head node)) n :
  m !! n = Some (mkHead None None) -> list_del m n = None.
Proof. unfold list_del. by intros ->. Qed.

Lemma walk_one c1 n b kept x rest c :
  node_buf c1 n = Some b -> b.(status) <> BUF_STATE_USING ->
  (forall m, m ∈ kept ++ x :: rest -> exists i, m = Slot OUT i) -> is_Some (node_buf c1 x) ->
  walking c1 n b kept (x :: rest) c ->
  exists c' kept', flush_out_one c x = Some c' /\ walking c1 n b kept' rest c'
    /\ (forall m, m ∈ kept' -> m ∈ kept ++ [x]).
Proof.
  intros Hb Hs Hslot [bx Hbx] [Hl Hbuf Hu Hk [ev Htr] Hlost].
  unfold flush_out_one. rewrite (Hbuf x) by set_solver. rewrite Hbx. cbn [mbind option_bind].
  assert (Hnd : x ∉ rest /\ x ∉ kept /\ x <> QHead OUT).
  { destruct Hl as [[Hh Hnd]%NoDup_cons _]. apply NoDup_app in Hnd as (_ & H1 & [H2 _]%NoDup_cons).
    split_and!; [done|intros Hi; apply (H1 x Hi); set_solver|set_solver]. }
  destruct Hnd as (Hxr & Hxk & Hxh).
  destruct (decide (status bx = BUF_STATE_USING)) as [Hx|Hx].
  - assert (x <> n) by congruence. exists c, (kept ++ [x]). split; [done|]. split; [|done].
    split; [by rewrite <- app_assoc| |done|set_solver|by exists ev|].
    + intros m Hm. apply Hbuf. set_solver.
    + destruct Hlost as [Hn|]; [left; set_solver|by right].
  - destruct (alter_buf_ok c x (fun b => b <| status := BUF_STATE_IDLE |>) bx) as (c2 & -> & Hf & Hb2);
      [by rewrite Hbuf by set_solver|]. cbn [mbind option_bind].
    assert (Hl2 : links c2 = links c) by exact (f_equal links Hf : links c2 = links c).
    unfold on_links. rewrite Hl2.
    destruct (list_del_ok _ _ _ _ _ Hl) as (m' & Em & _ & Hl' & Hfr). rewrite Em. cbn [mbind option_bind].
    destruct (Hslot x ltac:(set_solver)) as [i Hi].
    eexists _, kept. split; [done|]. split; [|set_solver].
    assert (Ht2 : trace c2 = trace c) by exact (f_equal trace Hf : trace c2 = trace c).
    split; [exact Hl'| | |done| |].
    + intros m Hm. unfold message_queue. rewrite node_buf_post, (node_buf_tables c2) by (by try intros []).
      rewrite Hb2, decide_False by (intros ->; done). apply Hbuf. set_solver.
    + rewrite <- Hu. exact (proj1 (proj2 (proj2 (frame_nums _ _ Hf OUT)))).
    + simpl. rewrite Ht2, Htr, <- app_assoc. by eexists.
    + destruct (decide (n = x)) as [->|Hne].
      * right. split; [simpl; by eapply list_del_dead|]. simpl. rewrite Ht2, Htr, <- app_assoc.
        eexists. split; [done|]. rewrite returned_app. apply elem_of_app. right.
        assert (bx = b) as -> by congruence. cbn. set_solver.
      * destruct Hlost as [Hn|[Hd (evs & He & Hr)]]; [left; set_solver|right].
        split.
        -- simpl. rewrite Hfr; [done|]. intros Hin. apply elem_of_cons in Hin as [->|Hin].
           ++ destruct Hl as [_ Hs']. pose proof (seg_first _ _ _ _ Hs') as Hnx.
              unfold list_next in Hnx. by rewrite Hd in Hnx.
           ++ assert (exists y, list_next (links c) n = Some y) as [y Hy].
              { apply list_elem_of_split in Hin as (a1 & a2 & Ha). rewrite Ha in Hl.
                rewrite (is_list_succ _ _ _ _ _ Hl). by eexists. }
              unfold list_next in Hy. by rewrite Hd in Hy.
        -- simpl. rewrite Ht2, He, <- app_assoc. eexists. split; [done|].
           rewrite returned_app. set_solver.
Qed.

(** A flush of the frame buffers resets the decoder first, which leaves the
    buffers and the queues alone. *)
Lemma before_flush c t av af :
  table_ok t -> 0 <= c.(channel_id) ->
  exists c0 t0, (if recfg_flag c then Some (c <| recfg_flag := false |>, t)
            else '(c, t, _) ← channel_reset_inst c t av af;
                 Some (c <| seek_pending := true |>, t)) = Some (c0, t0)
    /\ links c0 = links c /\ (forall n, node_buf c0 n = node_buf c n)
    /\ uses OUT c0 = uses OUT c /\ exists evs, trace c0 = trace c ++ evs.
Proof.
  intros Ht Hid. destruct (recfg_flag c).
  - eexists _, _. split; [done|]. split_and!; [done| |done|exists []; by rewrite app_nil_r].
    apply node_buf_tables; [by intros []|done].
  - unfold channel_reset_inst. destruct (reset_ok t (channel_id c) Ht Hid) as (t' & r & Er & _).
    simpl channel_id. rewrite Er. cbn [mbind option_bind]. eexists _, t'. split; [done|].
    split_and!; [done| |done|simpl; rewrite <- app_assoc; by eexists].
    apply node_buf_tables; [by intros []|done].
Qed.

Lemma race_faults c q t n b addr av af :
  queues_ok c q -> counted c q -> table_ok t -> 0 <= c.(channel_id) -> addr <> 0 ->
  n ∈ q OUT -> node_buf c n = Some b -> hw_addr b = addr -> in_use c n = true ->
  (forall m bm, m ∈ q OUT -> node_buf c m = Some bm -> hw_addr bm = addr -> m = n) ->
  exists c1 c2 t' evs, release_frame_mark c addr = Some (c1, inl n)
    /\ channel_flush_out_port c1 t av af = Some (c2, t', HI_SUCCESS)
    /\ trace c2 = trace c1 ++ evs /\ b.(client_data) ∈ returned OUT evs
    /\ pending OUT c2 = true /\ release_frame_finish c2 n = None.
Proof.
  intros Hok [U _ _] Ht Hid Ha Hn Hb Hadr Hu Huniq. unfold release_frame_mark.
  rewrite (proj2 (Z.eqb_neq _ _) Ha), (queue_empty _ _ Hok). cbn [mbind option_bind].
  rewrite bool_decide_eq_false_2 by (intros Hq; rewrite Hq in Hn; by apply elem_of_nil in Hn).
  assert (find_hw c OUT addr = Some (Some n)) as ->.
  { destruct (find_hw_ok c q OUT addr Hok) as ([m|] & -> & Hr).
    - destruct Hr as (bm & l1 & l2 & [Hq Hbm Ham _]). do 2 f_equal.
      apply (Huniq m bm); [rewrite Hq; set_solver|done|done].
    - by destruct (Hr n b Hn Hb). }
  cbn [mbind option_bind].
  destruct (alter_buf_ok c n (fun b => b <| status := BUF_STATE_IDLE |>) b Hb) as (c1 & -> & Hf & Hb1).
  cbn [mbind option_bind].
  assert (Hl1 : links c1 = links c) by exact (f_equal links Hf : links c1 = links c).
  assert (Hu1 : uses OUT c1 = uses OUT c) by apply (frame_nums _ _ Hf OUT).
  assert (Hid1 : channel_id c1 = channel_id c) by exact (f_equal channel_id Hf).
  destruct (before_flush c1 t av af Ht ltac:(lia)) as (c0 & t0 & E0 & Hl0 & Hb0 & Hu0 & ev0 & Ht0).
  assert (Hslot : forall m, m ∈ q OUT -> exists i, m = Slot OUT i).
  { intros m Hm. destruct (qo_node _ _ Hok OUT m Hm) as [[_ ?]|(i & -> & _)]; [done|by eexists]. }
  set (b' := b <| status := BUF_STATE_IDLE |>).
  assert (Hbn : node_buf c0 n = Some b') by (by rewrite Hb0, Hb1, decide_True).
  destruct (for_each_safe_ok links flush_out_one (QHead OUT)
              (fun kept rest s => walking c0 n b' kept rest s
                 /\ forall m, m ∈ kept ++ rest -> m ∈ q OUT)) with (s := c0) (l := q OUT)
    as (c2 & kept & E2 & [Hw _]).
  - intros kept rest s [[]]. done.
  - intros kept x rest s [Hw Hsub].
    destruct (walk_one c0 n b' kept x rest s Hbn ltac:(done)) as (s' & kept' & -> & Hw' & Hk'); [| |done|].
    + intros m Hm. by apply Hslot, Hsub.
    + rewrite Hb0, Hb1. case_decide; [by eexists|].
      destruct (queued_buf _ _ Hok OUT x) as [bx Hbx]; [apply Hsub; set_solver|by eexists].
    + exists s', kept'. split; [done|]. split; [done|]. intros m [Hm|Hm]%elem_of_app; [|apply Hsub; set_solver].
      apply Hk' in Hm. apply Hsub. set_solver.
  - split; [|done]. split; [rewrite Hl0, Hl1; apply (qo_list _ _ Hok)|done|done|set_solver| |by left].
    exists []. by rewrite app_nil_r.
  - destruct Hw as [_ _ Hu2 _ _ [Hno|[Hdead (evs & Ht2 & Hret)]]]; [by apply elem_of_nil in Hno|].
    unfold channel_flush_out_port.
    assert (Huse : use_cnt (outp c2) > 0).
    { change (uses OUT c2 > 0). rewrite Hu2, Hu0, Hu1, (U OUT).
      apply list_elem_of_split in Hn as (l1 & l2 & ->). rewrite taken_app, taken_cons, Hu.
      pose proof (taken_nonneg c l1). pose proof (taken_nonneg c l2). lia. }
    exists c1. eexists _, t0, (ev0 ++ evs). split; [done|].
    unfold channel_flush_out_port. rewrite E0. cbn [mbind option_bind]. rewrite E2.
    cbn [mbind option_bind]. rewrite (proj2 (Z.gtb_lt _ _)) by lia.
    split; [done|]. split; [simpl; by rewrite Ht2, Ht0, app_assoc|].
    split; [rewrite returned_app; set_solver|]. split; [done|].
    unfold release_frame_finish. cbn [port on_port]. simpl orb. cbv iota.
    unfold on_links. simpl links. by rewrite (list_del_at_dead _ _ Hdead).
Qed.
End Faults.
