(* ===== verification/OmxProps.v ===== *)
(** * What the decoder channels guarantee

    The properties of the video decoder's channels and of their device, each with
    a run of the code on which its hypotheses hold. *)

From S2P Require Import Prelude KList FrameRate PtsRec OmxDelay OmxChan OmxHw OmxQueue OmxCalls.
From S2P Require Import OmxServe OmxReturn OmxBind OmxInit OmxDev OmxRun OmxLife OmxSafe OmxFlush.
From S2P Require Import OmxFifo OmxFaults.

(** ** A platform, and runs on it *)

Section Along.
Context {C : HiConsts} {E : OmxEnv}.

Lemma dev_along_cons e call calls e' leak :
  dev_keeps e call -> dev_step e call = Some (e', leak) -> dev_along e' calls ->
  dev_along e (call :: calls).
Proof. intros Hk Hs Ha. split; [done|]. intros e2 l2 H2. rewrite Hs in H2. by injection H2 as <- _. Qed.

(** The conditions of a run, decided; unbinding and stereo pictures are not covered. *)
Definition user_keeps_b c (call : chan_call) : bool :=
  match call with
  | USER (BIND_BUFFER d _) =>
      negb (bool_decide (port_of d.(dir) = Some IN) && (d.(phyaddr) =? c.(last_frame).(phy_addr)))
  | USER (UNBIND_BUFFER d) => false
  | USER (EMPTY_INPUT_STREAM d _) => negb (bool_decide (port_of d.(dir) = Some OUT))
  | USER (FILL_OUTPUT_FRAME d) => negb (bool_decide (port_of d.(dir) = Some IN))
  | _ => true
  end.

Definition honest_b c p (addr : Z) : bool :=
  forallb (fun n => from_option (fun b => negb (bool_decide (b.(status) = BUF_STATE_QUEUED)
                                                && (hw_addr b =? addr))) true (node_buf c n))
    (LastFrame :: slots p c).

Definition hardware_keeps_b c (call : chan_call) : bool :=
  match call with
  | HARDWARE (HW_RELEASE_STREAM addr _ _ _) => honest_b c IN addr
  | HARDWARE (HW_VPSS_EVENT (EV_REL_FRMBUFFER _ _ addr) _) => honest_b c OUT addr
  | HARDWARE (HW_VPSS_EVENT (EV_NEW_FRAME _ f) _) => honest_b c OUT f.(r_addr_Y) && negb f.(r_stereo)
  | _ => true
  end.

Fixpoint along_b (P : OMXVDEC_CHAN_CTX -> chan_call -> bool) c (t : chan_table)
    (calls : list chan_call) : bool :=
  match calls with
  | [] => true
  | call :: calls =>
      P c call && match chan_step c t call with
                  | Some (c, t, _) => along_b P c t calls | None => true
                  end
  end.

Lemma along_dec P Pb :
  (forall c call, Pb c call = true -> P c call) ->
  forall calls c t, along_b Pb c t calls = true -> along P c t calls.
Proof.
  intros HP. induction calls as [|call calls IH]; intros c t; simpl; [done|].
  intros [H1 H2]%andb_true_iff. split; [by apply HP|]. intros c' t' acc Hs. rewrite Hs in H2. by apply IH.
Qed.

Lemma user_keeps_dec c call : user_keeps_b c call = true -> user_keeps c call.
Proof.
  destruct call as [cmd|h]; [|done]. destruct cmd as [d mapped|d|d now|d|which av af| | |a|a]; simpl; try done.
  - intros H%negb_true_iff Hp Ha. rewrite bool_decide_eq_true_2, Ha, Z.eqb_refl in H by done. done.
  - intros H%negb_true_iff. by apply bool_decide_eq_false_1 in H.
  - intros H%negb_true_iff. by apply bool_decide_eq_false_1 in H.
Qed.

Lemma honest_dec c p addr : honest_b c p addr = true -> honest c p addr.
Proof.
  intros H n b Hl Hb Hs Ha. unfold honest_b in H. rewrite forallb_forall in H.
  assert (Hn : In n (LastFrame :: slots p c)).
  { apply list_elem_of_In. destruct Hl as [[-> _]|Hi]; [by left|right; by apply elem_of_slots]. }
  specialize (H n Hn). rewrite Hb in H. simpl in H.
  by rewrite bool_decide_eq_true_2, Ha, Z.eqb_refl in H.
Qed.

Lemma hardware_keeps_dec c call : hardware_keeps_b c call = true -> hardware_keeps c call.
Proof.
  destruct call as [cmd|[now|addr tag stack now|[| |f|port last addr|port f] now|ev now a]]; simpl; try done.
  - apply honest_dec.
  - apply honest_dec.
  - intros [H1 H2%negb_true_iff]%andb_true_iff. split; [by apply honest_dec|congruence].
Qed.
End Along.

(** The platform of the examples. *)
Definition demo_env (statistics : bool) : OmxEnv := {|
  LAST_FRAME_BUF_ID := 255; LAST_FRAME_BUF_SIZE := 1024; HI_ID_VDEC := 31; LAST_FRAME_FLAG := 1;
  VPSS_INVALID_HANDLE := -1; PORTHANDLE_TO_VPSSID h := h / 256; HI_SYS_GET_STRIDE w := w;
  kernel_va a := a; g_FastOutputMode := false; g_LowDelayStatistics := statistics;
  g_SaveYuvEnable := false; g_lowdelay_count_frame := 8;
|}.

Definition demo_cfg : OMXVDEC_DRV_CFG := mkCfg 1920 1080 1920 4 4 false STD_H264 0 0 1.
Definition demo_switches : omx_switches := mkSwitches 6 2 false.

Definition demo_mem : list (OMXVDEC_BUF_S * list_head node) := replicate 8 (zero_buf, null_head).

Definition demo_create (ctx_at : Z) (calc : bool) : create_answers :=
  mkCreateAns (Some ctx_at) true
    (mkDecAns (Some (3000000, 2000000)) (Some 0x10000000) true (Some 0x20000000) true (Some 7) true
       true true calc)
    (mkProcAns true (Some 3) true true true (Some 769))
    (Some (0x30000000, 0x70000000, demo_mem)) true (40, 5) 0.

Definition demo_desc (dir_ addr tag : Z) : OMXVDEC_BUF_DESC :=
  zero_desc <| dir := dir_ |> <| phyaddr := addr |> <| bufferaddr := addr |> <| buffer_len := 4000000 |>
    <| d_client_data := tag |> <| data_len := 100 |>
    <| out_frame ::= fun f => f <| stride := 1920 |> |>.

Definition ok_answers : hw_answers := mkAns 0 0 0 0.

(** A context with tables, before any call. *)
Definition demo_ctx (c : OMXVDEC_CHAN_CTX) : OMXVDEC_CHAN_CTX :=
  c <| state := CHAN_STATE_IDLE |> <| port_id := 769 |> <| processor_id := 3 |>.

Definition demo_of (statistics : bool) (o : option OMXVDEC_CHAN_CTX) : OMXVDEC_CHAN_CTX :=
  from_option (fun c => demo_ctx (set_tables (E := demo_env statistics) (config_ctx demo_cfg c) demo_cfg
                                    0x30000000 0x70000000 demo_mem)) zero_ctx o.

Definition demo_channel (statistics : bool) : OMXVDEC_CHAN_CTX := demo_of statistics (init_ctx 5).

Lemma demo_fits b : counts_ok (E := demo_env b) demo_cfg /\ extra_ok (E := demo_env b) demo_cfg (demo_create 1 true).
Proof.
  split; [split; vm_compute; congruence|]. intros pa va mem [= <- <- <-]. by vm_compute.
Qed.

Lemma demo_ctx_ok {E : OmxEnv} c q :
  queues_ok c q -> counted c q -> sound (demo_ctx c) /\ counters_ok (demo_ctx c).
Proof.
  intros Hok Hct. assert (Hok2 : queues_ok (demo_ctx c) q) by (by destruct Hok; split).
  assert (Hct2 : counted (demo_ctx c) q) by (by destruct Hct; split).
  split; [by exists q|]. by apply (proj2 (counters_counted _ _ Hok2)).
Qed.

Lemma demo_of_ok b c :
  fresh c -> lowdelay_rec c = None ->
  sound (E := demo_env b) (demo_of b (Some c)) /\ counters_ok (demo_of b (Some c)).
Proof.
  intros Hf Hr. destruct (demo_fits b) as [Hcfg Hx].
  assert (Hf' : fresh (config_ctx demo_cfg c)) by (by destruct Hf; split).
  destruct (set_tables_ok (E := demo_env b) demo_cfg (demo_create 1 true) (config_ctx demo_cfg c)
              0x30000000 0x70000000 demo_mem Hf' Hcfg Hx eq_refl Hr) as [Hok Hct].
  exact (demo_ctx_ok (E := demo_env b) _ _ Hok Hct).
Qed.

Lemma demo_sound b :
  sound (E := demo_env b) (demo_channel b) /\ counters_ok (demo_channel b).
Proof.
  destruct (init_ctx_ok 5) as (c & Hc & Hf & _ & Hr). unfold demo_channel. rewrite Hc.
  by apply demo_of_ok.
Qed.

#[local] Instance demo : OmxEnv := demo_env false.

(** Two stream and two frame buffers are bound, the channel is started, and both
    of each are submitted. *)
Definition demo_calls : list chan_call :=
  [USER (BIND_BUFFER (demo_desc 0 0x1000000 11) (Some 0x71000000));
   USER (BIND_BUFFER (demo_desc 0 0x1200000 12) (Some 0x71200000));
   USER (BIND_BUFFER (demo_desc 1 0x2000000 21) (Some 0x72000000));
   USER (BIND_BUFFER (demo_desc 1 0x2400000 22) (Some 0x72400000));
   USER (CHAN_START ok_answers);
   USER (EMPTY_INPUT_STREAM (demo_desc 0 0x1000000 11) 100);
   USER (EMPTY_INPUT_STREAM (demo_desc 0 0x1200000 12) 101);
   USER (FILL_OUTPUT_FRAME (demo_desc 1 0x2000000 21));
   USER (FILL_OUTPUT_FRAME (demo_desc 1 0x2400000 22))].

(** The decoder takes a stream buffer, and VPSS both frame buffers. *)
Definition demo_hw : list chan_call :=
  [HARDWARE (HW_GET_STREAM 102);
   HARDWARE (HW_VPSS_EVENT (EV_GET_FRMBUFFER (mkFrmBuf 769 1920 1080 0 0 0 0 0)) 103);
   HARDWARE (HW_VPSS_EVENT (EV_GET_FRMBUFFER (mkFrmBuf 769 1920 1080 0 0 0 0 0)) 104)].

(** The decoder's buffer and one of the frame buffers come back. *)
Definition demo_back : list chan_call :=
  [HARDWARE (HW_RELEASE_STREAM 0x1000000 0 zero_desc 105);
   HARDWARE (HW_VPSS_EVENT (EV_NEW_FRAME 769 (zero_report <| r_addr_Y := 0x2000000 |>)) 106)].

Definition demo_after (calls : list chan_call) : OMXVDEC_CHAN_CTX :=
  match chan_run (demo_channel false) init_table calls with
  | Some (c, _, _) => c | None => zero_ctx
  end.

Lemma demo_table : table_ok init_table.
Proof.
  apply reachable_ok. by eapply (reach_init (replicate 16 (mkChan PTSREC_CHAN_INITED 0 0 0 0 0 0 0 0 0
    HI_FRMRATE_TYPE_PTS (mkFRD [] 0 0 0 0 0 0 0 0 0 0 0 0)))).
Qed.


Definition demo_all : list chan_call := demo_calls ++ demo_hw ++ demo_back.

Lemma demo_keeps :
  along user_keeps (demo_channel false) init_table demo_all
  /\ along hardware_keeps (demo_channel false) init_table demo_all.
Proof.
  split; [apply (along_dec _ _ user_keeps_dec)
         |apply (along_dec _ _ hardware_keeps_dec)]; by vm_compute.
Qed.

(** ** Channels *)

(** C2: a channel neither loses a buffer nor gives one back twice, over every run in
    which the user keeps its side of the contract ([along user_keeps]): it names
    the right port when it submits, it unbinds only buffers that it has, and it does
    not bind the memory of the end of the stream. The hardware may call anything.
    Then every call is defined, and at each port the buffers that the user handed
    over, with those the driver had before, are those that it has after and those
    it has told the user to take back. Without the condition on unbinding
    [unbind_queued_faults] applies; a flush between the two steps of a return,
    which are one call here, is [release_flush_race]. *)
Theorem buffers_conserved {C : HiConsts} {E : OmxEnv} {Ok : HiConstsOk C}
    (c : OMXVDEC_CHAN_CTX) (t : chan_table) (calls : list chan_call) :
  0 < g_lowdelay_count_frame -> sound c -> table_ok t -> 0 <= c.(channel_id) ->
  along user_keeps c t calls ->
  exists c' t' acc evs, chan_run c t calls = Some (c', t', acc)
    /\ trace c' = trace c ++ evs
    /\ forall p, has c' p ++ returned p evs ≡ₚ has c p ++ acc p.
Proof.
  intros Hg [q Hok] Ht Hid Ha.
  destruct (chan_run_ok calls c q t Hg Hok Ht Hid Ha) as (c' & t' & q' & acc & Hr & _ & Hk & _).
  destruct Hk as [Hok' (evs & Htr & Hb) _ _]. exists c', t', acc, evs. split_and!; [done|done|].
  intros p. by rewrite <- (has_owed c' q' p Hok'), <- (has_owed c q p Hok).
Qed.

Lemma buffers_conserved_witness :
  exists c' t' acc evs, chan_run (demo_channel false) init_table demo_all = Some (c', t', acc)
    /\ trace c' = trace (demo_channel false) ++ evs
    /\ forall p, has c' p ++ returned p evs ≡ₚ has (demo_channel false) p ++ acc p.
Proof.
  apply (buffers_conserved (demo_channel false) init_table demo_all).
  - reflexivity.
  - apply (demo_sound false).
  - apply demo_table.
  - vm_compute. congruence.
  - apply demo_keeps.
Defined.

(** C12: the counters of the buffers that the hardware has are right after every
    run in which the user keeps its side of the contract ([along user_keeps]) and
    the hardware returns only buffers that it has ([along hardware_keeps]); then a
    flush, or a pause, waits only while there is a buffer to wait for. *)
Theorem counters_right {C : HiConsts} {E : OmxEnv} {Ok : HiConstsOk C}
    (c : OMXVDEC_CHAN_CTX) (t : chan_table) (calls : list chan_call) :
  0 < g_lowdelay_count_frame -> sound c -> table_ok t -> 0 <= c.(channel_id) -> counters_ok c ->
  along user_keeps c t calls -> along hardware_keeps c t calls ->
  exists c' t' acc, chan_run c t calls = Some (c', t', acc)
    /\ (forall p, uses p c' = hw_has c' p)
    /\ (forall p, pending p c' = true -> 0 < hw_has c' p)
    /\ (c'.(pause_pending) = true -> 0 < hw_has c' OUT).
Proof.
  intros Hg [q Hok] Ht Hid Hct Ha Hh.
  destruct (chan_run_ok calls c q t Hg Hok Ht Hid Ha) as (c' & t' & q' & acc & Hr & _ & Hk & Hc).
  exists c', t', acc. split; [done|].
  specialize (Hc Hh (proj1 (counters_counted c q Hok) Hct)).
  apply (counters_counted c' q' (kp_ok _ _ _ _ _ Hk)) in Hc as [U P Z].
  split_and!; [done|intros p; rewrite <- U; apply P|rewrite <- U; apply Z].
Qed.

Lemma counters_right_witness :
  exists c' t' acc, chan_run (demo_channel false) init_table demo_all = Some (c', t', acc)
    /\ (forall p, uses p c' = hw_has c' p)
    /\ (forall p, pending p c' = true -> 0 < hw_has c' p)
    /\ (c'.(pause_pending) = true -> 0 < hw_has c' OUT).
Proof.
  apply (counters_right (demo_channel false) init_table demo_all).
  - reflexivity.
  - apply (demo_sound false).
  - apply demo_table.
  - vm_compute. congruence.
  - apply (demo_sound false).
  - apply demo_keeps.
  - apply demo_keeps.
Defined.

(** C15: the tables of a channel are well typed after every run in which the user
    keeps its side of the contract ([along user_keeps]: it unbinds only buffers that
    it has, and names the right port): the bound slots are dense and numbered, no
    two have the same address, a buffer is idle exactly when it is not in its port's
    queue, and only bound slots and the end of the stream are ever queued, once.
    The hardware may call anything. *)
Theorem tables_typed {C : HiConsts} {E : OmxEnv} {Ok : HiConstsOk C}
    (c : OMXVDEC_CHAN_CTX) (t : chan_table) (calls : list chan_call) :
  0 < g_lowdelay_count_frame -> sound c -> table_ok t -> 0 <= c.(channel_id) ->
  along user_keeps c t calls ->
  exists c' t' acc, chan_run c t calls = Some (c', t', acc) /\ typed c'.
Proof.
  intros Hg [q Hok] Ht Hid Ha.
  destruct (chan_run_ok calls c q t Hg Hok Ht Hid Ha) as (c' & t' & q' & acc & Hr & _ & Hk & _).
  exists c', t', acc. split; [done|]. apply sound_typed. exists q'. apply Hk.
Qed.

Lemma tables_typed_witness :
  exists c' t' acc, chan_run (demo_channel false) init_table demo_all = Some (c', t', acc) /\ typed c'.
Proof.
  apply (tables_typed (demo_channel false) init_table demo_all).
  - reflexivity.
  - apply (demo_sound false).
  - apply demo_table.
  - vm_compute. congruence.
  - apply demo_keeps.
Defined.

(** The decoder gets the first buffer of the queue that it has not got yet, and
    none only when the channel does not work, is being flushed, or has no such
    buffer. The queue itself stays as it is. *)
Theorem stream_is_first {C : HiConsts} {E : OmxEnv} {Ok : HiConstsOk C}
    (c : OMXVDEC_CHAN_CTX) (now : Z) :
  0 < g_lowdelay_count_frame -> sound c ->
  exists c' s ret, get_stream c now = Some (c', s, ret)
    /\ queue_at c' IN = queue_at c IN
    /\ match s with
       | Some s => ret = HI_SUCCESS /\ state c = CHAN_STATE_WORK /\ pending IN c = false
           /\ exists l1 n l2 b, queue_at c IN = l1 ++ n :: l2 /\ node_buf c n = Some b
                /\ (forall m, m ∈ l1 -> in_use c m = true) /\ in_use c n = false
                /\ in_use c' n = true
                /\ s <| Length := 0 |> = (stream_of c b) <| Length := 0 |>
       | None => ret = HI_FAILURE /\ c' = c
           /\ (state c <> CHAN_STATE_WORK \/ pending IN c = true
               \/ forall m, m ∈ queue_at c IN -> in_use c m = true)
       end.
Proof.
  intros Hg [q Hok].
  destruct (get_stream_ok c q now Hg Hok) as (c' & s & ret & -> & Hs & Hcase).
  exists c', s, ret. rewrite (queue_at_ok c' q IN (sv_ok _ _ _ _ _ Hs)), (queue_at_ok c q IN Hok).
  split_and!; [done|done|]. destruct s as [s|].
  - destruct Hcase as (Hret & Hst & Hp & n & b & (Hb & Hu & _ & l1 & l2 & Hq & Hl1) & Hu' & Hlen & _).
    split_and!; [done|done|done|]. exists l1, n, l2, b. split_and!; try done.
    intros m Hm. destruct (queued_buf c q Hok IN m) as [bm Hbm]; [rewrite Hq; set_solver|].
    by destruct (Hl1 m bm Hm Hbm).
  - destruct Hcase as (Hret & -> & Hwhy). split_and!; [done|done|].
    destruct Hwhy as [|[|Hno]]; [by left|by right; left|]. right. right. intros m Hm.
    destruct (queued_buf c q Hok IN m Hm) as [bm Hbm]. by destruct (Hno m bm Hm Hbm).
Qed.

Lemma demo_count : 0 < g_lowdelay_count_frame.
Proof. reflexivity. Qed.

Lemma demo_id : 0 <= channel_id (demo_channel false).
Proof. by vm_compute. Qed.

Lemma demo_after_sound calls :
  along user_keeps (demo_channel false) init_table calls -> sound (demo_after calls).
Proof.
  intros Ha. destruct (demo_sound false) as [[q Hok] _].
  destruct (chan_run_ok calls (demo_channel false) q init_table demo_count Hok demo_table demo_id Ha)
    as (c' & t' & q' & acc & Hr & _ & Hk & _).
  unfold demo_after. rewrite Hr. exists q'. apply Hk.
Qed.

(** C20: the decoder gets the stream buffers in the order in which they were
    submitted. Over a run of any calls of the user and the hardware but flushes and
    unbindings, in which the user names the direction of the port and the hardware
    returns only what it has, the buffers that the decoder took ([gots]: each the
    one that its call marks as in use and whose address it is given), followed by
    those that still wait, are those that waited before, followed by those that
    were submitted with data and accepted ([puts]), all in order. *)
Theorem stream_in_order {C : HiConsts} {E : OmxEnv} {Ok : HiConstsOk C}
    (c : OMXVDEC_CHAN_CTX) (t : chan_table) (calls : list chan_call) :
  0 < g_lowdelay_count_frame -> sound c -> table_ok t -> 0 <= c.(channel_id) ->
  along user_keeps c t calls -> along hardware_keeps c t calls -> along no_flush c t calls ->
  exists c' t' puts gots, fifo_run c t calls = Some (c', t', puts, gots)
    /\ gots ++ waits c' = waits c ++ puts.
Proof. intros Hg [q Hok] Ht Hid Hu Hh Hn. by apply (fifo_run_ok calls c q t). Qed.

Definition no_flush_b (c : OMXVDEC_CHAN_CTX) (call : chan_call) : bool :=
  match call with USER (FLUSH_PORT _ _ _) | USER (UNBIND_BUFFER _) => false | _ => true end.

Lemma no_flush_dec c call : no_flush_b c call = true -> no_flush c call.
Proof. destruct call as [[]|]; done. Qed.

Lemma stream_in_order_witness :
  exists c' t', fifo_run (demo_channel false) init_table demo_all = Some (c', t', [11; 12], [11])
    /\ [11] ++ waits c' = [11; 12].
Proof.
  destruct (stream_in_order (demo_channel false) init_table demo_all)
    as (c' & t' & puts & gots & H1 & H2).
  - reflexivity.
  - apply (demo_sound false).
  - apply demo_table.
  - vm_compute. congruence.
  - apply demo_keeps.
  - apply demo_keeps.
  - apply (along_dec _ _ no_flush_dec). vm_compute. reflexivity.
  - assert (Hr : (fun r => (snd (fst r), snd r))
                 <$> fifo_run (demo_channel false) init_table demo_all = Some ([11; 12], [11]))
      by (vm_compute; reflexivity).
    rewrite H1 in Hr. injection Hr as Hp Hq.
    assert (Hw : waits (demo_channel false) = []) by (vm_compute; reflexivity).
    rewrite Hw, Hp, Hq in H2. exists c', t'. rewrite H1, Hp, Hq. split; [reflexivity|exact H2].
Defined.

(** C11: a flush of the stream buffers gives back, in the order of their
    submission, those that the decoder has not got, and ends at once when it has
    none. Else it waits, and once the decoder has returned the others, in any
    order, the queue is empty, every buffer that the driver had is the user's again,
    and the flush is reported done, exactly once, after everything else. *)
Theorem flush_completes {C : HiConsts} {E : OmxEnv} {Ok : HiConstsOk C}
    (c : OMXVDEC_CHAN_CTX) (stack : OMXVDEC_BUF_DESC) (now : Z) :
  0 < g_lowdelay_count_frame -> sound c -> counters_ok c ->
  exists c1, channel_flush_in_port c = Some (c1, HI_SUCCESS)
    /\ queue_at c1 IN = List.filter (in_use c) (queue_at c IN)
    /\ if hw_has c IN =? 0 then
         pending IN c1 = false /\ queue_at c1 IN = []
         /\ trace c1 = trace c ++ flat_map (flush_event c IN) (queue_at c IN)
                       ++ [MSG (flushed_code IN) VDEC_S_SUCCESS NoData]
       else
         pending IN c1 = true
         /\ forall l, NoDup (map fst l) -> map fst l ≡ₚ map (addr_of c1) (queue_at c1 IN) ->
              exists c2 evs, return_streams stack now c1 l = Some c2
                /\ queue_at c2 IN = [] /\ pending IN c2 = false
                /\ trace c2 = trace c ++ evs ++ [MSG (flushed_code IN) VDEC_S_SUCCESS NoData]
                /\ returned IN evs ≡ₚ has c IN
                /\ Forall (fun e => ~ flush_done IN e) evs.
Proof.
  intros Hg [q Hok] Hc. pose proof (proj1 (counters_counted c q Hok) Hc) as Hct.
  destruct (flush_leaves c q Hok Hct) as (c1 & q1 & -> & Hk1 & Hct1 & Hq1 & Hu1 & Hp1 & Ht1).
  pose proof (kp_ok _ _ _ _ _ Hk1) as Hok1.
  exists c1. rewrite (queue_at_ok c1 q1 IN Hok1), (queue_at_ok c q IN Hok).
  split_and!; [done|done|]. rewrite (cs_uses _ Hc IN) in Hp1, Ht1.
  assert (Hlen : hw_has c IN = Z.of_nat (length (q1 IN))).
  { rewrite <- (hw_has_taken c q IN Hok), Hq1. done. }
  rewrite Hlen in *. destruct (Z.eqb_spec (Z.of_nat (length (q1 IN))) 0) as [Hz|Hz].
  - rewrite Hz in Hp1, Ht1. split_and!; [done|by apply length_zero_iff_nil; lia|done].
  - destruct (Z.gtb_spec (Z.of_nat (length (q1 IN))) 0); [|lia]. split; [done|].
    intros l Hnd Hl.
    destruct (return_all stack now l c1 q1 Hg Hok1 Hct1 Hp1 Hu1 Hnd Hl)
      as (c2 & q2 & evs & Hr & Hk2 & _ & Hq2 & Hp2 & He & Ht2).
    set (all := (flat_map (flush_event c IN) (q IN) ++ [VFMW RELEASE_STREAM]) ++ evs).
    assert (Ht : trace c2 = trace c ++ all ++ [MSG (flushed_code IN) VDEC_S_SUCCESS NoData])
      by (unfold all; rewrite Ht2, Ht1, !app_assoc; done).
    exists c2, all. rewrite (queue_at_ok c2 q2 IN (kp_ok _ _ _ _ _ Hk2)).
    split_and!; [done|done|done|done| |].
    + pose proof (kept_trans _ _ _ _ _ _ nothing nothing Hk1 Hk2) as [_ (ev & Htr & Hb) _ _].
      rewrite Ht in Htr. apply app_inv_head in Htr. specialize (Hb IN).
      rewrite <- Htr, Hq2, returned_app, !app_nil_r in Hb. simpl in Hb.
      by rewrite <- (has_owed c q IN Hok), <- Hb.
    + apply Forall_app. split; [|done]. apply Forall_app. split; [apply flush_events_no_done|].
      repeat constructor. by intros (st & d & [=]).
Qed.

Lemma demo_after_counters calls :
  along user_keeps (demo_channel false) init_table calls ->
  along hardware_keeps (demo_channel false) init_table calls -> counters_ok (demo_after calls).
Proof.
  intros Ha Hh. destruct (demo_sound false) as [[q Hok] Hct].
  destruct (chan_run_ok calls (demo_channel false) q init_table demo_count Hok demo_table demo_id Ha)
    as (c' & t' & q' & acc & Hr & _ & Hk & Hc).
  unfold demo_after. rewrite Hr. apply (counters_counted c' q' (kp_ok _ _ _ _ _ Hk)), (Hc Hh).
  by apply (counters_counted _ _ Hok).
Qed.

(** The decoder has the first stream buffer. *)
Definition demo_busy : OMXVDEC_CHAN_CTX := demo_after (demo_calls ++ demo_hw).

Lemma demo_busy_ok : sound demo_busy /\ counters_ok demo_busy.
Proof.
  assert (Ha : along user_keeps (demo_channel false) init_table (demo_calls ++ demo_hw))
    by (apply (along_dec _ _ user_keeps_dec); by vm_compute).
  split; [by apply demo_after_sound|apply demo_after_counters; [done|]].
  apply (along_dec _ _ hardware_keeps_dec). by vm_compute.
Qed.

Lemma flush_completes_witness :
  exists c1 c2 evs, channel_flush_in_port demo_busy = Some (c1, HI_SUCCESS)
    /\ return_streams zero_desc 105 c1 [(0x1000000, 0)] = Some c2
    /\ trace c2 = trace demo_busy ++ evs ++ [MSG (flushed_code IN) VDEC_S_SUCCESS NoData]
    /\ returned IN evs ≡ₚ [11; 12].
Proof.
  destruct demo_busy_ok as [Hs Hc].
  destruct (flush_completes demo_busy zero_desc 105 demo_count Hs Hc) as (c1 & E1 & _ & Hif).
  assert (Hz : (hw_has demo_busy IN =? 0) = false) by (vm_compute; reflexivity).
  rewrite Hz in Hif. destruct Hif as [_ Hif].
  assert (Hq : (fun r => map (addr_of (fst r)) (queue_at (fst r) IN)) <$> channel_flush_in_port demo_busy
               = Some [0x1000000]) by (vm_compute; reflexivity).
  rewrite E1 in Hq. injection Hq as Hq.
  destruct (Hif [(0x1000000, 0)]) as (c2 & evs & H1 & _ & _ & H2 & H3 & _).
  - apply NoDup_singleton.
  - cbn [fst] in Hq. rewrite Hq. reflexivity.
  - exists c1, c2, evs. split_and!; [exact E1|exact H1|exact H2|exact H3].
Defined.

(** C38: VPSS returns a frame buffer in two steps, and the list's lock is free
    between them. On every channel with well-typed tables and right counters, and
    for every buffer [n] that VPSS has: when a flush comes between the steps, it
    takes the buffer, which is marked idle, for one that waits, gives it back to
    the user and unlinks it; it waits itself, because the buffer is still counted;
    and the second step unlinks the buffer again, through poisoned list pointers. *)
Theorem release_flush_race {C : HiConsts} {E : OmxEnv} {Ok : HiConstsOk C}
    (c : OMXVDEC_CHAN_CTX) (t : chan_table) (n : node) (b : OMXVDEC_BUF_S) (a_vpss a_vfmw : Z) :
  sound c -> counters_ok c -> table_ok t -> 0 <= c.(channel_id) ->
  n ∈ queue_at c OUT -> node_buf c n = Some b -> in_use c n = true -> hw_addr b <> 0 ->
  (forall m, m ∈ queue_at c OUT -> addr_of c m = hw_addr b -> m = n) ->
  exists c1 c2 t' evs, release_frame_mark c (hw_addr b) = Some (c1, inl n)
    /\ channel_flush_out_port c1 t a_vpss a_vfmw = Some (c2, t', HI_SUCCESS)
    /\ trace c2 = trace c1 ++ evs /\ b.(client_data) ∈ returned OUT evs
    /\ pending OUT c2 = true /\ release_frame_finish c2 n = None.
Proof.
  intros [q Hok] Hc Ht Hid Hn Hb Hu Ha Huniq. rewrite (queue_at_ok c q OUT Hok) in *.
  apply (race_faults c q t n b (hw_addr b)); try done; [by apply counters_counted|].
  intros m bm Hm Hbm He. apply Huniq; [done|]. unfold addr_of. by rewrite Hbm.
Qed.

Lemma release_flush_race_witness :
  exists c1 c2 t' evs b, node_buf demo_busy (Slot OUT 0) = Some b
    /\ release_frame_mark demo_busy (hw_addr b) = Some (c1, inl (Slot OUT 0))
    /\ channel_flush_out_port c1 init_table 0 0 = Some (c2, t', HI_SUCCESS)
    /\ trace c2 = trace c1 ++ evs /\ b.(client_data) ∈ returned OUT evs
    /\ release_frame_finish c2 (Slot OUT 0) = None.
Proof.
  destruct demo_busy_ok as [Hs Hc].
  destruct (node_buf demo_busy (Slot OUT 0)) as [b|] eqn:Hb; [|by vm_compute in Hb].
  destruct (release_flush_race demo_busy init_table (Slot OUT 0) b 0 0 Hs Hc demo_table)
    as (c1 & c2 & t' & evs & H1 & H2 & H3 & H4 & _ & H5).
  - vm_compute. congruence.
  - apply (bool_decide_eq_true_1 _). vm_compute. reflexivity.
  - exact Hb.
  - vm_compute. reflexivity.
  - vm_compute in Hb. injection Hb as <-. vm_compute. congruence.
  - vm_compute in Hb. injection Hb as <-. intros m Hm.
    assert (Hq : queue_at demo_busy OUT = [Slot OUT 0; Slot OUT 1]) by (vm_compute; reflexivity).
    rewrite Hq in Hm. apply elem_of_cons in Hm as [->|Hm]; [reflexivity|].
    apply list_elem_of_singleton in Hm as ->. vm_compute. congruence.
  - exists c1, c2, t', evs, b. split_and!; [reflexivity|exact H1|exact H2|exact H3|exact H4|exact H5].
Defined.

(** C39: nothing keeps the user from unbinding a buffer that it has submitted. On
    every channel with well-typed tables, when the stream buffer in the last bound
    slot is queued, the call that unbinds it succeeds and clears its slot, with the
    list pointers in it, and the next flush of the stream buffers, whatever else is
    queued, follows the queue to a null pointer. *)
Theorem unbind_queued_faults {C : HiConsts} {E : OmxEnv} {Ok : HiConstsOk C}
    (c : OMXVDEC_CHAN_CTX) (d : OMXVDEC_BUF_DESC) (k : Z) (b : OMXVDEC_BUF_S) :
  sound c -> port_of d.(dir) = Some IN -> d.(phyaddr) <> 0 -> c.(inp).(buf_num) = k + 1 ->
  node_buf c (Slot IN k) = Some b -> b.(phy_addr) = d.(phyaddr) -> Slot IN k ∈ queue_at c IN ->
  exists c', channel_unbind_user_buffer c d = Some (c', HI_SUCCESS)
    /\ node_buf c' (Slot IN k) = Some zero_buf /\ channel_flush_in_port c' = None.
Proof.
  intros [q Hok] Hp Ha Hk Hb Hba Hin. rewrite (queue_at_ok c q IN Hok) in Hin.
  by apply (unbind_queued c q d k b).
Qed.

Lemma unbind_queued_faults_witness :
  exists c', channel_unbind_user_buffer (demo_after demo_calls) (demo_desc 0 0x1200000 12)
             = Some (c', HI_SUCCESS)
    /\ node_buf c' (Slot IN 1) = Some zero_buf /\ channel_flush_in_port c' = None.
Proof.
  destruct (node_buf (demo_after demo_calls) (Slot IN 1)) as [b|] eqn:Hb; [|by vm_compute in Hb].
  apply (unbind_queued_faults (demo_after demo_calls) (demo_desc 0 0x1200000 12) 1 b).
  - apply demo_after_sound, (along_dec _ _ user_keeps_dec). vm_compute. reflexivity.
  - reflexivity.
  - vm_compute. congruence.
  - vm_compute. reflexivity.
  - exact Hb.
  - vm_compute in Hb. injection Hb as <-. reflexivity.
  - apply (bool_decide_eq_true_1 _). vm_compute. reflexivity.
Defined.

(** ** Creating channels *)

Lemma size_class_covers g w h o :
  0 <= w < 2 ^ 31 -> 0 <= h < 2 ^ 31 ->
  let '(_, o') := size_class g w h o in
  w <= o'.(s32MaxWidth) < 2 ^ 31 /\ h <= o'.(s32MaxHeight) < 2 ^ 31
  /\ 2 <= o'.(s32MaxRefFrameNum) <= 12.
Proof.
  intros Hw Hh. change (2 ^ 31) with 2147483648 in *. unfold size_class.
  unfold UHD_FRAME_WIDTH, UHD_FRAME_HEIGHT, HD_FRAME_WIDTH, HD_FRAME_HEIGHT, SD_FRAME_WIDTH, SD_FRAME_HEIGHT.
  repeat case_match; simplify_eq; simpl; rewrite !s32_small by (unfold is_s32; lia); lia.
Qed.

Lemma cap_level_keeps std cap o :
  let '(_, o') := cap_level std cap o in
  o'.(s32MaxWidth) = o.(s32MaxWidth) /\ o'.(s32MaxHeight) = o.(s32MaxHeight)
  /\ (o'.(s32MaxRefFrameNum) = o.(s32MaxRefFrameNum) \/ 2 <= o'.(s32MaxRefFrameNum) <= 3).
Proof.
  unfold cap_level, h264_option. repeat case_match; simplify_eq; simpl; split_and!; try done; try lia; auto.
  all: right; case_match; lia.
Qed.

(** C36: the decoder is asked for room for the picture at least, and for 2 to 12
    reference frames; as long as the picture's area fits 32 bits, its class is that
    of its area. A larger area wraps around: 65536 by 65536 is planned as a small
    picture. *)
Theorem option_covers_picture (g : omx_switches) (c : OMXVDEC_CHAN_CTX) (cfg : OMXVDEC_DRV_CFG) :
  0 <= c.(out_width) < 2 ^ 31 -> 0 <= c.(out_height) < 2 ^ 31 ->
  (let '(_, _, o) := decoder_init_option g c cfg in
   c.(out_width) <= o.(s32MaxWidth) < 2 ^ 31 /\ c.(out_height) <= o.(s32MaxHeight) < 2 ^ 31
   /\ 2 <= o.(s32MaxRefFrameNum) <= 12)
  /\ (c.(out_width) * c.(out_height) < 2 ^ 32 ->
      let cap := fst (size_class g c.(out_width) c.(out_height) zero_option) in
      (cap = CFG_CAP_SD <-> c.(out_width) * c.(out_height) <= SD_FRAME_WIDTH * SD_FRAME_HEIGHT)
      /\ (cap = CFG_CAP_UHD <-> HD_FRAME_WIDTH * HD_FRAME_HEIGHT < c.(out_width) * c.(out_height)))
  /\ fst (size_class g 65536 65536 zero_option) = CFG_CAP_SD.
Proof.
  intros Hw Hh. split_and!; [| |done].
  - destruct (decoder_init_option g c cfg) as [[c' level] o] eqn:Ho. unfold decoder_init_option in Ho.
    cbv zeta in Ho. simpl out_width in Ho. simpl out_height in Ho.
    pose proof (size_class_covers g (out_width c) (out_height c)
                  (zero_option <| s32DisplayFrameNum := g_DispNum g |>) Hw Hh) as Hs.
    destruct (size_class g _ _ _) as [cap o1]. pose proof (cap_level_keeps (eVidStd cfg) cap o1) as Hc.
    destruct (cap_level _ cap o1) as [lv o2]. injection Ho as _ _ <-.
    destruct Hc as (Ew & Eh & Er). case_match; simpl; lia.
  - intros Ha. unfold size_class. rewrite u32_small by (unfold is_u32; lia).
    unfold UHD_FRAME_WIDTH, UHD_FRAME_HEIGHT, HD_FRAME_WIDTH, HD_FRAME_HEIGHT, SD_FRAME_WIDTH, SD_FRAME_HEIGHT.
    repeat case_match; simpl; split; split; intros; try done; lia.
Qed.

Lemma option_covers_picture_witness :
  0 <= 1920 < 2 ^ 31 /\
  let '(_, _, o) := decoder_init_option demo_switches (demo_channel false) demo_cfg in
  1920 <= o.(s32MaxWidth) < 2 ^ 31 /\ 1080 <= o.(s32MaxHeight) < 2 ^ 31 /\ 2 <= o.(s32MaxRefFrameNum) <= 12.
Proof.
  split; [lia|].
  apply (option_covers_picture demo_switches (demo_channel false) demo_cfg); vm_compute; split; congruence.
Defined.

(** ** The device *)

(** C1: the decoder device is safe under the contract [dev_along]. From the
    loaded module on, files are opened and closed, and called and reported to, in
    any order; a file is used only while one is open, the user unbinds only buffers
    that it has, names the right port when it submits and does not bind the memory
    of the end of the stream; the requests and answers at a creation are as
    [create_keeps] has them (buffer counts for which no size wraps and at most
    [LAST_FRAME_BUF_ID] stream buffers, memory that is new, statistics that start
    when they are asked for). Then every call is defined, the tables of all channels
    are well typed at the end, and nothing has been leaked but, on error paths,
    statistics that were left running. [unbind_queued_faults], [release_flush_race]
    and [calc_failure_leaks] show what happens beyond the contract. *)
Theorem omxvdec_calls_safe {C : HiConsts} {E : OmxEnv} {Ok : HiConstsOk C}
    (t : chan_table) (calls : list dev_call) :
  0 < g_lowdelay_count_frame -> length t = 16%nat -> dev_along (loaded t) calls ->
  exists e leak, dev_run (loaded t) calls = Some (e, leak)
    /\ (forall p s, e.(insts) !! p = Some s -> typed s.(ctx))
    /\ (forall r, r ∈ leak -> r = LOWDLAY_CALC /\ g_LowDelayStatistics = true).
Proof.
  intros Hg Hl Ha.
  destruct (dev_run_ok calls (loaded t) Hg (loaded_ok t Hl) Ha) as (e & leak & Hr & Hd & Hk).
  exists e, leak. split_and!; [done| |by apply Forall_forall].
  intros p s Hs. destruct (dv_live _ Hd p s Hs) as [Hlive _]. by apply sound_typed, lv_queues.
Qed.

(** The conditions of a run of the device, decided; creation is not covered. *)
Definition dev_keeps_b (e : OMXVDEC_ENTRY) (call : dev_call) : bool :=
  match call with
  | DEV_OPEN _ _ | DEV_EVENT _ _ => true
  | DEV_CLOSE _ _ => 0 <? e.(open_count)
  | DEV_IOCTL _ chan_num _ (VDEC_IOCTL_CHAN cmd _) =>
      (0 <? e.(open_count))
      && forallb (fun x => negb ((snd x).(ctx).(channel_id) =? chan_num)
                           || user_keeps_b (snd x).(ctx) (USER cmd)) (map_to_list e.(insts))
  | DEV_IOCTL _ _ _ (VDEC_IOCTL_CHAN_CREATE _ _ _) => false
  | DEV_IOCTL _ _ _ _ => 0 <? e.(open_count)
  end.

Lemma dev_keeps_dec e call : dev_keeps_b e call = true -> dev_keeps e call.
Proof.
  destruct call as [g a|fd answers|fd n g cmd|handle h]; simpl; [done|by intros ?%Z.ltb_lt| |done].
  destruct cmd as [cfg a copied|a|ret copied|cmd copied|]; simpl; try done;
    try (by intros ?%Z.ltb_lt).
  intros [Ho Hf]%andb_true_iff. split; [by apply Z.ltb_lt|]. intros p s Hs Hid.
  rewrite forallb_forall in Hf. specialize (Hf (p, s)). simpl in Hf.
  rewrite Hid, Z.eqb_refl in Hf. apply (user_keeps_dec (ctx s) (USER cmd)), Hf.
  by apply list_elem_of_In, elem_of_map_to_list.
Qed.

Fixpoint dev_along_b (e : OMXVDEC_ENTRY) (calls : list dev_call) : bool :=
  match calls with
  | [] => true
  | call :: calls =>
      dev_keeps_b e call
      && match dev_step e call with Some (e, _) => dev_along_b e calls | None => true end
  end.

Lemma dev_along_dec calls : forall e, dev_along_b e calls = true -> dev_along e calls.
Proof.
  induction calls as [|call calls IH]; intros e; simpl; [done|].
  intros [H1 H2]%andb_true_iff. split; [by apply dev_keeps_dec|]. intros e' leak Hs.
  rewrite Hs in H2. by apply IH.
Qed.

(** Two channels are created on one file and one on another; the first plays. *)
Definition demo_open : dev_call := DEV_OPEN demo_switches (mkOpenAns true true true true).

Definition demo_make (fd ctx_at : Z) : dev_call :=
  DEV_IOCTL fd 0 demo_switches (VDEC_IOCTL_CHAN_CREATE (Some demo_cfg) (demo_create ctx_at true) true).

Definition demo_stop : release_answers := mkRelAns true ok_answers 0.

Definition demo_play : list dev_call :=
  map (fun call => match call with
                   | USER cmd => DEV_IOCTL 5 0 demo_switches (VDEC_IOCTL_CHAN cmd true)
                   | HARDWARE h => DEV_EVENT 0 h
                   end) demo_all
  ++ [DEV_CLOSE 5 (fun _ => demo_stop)].

Definition demo_opened : OMXVDEC_ENTRY := mkEntry 1 0 [] ∅ init_table.

Lemma demo_create_keeps e :
  e.(insts) = ∅ -> e.(chan_list) = [] -> create_keeps e demo_cfg (demo_create 4096 true).
Proof.
  intros Hi Hl. destruct (demo_fits false) as [Hcfg Hx]. split.
  - by split; intros *; [intros [= <- _]|intros [= <-]|intros [= <-]|intros [= <-]|intros [= <-]].
  - by intros.
  - exact Hcfg.
  - exact Hx.
  - intros p [= <-]. rewrite Hi. apply lookup_empty.
  - by rewrite Hl.
Qed.

Definition demo_next (e : OMXVDEC_ENTRY) (call : dev_call) : OMXVDEC_ENTRY :=
  default e (fst <$> dev_step e call).

Definition demo_dev : list dev_call := demo_open :: demo_make 5 4096 :: demo_play.

Lemma demo_dev_along : dev_along (loaded init_table) demo_dev.
Proof.
  apply (dev_along_cons _ _ _ (demo_next (loaded init_table) demo_open) []); [done|by vm_compute|].
  apply (dev_along_cons _ _ _ (demo_next (demo_next (loaded init_table) demo_open) (demo_make 5 4096)) []);
    [|by vm_compute|apply dev_along_dec; by vm_compute].
  split; [by vm_compute|]. apply demo_create_keeps; by vm_compute.
Qed.

Lemma omxvdec_calls_safe_witness :
  exists e leak, dev_run (loaded init_table) demo_dev = Some (e, leak)
    /\ forall r, r ∈ leak -> r = LOWDLAY_CALC /\ g_LowDelayStatistics = true.
Proof.
  destruct (omxvdec_calls_safe init_table demo_dev) as (e & leak & H1 & _ & H2).
  - exact demo_count.
  - reflexivity.
  - exact demo_dev_along.
  - exists e, leak. split; [exact H1|exact H2].
Defined.

(** C25: a creation answers with the smallest id that no channel has, and with an
    idle channel at the end of the list that has no buffers yet, its counters right,
    and that holds what its context says; or it fails and the device is as before,
    nothing leaked but statistics that had been started. *)
Theorem channel_created {C : HiConsts} {E : OmxEnv} {Ok : HiConstsOk C}
    (e : OMXVDEC_ENTRY) (fd : Z) (g : omx_switches) (cfg : OMXVDEC_DRV_CFG) (a : create_answers) :
  device_ok e -> 0 < e.(open_count) -> create_keeps e cfg a ->
  exists e' ret leak, channel_create_inst e fd g cfg a = Some (e', ret, leak)
    /\ ((ret = HI_FAILURE /\ e' = e /\ forall r, r ∈ leak -> r = LOWDLAY_CALC /\ g_LowDelayStatistics = true)
        \/ (leak = [] /\ 0 <= ret /\ ret ∉ ids e /\ (forall j, 0 <= j < ret -> j ∈ ids e)
            /\ exists p s, e'.(chan_list) = e.(chan_list) ++ [p] /\ e'.(insts) = <[p := s]> e.(insts)
                 /\ s.(ctx).(channel_id) = ret /\ s.(ctx).(state) = CHAN_STATE_IDLE
                 /\ live s /\ counters_ok s.(ctx))).
Proof.
  intros Hd Ho Hk. destruct (channel_create_ok e fd g cfg a Hd Ho Hk)
    as (e' & ret & leak & Hc & _ & _ & Hcase).
  exists e', ret, leak. split; [done|]. destruct Hcase as [(-> & -> & Hl)|(-> & p & s & Hcr)].
  - left. split_and!; [done|done|]. by apply Forall_forall, leak_calc.
  - right. destruct Hcr as [L S Ct R F (H1 & H2 & H3) I Q]. split_and!; [done|lia|done|done|].
    exists p, s. by split_and!.
Qed.

Lemma channel_created_witness :
  exists e' ret leak, channel_create_inst demo_opened 5 demo_switches demo_cfg (demo_create 4096 true)
    = Some (e', ret, leak).
Proof.
  destruct (channel_created demo_opened 5 demo_switches demo_cfg (demo_create 4096 true))
    as (e' & ret & leak & H & _).
  - pose proof (loaded_ok init_table eq_refl) as [N L V R I T U W O].
    split; try done; intros _; exact demo_table.
  - reflexivity.
  - apply demo_create_keeps; reflexivity.
  - exists e', ret, leak. exact H.
Defined.

(** C26: closing a file releases the channels that were created on it, whatever they
    are doing, and no others; nothing is leaked. *)
Theorem close_releases_file {C : HiConsts} {E : OmxEnv} {Ok : HiConstsOk C}
    (e : OMXVDEC_ENTRY) (fd : Z) (answers : Z -> release_answers) :
  device_ok e -> 0 < e.(open_count) -> (forall p, calc_stops (answers p)) ->
  exists e', omxvdec_release e fd answers = Some (e', [])
    /\ e'.(open_count) = e.(open_count) - 1
    /\ forall p s, e'.(insts) !! p = Some s <->
         e.(insts) !! p = Some s /\ s.(ctx).(file_dec) <> u32 fd.
Proof.
  intros Hd Ho Hs. destruct (close_ok e fd answers Hd Ho) as (e' & Hr & _ & Hc & Hin).
  exists e'. split_and!; [done|done|]. intros p s. rewrite (Hin Hs). unfold of_file.
  by rewrite Z.eqb_neq.
Qed.

(** The device with one channel. *)
Definition demo_one : OMXVDEC_ENTRY :=
  demo_next (demo_next (loaded init_table) demo_open) (demo_make 5 4096).

Lemma demo_next_ok e call : device_ok e -> dev_keeps e call -> device_ok (demo_next e call).
Proof.
  intros Hd Hk. destruct (dev_step_ok e call demo_count Hd Hk) as (e' & leak & Hs & Hd' & _).
  unfold demo_next. by rewrite Hs.
Qed.

Lemma demo_one_ok : device_ok demo_one.
Proof.
  apply demo_next_ok; [apply demo_next_ok; [by apply loaded_ok|done]|].
  split; [by vm_compute|]. apply demo_create_keeps; by vm_compute.
Qed.

Lemma close_releases_file_witness :
  exists e', omxvdec_release demo_one 5 (fun _ => demo_stop) = Some (e', []) /\ e'.(open_count) = 0.
Proof.
  destruct (close_releases_file demo_one 5 (fun _ => demo_stop)) as (e' & H & Ho & _).
  - exact demo_one_ok.
  - vm_compute. reflexivity.
  - intros _ H. reflexivity.
  - exists e'. split; [exact H|]. rewrite Ho. vm_compute. reflexivity.
Defined.

(** The statistics of the low-delay mode are started last, and their failure is
    returned at once: the context is freed while the decoder's channel and both its
    memories are still held. *)
Theorem calc_failure_leaks :
  match channel_create_inst (E := demo_env true) demo_opened 5 demo_switches demo_cfg
          (demo_create 4096 false) with
  | Some (e, ret, leak) => ret = HI_FAILURE /\ e.(chan_list) = [] /\ e.(insts) = ∅
      /\ leak = [VFMW_CHAN; SCD_MEM; VDH_MEM]
  | None => False
  end.
Proof. by vm_compute. Qed.
