(* ===== verification/PktQueue.v ===== *)
(** * The packet queue

    Models external/libformat_open/svr_utils.c: a queue of data packets shared
    by a producer and a consumer thread, read packet by packet or as a byte
    stream. The nodes are linked cells of a heap: a list of filled nodes and a
    list of free ones, each with a head and a tail pointer. Every operation runs
    under the queue's mutex, so it is a function on the state; a wait on the
    condition variable releases the mutex and is an input that lists what the
    other threads do meanwhile. [None] is undefined behaviour: a null or
    dangling pointer followed, a buffer overrun or a double free. *)

From S2P Require Import Prelude.

(** The error numbers of libavutil are not part of the repository. *)
Class AvErrors := {
  AVERROR_EINTR : Z;
  AVERROR_EAGAIN : Z;
  AVERROR_ENOMEM : Z;
}.

Class AvErrorsOk (E : AvErrors) : Prop := {
  averror_neg : AVERROR_EINTR < 0 /\ AVERROR_EAGAIN < 0 /\ AVERROR_ENOMEM < 0;
  averror_ne : AVERROR_EINTR <> AVERROR_EAGAIN;
}.

#[export] Instance linux_errors : AvErrors := {|
  AVERROR_EINTR := -4; AVERROR_EAGAIN := -11; AVERROR_ENOMEM := -12 |}.

#[export] Instance linux_errors_ok : AvErrorsOk linux_errors.
Proof. split; cbn; lia. Qed.

Abbreviation loc := positive.

(** [data] is the buffer the node owns, [None] for NULL. *)
Record DataPacket := mkPkt {
  data : option (list Z);
  priv : Z;
  data_size : Z;
  buf_size : Z;
  rd_idx : Z;
  next : option loc;
}.

#[export] Instance pkt_fields : Fields DataPacket := fun r =>
  mkPkt r.(data) r.(priv) r.(data_size) r.(buf_size) r.(rd_idx) r.(next).

Record PKTQueue := mkQueue {
  fill_head : option loc;
  fill_tail : option loc;
  free_head : option loc;
  free_tail : option loc;
  max_buf_size : Z;
  cur_buf_size : Z;
  forbidden_size : Z;
  q_data_size : Z;
  full : Z;
  exit : Z;
  nb_fill_node : Z;
  nb_free_node : Z;
  peak_buf_size : Z;
  peak_data_size : Z;
}.

#[export] Instance queue_fields : Fields PKTQueue := fun r =>
  mkQueue r.(fill_head) r.(fill_tail) r.(free_head) r.(free_tail) r.(max_buf_size)
    r.(cur_buf_size) r.(forbidden_size) r.(q_data_size) r.(full) r.(exit)
    r.(nb_fill_node) r.(nb_free_node) r.(peak_buf_size) r.(peak_data_size).

Abbreviation heap := (gmap loc DataPacket).

(** The queue and the heap its nodes live in. *)
Record state := mkState { nodes : heap; que : PKTQueue }.

#[export] Instance state_fields : Fields state := fun r => mkState r.(nodes) r.(que).

(** ** The list macros *)

Definition set_next (n : option loc) (p : DataPacket) : DataPacket := p <| next := n |>.

Definition APPEND_TO_QUE (h : heap) (list tail : option loc) (node : loc)
    : option (heap * option loc * option loc) :=
  '(h, list, tail) ←
    match tail with
    | None => Some (h, Some node, Some node)
    | Some t => _ ← h !! t; Some (alter (set_next (Some node)) t h, list, Some node)
    end;
  _ ← h !! node;
  Some (alter (set_next None) node h, list, tail).

Definition DEL_HEAD_FROM_QUE (h : heap) (list tail : option loc)
    : option (option loc * option loc * option loc) :=
  match list with
  | None => Some (None, list, tail)
  | Some p =>
      n ← h !! p;
      let list := n.(next) in
      Some (Some p, list, match list with None => None | Some _ => tail end)
  end.

(** [memcpy(buf, d + off, len)]: the bytes copied. *)
Definition mem_read (d : option (list Z)) (off len : Z) : option (list Z) :=
  if len =? 0 then Some [] else
  bytes ← d;
  if (0 <=? off) && (0 <=? len) && (off + len <=? Z.of_nat (length bytes))
  then Some (take (Z.to_nat len) (drop (Z.to_nat off) bytes)) else None.

(** What a call did: it returned, or it is still waiting. *)
Inductive outcome (A : Type) :=
| Returned (s : state) (ret : Z) (out : A)
| Waiting (s : state).

#[global] Arguments Returned {A}.
#[global] Arguments Waiting {A}.

(** What the other threads do to the state during one wait. *)
Abbreviation wait := (state -> option state).

(** ** The operations *)

Section Operations.
Context {E : AvErrors}.

Definition pktq_create (alloc : option PKTQueue) (mutex_ret cond_ret : Z)
    (max forbidden : Z) : option PKTQueue * Z :=
  if (forbidden >? max) && (max >? 0) then (None, -1) else
  match alloc with
  | None => (None, AVERROR_ENOMEM)
  | Some q =>
      let q := q <| fill_head := None |> <| fill_tail := None |>
                 <| free_head := None |> <| free_tail := None |>
                 <| cur_buf_size := 0 |> <| q_data_size := 0 |>
                 <| max_buf_size := max |> <| forbidden_size := forbidden |>
                 <| nb_fill_node := 0 |> <| nb_free_node := 0 |>
                 <| exit := 0 |> <| full := 0 |> in
      if negb (mutex_ret =? 0) then (None, -1)
      else if negb (cond_ret =? 0) then (None, -1)
      else (Some q, 0)
  end.

(** Unlinks the first filled node and takes it out of the counters. *)
Definition take_head (s : state) : option (loc * DataPacket * state) :=
  '(node, hd, tl) ← DEL_HEAD_FROM_QUE s.(nodes) s.(que).(fill_head) s.(que).(fill_tail);
  p ← node;
  n ← s.(nodes) !! p;
  let q := s.(que) <| fill_head := hd |> <| fill_tail := tl |> in
  let q := q <| nb_fill_node := s32 (q.(nb_fill_node) - 1) |>
             <| cur_buf_size := s32 (q.(cur_buf_size) - n.(buf_size)) |> in
  Some (p, n, s <| que := q |>).

(** Empties an unlinked node and appends it to the free list; its buffer has
    been freed or handed over. *)
Definition clear_node (s : state) (p : loc) : option state :=
  n ← s.(nodes) !! p;
  let n := n <| data := None |> <| data_size := 0 |> <| buf_size := 0 |>
             <| next := None |> <| rd_idx := 0 |> in
  let h := <[p := n]> s.(nodes) in
  '(h, hd, tl) ← APPEND_TO_QUE h s.(que).(free_head) s.(que).(free_tail) p;
  let q := s.(que) <| free_head := hd |> <| free_tail := tl |> in
  Some (mkState h (q <| nb_free_node := s32 (q.(nb_free_node) + 1) |>)).

(** The copy loop of [pktq_read]: the state, the bytes still wanted and the
    bytes copied. *)
Fixpoint read_loop (fuel : nat) (s : state) (want : Z) : option (state * Z * list Z) :=
  match fuel with
  | O => None
  | S fuel =>
      p ← s.(que).(fill_head);
      n ← s.(nodes) !! p;
      let cplen := if n.(data_size) >? want then want else n.(data_size) in
      bytes ← mem_read n.(data) n.(rd_idx) cplen;
      let n := n <| data_size := s32 (n.(data_size) - cplen) |>
                 <| rd_idx := s32 (n.(rd_idx) + cplen) |> in
      let q := s.(que) in
      let s := mkState (<[p := n]> s.(nodes))
                 (q <| q_data_size := s32 (q.(q_data_size) - cplen) |>) in
      let want := s32 (want - cplen) in
      s ← (if n.(data_size) <=? 0
           then '(p, _, s) ← take_head s; clear_node s p
           else Some s);
      if (want >? 0) && (s.(que).(q_data_size) >? 0) then
        '(s, want, rest) ← read_loop fuel s want; Some (s, want, bytes ++ rest)
      else Some (s, want, bytes)
  end.

(** [env] gives the effect of each wait in turn; the call is still waiting when
    it runs out. [fuel] bounds the copy loop. *)
Fixpoint pktq_read_wait (fuel : nat) (env : list wait) (s : state) (len timeout_ms : Z)
    : option (outcome (list Z)) :=
  if negb (s.(que).(exit) =? 0) then Some (Returned s AVERROR_EINTR [])
  else if s.(que).(q_data_size) >? 0 then
    '(s, want, bytes) ← read_loop fuel s len; Some (Returned s (s32 (len - want)) bytes)
  else if timeout_ms =? 0 then Some (Returned s AVERROR_EAGAIN [])
  else match env with
       | [] => Some (Waiting s)
       | w :: env =>
           s ← w s;
           if timeout_ms <? 0 then pktq_read_wait fuel env s len timeout_ms
           else if s.(que).(q_data_size) <=? 0 then Some (Returned s AVERROR_EAGAIN [])
           else pktq_read_wait fuel env s len timeout_ms
       end.

Definition pktq_read (fuel : nat) (env : list wait) (s : state) (len timeout_ms : Z)
    : option (outcome (list Z)) :=
  if len <=? 0 then Some (Returned s (-1) []) else pktq_read_wait fuel env s len timeout_ms.

(** Copies the packet into [node], appends it and updates the counters. *)
Definition push_node (h : heap) (q : PKTQueue) (node : loc) (pkt : DataPacket)
    : option (state * Z) :=
  let h := <[node := pkt <| next := None |>]> h in
  '(h, hd, tl) ← APPEND_TO_QUE h q.(fill_head) q.(fill_tail) node;
  let q := q <| fill_head := hd |> <| fill_tail := tl |> in
  let q := q <| nb_fill_node := s32 (q.(nb_fill_node) + 1) |>
             <| cur_buf_size := s32 (q.(cur_buf_size) + pkt.(buf_size)) |>
             <| q_data_size := s32 (q.(q_data_size) + pkt.(data_size)) |> in
  let q := if q.(cur_buf_size) >? q.(peak_buf_size)
           then q <| peak_buf_size := q.(cur_buf_size) |> else q in
  let q := if q.(q_data_size) >? q.(peak_data_size)
           then q <| peak_data_size := q.(q_data_size) |> else q in
  Some (mkState h q, pkt.(data_size)).

(** [alloc] is what [av_malloc] returns when a new node is needed. *)
Definition pktq_put_pkt (alloc : option loc) (s : state) (pkt : option DataPacket)
    : option (state * Z) :=
  match pkt with
  | None => Some (s <| que ::= fun q => q <| exit := 1 |> |>, 0)
  | Some pkt =>
      if (pkt.(buf_size) <=? 0)
         || (pkt.(data_size) >? pkt.(buf_size))
         || (pkt.(rd_idx) >? pkt.(data_size))
         || ((pkt.(rd_idx) =? pkt.(data_size)) && (pkt.(data_size) >? 0))
         || (pkt.(rd_idx) <? 0)
      then Some (s, -1) else
      let q := s.(que) in
      if negb (q.(full) =? 0) && (q.(cur_buf_size) <? q.(max_buf_size))
         && (s32 (q.(max_buf_size) - q.(cur_buf_size)) <=? q.(forbidden_size))
      then Some (s, -1) else
      if (q.(cur_buf_size) >? q.(max_buf_size)) && (q.(max_buf_size) >? 0)
      then Some (s <| que := q <| full := 1 |> |>, -1) else
      let q := q <| full := 0 |> in
      match q.(free_head) with
      | Some _ =>
          '(node, hd, tl) ← DEL_HEAD_FROM_QUE s.(nodes) q.(free_head) q.(free_tail);
          p ← node;
          let q := q <| free_head := hd |> <| free_tail := tl |>
                     <| nb_free_node := s32 (q.(nb_free_node) - 1) |> in
          push_node s.(nodes) q p pkt
      | None =>
          match alloc with
          | None => Some (s <| que := q |>, AVERROR_ENOMEM)
          | Some p => push_node s.(nodes) q p pkt
          end
      end
  end.

Fixpoint pktq_get_pkt (env : list wait) (s : state) (timeout_ms : Z)
    : option (outcome (option DataPacket)) :=
  if negb (s.(que).(exit) =? 0) then Some (Returned s AVERROR_EINTR None)
  else match s.(que).(fill_head) with
  | Some _ =>
      '(p, n, s) ← take_head s;
      let q := s.(que) in
      let s := s <| que := q <| q_data_size := s32 (q.(q_data_size) - n.(data_size)) |> |> in
      s ← clear_node s p;
      Some (Returned s n.(data_size) (Some (n <| next := None |>)))
  | None =>
      if timeout_ms =? 0 then Some (Returned s AVERROR_EAGAIN None)
      else match env with
           | [] => Some (Waiting s)
           | w :: env =>
               s ← w s;
               if timeout_ms <? 0 then pktq_get_pkt env s timeout_ms
               else match s.(que).(fill_head) with
                    | None => Some (Returned s AVERROR_EAGAIN None)
                    | Some _ => pktq_get_pkt env s timeout_ms
                    end
           end
  end.

Definition pktq_get_data_size (s : state) : Z := s.(que).(q_data_size).

Definition pktq_get_buf_size (s : state) : Z := s.(que).(cur_buf_size).

(** The node a caller owns, after its buffers are freed. *)
Definition pktq_free_data_packet (node : option DataPacket) : option DataPacket :=
  (fun _ => mkPkt None 0 0 0 0 None) <$> node.

Fixpoint pktq_clear (fuel : nat) (s : state) : option (state * Z) :=
  match s.(que).(fill_head) with
  | None => Some (s, 0)
  | Some _ =>
      match fuel with
      | O => None
      | S fuel =>
          '(p, n, s) ← take_head s;
          let q := s.(que) in
          let s := s <| que := q <| q_data_size := s32 (q.(q_data_size) - n.(data_size)) |> |> in
          s ← clear_node s p;
          pktq_clear fuel s
      end
  end.

(** The two loops of [pktq_destroy]; freeing a node removes it from the heap. *)
Fixpoint destroy_fill (fuel : nat) (s : state) : option state :=
  match s.(que).(fill_head) with
  | None => Some s
  | Some p =>
      match fuel with
      | O => None
      | S fuel =>
          n ← s.(nodes) !! p;
          let q := s.(que) <| fill_head := n.(next) |> in
          let q := q <| cur_buf_size := s32 (q.(cur_buf_size) - n.(buf_size)) |>
                     <| q_data_size := s32 (q.(q_data_size) - n.(data_size)) |>
                     <| nb_fill_node := s32 (q.(nb_fill_node) - 1) |> in
          destroy_fill fuel (mkState (delete p s.(nodes)) q)
      end
  end.

Fixpoint destroy_free (fuel : nat) (s : state) : option state :=
  match s.(que).(free_head) with
  | None => Some s
  | Some p =>
      match fuel with
      | O => None
      | S fuel =>
          n ← s.(nodes) !! p;
          let q := s.(que) <| free_head := n.(next) |> in
          let q := q <| nb_free_node := s32 (q.(nb_free_node) - 1) |> in
          destroy_free fuel (mkState (delete p s.(nodes)) q)
      end
  end.

(** The queue's own cell is freed last: the final state is what is leaked. *)
Definition pktq_destroy (fuel : nat) (s : state) : option (state * Z) :=
  '(s, _) ← pktq_put_pkt None s None;
  s ← destroy_fill fuel s;
  let s := s <| que ::= fun q => q <| fill_tail := None |> |> in
  s ← destroy_free fuel s;
  Some (s <| que ::= fun q => q <| free_tail := None |> |>, 0).
End Operations.


(** The absolute deadline of a timed wait, on a 32-bit target: [ns] is a
    64-bit variable but its value is computed in [int]. *)
Definition wait_deadline (tv_sec tv_usec timeout_ms : Z) : Z * Z :=
  let ns := s32 (s32 (tv_usec + s32 (timeout_ms * 1000)) * 1000) in
  (s32 (tv_sec + Z.quot ns 1000000000), Z.rem ns 1000000000).

#[global] Arguments APPEND_TO_QUE : simpl never.
#[global] Arguments DEL_HEAD_FROM_QUE : simpl never.
#[global] Arguments mem_read : simpl never.
#[global] Arguments take_head : simpl never.
#[global] Arguments clear_node : simpl never.
#[global] Arguments push_node : simpl never.

(** ** Linked lists in the heap *)

(** Each node of [l] is allocated and points to the following one. *)
Fixpoint linked (h : heap) (l : list loc) : Prop :=
  match l with
  | [] => True
  | p :: l => (exists n, h !! p = Some n /\ n.(next) = head l) /\ linked h l
  end.

(** The head and tail pointers delimit the list [l]. *)
Definition qlist (h : heap) (hd tl : option loc) (l : list loc) : Prop :=
  hd = head l /\ tl = last l /\ linked h l.

(** The content of a node, without its link. *)
Definition body (h : heap) (p : loc) : option DataPacket := set_next None <$> h !! p.

Section Lists.
Implicit Types (h : heap) (l : list loc) (p : loc).

Lemma linked_frame h h' l :
  (forall x, x ∈ l -> h' !! x = h !! x) -> linked h l -> linked h' l.
Proof.
  induction l as [|p l IH]; cbn; [done|]. intros Hf [(n & Hp & Hn) Hl]. split.
  - exists n. by rewrite Hf by set_solver.
  - apply IH; [|done]. intros x Hx. apply Hf. set_solver.
Qed.

Lemma linked_alloc h l p : linked h l -> p ∈ l -> is_Some (h !! p).
Proof.
  induction l as [|q l IH]; [set_solver|]. cbn. intros [(n & Hq & _) Hl] [->|Hp]%elem_of_cons.
  - by exists n.
  - by apply IH.
Qed.

Lemma linked_snoc h l t p :
  p ∉ l ++ [t] -> NoDup (l ++ [t]) -> is_Some (h !! p) -> linked h (l ++ [t]) ->
  linked (alter (set_next None) p (alter (set_next (Some p)) t h)) (l ++ [t; p]).
Proof.
  intros Hp Hd [m Hm]. induction l as [|q l IH]; cbn; intros [(n & Hq & Hn) Hl].
  - assert (p <> t) by set_solver. split; [|split; [|done]].
    + exists (set_next (Some p) n).
      by rewrite lookup_alter_ne, lookup_alter_eq, Hq by done.
    + exists (set_next None m). rewrite lookup_alter_eq, lookup_alter_ne, Hm by done. done.
  - cbn in Hd. apply NoDup_cons in Hd as [Hqt Hd].
    split; [|by apply IH; set_solver].
    exists n. split.
    + by rewrite !lookup_alter_ne by set_solver.
    + rewrite Hn. by destruct l.
Qed.

Lemma body_alter h f p x :
  (forall n, set_next None (f n) = set_next None n) -> body (alter f p h) x = body h x.
Proof.
  intros Hf. unfold body. destruct (decide (p = x)) as [->|Hne].
  - rewrite lookup_alter_eq. destruct (h !! x); cbn; [by rewrite Hf|done].
  - by rewrite lookup_alter_ne.
Qed.

(** Appending a node to a list changes only links, of its last two nodes. *)
Lemma append_ok h hd tl l p :
  qlist h hd tl l -> NoDup (p :: l) -> is_Some (h !! p) ->
  exists h' hd' tl', APPEND_TO_QUE h hd tl p = Some (h', hd', tl') /\
    qlist h' hd' tl' (l ++ [p]) /\ (forall x, body h' x = body h x) /\
    (forall x, x ∉ p :: l -> h' !! x = h !! x).
Proof.
  intros (-> & -> & Hl) [Hp Hd]%NoDup_cons [m Hm]. unfold APPEND_TO_QUE.
  destruct l as [|t l _] using rev_ind; cbn.
  - rewrite Hm. cbn. eexists _, _, _. split; [done|]. split; [|split].
    + split; [done|]. split; [done|]. cbn. split; [|done].
      exists (set_next None m). by rewrite lookup_alter_eq, Hm.
    + intros x. by apply body_alter.
    + intros x Hx. rewrite lookup_alter_ne; [done|set_solver].
  - rewrite last_snoc. destruct (linked_alloc _ _ t Hl ltac:(set_solver)) as [nt Ht].
    rewrite Ht. cbn. assert (t <> p) by set_solver.
    rewrite lookup_alter_ne, Hm by done. cbn.
    eexists _, _, _. split; [done|]. rewrite <- app_assoc. cbn. split; [|split].
    + split; [by destruct l|]. split; [by rewrite last_app|].
      by apply linked_snoc.
    + intros x. by rewrite !body_alter.
    + intros x Hx. rewrite !lookup_alter_ne; [done|set_solver|set_solver].
Qed.

Lemma del_head_ok h tl p l :
  qlist h (Some p) tl l -> exists l' n,
    l = p :: l' /\ h !! p = Some n /\
    exists tl', DEL_HEAD_FROM_QUE h (Some p) tl = Some (Some p, head l', tl') /\
    qlist h (head l') tl' l'.
Proof.
  intros (Hh & -> & Hl). destruct l as [|q l]; [done|]. cbn in Hh. simplify_eq.
  destruct Hl as [(n & Hq & Hn) Hl]. exists l, n. split; [done|]. split; [done|].
  unfold DEL_HEAD_FROM_QUE. rewrite Hq. cbn. rewrite Hn. eexists. split; [done|].
  split; [done|]. by destruct l.
Qed.
End Lists.

(** ** The abstract queue *)

(** The readable part of a packet lies inside its buffer. *)
Definition pkt_ok (n : DataPacket) : Prop :=
  0 <= n.(rd_idx) /\ 0 <= n.(data_size) /\ n.(rd_idx) + n.(data_size) < 2147483648 /\
  0 <= n.(buf_size) < 2147483648 /\
  (0 < n.(data_size) -> exists bytes, n.(data) = Some bytes /\
     n.(rd_idx) + n.(data_size) <= Z.of_nat (length bytes)).

Definition payload (n : DataPacket) : list Z :=
  match n.(data) with
  | Some bytes => take (Z.to_nat n.(data_size)) (drop (Z.to_nat n.(rd_idx)) bytes)
  | None => []
  end.

(** The bytes a queue of packets holds, in order. *)
Definition stream (l : list DataPacket) : list Z := concat (map payload l).

Fixpoint total (f : DataPacket -> Z) (l : list DataPacket) : Z :=
  match l with [] => 0 | n :: l => f n + total f l end.

Definition config (q : PKTQueue) : Z * Z * Z * Z :=
  (q.(max_buf_size), q.(forbidden_size), q.(full), q.(exit)).

(** The state [s] holds the packets [fill], in the nodes [lf]; [le] are the free
    nodes, and there are no other nodes. *)
Record rep (s : state) (fill : list DataPacket) (lf le : list loc) : Prop := {
  rep_fill : qlist s.(nodes) s.(que).(fill_head) s.(que).(fill_tail) lf;
  rep_free : qlist s.(nodes) s.(que).(free_head) s.(que).(free_tail) le;
  rep_nodup : NoDup (lf ++ le);
  rep_dom x : is_Some (s.(nodes) !! x) <-> x ∈ lf ++ le;
  rep_body : Forall2 (fun p n => body s.(nodes) p = Some n) lf fill;
  rep_ok : Forall pkt_ok fill;
  rep_cur : s.(que).(cur_buf_size) = s32 (total buf_size fill);
  rep_data : s.(que).(q_data_size) = s32 (total data_size fill);
  rep_nfill : s.(que).(nb_fill_node) = s32 (Z.of_nat (length lf));
  rep_nfree : s.(que).(nb_free_node) = s32 (Z.of_nat (length le));
}.

Definition queued (s : state) (fill : list DataPacket) : Prop :=
  exists lf le, rep s fill lf le.

Section Abstract.
Implicit Types (s : state) (fill : list DataPacket) (lf le : list loc) (n : DataPacket).

Lemma total_nonneg l : Forall pkt_ok l -> 0 <= total data_size l /\ 0 <= total buf_size l.
Proof.
  induction 1 as [|n l (_ & ? & _ & ? & _) _ IH]; cbn; [done|]. lia.
Qed.

Lemma total_app f l1 l2 : total f (l1 ++ l2) = total f l1 + total f l2.
Proof. induction l1 as [|n l1 IH]; cbn; [done|]. rewrite IH. lia. Qed.

Lemma payload_length n : pkt_ok n -> Z.of_nat (length (payload n)) = n.(data_size).
Proof.
  intros (Hr & Hd & _ & _ & Hb). unfold payload.
  destruct (Z.ltb_spec 0 n.(data_size)).
  - destruct Hb as (bytes & -> & Hlen); [done|].
    rewrite length_take, length_drop. lia.
  - replace (data_size n) with 0 by lia. by destruct (data n).
Qed.

Lemma stream_length l :
  Forall pkt_ok l -> Z.of_nat (length (stream l)) = total data_size l.
Proof.
  induction 1 as [|n l Hn _ IH]; cbn; [done|].
  rewrite length_app, Nat2Z.inj_add, payload_length by done. unfold stream in IH. lia.
Qed.

Lemma rep_cons_inv s n fill lf le :
  rep s (n :: fill) lf le -> exists p lf' m, lf = p :: lf' /\
    s.(que).(fill_head) = Some p /\ s.(nodes) !! p = Some m /\ n = set_next None m.
Proof.
  intros Hr. pose proof (rep_body _ _ _ _ Hr) as Hb. destruct (rep_fill _ _ _ _ Hr) as (Hh & _).
  destruct lf as [|p lf]; [by inversion Hb|]. exists p, lf.
  inversion Hb as [|? ? ? ? Hp _]; subst. unfold body in Hp.
  destruct (s.(nodes) !! p) as [m|] eqn:Hm; [|done]. exists m. cbn in Hp. simplify_eq.
  by rewrite Hh.
Qed.

Lemma rep_nil_inv s fill lf le :
  rep s fill lf le -> s.(que).(fill_head) = None -> fill = [] /\ lf = [].
Proof.
  intros Hr Hn. destruct fill as [|n fill].
  - pose proof (rep_body _ _ _ _ Hr) as Hb. by inversion Hb.
  - destruct (rep_cons_inv _ _ _ _ _ Hr) as (p & ? & ? & _ & Hp & _). congruence.
Qed.

Lemma bodies_frame h h' lf fill :
  (forall x, x ∈ lf -> body h' x = body h x) ->
  Forall2 (fun p n => body h p = Some n) lf fill ->
  Forall2 (fun p n => body h' p = Some n) lf fill.
Proof.
  intros Hx. induction 1 as [|p n lf fill Hp _ IH]; constructor.
  - rewrite Hx; [done|set_solver].
  - apply IH. set_solver.
Qed.

(** The first packet leaves the filled list; its node is cleared and joins the
    free ones, whatever the byte counter is set to in between. *)
Lemma retire_ok s n fill lf le p :
  rep s (n :: fill) lf le -> s.(que).(fill_head) = Some p ->
  exists lf' m s1, lf = p :: lf' /\ s.(nodes) !! p = Some m /\ n = set_next None m /\
    take_head s = Some (p, m, s1) /\ s1.(que).(q_data_size) = s.(que).(q_data_size) /\
    forall v, v = s32 (total data_size fill) ->
    exists s2, clear_node (s1 <| que := s1.(que) <| q_data_size := v |> |>) p = Some s2 /\
      rep s2 fill lf' (le ++ [p]) /\ config s2.(que) = config s.(que).
Proof.
  intros Hr Hh. destruct Hr as [Hf He Hnd Hdom Hb Hok Hcur Hdat Hnf Hne]. rewrite Hh in Hf.
  destruct (del_head_ok _ _ _ _ Hf) as (lf' & m & -> & Hm & tl' & Hdel & Hf').
  cbn in Hnd. apply NoDup_cons in Hnd as [Hp Hnd].
  inversion Hb as [|? ? ? ? Hpm Hb']; subst. unfold body in Hpm. rewrite Hm in Hpm.
  cbn in Hpm. simplify_eq.
  unfold take_head. rewrite Hh, Hdel. cbn. rewrite Hm. cbn.
  eexists lf', m, _. do 5 (split; [done|]). intros v ->.
  unfold clear_node. cbn. rewrite Hm. cbn.
  set (m0 := m <| data := _ |> <| data_size := _ |> <| buf_size := _ |> <| next := _ |> <| rd_idx := _ |>).
  set (h := <[p := m0]> (nodes s)).
  assert (forall x, x <> p -> h !! x = nodes s !! x) as Hhx by (intros; by apply lookup_insert_ne).
  assert (qlist h (free_head (que s)) (free_tail (que s)) le) as He'.
  { destruct He as (-> & -> & He). split; [done|]. split; [done|].
    apply (linked_frame (nodes s)); [|done]. intros x Hx. apply Hhx. intros ->. apply Hp, elem_of_app. by right. }
  destruct (append_ok h _ _ _ p He') as (h2 & hd2 & tl2 & Happ & Hq2 & Hb2 & Hx2).
  { apply NoDup_cons. apply not_elem_of_app in Hp as [_ Hp].
    split; [done|]. by apply NoDup_app in Hnd as (_ & _ & ?). }
  { exists m0. apply lookup_insert_eq. }
  rewrite Happ. cbn. eexists. split; [done|]. split; [|done].
  assert (p :: lf' ++ le ≡ₚ lf' ++ le ++ [p]) as Hperm by solve_Permutation.
  apply not_elem_of_app in Hp as [Hpf Hpe].
  apply NoDup_app in Hnd as (Hnd1 & Hnd2 & Hnd3).
  assert (forall x, x ∈ lf' -> h2 !! x = nodes s !! x) as Hlf.
  { intros x Hx. rewrite Hx2; [apply Hhx; congruence|].
    apply not_elem_of_cons. split; [congruence|]. by apply Hnd2. }
  split; cbn.
  - destruct Hf' as (Hf1 & -> & Hf'). split; [done|]. split; [done|].
    by apply (linked_frame (nodes s)).
  - done.
  - rewrite <- Hperm. apply NoDup_cons. split; [by apply not_elem_of_app|].
    by apply NoDup_app.
  - intros x. rewrite <- Hperm. rewrite <- (Hdom x).
    assert (is_Some (h2 !! x) <-> is_Some (h !! x)) as ->.
    { specialize (Hb2 x). unfold body in Hb2. destruct (h2 !! x), (h !! x); naive_solver. }
    destruct (decide (x = p)) as [->|Hne'].
    + unfold h. rewrite lookup_insert_eq, Hm. by split.
    + by rewrite Hhx.
  - apply (bodies_frame (nodes s)); [|done]. intros x Hx.
    unfold body. by rewrite Hlf.
  - by inversion Hok.
  - rewrite Hcur, s32_sub_l. f_equal. cbn. lia.
  - done.
  - rewrite Hnf, s32_sub_l. f_equal. cbn. lia.
  - rewrite Hne, s32_add_l. f_equal. rewrite length_app. cbn. lia.
Qed.

(** Copying [k] bytes out of the first packet. *)
Definition consume (k : Z) n : DataPacket :=
  n <| data_size := s32 (n.(data_size) - k) |> <| rd_idx := s32 (n.(rd_idx) + k) |>.

Lemma consume_ok k n :
  pkt_ok n -> 0 <= k <= n.(data_size) ->
  pkt_ok (consume k n) /\ data_size (consume k n) = n.(data_size) - k /\
  mem_read n.(data) n.(rd_idx) k = Some (take (Z.to_nat k) (payload n)) /\
  payload (consume k n) = drop (Z.to_nat k) (payload n).
Proof.
  intros (Hr & Hd & Hs & Hb & Hp) Hk. unfold consume. cbn.
  rewrite (s32_small (data_size n - k)) by (unfold is_s32; lia).
  rewrite (s32_small (rd_idx n + k)) by (unfold is_s32; lia).
  unfold pkt_ok, payload, mem_read. cbn. split_and!; try lia.
  - intros H. destruct Hp as (bytes & -> & Hl); [lia|]. exists bytes. split; [done|]. lia.
  - destruct (Z.eqb_spec k 0) as [->|]; [done|].
    destruct Hp as (bytes & -> & Hl); [lia|]. cbn.
    ztrue ((0 <=? rd_idx n) && (0 <=? k) && (rd_idx n + k <=? Z.of_nat (length bytes))).
    by rewrite take_take, Nat.min_l by lia.
  - destruct (data n) as [bytes|]; [|by rewrite drop_nil].
    rewrite skipn_firstn_comm, drop_drop. f_equal; [lia|]. f_equal. lia.
Qed.

(** The first packet after a partial copy. *)
Lemma rep_consume s n fill lf le p m k :
  rep s (n :: fill) lf le -> s.(que).(fill_head) = Some p ->
  s.(nodes) !! p = Some m -> n = set_next None m -> 0 <= k <= n.(data_size) ->
  rep (mkState (<[p := consume k m]> s.(nodes))
         (s.(que) <| q_data_size := s32 (s.(que).(q_data_size) - k) |>))
      (consume k n :: fill) lf le.
Proof.
  intros Hr Hh Hm -> Hk. destruct Hr as [Hf He Hnd Hdom Hb Hok Hcur Hdat Hnf Hne].
  set (h := <[p := consume k m]> (nodes s)).
  inversion Hb as [|p' ? lf' ? Hp Hb']; subst lf. destruct Hf as (Hf1 & Hf2 & Hf).
  rewrite Hh in Hf1. cbn in Hf1. simplify_eq. subst.
  cbn in Hnd. apply NoDup_cons in Hnd as [Hpn Hnd].
  apply not_elem_of_app in Hpn as [Hpf Hpe].
  inversion Hok as [|? ? Hn Hok']; subst.
  destruct (consume_ok k _ Hn Hk) as (Hn' & Hds & _).
  assert (forall x, x <> p' -> h !! x = nodes s !! x) as Hx by (intros; by apply lookup_insert_ne).
  split; cbn; try done.
  - rewrite Hh. split; [done|]. split; [done|]. destruct Hf as [(m' & Hm' & Hnx) Hf].
    split.
    + exists (consume k m). unfold h. rewrite lookup_insert_eq. split; [done|]. by simplify_eq.
    + apply (linked_frame (nodes s)); [|done]. intros x Hxi. apply Hx. congruence.
  - destruct He as (He1 & He2 & He). split; [done|]. split; [done|].
    apply (linked_frame (nodes s)); [|done]. intros x Hxi. apply Hx. congruence.
  - apply NoDup_cons. split; [by apply not_elem_of_app|done].
  - intros x. rewrite <- (Hdom x). destruct (decide (x = p')) as [->|].
    + unfold h. by rewrite lookup_insert_eq, Hm.
    + by rewrite Hx.
  - constructor.
    + unfold body, h. by rewrite lookup_insert_eq.
    + apply (bodies_frame (nodes s)); [|done]. intros x Hxi. unfold body.
      rewrite Hx; [done|congruence].
  - by constructor.
  - rewrite Hdat, s32_sub_l. f_equal. cbn in Hds |- *. lia.
Qed.

(** A packet declares at least the data it holds, at least one byte and at most
    [B]. *)
Definition within (B : Z) n : Prop :=
  n.(data_size) <= n.(buf_size) <= B /\ 0 < n.(buf_size).

Definition shrinks fill fill' : Prop :=
  total buf_size fill' <= total buf_size fill /\
  forall B, Forall (within B) fill -> Forall (within B) fill'.

Lemma shrinks_cons n fill fill' : pkt_ok n -> shrinks fill fill' -> shrinks (n :: fill) fill'.
Proof.
  intros (_ & _ & _ & ? & _) [Hb Hw]. split; [cbn; lia|].
  intros B HB. apply Hw. by inversion HB.
Qed.

Lemma shrinks_refl fill : shrinks fill fill.
Proof. by split. Qed.

Lemma set_same s : (s <| que := s.(que) <| q_data_size := s.(que).(q_data_size) |> |>) = s.
Proof. destruct s as [h q]. by destruct q. Qed.

(** The copy loop takes the first [want] bytes off the stream, or all of it. *)
Lemma read_loop_ok fuel : forall s fill lf le want,
  rep s fill lf le -> (length fill <= fuel)%nat ->
  0 < want < 2147483648 -> 0 < total data_size fill < 2147483648 ->
  exists s' fill' lf' le' bytes,
    read_loop fuel s want = Some (s', want - Z.of_nat (length bytes), bytes) /\
    rep s' fill' lf' le' /\ config s'.(que) = config s.(que) /\
    bytes ++ stream fill' = stream fill /\
    Z.of_nat (length bytes) = Z.min want (total data_size fill) /\ shrinks fill fill'.
Proof.
  induction fuel as [|fuel IH]; intros s fill lf le want Hr Hf Hw Ht;
    (destruct fill as [|n fill]; [cbn in Ht; lia|]); [cbn in Hf; lia|].
  destruct (rep_cons_inv _ _ _ _ _ Hr) as (p & lf' & m & -> & Hh & Hm & Hn).
  pose proof (rep_ok _ _ _ _ Hr) as Hok. inversion Hok as [|? ? Hnok Hok']; subst.
  destruct (total_nonneg _ Hok') as [Htot _]. cbn [total] in Ht.
  assert (0 <= data_size m) as Hdm by apply Hnok.
  set (k := Z.min (data_size m) want).
  pose proof (payload_length _ Hnok) as Hpl.
  change (data_size (set_next None m)) with (data_size m) in *.
  cbn [read_loop]. rewrite Hh. cbn [mbind option_bind]. rewrite Hm. cbn [mbind option_bind].
  replace (if data_size m >? want then want else data_size m) with k
    by (subst k; destruct (Z.gtb_spec (data_size m) want); lia).
  destruct (consume_ok k _ Hnok) as (Hnok' & Hds & Hrd & Hpay); [cbn; lia|].
  cbn in Hrd. rewrite Hrd. cbn [mbind option_bind].
  pose proof (rep_consume _ _ _ _ _ _ _ k Hr Hh Hm eq_refl ltac:(cbn; lia)) as Hr1.
  fold (consume k m).
  set (s1 := mkState _ _) in *.
  assert (config (que s1) = config (que s)) as Hc1 by done.
  assert (q_data_size (que s1) = data_size m + total data_size fill - k) as Hq1.
  { rewrite (rep_data _ _ _ _ Hr1), s32_small; cbn in Hds |- *; [lia|].
    unfold is_s32. lia. }
  rewrite (s32_small (want - k)) by (unfold is_s32; lia).
  assert (data_size (consume k m) = data_size m - k) as Hdc by exact Hds. rewrite Hdc.
  assert (Z.of_nat (length (take (Z.to_nat k) (payload (set_next None m)))) = k) as Hkl.
  { rewrite length_take. lia. }
  destruct (Z.leb_spec (data_size m - k) 0).
  - (* the packet is exhausted *)
    destruct (retire_ok s1 _ _ _ _ p Hr1 Hh) as (lf2 & m2 & s2 & Hlf & Hm2 & Hn2 & -> & Hq2 & Hcl).
    cbn [mbind option_bind].
    destruct (Hcl (q_data_size (que s2))) as (s3 & Hs3 & Hr3 & Hcf).
    { rewrite Hq2, Hq1, s32_small by (unfold is_s32; lia). lia. }
    rewrite set_same in Hs3.
    rewrite Hs3. cbn [mbind option_bind].
    assert (q_data_size (que s3) = total data_size fill) as ->.
    { rewrite (rep_data _ _ _ _ Hr3). apply s32_small. unfold is_s32. lia. }
    assert (take (Z.to_nat k) (payload (set_next None m)) = payload (set_next None m)) as Htk.
    { apply take_ge. lia. }
    destruct ((want - k >? 0) && (total data_size fill >? 0)) eqn:Hb.
    + destruct (IH s3 fill lf2 (le ++ [p]) (want - k) Hr3) as
        (s' & fill' & lf3 & le3 & bytes & -> & Hr' & Hcf' & Hst & Hlen & Hsh);
        [cbn in Hf; lia|lia|lia|].
      cbn. eexists s', fill', lf3, le3, _. split_and!; [|done|congruence| | |apply shrinks_cons; [done|exact Hsh]].
      * rewrite length_app. replace (want - k - Z.of_nat (length bytes)) with
          (want - Z.of_nat (length (take (Z.to_nat k) (payload (set_next None m))) + length bytes))
          by lia. done.
      * rewrite <- app_assoc, Hst, Htk. done.
      * rewrite length_app. cbn in *. lia.
    + eexists s3, fill, lf2, _, _. split_and!; [by rewrite Hkl|done|congruence| | |].
      * by rewrite Htk.
      * cbn. lia.
      * apply shrinks_cons; [done|apply shrinks_refl].
  - (* the request is satisfied *)
    cbn [mbind option_bind]. zfalse ((want - k >? 0) && (q_data_size (que s1) >? 0)).
    eexists s1, _, _, _, _. split_and!; [by rewrite Hkl|done|done| | |].
    + unfold stream. cbn [map concat]. rewrite Hpay, app_assoc, take_drop. done.
    + cbn. lia.
    + split; [cbn; lia|]. intros B HB. inversion HB as [|? ? Hn1 HB']; subst.
      constructor; [|done]. unfold within in *. cbn in Hn1, Hds |- *. lia.
Qed.

(** A node outside both lists receives a packet at the end of the queue. *)
Lemma push_ok h q p pkt fill lf le :
  qlist h q.(fill_head) q.(fill_tail) lf -> qlist h q.(free_head) q.(free_tail) le ->
  NoDup (p :: lf ++ le) -> (forall x, x <> p -> is_Some (h !! x) <-> x ∈ lf ++ le) ->
  Forall2 (fun p n => body h p = Some n) lf fill -> Forall pkt_ok fill -> pkt_ok pkt ->
  q.(cur_buf_size) = s32 (total buf_size fill) ->
  q.(q_data_size) = s32 (total data_size fill) ->
  q.(nb_fill_node) = s32 (Z.of_nat (length lf)) ->
  q.(nb_free_node) = s32 (Z.of_nat (length le)) ->
  exists s', push_node h q p pkt = Some (s', pkt.(data_size)) /\
    rep s' (fill ++ [set_next None pkt]) (lf ++ [p]) le /\ config s'.(que) = config q.
Proof.
  intros Hf He [Hp Hnd]%NoDup_cons Hdom Hb Hok Hpk Hcur Hdat Hnf Hne. unfold push_node.
  set (h1 := <[p := pkt <| next := None |>]> h).
  apply not_elem_of_app in Hp as [Hpf Hpe].
  assert (forall x, x <> p -> h1 !! x = h !! x) as Hx1 by (intros; by apply lookup_insert_ne).
  assert (qlist h1 (fill_head q) (fill_tail q) lf) as Hf1.
  { destruct Hf as (Hf1 & Hf2 & Hf). split; [done|]. split; [done|].
    apply (linked_frame h); [|done]. intros x Hx. apply Hx1. congruence. }
  apply NoDup_app in Hnd as (Hnd1 & Hnd2 & Hnd3).
  destruct (append_ok h1 _ _ _ p Hf1) as (h2 & hd & tl & -> & Hq & Hb2 & Hx2).
  { by apply NoDup_cons. }
  { exists (pkt <| next := None |>). apply lookup_insert_eq. }
  cbn. set (q1 := if _ >? peak_buf_size q then _ else _).
  set (q2 := if _ >? peak_data_size q1 then _ else _).
  assert (fill_head q2 = hd /\ fill_tail q2 = tl /\ free_head q2 = free_head q /\
    free_tail q2 = free_tail q /\ config q2 = config q /\
    nb_fill_node q2 = s32 (nb_fill_node q + 1) /\ nb_free_node q2 = nb_free_node q /\
    cur_buf_size q2 = s32 (cur_buf_size q + buf_size pkt) /\
    q_data_size q2 = s32 (q_data_size q + data_size pkt)) as
    (E1 & E2 & E3 & E4 & E5 & E6 & E7 & E8 & E9).
  { subst q2 q1. by repeat case_match. }
  clearbody q2. eexists. split; [done|]. split; [|done].
  assert (forall x, x <> p -> x ∉ lf -> h2 !! x = h !! x) as Hx.
  { intros x Hxp Hxl. rewrite Hx2; [by apply Hx1|]. by apply not_elem_of_cons. }
  assert (lf ++ [p] ++ le ≡ₚ p :: lf ++ le) as Hperm by solve_Permutation.
  split; cbn.
  - by rewrite E1, E2.
  - rewrite E3, E4. destruct He as (He1 & He2 & He). split; [done|]. split; [done|].
    apply (linked_frame h); [|done]. intros x Hxe. apply Hx; [congruence|].
    intros Hxf. by apply (Hnd2 x).
  - rewrite <- app_assoc, Hperm. apply NoDup_cons. split; [by apply not_elem_of_app|].
    by apply NoDup_app.
  - intros x. rewrite <- app_assoc, Hperm, elem_of_cons.
    assert (is_Some (h2 !! x) <-> is_Some (h1 !! x)) as ->.
    { specialize (Hb2 x). unfold body in Hb2. destruct (h2 !! x), (h1 !! x); naive_solver. }
    destruct (decide (x = p)) as [->|Hne'].
    + unfold h1. rewrite lookup_insert_eq. naive_solver.
    + rewrite Hx1, Hdom by done. naive_solver.
  - apply Forall2_app.
    + apply (bodies_frame h); [|done]. intros x Hxi. rewrite Hb2. unfold body.
      rewrite Hx1; [done|congruence].
    + constructor; [|done]. rewrite Hb2. unfold body, h1. by rewrite lookup_insert_eq.
  - apply Forall_app. split; [done|]. by constructor.
  - rewrite E8, Hcur, s32_add_l, total_app. f_equal. cbn. lia.
  - rewrite E9, Hdat, s32_add_l, total_app. f_equal. cbn. lia.
  - rewrite E6, Hnf, s32_add_l, length_app. f_equal. cbn. lia.
  - by rewrite E7.
Qed.
End Abstract.

(** ** The operations on the abstract queue *)

Section Calls.
Context {E : AvErrors}.
Implicit Types (s : state) (fill : list DataPacket) (lf le : list loc) (n : DataPacket).

(** The argument check of [pktq_put_pkt]. *)
Definition pkt_valid n : bool :=
  (0 <? n.(buf_size)) && (n.(data_size) <=? n.(buf_size)) && (0 <=? n.(rd_idx)) &&
  (n.(rd_idx) <=? n.(data_size)) &&
  negb ((n.(rd_idx) =? n.(data_size)) && (0 <? n.(data_size))).

(** Writing is forbidden after the queue was full, while it has no more than
    [forbidden_size] bytes free. *)
Definition forbidden (q : PKTQueue) : bool :=
  negb (q.(full) =? 0) && (q.(cur_buf_size) <? q.(max_buf_size)) &&
  (s32 (q.(max_buf_size) - q.(cur_buf_size)) <=? q.(forbidden_size)).

Definition overfull (q : PKTQueue) : bool :=
  (0 <? q.(max_buf_size)) && (q.(max_buf_size) <? q.(cur_buf_size)).

Definition fresh_alloc (s : state) (alloc : option loc) : Prop :=
  exists p, alloc = Some p /\ s.(nodes) !! p = None.

(** A node is available: a free one, or a new one. *)
Definition has_node (s : state) (alloc : option loc) : Prop :=
  s.(que).(free_head) <> None \/ fresh_alloc s alloc.

Lemma put_unfold alloc s n :
  pktq_put_pkt alloc s (Some n) =
  if negb (pkt_valid n) then Some (s, -1)
  else if forbidden s.(que) then Some (s, -1)
  else if overfull s.(que) then Some (s <| que := s.(que) <| full := 1 |> |>, -1)
  else
    let q := s.(que) <| full := 0 |> in
    match q.(free_head) with
    | Some _ =>
        '(node, hd, tl) ← DEL_HEAD_FROM_QUE s.(nodes) q.(free_head) q.(free_tail);
        p ← node;
        push_node s.(nodes) (q <| free_head := hd |> <| free_tail := tl |>
                               <| nb_free_node := s32 (q.(nb_free_node) - 1) |>) p n
    | None => match alloc with
              | None => Some (s <| que := q |>, AVERROR_ENOMEM)
              | Some p => push_node s.(nodes) q p n
              end
    end.
Proof.
  unfold pktq_put_pkt, pkt_valid, forbidden, overfull.
  match goal with |- (if ?a then _ else _) = (if ?b then _ else _) => replace b with a end.
  2: { repeat match goal with |- context [?x >? ?y] => rewrite (Z.gtb_ltb x y) end.
       destruct (Z.leb_spec (buf_size n) 0), (Z.ltb_spec (buf_size n) (data_size n)),
         (Z.ltb_spec (data_size n) (rd_idx n)), (Z.eqb_spec (rd_idx n) (data_size n)),
         (Z.ltb_spec 0 (data_size n)), (Z.ltb_spec (rd_idx n) 0); cbn; lia. }
  case_match; [done|]. case_match; [done|].
  rewrite (Z.gtb_ltb (cur_buf_size _)), (Z.gtb_ltb (max_buf_size _)), andb_comm. done.
Qed.

(** An accepted packet goes to the end of the queue. *)
Lemma put_accept alloc s n fill lf le :
  rep s fill lf le -> pkt_ok n -> pkt_valid n = true -> forbidden s.(que) = false ->
  overfull s.(que) = false -> has_node s alloc ->
  exists s' lf' le', pktq_put_pkt alloc s (Some n) = Some (s', n.(data_size)) /\
    rep s' (fill ++ [set_next None n]) lf' le' /\
    config s'.(que) = config (s.(que) <| full := 0 |>).
Proof.
  intros Hr Hn Hv Hf Ho Hal. rewrite put_unfold, Hv, Hf, Ho. cbn.
  destruct Hr as [Hfl He Hnd Hdom Hb Hok Hcur Hdat Hnf Hne].
  destruct (free_head (que s)) as [p0|] eqn:Hfh.
  - destruct (del_head_ok _ _ _ _ He) as (le' & m & -> & Hm & tl' & -> & He'). cbn.
    assert (lf ++ p0 :: le' ≡ₚ p0 :: lf ++ le') as Hperm by solve_Permutation.
    rewrite Hperm in Hnd.
    match goal with |- context [push_node _ ?q p0 n] =>
      destruct (push_ok (nodes s) q p0 n fill lf le') as (s' & -> & Hr' & Hc); try done end.
    + intros x Hx. rewrite Hdom, Hperm, elem_of_cons. naive_solver.
    + cbn. rewrite Hne, s32_sub_l. f_equal. cbn. lia.
    + by eexists s', _, _.
  - destruct Hal as [Hal|(p & -> & Hp)]; [done|].
    assert (le = []) as -> by (destruct He as (Hh & _); by destruct le).
    match goal with |- context [push_node _ ?q p n] =>
      destruct (push_ok (nodes s) q p n fill lf []) as (s' & -> & Hr' & Hc); try done end.
    + cbn. by rewrite Hfh.
    + apply NoDup_cons. split; [|done]. intros Hin. apply Hdom in Hin as [? ?]. congruence.
    + by eexists s', _, _.
Qed.

Lemma get_head env s n fill lf le timeout :
  rep s (n :: fill) lf le -> s.(que).(exit) = 0 ->
  exists s' lf' le', pktq_get_pkt env s timeout = Some (Returned s' n.(data_size) (Some n)) /\
    rep s' fill lf' le' /\ config s'.(que) = config s.(que).
Proof.
  intros Hr He. destruct (rep_cons_inv _ _ _ _ _ Hr) as (p & lf' & m & -> & Hh & Hm & Hn).
  destruct (retire_ok _ _ _ _ _ p Hr Hh) as (lf2 & m2 & s1 & Hlf & Hm2 & Hn2 & Ht & Hq & Hcl).
  destruct (Hcl (s32 (q_data_size (que s1) - data_size m2))) as (s2 & Hs2 & Hr2 & Hc2).
  { rewrite Hq, (rep_data _ _ _ _ Hr), s32_sub_l. f_equal. rewrite Hn2. cbn. lia. }
  eexists s2, _, _. split; [|by split].
  destruct env; cbn [pktq_get_pkt]; rewrite He, Hh, Ht; cbn; rewrite Hs2; cbn;
    by rewrite Hn2.
Qed.

Lemma clear_ok fuel : forall s fill lf le,
  rep s fill lf le -> (length fill <= fuel)%nat ->
  exists s' le', pktq_clear fuel s = Some (s', 0) /\ rep s' [] [] le' /\
    config s'.(que) = config s.(que).
Proof.
  induction fuel as [|fuel IH]; intros s fill lf le Hr Hf; destruct fill as [|n fill].
  - assert (lf = []) as -> by (pose proof (rep_body _ _ _ _ Hr) as Hb; by inversion Hb).
    exists s, le. split; [|done]. destruct (rep_fill _ _ _ _ Hr) as (Hh & _).
    cbn in *. by rewrite Hh.
  - cbn in Hf. lia.
  - assert (lf = []) as -> by (pose proof (rep_body _ _ _ _ Hr) as Hb; by inversion Hb).
    exists s, le. split; [|done]. destruct (rep_fill _ _ _ _ Hr) as (Hh & _).
    cbn in *. by rewrite Hh.
  - destruct (rep_cons_inv _ _ _ _ _ Hr) as (p & lf' & m & -> & Hh & Hm & Hn).
    destruct (retire_ok _ _ _ _ _ p Hr Hh) as (lf2 & m2 & s1 & Hlf & Hm2 & Hn2 & Ht & Hq & Hcl).
    destruct (Hcl (s32 (q_data_size (que s1) - data_size m2))) as (s2 & Hs2 & Hr2 & Hc2).
    { rewrite Hq, (rep_data _ _ _ _ Hr), s32_sub_l. f_equal. rewrite Hn2. cbn. lia. }
    cbn [pktq_clear]. rewrite Hh, Ht. cbn [mbind option_bind]. rewrite Hs2. cbn [mbind option_bind].
    destruct (IH s2 fill _ _ Hr2) as (s' & le' & -> & Hr' & Hc); [cbn in Hf; lia|].
    exists s', le'. split_and!; [done|done|congruence].
Qed.

Lemma destroy_fill_ok lf : forall fuel s,
  s.(que).(fill_head) = head lf -> linked s.(nodes) lf -> NoDup lf -> (length lf <= fuel)%nat ->
  exists s', destroy_fill fuel s = Some s' /\ s'.(que).(free_head) = s.(que).(free_head) /\
    (forall x, x ∈ lf -> s'.(nodes) !! x = None) /\
    (forall x, x ∉ lf -> s'.(nodes) !! x = s.(nodes) !! x).
Proof.
  induction lf as [|p lf IH]; intros fuel s Hh Hl Hnd Hf.
  - exists s. split; [|set_solver]. cbn in Hh. destruct fuel; cbn; by rewrite Hh.
  - destruct fuel as [|fuel]; [cbn in Hf; lia|]. destruct Hl as [(n & Hp & Hn) Hl].
    apply NoDup_cons in Hnd as [Hpl Hnd]. cbn in Hh. cbn [destroy_fill]. rewrite Hh, Hp. cbn.
    match goal with |- context [destroy_fill fuel ?x] =>
      destruct (IH fuel x) as (s' & -> & Hfr & Hin & Hout) end; cbn in *; try done; try lia.
    { apply (linked_frame (nodes s)); [|done]. intros x Hx. apply lookup_delete_ne. congruence. }
    exists s'. split; [done|]. split; [done|]. split.
    + intros x [->|Hx]%elem_of_cons; [|by apply Hin].
      rewrite Hout by done. apply lookup_delete_eq.
    + intros x [Hne Hx]%not_elem_of_cons. rewrite Hout by done. by apply lookup_delete_ne.
Qed.

Lemma destroy_free_ok le : forall fuel s,
  s.(que).(free_head) = head le -> linked s.(nodes) le -> NoDup le -> (length le <= fuel)%nat ->
  exists s', destroy_free fuel s = Some s' /\
    (forall x, x ∈ le -> s'.(nodes) !! x = None) /\
    (forall x, x ∉ le -> s'.(nodes) !! x = s.(nodes) !! x).
Proof.
  induction le as [|p le IH]; intros fuel s Hh Hl Hnd Hf.
  - exists s. split; [|set_solver]. cbn in Hh. destruct fuel; cbn; by rewrite Hh.
  - destruct fuel as [|fuel]; [cbn in Hf; lia|]. destruct Hl as [(n & Hp & Hn) Hl].
    apply NoDup_cons in Hnd as [Hpl Hnd]. cbn in Hh. cbn [destroy_free]. rewrite Hh, Hp. cbn.
    match goal with |- context [destroy_free fuel ?x] =>
      destruct (IH fuel x) as (s' & -> & Hin & Hout) end; cbn in *; try done; try lia.
    { apply (linked_frame (nodes s)); [|done]. intros x Hx. apply lookup_delete_ne. congruence. }
    exists s'. split; [done|]. split.
    + intros x [->|Hx]%elem_of_cons; [|by apply Hin].
      rewrite Hout by done. apply lookup_delete_eq.
    + intros x [Hne Hx]%not_elem_of_cons. rewrite Hout by done. by apply lookup_delete_ne.
Qed.

(** ** Histories

    The calls the threads make, in the order they take the mutex. A call that
    would wait releases it and is made again when it is woken up. *)

Inductive pktq_step (fuel : nat) (B : Z) : state -> state -> Prop :=
| step_put alloc s n s' r :
    fresh_alloc s alloc -> pkt_ok n -> n.(buf_size) <= B ->
    pktq_put_pkt alloc s (Some n) = Some (s', r) -> pktq_step fuel B s s'
| step_put_fail s n s' r :
    pkt_ok n -> n.(buf_size) <= B ->
    pktq_put_pkt None s (Some n) = Some (s', r) -> pktq_step fuel B s s'
| step_quit s s' r :
    pktq_put_pkt None s None = Some (s', r) -> pktq_step fuel B s s'
| step_read s len timeout s' r bytes :
    0 < len < 2147483648 ->
    pktq_read fuel [] s len timeout = Some (Returned s' r bytes) -> pktq_step fuel B s s'
| step_get s timeout s' r out :
    pktq_get_pkt [] s timeout = Some (Returned s' r out) -> pktq_step fuel B s s'
| step_clear s s' r :
    pktq_clear fuel s = Some (s', r) -> pktq_step fuel B s s'.

Inductive pktq_reachable (fuel : nat) (max forb B : Z) : state -> Prop :=
| reach_create q0 q r :
    pktq_create (Some q0) 0 0 max forb = (Some q, r) ->
    pktq_reachable fuel max forb B (mkState ∅ q)
| reach_step s s' :
    pktq_reachable fuel max forb B s -> pktq_step fuel B s s' ->
    pktq_reachable fuel max forb B s'.

(** The invariant: the nodes hold some packets, of at most [max + B] bytes. *)
Definition bounded (max B : Z) s fill : Prop :=
  (exists lf le, rep s fill lf le) /\ s.(que).(max_buf_size) = max /\
  Forall (within B) fill /\ total buf_size fill <= max + B.

Lemma within_total B l :
  Forall pkt_ok l -> Forall (within B) l -> total data_size l <= total buf_size l.
Proof.
  intros Hok. induction 1 as [|n l [[Hn _] _] Hl IH]; cbn; [done|].
  inversion Hok; subst. specialize (IH ltac:(done)). lia.
Qed.

Lemma within_length B l : Forall (within B) l -> Z.of_nat (length l) <= total buf_size l.
Proof. induction 1 as [|n l [_ Hn] _ IH]; cbn [length total]; lia. Qed.

Lemma bounded_bounds max B s fill :
  bounded max B s fill ->
  0 <= total data_size fill <= total buf_size fill /\ total buf_size fill <= max + B /\
  Z.of_nat (length fill) <= max + B.
Proof.
  intros ((lf & le & Hr) & _ & Hw & Hb). pose proof (rep_ok _ _ _ _ Hr) as Hok.
  pose proof (total_nonneg _ Hok) as [? ?]. pose proof (within_total _ _ Hok Hw).
  pose proof (within_length _ _ Hw). lia.
Qed.

Lemma config_max q q' : config q' = config q -> q'.(max_buf_size) = q.(max_buf_size).
Proof. intros H. by injection H. Qed.

Lemma bounded_counters max B s fill :
  bounded max B s fill -> max + B < 2147483648 ->
  s.(que).(cur_buf_size) = total buf_size fill /\
  s.(que).(q_data_size) = total data_size fill.
Proof.
  intros Hb HM. pose proof (bounded_bounds _ _ _ _ Hb) as Hbb.
  destruct Hb as ((lf & le & Hr) & _). rewrite (rep_cur _ _ _ _ Hr), (rep_data _ _ _ _ Hr).
  split; apply s32_small; unfold is_s32; lia.
Qed.

Lemma stream_split (all bytes rest : list Z) len :
  0 < len -> bytes ++ rest = all -> Z.of_nat (length bytes) = Z.min len (Z.of_nat (length all)) ->
  bytes = take (Z.to_nat len) all /\ rest = drop (Z.to_nat len) all.
Proof.
  intros Hl <- Hlen. rewrite length_app in Hlen.
  destruct (Z.leb_spec len (Z.of_nat (length bytes))).
  - replace (Z.to_nat len) with (length bytes) by lia. by rewrite take_app_length, drop_app_length.
  - assert (rest = []) as -> by (apply length_zero_iff_nil; lia).
    rewrite app_nil_r, take_ge, drop_ge by lia. done.
Qed.

(** A read that returns keeps the invariant and takes its bytes off the stream. *)
Lemma bounded_read max B s fill fuel env len timeout :
  bounded max B s fill -> max + B < 2147483648 -> 0 < len < 2147483648 ->
  (Z.to_nat (max + B) <= fuel)%nat -> s.(que).(exit) = 0 -> stream fill <> [] ->
  exists s' fill' bytes,
    pktq_read fuel env s len timeout = Some (Returned s' (Z.of_nat (length bytes)) bytes) /\
    bounded max B s' fill' /\ config s'.(que) = config s.(que) /\
    bytes ++ stream fill' = stream fill /\
    Z.of_nat (length bytes) = Z.min len (Z.of_nat (length (stream fill))).
Proof.
  intros Hb HM Hlen Hf He Hne. pose proof (bounded_bounds _ _ _ _ Hb) as Hbb.
  destruct (bounded_counters _ _ _ _ Hb HM) as [_ Hdat].
  destruct Hb as ((lf & le & Hr) & Hmx & Hw & Htot).
  pose proof (stream_length _ (rep_ok _ _ _ _ Hr)) as Hsl.
  assert (0 < total data_size fill) as Hpos.
  { rewrite <- Hsl. destruct (stream fill); [done|cbn; lia]. }
  destruct (read_loop_ok fuel s fill lf le len Hr) as
    (s' & fill' & lf' & le' & bytes & Hrd & Hr' & Hcf & Hst & Hbl & Hsh1 & Hsh2); [lia..|].
  exists s', fill', bytes. rewrite Hsl. split_and!; try done.
  - unfold pktq_read. zfalse (len <=? 0).
    destruct env; cbn [pktq_read_wait]; rewrite He, Hdat; cbn;
      ztrue (total data_size fill >? 0); rewrite Hrd; cbn;
      rewrite (s32_small (len - (len - Z.of_nat (length bytes))))
        by (unfold is_s32; lia); repeat f_equal; lia.
  - split; [by exists lf', le'|]. split; [by rewrite (config_max _ _ Hcf)|].
    split; [by apply Hsh2|lia].
Qed.

Lemma read_idle fuel s len timeout s' r bytes :
  s.(que).(exit) <> 0 \/ s.(que).(q_data_size) <= 0 -> 0 < len ->
  pktq_read fuel [] s len timeout = Some (Returned s' r bytes) -> s' = s.
Proof.
  intros Hi Hl. unfold pktq_read. zfalse (len <=? 0). cbn.
  destruct (Z.eqb_spec (exit (que s)) 0); cbn; [|by intros [= <- _ _]].
  zfalse (q_data_size (que s) >? 0). case_match; [by intros [= <- _ _]|done].
Qed.

(** The flags are not part of what the nodes hold. *)
Lemma bounded_flags max B s fill fl ex :
  bounded max B s fill ->
  bounded max B (s <| que := s.(que) <| full := fl |> <| exit := ex |> |>) fill.
Proof.
  intros ((lf & le & []) & Hm & Hw & Ht). split; [|done].
  exists lf, le. by split.
Qed.

Lemma bounded_full max B s fill fl :
  bounded max B s fill -> bounded max B (s <| que := s.(que) <| full := fl |> |>) fill.
Proof. intros H%(bounded_flags _ _ _ _ fl (exit (que s))). by destruct s as [h []]. Qed.

Lemma bounded_exit max B s fill ex :
  bounded max B s fill -> bounded max B (s <| que := s.(que) <| exit := ex |> |>) fill.
Proof. intros H%(bounded_flags _ _ _ _ (full (que s)) ex). by destruct s as [h []]. Qed.

(** An accepted packet, with the invariant. *)
Lemma put_bounded max B alloc s fill n :
  0 < max -> max + B < 2147483648 -> bounded max B s fill -> pkt_ok n -> n.(buf_size) <= B ->
  pkt_valid n = true -> has_node s alloc -> forbidden s.(que) = false ->
  overfull s.(que) = false ->
  exists s', pktq_put_pkt alloc s (Some n) = Some (s', n.(data_size)) /\
    bounded max B s' (fill ++ [set_next None n]) /\
    s'.(que).(full) = 0 /\ s'.(que).(exit) = s.(que).(exit).
Proof.
  intros Hm HM Hb Hn HB Hv Hnode Hf Ho.
  destruct (bounded_counters _ _ _ _ Hb HM) as [Hcur _].
  destruct Hb as ((lf & le & Hr) & Hmx & Hw & Ht).
  destruct (put_accept alloc s n fill lf le Hr Hn Hv Hf Ho Hnode) as (s' & lf' & le' & Hp & Hr' & Hc).
  exists s'. injection Hc as Hc1 Hc2 Hc3 Hc4. split; [done|]. split; [|by split].
  split; [by exists lf', le'|]. split; [congruence|]. split.
  - apply Forall_app. split; [done|]. constructor; [|done].
    unfold pkt_valid in Hv. unfold within. cbn. lia.
  - rewrite total_app. cbn. unfold overfull in Ho. lia.
Qed.

(** A call of [pktq_put_pkt] returns, and keeps the invariant. *)
Lemma bounded_put max B alloc s fill n :
  0 < max -> max + B < 2147483648 -> bounded max B s fill -> pkt_ok n -> n.(buf_size) <= B ->
  fresh_alloc s alloc \/ alloc = None ->
  exists s' fill' r, pktq_put_pkt alloc s (Some n) = Some (s', r) /\ bounded max B s' fill'.
Proof.
  intros Hm HM Hb Hn HB Ha. rewrite put_unfold.
  destruct (pkt_valid n) eqn:Hv; cbn [negb]; [|by eexists s, fill, _].
  destruct (forbidden (que s)) eqn:Hf; [by eexists s, fill, _|].
  destruct (overfull (que s)) eqn:Ho.
  { eexists _, fill, _. split; [done|]. by apply bounded_full. }
  assert (pktq_put_pkt alloc s (Some n) = Some (s <| que := s.(que) <| full := 0 |> |>, AVERROR_ENOMEM)
    \/ has_node s alloc) as [Hno|Hnode].
  { destruct (free_head (que s)) as [x|] eqn:Hfh; [right; left; congruence|].
    destruct Ha as [Ha| ->]; [by right; right|]. left.
    rewrite put_unfold, Hv, Hf, Ho. cbn. by rewrite Hfh. }
  - rewrite put_unfold, Hv, Hf, Ho in Hno. cbn [negb] in Hno. rewrite Hno.
    eexists _, fill, _. split; [done|]. by apply bounded_full.
  - destruct (put_bounded max B alloc s fill n) as (s' & Hp & Hb' & _); try done.
    rewrite put_unfold, Hv, Hf, Ho in Hp. cbn [negb] in Hp. rewrite Hp. by eexists s', _, _.
Qed.

Lemma bounded_get max B env s n fill timeout :
  bounded max B s (n :: fill) -> s.(que).(exit) = 0 ->
  exists s', pktq_get_pkt env s timeout = Some (Returned s' n.(data_size) (Some n)) /\
    bounded max B s' fill /\ config s'.(que) = config s.(que).
Proof.
  intros ((lf & le & Hr) & Hm & Hw & Ht) He.
  destruct (get_head env s n fill lf le timeout Hr He) as (s' & lf' & le' & Hg & Hr' & Hc).
  exists s'. split; [done|]. split; [|done]. split; [by exists lf', le'|].
  split; [by rewrite (config_max _ _ Hc)|].
  pose proof (rep_ok _ _ _ _ Hr) as Hok. apply Forall_cons in Hok as [(_ & _ & _ & ? & _) _].
  split; [by inversion Hw|]. cbn in Ht. lia.
Qed.

Lemma bounded_no_pkt max B s fill :
  bounded max B s fill -> s.(que).(fill_head) = None -> fill = [].
Proof. intros ((lf & le & Hr) & _) Hh. by destruct (rep_nil_inv _ _ _ _ Hr Hh). Qed.

Lemma get_idle s timeout s' r out :
  s.(que).(exit) <> 0 \/ s.(que).(fill_head) = None ->
  pktq_get_pkt [] s timeout = Some (Returned s' r out) -> s' = s.
Proof.
  intros Hi. cbn. destruct (Z.eqb_spec (exit (que s)) 0); cbn; [|by intros [= <- _ _]].
  destruct Hi as [|Hi]; [done|]. rewrite Hi. case_match; [by intros [= <- _ _]|done].
Qed.

(** Only a null packet changes the exit flag. *)
Lemma take_head_exit s p n s' :
  take_head s = Some (p, n, s') -> exit (que s') = exit (que s).
Proof.
  unfold take_head. intros ([[o hd] tl] & _ & H)%bind_Some.
  apply bind_Some in H as (p' & _ & H). apply bind_Some in H as (n' & _ & H). by simplify_eq.
Qed.

Lemma clear_node_exit s p s' : clear_node s p = Some s' -> exit (que s') = exit (que s).
Proof.
  unfold clear_node. intros (n & _ & H)%bind_Some.
  apply bind_Some in H as ([[h hd] tl] & _ & H). by simplify_eq.
Qed.

Lemma push_node_exit h q p n s' r : push_node h q p n = Some (s', r) -> exit (que s') = exit q.
Proof.
  unfold push_node. intros ([[h' hd] tl] & _ & H)%bind_Some. simplify_eq. cbn.
  by repeat case_match.
Qed.

Lemma put_exit alloc s n s' r :
  pktq_put_pkt alloc s (Some n) = Some (s', r) -> exit (que s') = exit (que s).
Proof.
  rewrite put_unfold. destruct (negb _); [by intros [= <- _]|].
  destruct (forbidden _); [by intros [= <- _]|]. destruct (overfull _); [by intros [= <- _]|].
  cbn. destruct (free_head (que s)) as [x|].
  - intros ([[o hd] tl] & _ & H)%bind_Some. apply bind_Some in H as (p & _ & H).
    by apply push_node_exit in H.
  - destruct alloc; [|by intros [= <- _]]. by intros H%push_node_exit.
Qed.

Lemma clear_exit fuel : forall s s' r,
  pktq_clear fuel s = Some (s', r) -> exit (que s') = exit (que s).
Proof.
  induction fuel as [|fuel IH]; intros s s' r; cbn; (destruct (fill_head (que s)) as [x|]; [|by intros [= <- _]]);
    [done|].
  intros ([[p n] s1] & Ht%take_head_exit & H)%bind_Some.
  apply bind_Some in H as (s2 & Hc%clear_node_exit & H). rewrite (IH _ _ _ H), Hc. done.
Qed.

Lemma bounded_clear max B fuel s fill :
  0 < max -> 0 < B -> bounded max B s fill -> (Z.to_nat (max + B) <= fuel)%nat ->
  exists s', pktq_clear fuel s = Some (s', 0) /\ bounded max B s' [].
Proof.
  intros Hm HB Hb Hf. pose proof (bounded_bounds _ _ _ _ Hb) as Hbb.
  destruct Hb as ((lf & le & Hr) & Hmx & _).
  destruct (clear_ok fuel s fill lf le Hr) as (s' & le' & Hc & Hr' & Hcf); [lia|].
  exists s'. split; [done|]. split; [by exists [], le'|].
  split; [by rewrite (config_max _ _ Hcf)|]. split; [done|]. cbn. lia.
Qed.

Lemma bounded_step max B fuel s s' fill :
  0 < max -> 0 < B -> max + B < 2147483648 -> (Z.to_nat (max + B) <= fuel)%nat ->
  bounded max B s fill -> pktq_step fuel B s s' -> exists fill', bounded max B s' fill'.
Proof.
  intros Hm HB HM Hf Hb Hst.
  destruct Hst as [al s n s' r Ha Hn Hnb Hp|s n s' r Hn Hnb Hp|s s' r Hp
    |s len tm s' r bytes Hl Hp|s tm s' r o Hp|s s' r Hp].
  - destruct (bounded_put max B al s fill n) as (s2 & fill' & r2 & Hp2 & Hb2); try done.
    { by left. }
    rewrite Hp in Hp2. simplify_eq. by exists fill'.
  - destruct (bounded_put max B None s fill n) as (s2 & fill' & r2 & Hp2 & Hb2); try done.
    { by right. }
    rewrite Hp in Hp2. simplify_eq. by exists fill'.
  - cbn in Hp. simplify_eq. exists fill. by apply (bounded_exit _ _ _ _ 1).
  - destruct (Z.eq_dec (exit (que s)) 0) as [He|He];
      [|by rewrite (read_idle _ _ _ _ _ _ _ (or_introl He) (proj1 Hl) Hp); exists fill].
    destruct (bounded_counters _ _ _ _ Hb HM) as [_ Hd].
    destruct (decide (stream fill = [])) as [Hs|Hs].
    + assert (q_data_size (que s) <= 0) as Hi.
      { destruct Hb as ((lf & le & Hr) & _).
        pose proof (stream_length _ (rep_ok _ _ _ _ Hr)) as Hsl. rewrite Hs in Hsl.
        cbn in Hsl. lia. }
      rewrite (read_idle _ _ _ _ _ _ _ (or_intror Hi) (proj1 Hl) Hp). by exists fill.
    + destruct (bounded_read max B s fill fuel [] len tm) as (s2 & fill' & b2 & Hp2 & Hb2 & _);
        try done.
      rewrite Hp in Hp2. simplify_eq. by exists fill'.
  - destruct (Z.eq_dec (exit (que s)) 0) as [He|He];
      [|by rewrite (get_idle _ _ _ _ _ (or_introl He) Hp); exists fill].
    destruct (fill_head (que s)) as [x|] eqn:Hh;
      [|by rewrite (get_idle _ _ _ _ _ (or_intror Hh) Hp); exists fill].
    destruct fill as [|n fill].
    { destruct Hb as ((lf & le & Hr) & _). pose proof (rep_body _ _ _ _ Hr) as Hb.
      inversion Hb; subst. destruct (rep_fill _ _ _ _ Hr) as (Hh' & _). by rewrite Hh in Hh'. }
    destruct (bounded_get max B [] s n fill tm Hb He) as (s2 & Hp2 & Hb2 & _).
    rewrite Hp in Hp2. simplify_eq. by exists fill.
  - destruct (bounded_clear max B fuel s fill) as (s2 & Hp2 & Hb2); try done.
    rewrite Hp in Hp2. simplify_eq. by exists [].
Qed.

Lemma reachable_bounded fuel max forb B s :
  0 < max -> 0 < B -> max + B < 2147483648 -> (Z.to_nat (max + B) <= fuel)%nat ->
  pktq_reachable fuel max forb B s -> exists fill, bounded max B s fill.
Proof.
  intros Hm HB HM Hf. induction 1 as [q0 q r Hc|s s' _ [fill IH] Hst].
  - exists []. unfold pktq_create in Hc. destruct (_ && _); [done|]. cbn in Hc. simplify_eq.
    split; [|split; [done|split; [done|cbn; lia]]]. exists [], []. split; try done; [by constructor|].
    intros x. cbn. rewrite lookup_empty. split; [by intros [? ?]|set_solver].
  - by eapply bounded_step.
Qed.
End Calls.

(** ** Properties *)

(** C6: in every state the threads' calls can reach from [pktq_create], no
    call follows a null or dangling pointer or overruns a buffer, every loop
    ends within the fuel, the counters are the sums over the queued packets, and the
    queue never holds more than [max + B] bytes (B bounds one packet). *)
Theorem pktq_safe {E : AvErrors} (fuel : nat) (max forb B : Z) (s : state) :
  0 < max -> 0 < B -> max + B < 2147483648 -> (Z.to_nat (max + B) <= fuel)%nat ->
  pktq_reachable fuel max forb B s ->
  (exists fill, queued s fill /\
     pktq_get_buf_size s = total buf_size fill /\ pktq_get_buf_size s <= max + B /\
     pktq_get_data_size s = Z.of_nat (length (stream fill))) /\
  (forall len timeout, len < 2147483648 -> exists o, pktq_read fuel [] s len timeout = Some o) /\
  (forall timeout, exists o, pktq_get_pkt [] s timeout = Some o) /\
  (forall alloc n, fresh_alloc s alloc \/ alloc = None -> pkt_ok n -> n.(buf_size) <= B ->
     exists o, pktq_put_pkt alloc s (Some n) = Some o) /\
  (exists s', pktq_clear fuel s = Some (s', 0)).
Proof.
  intros Hm HB HM Hf Hr. destruct (reachable_bounded _ _ _ _ _ Hm HB HM Hf Hr) as [fill Hb].
  pose proof (bounded_bounds _ _ _ _ Hb) as Hbb.
  destruct (bounded_counters _ _ _ _ Hb HM) as [Hcur Hdat].
  pose proof Hb as ((lf & le & Hrep) & _).
  pose proof (stream_length _ (rep_ok _ _ _ _ Hrep)) as Hsl.
  split_and!.
  - exists fill. unfold pktq_get_buf_size, pktq_get_data_size. split; [by exists lf, le|].
    split_and!; lia.
  - intros len timeout Hl. unfold pktq_read. destruct (Z.leb_spec len 0); [by eexists|].
    destruct (Z.eq_dec (exit (que s)) 0) as [He|He].
    2: { cbn. zfalse (exit (que s) =? 0). by eexists. }
    destruct (decide (stream fill = [])) as [Hs|Hs].
    + rewrite Hs in Hsl. cbn in Hsl. cbn. rewrite He. cbn.
      zfalse (q_data_size (que s) >? 0). case_match; by eexists.
    + destruct (bounded_read max B s fill fuel [] len timeout) as (s2 & fill' & b2 & Hp2 & _);
        try done.
      unfold pktq_read in Hp2.
      replace (len <=? 0) with false in Hp2 by lia. rewrite Hp2. by eexists.
  - intros timeout. destruct (Z.eq_dec (exit (que s)) 0) as [He|He].
    2: { cbn. zfalse (exit (que s) =? 0). by eexists. }
    destruct fill as [|n fill].
    + assert (fill_head (que s) = None) as Hh.
      { pose proof (rep_body _ _ _ _ Hrep) as Hbd. inversion Hbd; subst.
        by destruct (rep_fill _ _ _ _ Hrep) as (Hh & _). }
      cbn. rewrite He, Hh. cbn. case_match; by eexists.
    + destruct (bounded_get max B [] s n fill timeout Hb He) as (s2 & -> & _). by eexists.
  - intros alloc n Ha Hn HnB.
    destruct (bounded_put max B alloc s fill n) as (s2 & fill' & r & -> & _); try done. by eexists.
  - destruct (bounded_clear max B fuel s fill) as (s2 & -> & _); try done. by eexists.
Qed.

(** A queue as [pktq_create] makes it, and packets to put in it. *)
Definition new_queue (max forb : Z) : state :=
  mkState ∅ (default (mkQueue None None None None 0 0 0 0 0 0 0 0 0 0)
    (fst (pktq_create (Some (mkQueue None None None None 0 0 0 0 0 0 0 0 0 0)) 0 0 max forb))).

Definition packet (bytes : list Z) : DataPacket :=
  mkPkt (Some bytes) 0 (Z.of_nat (length bytes)) (Z.of_nat (length bytes)) 0 None.

Lemma pktq_safe_witness :
  let s := new_queue 100 20 in
  (exists fill, queued s fill /\
     pktq_get_buf_size s = total buf_size fill /\ pktq_get_buf_size s <= 100 + 10 /\
     pktq_get_data_size s = Z.of_nat (length (stream fill))) /\
  (forall len timeout, len < 2147483648 -> exists o, pktq_read 110 [] s len timeout = Some o) /\
  (forall timeout, exists o, pktq_get_pkt [] s timeout = Some o) /\
  (forall alloc n, fresh_alloc s alloc \/ alloc = None -> pkt_ok n -> n.(buf_size) <= 10 ->
     exists o, pktq_put_pkt alloc s (Some n) = Some o) /\
  (exists s', pktq_clear 110 s = Some (s', 0)).
Proof. apply (pktq_safe 110 100 20 10); try lia. by eapply reach_create. Defined.

(** C7: [pktq_read] is a byte stream: it returns the first [len] bytes of the
    concatenated packets, or all of them, and leaves the rest. *)
Theorem pktq_read_stream {E : AvErrors} (max B : Z) (fuel : nat) (env : list wait)
    (s : state) (fill : list DataPacket) (len timeout : Z) :
  bounded max B s fill -> max + B < 2147483648 -> (Z.to_nat (max + B) <= fuel)%nat ->
  0 < len < 2147483648 -> s.(que).(exit) = 0 -> stream fill <> [] ->
  exists s' fill' bytes,
    pktq_read fuel env s len timeout = Some (Returned s' (Z.of_nat (length bytes)) bytes) /\
    bounded max B s' fill' /\
    bytes = take (Z.to_nat len) (stream fill) /\ stream fill' = drop (Z.to_nat len) (stream fill).
Proof.
  intros Hb HM Hf Hl He Hs.
  destruct (bounded_read max B s fill fuel env len timeout)
    as (s' & fill' & bytes & Hr & Hb' & _ & Hst & Hlen); try done.
  exists s', fill', bytes. split; [done|]. split; [done|]. apply stream_split; [lia|done|done].
Qed.

(** Two packets put in a new queue, from two fresh nodes. *)
Definition two_packets_in (max forb : Z) : state :=
  let put (alloc : loc) (bytes : list Z) (s : state) :=
    default s (fst <$> pktq_put_pkt (Some alloc) s (Some (packet bytes))) in
  put 2%positive [4; 5; 6; 7; 8] (put 1%positive [1; 2; 3] (new_queue max forb)).

Abbreviation two := [packet [1; 2; 3]; packet [4; 5; 6; 7; 8]].

Definition two_nodes : heap :=
  {[1%positive := (packet [1; 2; 3]) <| next := Some 2%positive |>;
    2%positive := packet [4; 5; 6; 7; 8]]}.

Lemma two_rep (q : PKTQueue) :
  q.(fill_head) = Some 1%positive -> q.(fill_tail) = Some 2%positive ->
  q.(free_head) = None -> q.(free_tail) = None -> q.(cur_buf_size) = 8 ->
  q.(q_data_size) = 8 -> q.(nb_fill_node) = 2 -> q.(nb_free_node) = 0 ->
  rep (mkState two_nodes q) two [1%positive; 2%positive] [].
Proof.
  intros E1 E2 E3 E4 E5 E6 E7 E8. split; cbn; rewrite ?E1, ?E2, ?E3, ?E4; try done.
  - split; [done|]. split; [done|]. split; [by eexists|]. split; [by eexists|done].
  - repeat constructor; set_solver.
  - intros x.
    destruct (decide (x = 1%positive)) as [->|H1]; [split; [set_solver|by eexists]|].
    destruct (decide (x = 2%positive)) as [->|H2]; [split; [set_solver|by eexists]|].
    unfold two_nodes. rewrite lookup_insert_ne, lookup_singleton_ne by done.
    split; [by intros [? ?]|set_solver].
  - by repeat constructor.
  - repeat constructor; try done; by eexists.
Qed.

Lemma two_packets_in_bounded max forb :
  (max, forb) = (8, 3) \/ (max, forb) = (100, 20) -> bounded max 10 (two_packets_in max forb) two.
Proof.
  intros Hmf.
  assert (exists q, two_packets_in max forb = mkState two_nodes q /\
    q = mkQueue (Some 1%positive) (Some 2%positive) None None max 8 forb 8 0 0 2 0 8 8)
    as (q & -> & ->).
  { eexists. split; [|done]. by destruct Hmf as [[= -> ->] | [= -> ->]]; vm_compute. }
  split; [eexists _, _; by apply two_rep|]. split; [done|].
  split; [by repeat constructor|]. cbn. destruct Hmf as [[= -> ->] | [= -> ->]]; lia.
Qed.

Definition two_packets : state := two_packets_in 100 20.

Lemma two_packets_bounded : bounded 100 10 two_packets two.
Proof. apply two_packets_in_bounded. by right. Qed.


Lemma pktq_read_stream_witness :
  exists s' fill' bytes,
    pktq_read 110 [] two_packets 4 0 = Some (Returned s' (Z.of_nat (length bytes)) bytes) /\
    bounded 100 10 s' fill' /\ bytes = [1; 2; 3; 4] /\ stream fill' = [5; 6; 7; 8].
Proof.
  apply (pktq_read_stream 100 10 110 [] two_packets two 4 0);
    try lia; try done.
  apply two_packets_bounded.
Defined.

(** What [pktq_put_pkt] does with a valid packet: it is refused unchanged
    while writing is forbidden, refused with the queue marked full when the
    queue is over its limit, and otherwise goes to the end of the queue, whose
    mark is cleared. *)
Theorem pktq_put_decision {E : AvErrors} (max B : Z) (alloc : option loc)
    (s : state) (fill : list DataPacket) (n : DataPacket) :
  0 < max -> max + B < 2147483648 -> bounded max B s fill -> pkt_ok n -> n.(buf_size) <= B ->
  pkt_valid n = true -> has_node s alloc ->
  exists s', let r := pktq_put_pkt alloc s (Some n) in
  let used := total buf_size fill in
  if negb (s.(que).(full) =? 0) && (used <? max) && (s32 (max - used) <=? s.(que).(forbidden_size))
  then r = Some (s, -1)
  else if max <? used then r = Some (s <| que := s.(que) <| full := 1 |> |>, -1)
  else r = Some (s', n.(data_size)) /\ bounded max B s' (fill ++ [set_next None n]) /\
       s'.(que).(full) = 0 /\ s'.(que).(exit) = s.(que).(exit).
Proof.
  intros Hm HM Hb Hn HB Hv Hnode.
  destruct (bounded_counters _ _ _ _ Hb HM) as [Hcur _].
  pose proof Hb as (_ & Hmx & _).
  assert (forbidden (que s) = negb (full (que s) =? 0) && (total buf_size fill <? max) &&
    (s32 (max - total buf_size fill) <=? forbidden_size (que s))) as Hf
    by (unfold forbidden; by rewrite Hcur, Hmx).
  assert (overfull (que s) = (max <? total buf_size fill)) as Ho.
  { unfold overfull. rewrite Hcur, Hmx. by ztrue (0 <? max). }
  cbv zeta. rewrite <- Hf, <- Ho. rewrite put_unfold, Hv. cbn [negb].
  destruct (forbidden (que s)) eqn:Hf1; [by exists s|].
  destruct (overfull (que s)) eqn:Ho1; [by exists s|].
  destruct (put_bounded max B alloc s fill n) as (s' & Hp & Hb'); try done.
  rewrite put_unfold, Hv, Hf1, Ho1 in Hp. cbn [negb] in Hp. rewrite Hp. by exists s'.
Qed.

Lemma pktq_put_decision_witness :
  exists s', let r := pktq_put_pkt (Some 3%positive) two_packets (Some (packet [9])) in
  let used := total buf_size two in
  if negb (two_packets.(que).(full) =? 0) && (used <? 100)
     && (s32 (100 - used) <=? two_packets.(que).(forbidden_size))
  then r = Some (two_packets, -1)
  else if 100 <? used
  then r = Some (two_packets <| que := two_packets.(que) <| full := 1 |> |>, -1)
  else r = Some (s', 1) /\
       bounded 100 10 s' (two ++ [packet [9]]) /\
       s'.(que).(full) = 0 /\ s'.(que).(exit) = two_packets.(que).(exit).
Proof.
  apply (pktq_put_decision 100 10 (Some 3%positive) two_packets
           two (packet [9])); try lia; try done.
  - apply two_packets_bounded.
  - split_and!; try done. intros _. by eexists.
  - right. by exists 3%positive.
Defined.

(** A put either changes nothing that is queued and answers a negative number, or
    appends its packet and answers the packet's size. *)
Lemma put_outcome {E : AvErrors} {Ok : AvErrorsOk E} max B alloc s fill n :
  0 < max -> max + B < 2147483648 -> bounded max B s fill -> pkt_ok n -> n.(buf_size) <= B ->
  fresh_alloc s alloc \/ alloc = None ->
  exists s' r, pktq_put_pkt alloc s (Some n) = Some (s', r) /\
    bounded max B s' (fill ++ if 0 <=? r then [set_next None n] else []).
Proof.
  intros Hm HM Hb Hn HB Ha. rewrite put_unfold.
  destruct (pkt_valid n) eqn:Hv; cbn [negb]; [|exists s, (-1); by rewrite app_nil_r].
  destruct (forbidden (que s)) eqn:Hf; [exists s, (-1); by rewrite app_nil_r|].
  destruct (overfull (que s)) eqn:Ho.
  { eexists _, (-1). split; [done|]. rewrite app_nil_r. by apply bounded_full. }
  assert (pktq_put_pkt alloc s (Some n) = Some (s <| que := s.(que) <| full := 0 |> |>, AVERROR_ENOMEM)
    \/ has_node s alloc) as [Hno|Hnode].
  { destruct (free_head (que s)) as [x|] eqn:Hfh; [right; left; congruence|].
    destruct Ha as [Ha| ->]; [by right; right|]. left.
    rewrite put_unfold, Hv, Hf, Ho. cbn. by rewrite Hfh. }
  - rewrite put_unfold, Hv, Hf, Ho in Hno. cbn [negb] in Hno. rewrite Hno.
    eexists _, _. split; [done|]. pose proof averror_neg as (_ & _ & Hneg).
    rewrite (proj2 (Z.leb_gt 0 AVERROR_ENOMEM)) by done. rewrite app_nil_r. by apply bounded_full.
  - destruct (put_bounded max B alloc s fill n) as (s' & Hp & Hb' & _); try done.
    rewrite put_unfold, Hv, Hf, Ho in Hp. cbn [negb] in Hp. rewrite Hp. eexists s', _. split; [done|].
    unfold pkt_valid in Hv. rewrite (proj2 (Z.leb_le 0 (data_size n))) by lia. done.
Qed.

(** A run of puts and gets with the packets that the puts have taken and those that
    the gets have returned, each in order. *)
Inductive fifo_run {E : AvErrors} (B : Z) : state -> list DataPacket -> list DataPacket -> state -> Prop :=
| run_end s : fifo_run B s [] [] s
| run_put s alloc n s1 r puts gets s' :
    pkt_ok n -> n.(buf_size) <= B -> fresh_alloc s alloc \/ alloc = None ->
    pktq_put_pkt alloc s (Some n) = Some (s1, r) -> fifo_run B s1 puts gets s' ->
    fifo_run B s ((if 0 <=? r then [set_next None n] else []) ++ puts) gets s'
| run_get s timeout s1 r out puts gets s' :
    pktq_get_pkt [] s timeout = Some (Returned s1 r out) -> fifo_run B s1 puts gets s' ->
    fifo_run B s puts (option_list out ++ gets) s'.

(** C30: packets leave the queue unchanged and in the order they were put. Over any
    run of [pktq_put_pkt] and [pktq_get_pkt] on a queue that has not been told to
    quit, the packets that were queued followed by those that the puts took (a put
    that answers a negative number takes none) are those that the gets returned
    followed by those that are queued at the end. *)
Theorem pktq_get_oldest {E : AvErrors} {Ok : AvErrorsOk E} (max B : Z) (s s' : state)
    (fill puts gets : list DataPacket) :
  0 < max -> max + B < 2147483648 -> bounded max B s fill -> s.(que).(exit) = 0 ->
  fifo_run B s puts gets s' ->
  exists rest, bounded max B s' rest /\ fill ++ puts = gets ++ rest.
Proof.
  intros Hm HM Hb He Hrun. revert fill Hb He.
  induction Hrun as [s|s alloc n s1 r puts gets s' Hn HB Ha Hp _ IH|s timeout s1 r out puts gets s' Hg _ IH];
    intros fill Hb He.
  - exists fill. by rewrite app_nil_r.
  - destruct (put_outcome max B alloc s fill n Hm HM Hb Hn HB Ha) as (s2 & r2 & Hp2 & Hb2).
    rewrite Hp in Hp2. injection Hp2 as <- <-.
    destruct (IH _ Hb2) as (rest & Hbr & Heq); [by rewrite (put_exit _ _ _ _ _ Hp)|].
    exists rest. split; [done|]. by rewrite app_assoc.
  - destruct fill as [|n fill].
    + assert (s.(que).(fill_head) = None) as Hh.
      { destruct Hb as ((lf & le & Hr) & _). destruct (rep_fill _ _ _ _ Hr) as (Hh & _).
        pose proof (rep_body _ _ _ _ Hr) as Hl. destruct lf; [done|]. by inversion Hl. }
      pose proof (get_idle s timeout s1 r out (or_intror Hh) Hg) as ->.
      assert (out = None) as ->.
      { cbn in Hg. rewrite He, Hh in Hg. cbn in Hg. destruct (timeout =? 0); congruence. }
      by apply IH.
    + destruct (bounded_get max B [] s n fill timeout Hb He) as (s2 & Hg2 & Hb2 & Hc2).
      rewrite Hg in Hg2. injection Hg2 as <- _ ->.
      assert (s1.(que).(exit) = 0) as He1.
      { cbn in Hg. rewrite He in Hg. cbn in Hg. destruct (fill_head (que s)); [|by destruct (timeout =? 0)].
        apply bind_Some in Hg as ([[p0 m] s3] & Ht & Hg). apply bind_Some in Hg as (s4 & Hcl & Hg).
        injection Hg as -> _ _. rewrite (clear_node_exit _ _ _ Hcl). cbn.
        by rewrite (take_head_exit _ _ _ _ Ht). }
      destruct (IH _ Hb2 He1) as (rest & Hbr & Heq). exists rest. split; [done|].
      cbn. by rewrite Heq.
Qed.

(** Two packets are queued, a third is put, and the first is fetched. *)
Lemma pktq_get_oldest_witness :
  exists s' rest, bounded 100 10 s' rest /\
    two ++ [packet [9]] = [packet [1; 2; 3]] ++ rest.
Proof.
  destruct (pktq_put_pkt (Some 3%positive) two_packets (Some (packet [9]))) as [[s1 r1]|] eqn:Hp;
    [|by vm_compute in Hp].
  destruct (pktq_get_pkt [] s1 0) as [[s2 r2 out|]|] eqn:Hg;
    [|exfalso; revert Hg; vm_compute in Hp; injection Hp as <- <-; by vm_compute..].
  assert (r1 = 1 /\ out = Some (packet [1; 2; 3])) as [-> ->].
  { vm_compute in Hp. injection Hp as <- <-. split; [done|]. vm_compute in Hg. by injection Hg. }
  exists s2. apply (pktq_get_oldest 100 10 two_packets s2 two [packet [9]] [packet [1; 2; 3]]);
    [lia|lia|apply two_packets_bounded|done|].
  apply (run_put 10 two_packets (Some 3%positive) (packet [9]) s1 1 [] [packet [1; 2; 3]]);
    [|cbn; lia|left; by exists 3%positive|exact Hp|].
  - split_and!; try done. intros _. by eexists.
  - apply (run_get 10 s1 0 s2 r2 (Some (packet [1; 2; 3])) [] []); [exact Hg|apply run_end].
Defined.

(** A blocking [pktq_get_pkt] on an empty queue waits through any number of
    spurious wake-ups and returns the first packet that is put. *)
Theorem pktq_get_wakes {E : AvErrors} (max B : Z) (spurious : nat) (rest : list wait)
    (s : state) (alloc : option loc) (n : DataPacket) (timeout : Z) :
  0 < max -> 0 < B -> max + B < 2147483648 -> bounded max B s [] -> s.(que).(exit) = 0 ->
  pkt_ok n -> n.(buf_size) <= B -> pkt_valid n = true -> n.(next) = None ->
  has_node s alloc -> forbidden s.(que) = false -> timeout < 0 ->
  let put (s : state) := fst <$> pktq_put_pkt alloc s (Some n) in
  exists s', pktq_get_pkt (replicate spurious Some ++ put :: rest) s timeout
             = Some (Returned s' n.(data_size) (Some n)) /\ bounded max B s' [].
Proof.
  intros Hm HB HM Hb He Hn HnB Hv Hx Hnode Hf Ht put.
  assert (fill_head (que s) = None) as Hh.
  { destruct Hb as ((lf & le & Hrep) & _). pose proof (rep_body _ _ _ _ Hrep) as Hbd.
    inversion Hbd; subst. by destruct (rep_fill _ _ _ _ Hrep) as (Hh & _). }
  assert (exists s1, put s = Some s1 /\ bounded max B s1 [n] /\ exit (que s1) = 0)
    as (s1 & Hp & Hb1 & He1).
  { pose proof (bounded_counters _ _ _ _ Hb HM) as [Hcur _]. cbn in Hcur.
    pose proof Hb as (_ & Hmx & _).
    destruct (put_bounded max B alloc s [] n) as (s1 & Hp & Hb1 & _ & He1); try done.
    { unfold overfull. rewrite Hcur, Hmx. lia. }
    assert (set_next None n = n) as Hsn by (destruct n; cbn in Hx; by subst).
    exists s1. unfold put. rewrite Hp. rewrite Hsn in Hb1. split_and!; [done|done|congruence]. }
  destruct (bounded_get max B rest s1 n [] timeout Hb1 He1) as (s' & Hg & Hb' & _).
  clearbody put. exists s'. split; [|done]. induction spurious as [|k IH]; cbn.
  - rewrite He, Hh. cbn. zfalse (timeout =? 0). rewrite Hp. cbn. by ztrue (timeout <? 0).
  - rewrite He, Hh. cbn. zfalse (timeout =? 0). ztrue (timeout <? 0). apply IH.
Qed.

Lemma pktq_get_wakes_witness :
  let put (s : state) := fst <$> pktq_put_pkt (Some 7%positive) s (Some (packet [1; 2])) in
  exists s', pktq_get_pkt (replicate 3 Some ++ put :: []) (new_queue 100 20) (-1)
             = Some (Returned s' 2 (Some (packet [1; 2]))) /\ bounded 100 10 s' [].
Proof.
  apply (pktq_get_wakes 100 10 3 [] (new_queue 100 20) (Some 7%positive) (packet [1; 2]) (-1));
    try lia; try done.
  - destruct (reachable_bounded 110 100 20 10 (new_queue 100 20)) as [fill Hb]; try lia.
    { by eapply reach_create. }
    by rewrite (bounded_no_pkt _ _ _ _ Hb eq_refl) in Hb.
  - split_and!; try done. intros _. by eexists.
  - right. by exists 7%positive.
Defined.

(** Once a null packet has been put, every read and every get returns
    EINTR, whatever calls come in between: nothing clears the flag. *)
Theorem pktq_quit_for_ever {E : AvErrors} (fuel : nat) (B : Z) (s s' : state)
    (env : list wait) (len timeout : Z) :
  s.(que).(exit) = 1 -> rtc (pktq_step fuel B) s s' -> 0 < len ->
  pktq_read fuel env s' len timeout = Some (Returned s' AVERROR_EINTR []) /\
  pktq_get_pkt env s' timeout = Some (Returned s' AVERROR_EINTR None).
Proof.
  intros He Hst Hl.
  assert (exit (que s') = 1) as He'.
  { induction Hst as [s|s s1 s' Hs _ IH]; [done|]. apply IH. clear IH.
    assert (exit (que s) <> 0) as Hne by lia.
    destruct Hs as [al s n s2 r _ _ _ Hp|s n s2 r _ _ Hp|s s2 r Hp
      |s l tm s2 r bytes Hl' Hp|s tm s2 r o Hp|s s2 r Hp].
    - by rewrite (put_exit _ _ _ _ _ Hp).
    - by rewrite (put_exit _ _ _ _ _ Hp).
    - cbn in Hp. by simplify_eq.
    - by rewrite (read_idle _ _ _ _ _ _ _ (or_introl Hne) (proj1 Hl') Hp).
    - by rewrite (get_idle _ _ _ _ _ (or_introl Hne) Hp).
    - by rewrite (clear_exit _ _ _ _ Hp). }
  unfold pktq_read. zfalse (len <=? 0). by destruct env; cbn; rewrite He'.
Qed.

Lemma pktq_quit_for_ever_witness :
  let s := two_packets <| que ::= fun q => q <| exit := 1 |> |> in
  pktq_read 110 [] s 4 (-1) = Some (Returned s AVERROR_EINTR []) /\
  pktq_get_pkt [] s (-1) = Some (Returned s AVERROR_EINTR None).
Proof.
  intros s. apply (pktq_quit_for_ever 110 10 s s [] 4 (-1)); [done|apply rtc_refl|lia].
Defined.

(** C31: [pktq_destroy] frees every node of the queue, filled or free, exactly
    once. *)
Theorem pktq_destroy_frees {E : AvErrors} (fuel : nat) (s : state) (fill : list DataPacket) :
  queued s fill -> (size s.(nodes) <= fuel)%nat ->
  exists s', pktq_destroy fuel s = Some (s', 0) /\ s'.(nodes) = ∅.
Proof.
  intros (lf & le & Hr) Hf.
  assert (length (lf ++ le) <= size (nodes s))%nat as Hsz.
  { rewrite <- size_dom, <- (size_list_to_set (C := gset loc) (lf ++ le)) by apply Hr.
    apply subseteq_size. intros x Hx%elem_of_list_to_set. apply elem_of_dom. by apply Hr. }
  rewrite length_app in Hsz. destruct Hr as [(Hf1 & _ & Hf2) (He1 & _ & He2) Hnd Hdom _ _ _ _ _ _].
  apply NoDup_app in Hnd as (Hn1 & Hn2 & Hn3).
  unfold pktq_destroy. cbn.
  match goal with |- context [destroy_fill fuel ?x] =>
    destruct (destroy_fill_ok lf fuel x) as (s1 & -> & Hfr & Hin & Hout); try done; [cbn; lia|] end.
  cbn in Hout, Hfr |- *.
  match goal with |- context [destroy_free fuel ?x] =>
    destruct (destroy_free_ok le fuel x) as (s2 & -> & Hin2 & Hout2); try done end.
  - cbn. congruence.
  - cbn. apply (linked_frame (nodes s)); [|done]. intros x Hx. apply Hout. intros Hxf.
    by apply (Hn2 x).
  - lia.
  - cbn in Hout2 |- *. eexists. split; [done|]. cbn. apply map_empty. intros x.
    destruct (decide (x ∈ le)) as [Hx|Hx]; [by apply Hin2|]. rewrite Hout2 by done.
    destruct (decide (x ∈ lf)) as [Hy|Hy]; [by apply Hin|]. rewrite Hout by done.
    apply eq_None_not_Some. intros Hs%Hdom%elem_of_app. tauto.
Qed.

Lemma pktq_destroy_frees_witness :
  exists s', pktq_destroy 2 two_packets = Some (s', 0) /\ s'.(nodes) = ∅.
Proof.
  apply (pktq_destroy_frees 2 two_packets two).
  - by destruct two_packets_bounded as (? & _).
  - by vm_compute; lia.
Defined.

(** The deadline of a timed wait is the given number of milliseconds away
    while it is at most 2147 ms; beyond that (to 4293 ms) the 32-bit product
    wraps and the deadline is in the past: the wait times out at once. *)
Theorem wait_deadline_range (tv_sec tv_usec t : Z) :
  0 <= tv_usec < 1000000 -> 0 < t -> 10 <= tv_sec < 2147480000 ->
  let '(sec, nsec) := wait_deadline tv_sec tv_usec t in
  (tv_usec + t * 1000 <= 2147483 -> 0 <= nsec < 1000000000 /\
     sec * 1000000000 + nsec = tv_sec * 1000000000 + tv_usec * 1000 + t * 1000000) /\
  (2147484 <= tv_usec + t * 1000 <= 4294967 ->
     sec * 1000000000 + nsec <= tv_sec * 1000000000).
Proof.
  intros Hu Ht Hs. unfold wait_deadline. split.
  - intros Hb. rewrite (s32_small (t * 1000)) by (unfold is_s32; lia).
    rewrite (s32_small (tv_usec + t * 1000)) by (unfold is_s32; lia).
    rewrite (s32_small (_ * 1000)) by (unfold is_s32; lia).
    remember ((tv_usec + t * 1000) * 1000) as ns eqn:Hns.
    pose proof (Z.quot_rem ns 1000000000 ltac:(lia)) as Hq.
    pose proof (Z.rem_bound_pos ns 1000000000 ltac:(lia) ltac:(lia)) as Hr.
    generalize dependent (Z.quot ns 1000000000).
    generalize dependent (Z.rem ns 1000000000). intros nsec Hr sec Hq.
    rewrite (s32_small (tv_sec + sec)) by (unfold is_s32; lia). lia.
  - intros Hb. rewrite (s32_small (t * 1000)) by (unfold is_s32; lia).
    rewrite (s32_small (tv_usec + t * 1000)) by (unfold is_s32; lia).
    remember ((tv_usec + t * 1000) * 1000) as x eqn:Hx.
    assert (s32 x = x - 4294967296) as ->.
    { rewrite <- (s32_shift x (-1)), s32_small; unfold is_s32; lia. }
    remember (x - 4294967296) as ns eqn:Hns.
    pose proof (Z.quot_rem ns 1000000000 ltac:(lia)) as Hq.
    pose proof (Z.rem_bound_pos_neg ns 1000000000 ltac:(lia) ltac:(lia)) as Hr.
    generalize dependent (Z.quot ns 1000000000).
    generalize dependent (Z.rem ns 1000000000). intros nsec Hr sec Hq.
    rewrite (s32_small (tv_sec + sec)) by (unfold is_s32; lia). lia.
Qed.

Lemma wait_deadline_range_witness :
  let '(sec, nsec) := wait_deadline 1400000000 500000 3000 in
  (500000 + 3000 * 1000 <= 2147483 -> 0 <= nsec < 1000000000 /\
     sec * 1000000000 + nsec = 1400000000 * 1000000000 + 500000 * 1000 + 3000 * 1000000) /\
  (2147484 <= 500000 + 3000 * 1000 <= 4294967 ->
     sec * 1000000000 + nsec <= 1400000000 * 1000000000).
Proof. apply (wait_deadline_range 1400000000 500000 3000); lia. Defined.

(** The forbidden band is not what svr_utils.h documents. Marked full, a
    queue down to exactly [max - forbidden] bytes still refuses a packet, while
    one holding exactly [max] bytes, with nothing free, accepts it. *)
Theorem pktq_band_edges {E : AvErrors} (max B : Z) (alloc : option loc) (s : state)
    (fill : list DataPacket) (n : DataPacket) :
  0 < max -> max + B < 2147483648 -> bounded max B s fill -> pkt_ok n -> n.(buf_size) <= B ->
  pkt_valid n = true -> has_node s alloc -> s.(que).(full) <> 0 ->
  0 < s.(que).(forbidden_size) < max ->
  (total buf_size fill = max - s.(que).(forbidden_size) ->
     pktq_put_pkt alloc s (Some n) = Some (s, -1)) /\
  (total buf_size fill = max ->
     exists s', pktq_put_pkt alloc s (Some n) = Some (s', n.(data_size)) /\
       bounded max B s' (fill ++ [set_next None n]) /\ s'.(que).(full) = 0).
Proof.
  intros Hm HM Hb Hn HB Hv Hnode Hfl Hf.
  destruct (bounded_counters _ _ _ _ Hb HM) as [Hcur _]. pose proof Hb as (_ & Hmx & _).
  pose proof Hn as (_ & _ & _ & Hnb & _).
  split; intros Ht; rewrite Ht in Hcur.
  - rewrite put_unfold, Hv. unfold forbidden. rewrite Hcur, Hmx.
    rewrite (s32_small (max - _)) by (unfold is_s32; lia).
    by ztrue (negb (full (que s) =? 0) && (max - forbidden_size (que s) <? max)
           && (max - (max - forbidden_size (que s)) <=? forbidden_size (que s))).
  - destruct (put_bounded max B alloc s fill n) as (s' & Hp & Hb' & Hfl' & _); try done.
    + unfold forbidden. rewrite Hcur, Hmx, Z.ltb_irrefl. by rewrite andb_false_r.
    + unfold overfull. rewrite Hcur, Hmx, Z.ltb_irrefl. by rewrite andb_false_r.
    + by exists s'.
Qed.

(** A queue of eight bytes, filled by the two packets and marked full. *)
Definition full_queue : state :=
  (two_packets_in 8 3) <| que ::= fun q => q <| full := 1 |> |>.

Lemma pktq_band_edges_witness :
  let n := packet [9] in
  let fill := two in
  (total buf_size fill = 8 - 3 -> pktq_put_pkt (Some 3%positive) full_queue (Some n) = Some (full_queue, -1)) /\
  (total buf_size fill = 8 ->
     exists s', pktq_put_pkt (Some 3%positive) full_queue (Some n) = Some (s', 1) /\
       bounded 8 10 s' (fill ++ [n]) /\ s'.(que).(full) = 0).
Proof.
  apply (pktq_band_edges 8 10 (Some 3%positive) full_queue
           two (packet [9])); try done.
  - apply (bounded_full 8 10 (two_packets_in 8 3) _ 1). by apply two_packets_in_bounded; left.
  - split_and!; try done. intros _. by eexists.
  - right. by exists 3%positive.
Defined.
