(* ===== verification/PktIface.v ===== *)
(** * What the packet queue promises to its users

    The receivers of libformat_open use a queue through four calls and rely on a
    few facts about them. The calls are the class [PacketQueue], the facts
    the class [PacketQueueOk]; the linked queue of PktQueue.v is an instance, so
    a theorem proved from the classes holds of it. *)

From stdpp Require Import infinite.
From S2P Require Import Prelude PktQueue.

(** A get either returns or has to wait for a packet. *)
Inductive got (Q : Type) :=
| Got (q : Q) (ret : Z) (pkt : option DataPacket)
| Blocks.
Arguments Got {Q}.
Arguments Blocks {Q}.

Class PacketQueue (Q : Type) := {
  q_get : Q -> Z -> option (got Q);
  q_put : Q -> DataPacket -> option (Q * Z);
  q_size : Q -> Z;
  q_read : Q -> Z -> option (Q * Z * list Z);
}.

(** [q_holds q l]: the queue holds the packets [l] and has not been told to
    quit; [q_open q]: it is not marked full. A queue is over its limit when it
    holds more than [q_limit] bytes, and takes packets of at most [q_packet]. *)
Class PacketQueueOk (Q : Type) {QO : PacketQueue Q} := {
  q_holds : Q -> list DataPacket -> Prop;
  q_open : Q -> Prop;
  q_limit : Z;
  q_packet : Z;
  q_get_head q n l timeout :
    q_holds q (n :: l) -> exists q', q_get q timeout = Some (Got q' n.(data_size) (Some n)) /\
      q_holds q' l /\ (q_open q -> q_open q');
  q_get_empty q : q_holds q [] -> exists r, q_get q 0 = Some (Got q r None) /\ r < 0;
  q_get_waits q : q_holds q [] -> q_get q (-1) = Some Blocks;
  q_put_total q n l :
    q_holds q l -> pkt_ok n -> n.(buf_size) <= q_packet ->
    exists q' r l', q_put q n = Some (q', r) /\ q_holds q' l' /\ (0 <= r -> r = n.(data_size));
  q_put_tail q n l :
    q_holds q l -> q_open q -> pkt_ok n -> n.(buf_size) <= q_packet -> pkt_valid n = true ->
    total buf_size l <= q_limit ->
    exists q', q_put q n = Some (q', n.(data_size)) /\
      q_holds q' (l ++ [set_next None n]) /\ q_open q';
  q_put_invalid q n : pkt_valid n = false -> q_put q n = Some (q, -1);
  q_size_total q l : q_holds q l -> q_size q = Z.of_nat (length (stream l));
  q_read_stream q l len :
    q_holds q l -> 0 < len < 2147483648 -> stream l <> [] ->
    exists q' l' bytes, q_read q len = Some (q', Z.of_nat (length bytes), bytes) /\
      q_holds q' l' /\ bytes = take (Z.to_nat len) (stream l) /\
      stream l' = drop (Z.to_nat len) (stream l) /\ (q_open q -> q_open q');
}.

(** ** The linked queue is such a queue *)

Section Linked.
Context {E : AvErrors} {EOk : AvErrorsOk E}.
Context (max B : Z) (Hmax : 0 < max) (HB : 0 < B) (Hfit : max + B < 2147483648).

(** A node address that is not in use. *)
Definition unused (h : heap) : loc := fresh (elements (dom (D := gset loc) h)).

Lemma unused_free (h : heap) : h !! unused h = None.
Proof.
  apply (not_elem_of_dom (D := gset loc)). rewrite <- elem_of_elements. apply infinite_is_fresh.
Qed.

#[local] Instance linked_queue : PacketQueue state := {|
  q_get s timeout :=
    o ← pktq_get_pkt [] s timeout;
    Some match o with
         | Returned s r pkt => Got s r pkt
         | Waiting _ => Blocks
         end;
  q_put s n := pktq_put_pkt (Some (unused s.(nodes))) s (Some n);
  q_size := pktq_get_data_size;
  q_read s len :=
    o ← pktq_read (Z.to_nat (max + B)) [] s len 0;
    match o with
    | Returned s r bytes => Some (s, r, bytes)
    | Waiting _ => None
    end;
|}.

Lemma linked_fresh s : fresh_alloc s (Some (unused s.(nodes))).
Proof. eexists. split; [done|]. apply unused_free. Qed.

Lemma bounded_empty_head s : bounded max B s [] -> s.(que).(fill_head) = None.
Proof.
  intros ((lf & le & Hrep) & _). pose proof (rep_body _ _ _ _ Hrep) as Hbd.
  inversion Hbd; subst. by destruct (rep_fill _ _ _ _ Hrep) as (Hh & _).
Qed.

Definition holds (s : state) (l : list DataPacket) : Prop :=
  bounded max B s l /\ s.(que).(exit) = 0.

Lemma config_open q q' :
  config q' = config q -> q'.(exit) = q.(exit) /\ (q.(full) = 0 -> q'.(full) = 0).
Proof. intros [= _ _ -> ->]. done. Qed.

Lemma holds_get_head s n l timeout :
  holds s (n :: l) -> exists s', q_get s timeout = Some (Got s' n.(data_size) (Some n)) /\
    holds s' l /\ (s.(que).(full) = 0 -> s'.(que).(full) = 0).
Proof.
  intros [Hb He]. destruct (bounded_get max B [] s n l timeout Hb He) as (s' & Hg & Hb' & Hc).
  exists s'. destruct (config_open _ _ Hc) as [He' Hf]. cbn -[pktq_get_pkt]. rewrite Hg.
  split; [done|]. split; [|done]. split; [done|congruence].
Qed.

Lemma holds_put_total s n l :
  holds s l -> pkt_ok n -> n.(buf_size) <= B ->
  exists s' r l', q_put s n = Some (s', r) /\ holds s' l' /\ (0 <= r -> r = n.(data_size)).
Proof.
  intros [Hb He] Hn HnB. cbn.
  destruct (bounded_put max B (Some (unused (nodes s))) s l n) as (s' & l' & r & Hp & Hb');
    try done; [left; apply linked_fresh|].
  exists s', r, l'. split; [done|]. split; [split; [done|]|].
  - rewrite (put_exit _ _ _ _ _ Hp). done.
  - revert Hp. rewrite put_unfold. destruct (negb _); [intros [= _ <-]; lia|].
    destruct (forbidden _); [intros [= _ <-]; lia|].
    destruct (overfull _); [intros [= _ <-]; lia|]. cbn.
    assert (forall h q p, push_node h q p n = Some (s', r) -> r = data_size n) as Hpush.
    { unfold push_node. intros h q p ([[h' hd] tl] & _ & H)%bind_Some. by simplify_eq. }
    destruct (free_head (que s)) as [x|]; [|intros H _; by eapply Hpush].
    intros ([[o hd] tl] & _ & H)%bind_Some _. apply bind_Some in H as (p & _ & H).
    by eapply Hpush.
Qed.

#[local] Instance linked_queue_ok : PacketQueueOk state.
Proof.
  refine (Build_PacketQueueOk state linked_queue holds (fun s => s.(que).(full) = 0) max B
            _ _ _ _ _ _ _ _).
  - exact holds_get_head.
  - intros s [Hb He]. pose proof (bounded_empty_head s Hb) as Hh.
    pose proof averror_neg. exists AVERROR_EAGAIN. cbn. rewrite He, Hh. cbn. split; [done|lia].
  - intros s [Hb He]. pose proof (bounded_empty_head s Hb) as Hh.
    cbn. by rewrite He, Hh.
  - exact holds_put_total.
  - intros s n l [Hb He] Ho Hn HnB Hv Ht.
    destruct (bounded_counters _ _ _ _ Hb Hfit) as [Hcur _]. pose proof Hb as (_ & Hmx & _).
    destruct (put_bounded max B (Some (unused (nodes s))) s l n) as (s' & Hp & Hb' & Hf & He');
      try done.
    + right. apply linked_fresh.
    + unfold forbidden. rewrite Ho. done.
    + unfold overfull. rewrite Hmx, Hcur. lia.
    + exists s'. split; [done|]. split; [|done]. split; [done|congruence].
  - intros s n Hv. unfold q_put, linked_queue. by rewrite put_unfold, Hv.
  - intros s l [Hb He]. destruct (bounded_counters _ _ _ _ Hb Hfit) as [_ Hd].
    destruct Hb as ((lf & le & Hr) & _). cbn. unfold pktq_get_data_size.
    by rewrite Hd, (stream_length _ (rep_ok _ _ _ _ Hr)).
  - intros s l len [Hb He] Hl Hs.
    destruct (bounded_read max B s l (Z.to_nat (max + B)) [] len 0)
      as (s' & l' & bytes & Hr & Hb' & Hc & Hst & Hlen); try done.
    destruct (config_open _ _ Hc) as [He' Hf].
    exists s', l', bytes. cbn -[pktq_read]. rewrite Hr. cbn. split; [done|].
    split; [split; [done|congruence]|].
    destruct (stream_split (stream l) bytes (stream l') len) as [-> ->]; [lia|done|done|].
    done.
Defined.
End Linked.
