(* ===== verification/RsField.v ===== *)
(** * The field of the FEC library

    Models the tables of external/libformat_open/libfectest/RS_fec.h
    ([G_table256]): the powers of 2 modulo x^8+x^4+x^3+x^2+1 and their
    logarithms. A symbol is an unsigned char; sums are exclusive ors and products
    go through the tables. The symbols are shown to be a field, GF(256), which is
    registered with the [ring] and [field] tactics. *)

From S2P Require Import Prelude.
From Stdlib Require Export Ring Field.

Definition MODULUS : Z := 29.
Definition Q : nat := 255.

(** One step of the loop that fills [m_exp]: [y <<= 1], reduced. *)
Definition next_power (y : Z) : Z :=
  let y := Z.shiftl y 1 in
  let y := if Z.land y 256 =? 0 then y else Z.lxor y MODULUS in
  y mod 256.

Fixpoint powers (n : nat) (y : Z) : list Z :=
  match n with
  | O => []
  | S n => y :: powers n (next_power y)
  end.

(** The last entry is no power: it gives the zero symbol a logarithm. *)
Definition m_exp : list Z := Eval vm_compute in powers Q 1 ++ [0].

(** [m_log[m_exp[i]] = i] for every [i], over an array that holds nothing. *)
Definition fill_log : list (option Z) :=
  fold_left (fun log i => <[Z.to_nat (m_exp !!! i) := Some (Z.of_nat i)]> log) (seq 0 (S Q))
    (replicate 256 None).

Definition m_log : list Z := Eval vm_compute in map (default 0) fill_log.

(** Table look-ups: the power with exponent [e], reduced modulo [Q], and the
    logarithm of a symbol. *)
Definition exp_mod (e : Z) : Z := m_exp !!! Z.to_nat (e mod 255).
Definition log_of (a : Z) : Z := m_log !!! Z.to_nat a.

(** [if (a && b) c ^= table.m_exp[(table.m_log[a] + table.m_log[b]) % table.Q]] *)
Definition mul_add (c a b : Z) : Z :=
  if negb (a =? 0) && negb (b =? 0) then Z.lxor c (exp_mod (log_of a + log_of b)) else c.

(** The product of two symbols. *)
Definition gf_mul (a b : Z) : Z :=
  if negb (a =? 0) && negb (b =? 0) then exp_mod (log_of a + log_of b) else 0.

Definition gf_inv (a : Z) : Z := if a =? 0 then 0 else exp_mod (255 - log_of a).

#[global] Arguments exp_mod : simpl never.
#[global] Arguments log_of : simpl never.
#[global] Arguments mul_add : simpl never.
#[global] Arguments gf_mul : simpl never.
#[global] Arguments gf_inv : simpl never.

Definition is_byte (x : Z) : bool := (0 <=? x) && (x <? 256).
Definition byte (x : Z) : Prop := 0 <= x < 256.

Lemma is_byte_spec x : is_byte x = true <-> byte x.
Proof. unfold is_byte, byte. lia. Qed.

(** ** Facts read off the tables *)

Definition all_bytes : list Z := map Z.of_nat (seq 0 256).

Lemma all_bytes_in x : byte x -> List.In x all_bytes.
Proof.
  intros Hx. unfold all_bytes, byte in *. apply List.in_map_iff.
  exists (Z.to_nat x). split; [lia|]. apply in_seq. lia.
Qed.

(** A test that all bytes pass. *)
Lemma for_bytes (f : Z -> bool) : forallb f all_bytes = true -> forall x, byte x -> f x = true.
Proof. rewrite forallb_forall. intros Hf x Hx. by apply Hf, all_bytes_in. Qed.

Lemma for_byte_pairs (f : Z -> Z -> bool) :
  forallb (fun x => forallb (f x) all_bytes) all_bytes = true ->
  forall x y, byte x -> byte y -> f x y = true.
Proof. intros Hf x y Hx Hy. apply (for_bytes _ (for_bytes _ Hf x Hx) y Hy). Qed.

(** The whole of [m_log] is written. *)
Lemma fill_log_total : fill_log = map Some m_log.
Proof. reflexivity. Qed.

Lemma exp_byte e : byte (exp_mod e).
Proof.
  unfold exp_mod. pose proof (Z.mod_pos_bound e 255 ltac:(lia)).
  pose proof (for_bytes (fun i => is_byte (m_exp !!! Z.to_nat i)) eq_refl (e mod 255)) as Hb.
  apply is_byte_spec, Hb. unfold byte. lia.
Qed.

Lemma exp_pos e : exp_mod e <> 0.
Proof.
  unfold exp_mod. pose proof (Z.mod_pos_bound e 255 ltac:(lia)).
  pose proof (for_bytes (fun i => (i =? 255) || negb (m_exp !!! Z.to_nat i =? 0)) eq_refl (e mod 255)) as Hb.
  cbv beta in Hb. unfold byte in Hb. lia.
Qed.

Lemma exp_shift e k : exp_mod (e + k * 255) = exp_mod e.
Proof. unfold exp_mod. by rewrite Z_mod_plus_full. Qed.

Lemma exp_mod_mod e : exp_mod (e mod 255) = exp_mod e.
Proof. unfold exp_mod. by rewrite Z.mod_mod. Qed.

Lemma log_range a : byte a -> a <> 0 -> 0 <= log_of a < 255.
Proof.
  intros Ha Hn.
  pose proof (for_bytes (fun a => (a =? 0) || ((0 <=? log_of a) && (log_of a <? 255))) eq_refl a Ha).
  cbv beta in *. lia.
Qed.

Lemma exp_log a : byte a -> a <> 0 -> exp_mod (log_of a) = a.
Proof.
  intros Ha Hn.
  pose proof (for_bytes (fun a => (a =? 0) || (exp_mod (log_of a) =? a)) eq_refl a Ha).
  cbv beta in *. lia.
Qed.

Lemma log_exp_mod e : log_of (exp_mod e) = e mod 255.
Proof.
  pose proof (Z.mod_pos_bound e 255 ltac:(lia)). rewrite <- exp_mod_mod.
  pose proof (for_bytes (fun i => (i =? 255) || (log_of (exp_mod i) =? i)) eq_refl (e mod 255)) as Hb.
  cbv beta in Hb. unfold byte in Hb. lia.
Qed.

Lemma next_power_exp e : next_power (exp_mod e) = exp_mod (e + 1).
Proof.
  pose proof (Z.mod_pos_bound e 255 ltac:(lia)). rewrite <- exp_mod_mod.
  pose proof (for_bytes (fun i => (i =? 255) || (next_power (exp_mod i) =? exp_mod (i + 1))) eq_refl
    (e mod 255)) as Hb.
  cbv beta in Hb. unfold byte in Hb.
  replace (exp_mod (e + 1)) with (exp_mod (e mod 255 + 1)); [lia|].
  unfold exp_mod. by rewrite Zplus_mod_idemp_l.
Qed.

Lemma lxor_byte a b : byte a -> byte b -> byte (Z.lxor a b).
Proof.
  intros Ha Hb. apply is_byte_spec.
  apply (for_byte_pairs (fun a b => is_byte (Z.lxor a b))); [by vm_compute|done|done].
Qed.

Lemma next_power_lxor a b :
  byte a -> byte b -> next_power (Z.lxor a b) = Z.lxor (next_power a) (next_power b).
Proof.
  intros Ha Hb. apply Z.eqb_eq.
  apply (for_byte_pairs (fun a b => next_power (Z.lxor a b) =? Z.lxor (next_power a) (next_power b)));
    [by vm_compute|done|done].
Qed.

Lemma next_power_byte a : byte (next_power a).
Proof. unfold next_power, byte. apply Z.mod_pos_bound. lia. Qed.

(** ** Products *)

Lemma mul_add_eq c a b : mul_add c a b = Z.lxor c (gf_mul a b).
Proof. unfold mul_add, gf_mul. destruct (_ && _); [done|by rewrite Z.lxor_0_r]. Qed.

Lemma gf_mul_byte a b : byte (gf_mul a b).
Proof. unfold gf_mul. destruct (_ && _); [apply exp_byte|unfold byte; lia]. Qed.

Lemma gf_mul_comm a b : gf_mul a b = gf_mul b a.
Proof. unfold gf_mul. by rewrite andb_comm, Z.add_comm. Qed.

Lemma gf_mul_0_l a : gf_mul 0 a = 0.
Proof. done. Qed.

Lemma gf_mul_0_r a : gf_mul a 0 = 0.
Proof. by rewrite gf_mul_comm. Qed.

Lemma gf_mul_exp i j : gf_mul (exp_mod i) (exp_mod j) = exp_mod (i + j).
Proof.
  unfold gf_mul. pose proof (exp_pos i). pose proof (exp_pos j).
  ztrue (negb (exp_mod i =? 0) && negb (exp_mod j =? 0)).
  rewrite !log_exp_mod. unfold exp_mod. by rewrite <- Zplus_mod.
Qed.

Lemma byte_cases a : byte a -> a = 0 \/ exists i, 0 <= i < 255 /\ a = exp_mod i.
Proof.
  intros Ha. destruct (Z.eq_dec a 0); [by left|]. right. exists (log_of a).
  split; [by apply log_range|]. by rewrite exp_log.
Qed.

Lemma gf_mul_assoc a b c :
  byte a -> byte b -> byte c -> gf_mul a (gf_mul b c) = gf_mul (gf_mul a b) c.
Proof.
  intros [-> | (i & _ & ->)]%byte_cases [-> | (j & _ & ->)]%byte_cases [-> | (k & _ & ->)]%byte_cases;
    rewrite ?gf_mul_exp, ?gf_mul_0_l, ?gf_mul_0_r, ?gf_mul_exp, ?gf_mul_0_l, ?gf_mul_0_r; try done.
  by rewrite Z.add_assoc.
Qed.

Lemma gf_mul_1_l a : byte a -> gf_mul 1 a = a.
Proof.
  change 1 with (exp_mod 0). intros [-> | (i & _ & ->)]%byte_cases; [apply gf_mul_0_r|].
  by rewrite gf_mul_exp.
Qed.

(** Multiplying by the power [k] is multiplying by 2, [k] times. *)
Lemma gf_mul_power a (k : nat) :
  byte a -> gf_mul a (exp_mod (Z.of_nat k)) = Nat.iter k next_power a.
Proof.
  intros Ha. induction k as [|k IH].
  - change (exp_mod (Z.of_nat 0)) with 1. rewrite gf_mul_comm. by apply gf_mul_1_l.
  - change (Nat.iter (S k) next_power a) with (next_power (Nat.iter k next_power a)).
    rewrite <- IH. destruct (byte_cases a Ha) as [-> | (i & _ & ->)]; [done|].
    rewrite !gf_mul_exp, next_power_exp. f_equal. lia.
Qed.

Lemma power_byte k a : byte a -> byte (Nat.iter k next_power a).
Proof. intros Ha. destruct k; cbn; [done|apply next_power_byte]. Qed.

Lemma power_lxor k a b : byte a -> byte b ->
  Nat.iter k next_power (Z.lxor a b) = Z.lxor (Nat.iter k next_power a) (Nat.iter k next_power b).
Proof.
  intros Ha Hb. induction k as [|k IH]; [done|].
  change (Nat.iter (S k) next_power) with (fun x => next_power (Nat.iter k next_power x)). cbv beta.
  rewrite IH. by apply next_power_lxor; apply power_byte.
Qed.

Lemma gf_mul_lxor a b c :
  byte a -> byte b -> byte c -> gf_mul (Z.lxor a b) c = Z.lxor (gf_mul a c) (gf_mul b c).
Proof.
  intros Ha Hb [-> | (k & Hk & ->)]%byte_cases; [by rewrite !gf_mul_0_r|].
  rewrite <- (Z2Nat.id k) by lia.
  rewrite !gf_mul_power by (try apply lxor_byte; done). by apply power_lxor.
Qed.

Lemma gf_inv_byte a : byte (gf_inv a).
Proof. unfold gf_inv. case_match; [unfold byte; lia|apply exp_byte]. Qed.

Lemma gf_mul_inv a : byte a -> a <> 0 -> gf_mul (gf_inv a) a = 1.
Proof.
  intros Ha Hn. unfold gf_inv. zfalse (a =? 0).
  rewrite <- (exp_log a) at 2 by done. rewrite gf_mul_exp.
  replace (255 - log_of a + log_of a) with (0 + 1 * 255) by lia. by rewrite exp_shift.
Qed.

(** ** The field *)

Record gf := mk_gf { sym : Z; sym_ok : is_byte sym = true }.

Lemma sym_byte x : byte (sym x).
Proof. apply is_byte_spec, sym_ok. Qed.

Lemma gf_eq x y : sym x = sym y -> x = y.
Proof.
  destruct x as [x Hx], y as [y Hy]. cbn. intros ->. f_equal. apply proof_irrel.
Qed.

#[export] Instance gf_eq_dec : EqDecision gf.
Proof.
  intros x y. destruct (decide (sym x = sym y)) as [He|He]; [left; by apply gf_eq|right; congruence].
Defined.

(** The field element of a byte; other integers are reduced. *)
Definition to_gf (x : Z) : gf :=
  mk_gf (x mod 256) (proj2 (is_byte_spec _) (Z.mod_pos_bound x 256 eq_refl)).

Lemma sym_to_gf x : byte x -> sym (to_gf x) = x.
Proof. intros Hx. cbn. by apply Z.mod_small. Qed.

Lemma to_gf_sym x : to_gf (sym x) = x.
Proof. apply gf_eq, sym_to_gf, sym_byte. Qed.

Definition g0 : gf := to_gf 0.
Definition g1 : gf := to_gf 1.
Definition gadd (x y : gf) : gf := to_gf (Z.lxor (sym x) (sym y)).
Definition gmul (x y : gf) : gf := to_gf (gf_mul (sym x) (sym y)).
Definition ginv (x : gf) : gf := to_gf (gf_inv (sym x)).
Definition gdiv (x y : gf) : gf := gmul x (ginv y).

Lemma sym_add x y : sym (gadd x y) = Z.lxor (sym x) (sym y).
Proof. apply sym_to_gf, lxor_byte; apply sym_byte. Qed.

Lemma sym_mul x y : sym (gmul x y) = gf_mul (sym x) (sym y).
Proof. apply sym_to_gf, gf_mul_byte. Qed.

Lemma sym_inv x : sym (ginv x) = gf_inv (sym x).
Proof. apply sym_to_gf, gf_inv_byte. Qed.

Lemma sym_g0 : sym g0 = 0.
Proof. done. Qed.

Lemma sym_g1 : sym g1 = 1.
Proof. done. Qed.

Lemma gf_field_theory : field_theory g0 g1 gadd gmul gadd (fun x => x) gdiv ginv eq.
Proof.
  pose proof sym_byte as Hb. constructor; [constructor|..].
  1-8: intros; apply gf_eq; rewrite ?sym_add, ?sym_mul, ?sym_add, ?sym_mul, ?sym_g0, ?sym_g1.
  - by rewrite Z.lxor_0_l.
  - apply Z.lxor_comm.
  - symmetry. apply Z.lxor_assoc.
  - by apply gf_mul_1_l.
  - apply gf_mul_comm.
  - by apply gf_mul_assoc.
  - by apply gf_mul_lxor.
  - done.
  - intros x. apply gf_eq. rewrite sym_add. apply Z.lxor_nilpotent.
  - intros He. by apply (f_equal sym) in He.
  - done.
  - intros p Hp. apply gf_eq. rewrite sym_mul, sym_inv. apply gf_mul_inv; [done|].
    intros H0. apply Hp, gf_eq. by rewrite H0.
Qed.

Add Field gf_field : gf_field_theory.

Declare Scope gf_scope.
Delimit Scope gf_scope with gf.
Infix "+" := gadd : gf_scope.
Infix "*" := gmul : gf_scope.
Notation "/ x" := (ginv x) : gf_scope.
Bind Scope gf_scope with gf.

Lemma gadd_self x : gadd x x = g0.
Proof. apply gf_eq. rewrite sym_add, Z.lxor_nilpotent. done. Qed.

Lemma gadd_eq0 x y : gadd x y = g0 -> x = y.
Proof.
  intros H. apply gf_eq. apply (f_equal sym) in H. rewrite sym_add, sym_g0 in H.
  by apply Z.lxor_eq.
Qed.

Lemma gmul_eq0 x y : gmul x y = g0 -> x = g0 \/ y = g0.
Proof.
  intros H. destruct (decide (x = g0)) as [|Hx]; [by left|]. right.
  transitivity (gmul (gmul (ginv x) x) y).
  - field. exact Hx.
  - transitivity (gmul (ginv x) (gmul x y)); [ring|]. rewrite H. ring.
Qed.

Lemma gmul_0_l x : gmul g0 x = g0.
Proof. ring. Qed.

Lemma to_gf_lxor a b : byte a -> byte b -> to_gf (Z.lxor a b) = gadd (to_gf a) (to_gf b).
Proof. intros Ha Hb. apply gf_eq. rewrite sym_add, !sym_to_gf; try done. by apply lxor_byte. Qed.

Lemma to_gf_mul a b : byte a -> byte b -> to_gf (gf_mul a b) = gmul (to_gf a) (to_gf b).
Proof. intros Ha Hb. apply gf_eq. rewrite sym_mul, !sym_to_gf; try done. apply gf_mul_byte. Qed.

Lemma to_gf_mul_add c a b : byte c -> byte a -> byte b ->
  to_gf (mul_add c a b) = gadd (to_gf c) (gmul (to_gf a) (to_gf b)).
Proof.
  intros. rewrite mul_add_eq, to_gf_lxor, to_gf_mul; try done. apply gf_mul_byte.
Qed.

Lemma mul_add_byte c a b : byte c -> byte (mul_add c a b).
Proof. intros Hc. rewrite mul_add_eq. apply lxor_byte; [done|apply gf_mul_byte]. Qed.

#[export] Hint Resolve exp_byte gf_mul_byte lxor_byte mul_add_byte sym_byte : gf.
