(* ===== verification/RsMatrix.v ===== *)
(** * Matrices of the FEC library

    Models [matrix_invGF256] and [matrix_mulGF256] of
    external/libformat_open/libfectest/RS_fec.cpp over the field of RsField.v: the
    inversion in place by exchanging with the largest remaining entry as pivot.
    A singular matrix makes the library call [exit(0)]. *)

From S2P Require Import Prelude RsField.

(** An array of rows. *)
Abbreviation matrix := (list (list Z)).
Definition entry (m : matrix) (i j : nat) : Z := (m !!! i) !!! j.

(** A call that may end the process by [exit(0)]. *)
Inductive run (A : Type) :=
| Exits
| Done (a : A).
Arguments Exits {A}.
Arguments Done {A}.

#[export] Instance run_ret : MRet run := fun A a => Done a.
#[export] Instance run_bind : MBind run := fun A B f r =>
  match r with Exits => Exits | Done a => f a end.

(** A [for] loop over [l] whose body may end the process. *)
Fixpoint for_each {I A} (f : A -> I -> run A) (l : list I) (a : A) : run A :=
  match l with
  | [] => Done a
  | i :: l => a ← f a i; for_each f l a
  end.

(** ** Inversion *)

(** The search for a pivot: row, column and value of the best entry so far. *)
Abbreviation search := (nat * nat * Z)%type.

Definition look_at (m : matrix) (ipiv : list Z) (j : nat) (b : search) (k : nat) : run search :=
  let '(irow, icol, big) := b in
  if ipiv !!! k =? 0 then
    Done (if entry m j k >=? big then (j, k, entry m j k) else b)
  else if ipiv !!! k >? 1 then Exits
  else Done b.

Definition search_row (m : matrix) (ipiv : list Z) (n : nat) (b : search) (j : nat) : run search :=
  if ipiv !!! j =? 1 then Done b else for_each (look_at m ipiv j) (seq 0 n) b.

Definition find_pivot (m : matrix) (ipiv : list Z) (n irow icol : nat) : run search :=
  for_each (search_row m ipiv n) (seq 0 n) (irow, icol, 0).

(** [SWAP] over two whole rows, or over two entries of every row. *)
Definition swap_at {A} `{Inhabited A} (i j : nat) (l : list A) : list A :=
  <[i := l !!! j]> (<[j := l !!! i]> l).

Definition swap_rows (i j : nat) (m : matrix) : matrix := swap_at i j m.

Definition swap_cols (m : matrix) (rc : nat * nat) : matrix :=
  if Nat.eqb rc.1 rc.2 then m else map (swap_at rc.1 rc.2) m.

(** The pivot row divided by the pivot, whose logarithm is [255 - pivinv]. *)
Definition div_row (pivinv : Z) (row : list Z) : list Z :=
  map (fun x => if x =? 0 then x else exp_mod (log_of x + pivinv)) row.

(** Another row, reduced by the pivot row [prow]. *)
Definition reduce_row (prow : list Z) (icol : nat) (row : list Z) : list Z :=
  let dum := row !!! icol in
  zip_with (fun x p => mul_add x p dum) (<[icol := 0]> row) prow.

(** One column: the matrix, the columns done ([ipiv]), the variables [irow] and
    [icol], and the arrays [indxr] and [indxc] as far as they are filled. *)
Record elim := mkElim {
  work : matrix;
  ipiv : list Z;
  irow : nat;
  icol : nat;
  indx : list (nat * nat);
}.

Definition inv_column (n : nat) (e : elim) (_ : nat) : run elim :=
  '(irow, icol, _) ← find_pivot e.(work) e.(ipiv) n e.(irow) e.(icol);
  let ipiv := <[icol := e.(ipiv) !!! icol + 1]> e.(ipiv) in
  let m := if Nat.eqb irow icol then e.(work) else swap_rows irow icol e.(work) in
  let indx := e.(indx) ++ [(irow, icol)] in
  if entry m icol icol =? 0 then Exits else
  let pivinv := 255 - log_of (entry m icol icol) in
  let prow := div_row pivinv (<[icol := 1]> (m !!! icol)) in
  let m := <[icol := prow]> m in
  let m := imap (fun ll row => if Nat.eqb ll icol then row else reduce_row prow icol row) m in
  Done (mkElim m ipiv irow icol indx).

(** The arrays on the stack have [BOUND] entries; the columns are exchanged
    back in reverse order. *)
Definition BOUND : nat := 256.

Definition matrix_invGF256 (m : matrix) (n : nat) : option (run matrix) :=
  if Nat.ltb BOUND n then None else
  Some (e ← for_each (inv_column n) (seq 0 n) (mkElim m (replicate n 0) 0 0 []);
        Done (fold_left swap_cols (rev e.(indx)) e.(work))).

(** ** Product *)

(** [c += a * b] for [left] rows, [right] columns and inner size [mid]. *)
Definition matrix_mulGF256 (a b c : matrix) (left mid right : nat) : matrix :=
  map (fun i => map (fun j =>
      fold_left (fun acc k => mul_add acc (entry a i k) (entry b k j)) (seq 0 mid) (entry c i j))
    (seq 0 right)) (seq 0 left).

#[global] Arguments entry : simpl never.
#[global] Arguments find_pivot : simpl never.
#[global] Arguments div_row : simpl never.
#[global] Arguments reduce_row : simpl never.
#[global] Arguments inv_column : simpl never.
#[global] Arguments matrix_invGF256 : simpl never.
#[global] Arguments matrix_mulGF256 : simpl never.

(** ** Sums *)

#[local] Open Scope gf_scope.

Fixpoint gsum (n : nat) (f : nat -> gf) : gf :=
  match n with O => g0 | S n => gsum n f + f n end.

Section Sums.
Implicit Types (f g : nat -> gf) (n k : nat).

Lemma gsum_ext n f g : (forall k, (k < n)%nat -> f k = g k) -> gsum n f = gsum n g.
Proof. induction n as [|n IH]; intros Hfg; cbn; [done|]. rewrite IH, Hfg by auto. done. Qed.

Lemma gsum_zero n f : (forall k, (k < n)%nat -> f k = g0) -> gsum n f = g0.
Proof. induction n as [|n IH]; intros Hf; cbn; [done|]. rewrite IH, Hf by auto. ring. Qed.

Lemma gsum_add n f g : gsum n (fun k => f k + g k) = gsum n f + gsum n g.
Proof. induction n as [|n IH]; cbn; [ring|]. rewrite IH. ring. Qed.

Lemma gsum_mul n f a : gsum n (fun k => a * f k) = a * gsum n f.
Proof. induction n as [|n IH]; cbn; [ring|]. rewrite IH. ring. Qed.

Lemma gsum_swap n m (f : nat -> nat -> gf) :
  gsum n (fun i => gsum m (fun j => f i j)) = gsum m (fun j => gsum n (fun i => f i j)).
Proof.
  induction n as [|n IH]; cbn.
  - symmetry. by apply gsum_zero.
  - by rewrite IH, gsum_add.
Qed.

(** The sum without the term [k]. *)
Definition without k f : nat -> gf := fun i => if decide (i = k) then g0 else f i.

Lemma gsum_split n k f : (k < n)%nat -> gsum n f = f k + gsum n (without k f).
Proof.
  induction n as [|n IH]; intros Hk; [lia|]. cbn. unfold without at 2.
  destruct (decide (n = k)) as [->|Hne].
  - assert (gsum k (without k f) = gsum k f) as ->.
    { apply gsum_ext. intros i Hi. unfold without. rewrite decide_False by lia. done. }
    ring.
  - rewrite IH by lia. ring.
Qed.

Lemma gsum_single n k f :
  (k < n)%nat -> (forall i, (i < n)%nat -> i <> k -> f i = g0) -> gsum n f = f k.
Proof.
  intros Hk Hf. rewrite (gsum_split n k) by done. rewrite gsum_zero; [ring|].
  intros i Hi. unfold without. case_decide; [done|]. by apply Hf.
Qed.

(** Exchanging two indices. *)
Definition swp (a b i : nat) : nat :=
  if decide (i = a) then b else if decide (i = b) then a else i.

Lemma swp_l a b : swp a b a = b.
Proof. unfold swp. by rewrite decide_True. Qed.

Lemma swp_r a b : swp a b b = a.
Proof. unfold swp. case_decide; [done|]. by rewrite decide_True. Qed.

Lemma swp_other a b i : i <> a -> i <> b -> swp a b i = i.
Proof. intros. unfold swp. by rewrite !decide_False. Qed.

Lemma swp_swp a b i : swp a b (swp a b i) = i.
Proof. unfold swp. repeat case_decide; congruence. Qed.

Lemma swp_lt n a b i : (a < n)%nat -> (b < n)%nat -> (i < n)%nat -> (swp a b i < n)%nat.
Proof. intros. unfold swp. repeat case_decide; done. Qed.

Lemma gsum_swp n a b f : (a < n)%nat -> (b < n)%nat -> gsum n (fun i => f (swp a b i)) = gsum n f.
Proof.
  intros Ha Hb. destruct (decide (a = b)) as [->|Hne].
  - apply gsum_ext. intros i _. f_equal. unfold swp. repeat case_decide; congruence.
  - rewrite (gsum_split n a f), (gsum_split n a (fun i => f (swp a b i))) by done.
    rewrite (gsum_split n b (without a f)), (gsum_split n b (without a (fun i => f (swp a b i)))) by done.
    assert (forall h, without a h b = h b) as Hb' by (intros h; unfold without; by rewrite decide_False).
    rewrite !Hb'. cbv beta. rewrite swp_l, swp_r.
    match goal with |- _ + (_ + ?x) = _ + (_ + ?y) => assert (x = y) as -> end; [|ring].
    apply gsum_ext. intros i _. unfold without. repeat case_decide; try done. by rewrite swp_other.
Qed.
End Sums.

(** ** Systems of equations *)

Section Systems.
Implicit Types (W : nat -> nat -> gf) (u v x y : nat -> gf).

Definition mat_app (n : nat) W u (r : nat) : gf := gsum n (fun c => W r c * u c).

(** [v = W u] in the first [n] places. *)
Definition solves (n : nat) W u v : Prop := forall r, (r < n)%nat -> v r = mat_app n W u r.

Lemma solves_ext n W W' u u' v v' :
  (forall r c, (r < n)%nat -> (c < n)%nat -> W r c = W' r c) ->
  (forall c, (c < n)%nat -> u c = u' c) -> (forall r, (r < n)%nat -> v r = v' r) ->
  solves n W u v <-> solves n W' u' v'.
Proof.
  intros HW Hu Hv. unfold solves.
  assert (forall r, (r < n)%nat -> mat_app n W u r = mat_app n W' u' r) as Happ.
  { intros r Hr. apply gsum_ext. intros c Hc. by rewrite HW, Hu. }
  split; intros Hs r Hr; specialize (Hs r Hr); rewrite Hv, Happ in * by done; done.
Qed.

(** Exchanging two equations. *)
Lemma solves_swap_rows n W u v a b :
  (a < n)%nat -> (b < n)%nat ->
  solves n W u v <-> solves n (fun r c => W (swp a b r) c) u (fun r => v (swp a b r)).
Proof.
  intros Ha Hb. split; intros Hs r Hr.
  - by apply Hs, swp_lt.
  - specialize (Hs (swp a b r) (swp_lt n a b r Ha Hb Hr)). cbn in Hs.
    rewrite swp_swp in Hs. rewrite Hs. unfold mat_app. by rewrite swp_swp.
Qed.

(** Exchanging two unknowns. *)
Lemma solves_swap_cols n W u v a b :
  (a < n)%nat -> (b < n)%nat ->
  solves n W (fun c => u (swp a b c)) v <-> solves n (fun r c => W r (swp a b c)) u v.
Proof.
  intros Ha Hb.
  assert (forall r, mat_app n W (fun c => u (swp a b c)) r =
                    mat_app n (fun r c => W r (swp a b c)) u r) as Happ.
  { intros r. unfold mat_app. rewrite <- (gsum_swp n a b (fun c => W r (swp a b c) * u c)) by done.
    apply gsum_ext. intros c _. by rewrite swp_swp. }
  split; intros Hs r Hr; rewrite (Hs r Hr); [done|by rewrite Happ].
Qed.

Definition upd u (k : nat) (a : gf) : nat -> gf := fun i => if decide (i = k) then a else u i.

(** The matrix after unknown [k] and equation [k] have changed places. *)
Definition exchanged W (k : nat) : nat -> nat -> gf := fun r c =>
  if decide (r = k) then (if decide (c = k) then / W k k else W k c * / W k k)
  else if decide (c = k) then W r k * / W k k
  else W r c + W r k * (W k c * / W k k).

Lemma app_split n W u k r :
  (k < n)%nat -> mat_app n W u r = W r k * u k + gsum n (without k (fun c => W r c * u c)).
Proof. intros Hk. unfold mat_app. by rewrite (gsum_split n k). Qed.

Lemma exchanged_app n W u a k r :
  (k < n)%nat -> W k k <> g0 ->
  let R r := gsum n (without k (fun c => W r c * u c)) in
  mat_app n (exchanged W k) (upd u k a) r =
  if decide (r = k) then / W k k * (a + R k) else W r k * (/ W k k * (a + R k)) + R r.
Proof.
  intros Hk Hp R. rewrite (app_split _ _ _ k) by done.
  unfold exchanged at 1, upd at 1. rewrite !(decide_True (P := k = k)) by done.
  destruct (decide (r = k)) as [->|Hne].
  - assert (gsum n (without k (fun c => exchanged W k k c * upd u k a c)) = / W k k * R k) as ->.
    { unfold R. rewrite <- gsum_mul. apply gsum_ext. intros c _. unfold without, exchanged, upd.
      rewrite (decide_True (P := k = k)) by done. case_decide; ring. }
    ring.
  - assert (gsum n (without k (fun c => exchanged W k r c * upd u k a c)) =
            R r + W r k * (/ W k k * R k)) as ->.
    { unfold R. rewrite <- !gsum_mul, <- gsum_add. apply gsum_ext. intros c _.
      unfold without, exchanged, upd. rewrite (decide_False (P := r = k)) by done.
      case_decide; ring. }
    ring.
Qed.

Lemma solves_exchange n W u v k :
  (k < n)%nat -> W k k <> g0 ->
  solves n W u v <-> solves n (exchanged W k) (upd u k (v k)) (upd v k (u k)).
Proof.
  intros Hk Hp. unfold solves.
  setoid_rewrite (exchanged_app n W u (v k) k); [|done..].
  setoid_rewrite (app_split n W u k); [|done].
  set (R r := gsum n (without k (fun c => W r c * u c))).
  assert (v k = W k k * u k + R k <-> u k = / W k k * (v k + R k)) as Hkk.
  { split; intros H.
    - rewrite H. transitivity (u k + / W k k * (R k + R k)); [|field; done].
      rewrite gadd_self. ring.
    - rewrite H at 1. transitivity (v k + (R k + R k)); [|field; done].
      rewrite gadd_self. ring. }
  split; intros Hs r Hr.
  - pose proof (Hs k Hk) as H%Hkk. unfold upd. case_decide; [subst; exact H|].
    unfold R in H. rewrite <- H. by apply Hs.
  - pose proof (Hs k Hk) as H. unfold upd in H. rewrite !decide_True in H by done.
    specialize (Hs r Hr). unfold upd in Hs. case_decide; [subst; by apply Hkk|].
    unfold R in H. rewrite <- H in Hs. exact Hs.
Qed.
End Systems.

(** ** The loops *)

Lemma for_each_app {I A} (f : A -> I -> run A) l1 l2 a :
  for_each f (l1 ++ l2) a = (a ← for_each f l1 a; for_each f l2 a).
Proof. revert a. induction l1 as [|i l1 IH]; intros a; cbn; [done|]. destruct (f a i) as [|a1]; [done|apply IH]. Qed.

(** An invariant of a counting loop that never exits. *)
Lemma for_each_inv {A} (f : A -> nat -> run A) (P : nat -> A -> Prop) n a :
  P 0%nat a ->
  (forall i a, (i < n)%nat -> P i a -> exists a', f a i = Done a' /\ P (S i) a') ->
  exists a', for_each f (seq 0 n) a = Done a' /\ P n a'.
Proof.
  intros H0 Hs. induction n as [|n IH]; [by exists a|].
  destruct IH as (a1 & Hf & Ha1); [intros i x Hi; apply Hs; lia|].
  rewrite seq_S, for_each_app, Hf. cbn. destruct (Hs n a1 ltac:(lia) Ha1) as (a2 & -> & Ha2).
  by exists a2.
Qed.

Section Lookups.
Context {A B : Type} `{Inhabited A} `{Inhabited B}.
Implicit Types (l : list A) (i j k : nat).

Lemma total_lookup l i x : l !! i = Some x -> l !!! i = x.
Proof. apply list_lookup_total_correct. Qed.

Lemma total_some l i : (i < length l)%nat -> l !! i = Some (l !!! i).
Proof. apply list_lookup_lookup_total_lt. Qed.

Lemma total_map (f : A -> B) l i : (i < length l)%nat -> map f l !!! i = f (l !!! i).
Proof. intros Hi. apply list_lookup_total_correct. by rewrite list_lookup_fmap, total_some. Qed.

Lemma total_imap (f : nat -> A -> B) l i : (i < length l)%nat -> imap f l !!! i = f i (l !!! i).
Proof. intros Hi. apply list_lookup_total_correct. by rewrite list_lookup_imap, total_some. Qed.

Lemma total_map_seq (f : nat -> B) n i : (i < n)%nat -> map f (seq 0 n) !!! i = f i.
Proof. intros Hi. apply list_lookup_total_correct. by rewrite list_lookup_fmap, lookup_seq_lt. Qed.

Lemma total_insert l i x : (i < length l)%nat -> <[i := x]> l !!! i = x.
Proof. intros Hi. apply total_lookup. by apply list_lookup_insert_eq. Qed.

Lemma total_insert_ne l i j x : i <> j -> <[i := x]> l !!! j = l !!! j.
Proof. intros Hi. by rewrite !list_lookup_total_alt, list_lookup_insert_ne. Qed.

Lemma total_swap_at i j l k :
  (i < length l)%nat -> (j < length l)%nat -> swap_at i j l !!! k = l !!! swp i j k.
Proof.
  intros Hi Hj. unfold swap_at, swp. destruct (decide (k = i)) as [->|Hki].
  - by rewrite total_insert by (by rewrite length_insert).
  - rewrite total_insert_ne by done. destruct (decide (k = j)) as [->|Hkj].
    + by rewrite total_insert.
    + by rewrite total_insert_ne.
Qed.
End Lookups.

(** A matrix of [n] rows of [k] symbols. *)
Definition row_ok (k : nat) (row : list Z) : Prop := length row = k /\ Forall byte row.
Definition mat_ok (n k : nat) (m : matrix) : Prop := length m = n /\ Forall (row_ok k) m.
Definition gat (m : matrix) (i j : nat) : gf := to_gf (entry m i j).

Section Shapes.
Implicit Types (m : matrix) (row : list Z) (i j k n : nat).

Lemma mat_row n k m i : mat_ok n k m -> (i < n)%nat -> row_ok k (m !!! i).
Proof. intros [Hl Hm] Hi. apply (Forall_lookup_1 _ _ i _ Hm), total_some. lia. Qed.

Lemma row_byte k row j : row_ok k row -> (j < k)%nat -> byte (row !!! j).
Proof. intros [Hl Hr] Hj. apply (Forall_lookup_1 _ _ j _ Hr), total_some. lia. Qed.

Lemma entry_byte n k m i j : mat_ok n k m -> (i < n)%nat -> (j < k)%nat -> byte (entry m i j).
Proof. intros Hm Hi Hj. eapply row_byte; [by eapply mat_row|done]. Qed.

Lemma sym_gat n k m i j : mat_ok n k m -> (i < n)%nat -> (j < k)%nat -> sym (gat m i j) = entry m i j.
Proof. intros. by eapply sym_to_gf, entry_byte. Qed.

Lemma row_insert k row j x : row_ok k row -> byte x -> row_ok k (<[j := x]> row).
Proof. intros [Hl Hr] Hx. split; [by rewrite length_insert|by apply Forall_insert]. Qed.

Lemma mat_insert n k m i row : mat_ok n k m -> row_ok k row -> mat_ok n k (<[i := row]> m).
Proof. intros [Hl Hm] Hr. split; [by rewrite length_insert|by apply Forall_insert]. Qed.

Lemma swap_rows_ok n k m i j :
  mat_ok n k m -> (i < n)%nat -> (j < n)%nat -> mat_ok n k (swap_rows i j m).
Proof. intros Hm Hi Hj. unfold swap_rows, swap_at. by repeat apply mat_insert; [..|eapply mat_row|eapply mat_row]. Qed.

Lemma swap_rows_entry n k m a b i j :
  mat_ok n k m -> (a < n)%nat -> (b < n)%nat -> entry (swap_rows a b m) i j = entry m (swp a b i) j.
Proof. intros [Hl _] Ha Hb. unfold entry, swap_rows. by rewrite total_swap_at by lia. Qed.

Lemma swap_cols_ok n m r c :
  mat_ok n n m -> (r < n)%nat -> (c < n)%nat ->
  mat_ok n n (swap_cols m (r, c)) /\
  forall i j, (i < n)%nat -> entry (swap_cols m (r, c)) i j = entry m i (swp r c j).
Proof.
  intros [Hl Hm] Hr Hc. unfold swap_cols. cbn. destruct (Nat.eqb_spec r c) as [->|Hne].
  - split; [done|]. intros i j _. unfold swp. repeat case_decide; congruence.
  - split; [split; [by rewrite length_map|]|].
    + apply List.Forall_map. eapply Forall_impl; [exact Hm|]. intros row Hrow.
      unfold swap_at. by repeat apply row_insert; [..|eapply row_byte|eapply row_byte].
    + intros i j Hi. unfold entry. rewrite total_map by lia.
      destruct (mat_row n n m i (conj Hl Hm) Hi). by rewrite total_swap_at by lia.
Qed.
End Shapes.

(** ** The pivot *)

Section Pivot.
Context (n : nat) (m : matrix) (piv : list Z).
Context (Hm : mat_ok n n m) (Hl : length piv = n).
Context (H01 : forall k, (k < n)%nat -> piv !!! k = 0 \/ piv !!! k = 1).

(** The places looked at before column [k] of row [j], rows and columns that
    are done left out. *)
Definition seen (j k j' k' : nat) : Prop :=
  (k' < n)%nat /\ piv !!! j' = 0 /\ piv !!! k' = 0 /\ ((j' < j)%nat \/ j' = j /\ (k' < k)%nat).

(** The search holds the last of the largest entries seen. *)
Definition largest (j k : nat) (b : search) : Prop :=
  let '(r, c, big) := b in
  (forall j' k', seen j k j' k' -> entry m j' k' <= big) /\
  (seen j k r c /\ big = entry m r c \/ big = 0 /\ forall j' k', ~ seen j k j' k').

Lemma look_at_ok j k b :
  (j < n)%nat -> (k < n)%nat -> piv !!! j = 0 -> largest j k b ->
  exists b', look_at m piv j b k = Done b' /\ largest j (S k) b'.
Proof.
  intros Hj Hk Hpj. destruct b as [[r c] big]. intros [Hle Hat]. unfold look_at.
  pose proof (entry_byte n n m j k Hm Hj Hk) as Hb. unfold byte in Hb.
  assert (forall j' k', seen j (S k) j' k' <->
    seen j k j' k' \/ j' = j /\ k' = k /\ piv !!! k = 0) as Hseen.
  { intros j' k'. unfold seen. split.
    - intros (? & ? & ? & [?|[-> ?]]); [left; auto|].
      destruct (decide (k' = k)) as [->|]; [by right|left; split_and!; [done..|right; lia]].
    - intros [(? & ? & ? & ?)|(-> & -> & ?)]; split_and!; try done; lia. }
  destruct (Z.eqb_spec (piv !!! k) 0) as [H0|H0].
  - destruct (Z.geb_spec (entry m j k) big) as [Hge|Hlt]; (eexists; split; [done|]).
    + split; [|left; split; [apply Hseen; by right|done]].
      intros j' k' [Hs|(-> & -> & _)]%Hseen; [|done]. specialize (Hle _ _ Hs). lia.
    + destruct Hat as [[Hs ->]|[-> _]]; [|lia].
      split; [|left; split; [apply Hseen; by left|done]].
      intros j' k' [Hs'|(-> & -> & _)]%Hseen; [by apply Hle|lia].
  - destruct (H01 k Hk) as [|H1]; [done|]. rewrite H1. cbn. eexists. split; [done|].
    assert (forall j' k', seen j (S k) j' k' <-> seen j k j' k') as Hs'.
    { intros j' k'. rewrite Hseen. split; [by intros [|(_ & _ & ?)]|by left]. }
    split; [intros j' k' Hs%Hs'; by apply Hle|].
    destruct Hat as [[Hs ->]|[-> Hn]]; [left; split; [by apply Hs'|done]|right; split; [done|]].
    intros j' k' Hs%Hs'. by apply (Hn j' k').
Qed.

Lemma search_row_ok j b :
  (j < n)%nat -> largest j 0 b ->
  exists b', search_row m piv n b j = Done b' /\ largest (S j) 0 b'.
Proof.
  intros Hj Hb. unfold search_row.
  assert (forall b, (forall j' k', seen (S j) 0 j' k' <-> seen j n j' k') -> largest j n b ->
    largest (S j) 0 b) as Hnext.
  { intros [[r c] big] Hiff [Hle Hat]. split; [intros j' k' Hs%Hiff; by apply Hle|].
    destruct Hat as [[Hs ->]|[-> Hn]]; [left; split; [by apply Hiff|done]|right; split; [done|]].
    intros j' k' Hs%Hiff. by apply (Hn j' k'). }
  assert (forall j' k', seen (S j) 0 j' k' <-> seen j n j' k') as Hiff.
  { intros j' k'. unfold seen. split; intros (? & ? & ? & ?); split_and!; try done; lia. }
  destruct (Z.eqb_spec (piv !!! j) 1) as [H1|H1].
  - exists b. split; [done|]. apply Hnext; [done|]. destruct b as [[r c] big], Hb as [Hle Hat].
    assert (forall j' k', seen j n j' k' <-> seen j 0 j' k') as Hs'.
    { intros j' k'. unfold seen. split; intros (? & H0 & ? & [?|[-> ?]]); try (split_and!; try done; lia). }
    split; [intros j' k' Hs%Hs'; by apply Hle|].
    destruct Hat as [[Hs ->]|[-> Hn]]; [left; split; [by apply Hs'|done]|right; split; [done|]].
    intros j' k' Hs%Hs'. by apply (Hn j' k').
  - destruct (H01 j Hj) as [H0|]; [|done].
    destruct (for_each_inv (look_at m piv j) (fun k b => largest j k b) n b Hb) as (b' & -> & Hb').
    { intros k b0 Hk Hb0. by apply look_at_ok. }
    exists b'. split; [done|]. by apply Hnext.
Qed.

Lemma find_pivot_ok r0 c0 :
  (exists k, (k < n)%nat /\ piv !!! k = 0) ->
  exists r c, find_pivot m piv n r0 c0 = Done (r, c, entry m r c) /\ (r < n)%nat /\ (c < n)%nat /\
    piv !!! r = 0 /\ piv !!! c = 0 /\
    forall j k, (j < n)%nat -> (k < n)%nat -> piv !!! j = 0 -> piv !!! k = 0 ->
      entry m j k <= entry m r c.
Proof.
  intros (k0 & Hk0 & Hp0). unfold find_pivot.
  destruct (for_each_inv (search_row m piv n) (fun j b => largest j 0 b) n (r0, c0, 0)) as (b & -> & Hb).
  - split; [|right; split; [done|]]; intros j' k' (_ & _ & _ & ?); lia.
  - intros j b Hj Hb. by apply search_row_ok.
  - destruct b as [[r c] big], Hb as [Hle [[Hs ->]|[_ Hn]]].
    + destruct Hs as (Hc & Hr0 & Hc0 & Hr). exists r, c. split_and!; try done; [lia|].
      intros j k Hj Hk Hj0 Hkz. apply Hle. split_and!; try done. lia.
    + destruct (Hn k0 k0). split_and!; try done. lia.
Qed.
End Pivot.
