(* ===== verification/RtpFec.v ===== *)
(** * RTP reception with forward error correction

    Models external/libformat_open/rtpfecproto.c: RTP packets are collected in
    groups of consecutive sequence numbers, with the FEC packets that protect
    them. A group is first filled ([GroupDownLoading]), then waits for late
    packets ([GroupCheckMiss]), is repaired by the decoder if it has to be, and
    is drained in order ([GroupDone]). [None] is undefined behaviour: a buffer
    overrun, or a null or freed pointer followed. *)

From S2P Require Import Prelude PktQueue PktIface.

Definition RTP_FEC_GROUP_PKT_NUM_RTP : Z := 255.
Definition RTP_FEC_GROUP_PKT_NUM_FEC : Z := 20.
Definition RTP_FEC_GROUP_PKT_NUM : Z := RTP_FEC_GROUP_PKT_NUM_RTP + RTP_FEC_GROUP_PKT_NUM_FEC.
Definition RTP_FEC_RTP_HEAD_LEN : Z := 12.
Definition RTP_FEC_FEC_HEAD_LEN : Z := 12.
Definition RTP_FEC_CHECK_MISS_COUNT_MAX : Z := 10.

(** A buffer of the heap, [None] for NULL. *)
Abbreviation buffer := (option (list Z)).

Record RTPFECPktGroup := mkGroup {
  paPktRtp : list buffer;
  aPktRtpLen : list Z;
  paPktFec : list buffer;
  lost_map : list Z;
  pkt_read_pos : Z;
  rtp_pkt_size : Z;
  rtp_seq_start : Z;
  rtp_seq_end : Z;
  seq_reverse : Z;
}.

#[export] Instance group_fields : Fields RTPFECPktGroup := fun r =>
  mkGroup r.(paPktRtp) r.(aPktRtpLen) r.(paPktFec) r.(lost_map) r.(pkt_read_pos)
    r.(rtp_pkt_size) r.(rtp_seq_start) r.(rtp_seq_end) r.(seq_reverse).

(** An owning pointer to a group. *)
Inductive group_ptr := Null | Dangling | Live (g : RTPFECPktGroup).

(** The group a pointer is dereferenced to. *)
Definition deref (p : group_ptr) : option RTPFECPktGroup :=
  match p with Live g => Some g | _ => None end.

Definition is_null (p : group_ptr) : bool :=
  match p with Null => true | _ => false end.

(** The receiver, without its queues and sockets. [mallocs] is the number of
    allocations that will still succeed, [None] for all of them. *)
Record RTPFECContext := mkCtx {
  is_exit : Z;
  GroupDone : group_ptr;
  GroupCheckMiss : group_ptr;
  GroupDownLoading : group_ptr;
  have_fec : Z;
  rtp_seq_next : Z;
  rtp_seq_lost : Z;
  check_count : Z;
  fec_init : Z;
  fec_dec_len : Z;
  rtp_pkt_num : Z;
  fec_pkt_num : Z;
  mallocs : option nat;
}.

(** One allocation, and the allocations left after it. *)
Definition take_malloc (m : option nat) : option (option nat) :=
  match m with
  | None => Some None
  | Some O => None
  | Some (S n) => Some (Some n)
  end.

#[export] Instance ctx_fields : Fields RTPFECContext := fun r =>
  mkCtx r.(is_exit) r.(GroupDone) r.(GroupCheckMiss) r.(GroupDownLoading) r.(have_fec)
    r.(rtp_seq_next) r.(rtp_seq_lost) r.(check_count) r.(fec_init) r.(fec_dec_len)
    r.(rtp_pkt_num) r.(fec_pkt_num) r.(mallocs).

(** Big-endian fields of a packet. *)
Definition AV_RB8 (d : list Z) (off : Z) : option Z := arr_get d off.
Definition AV_RB16 (d : list Z) (off : Z) : option Z :=
  a ← arr_get d off; b ← arr_get d (off + 1); Some (a * 256 + b).

(** [memcpy(dst, bytes, length bytes)] over a buffer. *)
Definition mem_write (dst bytes : list Z) : option (list Z) :=
  if Nat.leb (length bytes) (length dst) then Some (bytes ++ drop (length bytes) dst) else None.

(** ** Groups *)

Section Groups.
Context {E : AvErrors}.

Definition _rtpfec_get_index (seq_start seq_end seq_target over : Z) : Z :=
  if seq_end <? seq_start then
    if seq_target >=? seq_start then seq_target - seq_start
    else if seq_target <=? seq_end then over + 1 + seq_target - seq_start
    else -1
  else
    if (seq_target >=? seq_start) && (seq_target <=? seq_end) then seq_target - seq_start
    else -1.

(** [n] zeroed buffers of [len] bytes, while allocations succeed; the slots that
    remain are NULL. *)
Fixpoint alloc_slots (n : nat) (len : Z) (mallocs : option nat)
    : list buffer * option nat * bool :=
  match n with
  | O => ([], mallocs, true)
  | S n =>
      match take_malloc mallocs with
      | None => (replicate (S n) None, mallocs, false)
      | Some mallocs =>
          let '(l, mallocs, ok) := alloc_slots n len mallocs in
          (Some (replicate (Z.to_nat len) 0) :: l, mallocs, ok)
      end
  end.

Definition zero_group : RTPFECPktGroup :=
  mkGroup (replicate (Z.to_nat RTP_FEC_GROUP_PKT_NUM_RTP) None)
    (replicate (Z.to_nat RTP_FEC_GROUP_PKT_NUM_RTP) 0)
    (replicate (Z.to_nat RTP_FEC_GROUP_PKT_NUM_FEC) None)
    (replicate (Z.to_nat RTP_FEC_GROUP_PKT_NUM) 0) 0 0 0 0 0.

(** The first entries of an array of pointers. *)
Definition set_slots (slots l : list buffer) : option (list buffer) :=
  if Nat.leb (length l) (length slots) then Some (l ++ drop (length l) slots) else None.

Definition _rtpfec_create_group_downloading (s : RTPFECContext) (seq_start : Z)
    : option (RTPFECContext * Z) :=
  if negb (is_null s.(GroupDownLoading)) then Some (s, 0) else
  match take_malloc s.(mallocs) with
  | None => Some (s, AVERROR_ENOMEM)
  | Some m =>
      let g := zero_group in
      let '(rtp, m, ok) := alloc_slots (Z.to_nat s.(rtp_pkt_num)) s.(fec_dec_len) m in
      slots ← set_slots g.(paPktRtp) rtp;
      let g := g <| paPktRtp := slots |> in
      if negb ok then
        Some (s <| GroupDownLoading := Live g |> <| mallocs := m |>, AVERROR_ENOMEM)
      else
        let '(fec, m, ok) := alloc_slots (Z.to_nat s.(fec_pkt_num)) s.(fec_dec_len) m in
        slots ← set_slots g.(paPktFec) fec;
        let g := g <| paPktFec := slots |> in
        if negb ok then
          Some (s <| GroupDownLoading := Live g |> <| mallocs := m |>, AVERROR_ENOMEM)
        else
          let g := g <| rtp_seq_start := seq_start |>
                     <| rtp_seq_end := Z.land (seq_start + s.(rtp_pkt_num) - 1) 65535 |> in
          let g := if g.(rtp_seq_end) <? g.(rtp_seq_start)
                   then g <| seq_reverse := 1 |> else g in
          Some (s <| GroupDownLoading := Live g |> <| mallocs := m |>, 0)
  end.

Definition _rtpfec_group_downloading_to_checkmiss (s : RTPFECContext) : RTPFECContext * Z :=
  if negb (is_null s.(GroupCheckMiss)) then (s, -1) else
  (s <| GroupCheckMiss := s.(GroupDownLoading) |> <| GroupDownLoading := Null |>
     <| check_count := 0 |>, 0).

Definition _rtpfec_group_checkmiss_to_done (s : RTPFECContext) : RTPFECContext * Z :=
  if negb (is_null s.(GroupDone)) then (s, -1) else
  (s <| GroupDone := s.(GroupCheckMiss) |> <| GroupCheckMiss := Null |>, 0).

(** The loops free the first slots of both arrays; freeing NULL is allowed. *)
Definition _rtpfec_group_done_release (s : RTPFECContext) : option RTPFECContext :=
  g ← deref s.(GroupDone);
  if (s.(fec_pkt_num) <=? Z.of_nat (length g.(paPktFec)))
     && (s.(rtp_pkt_num) <=? Z.of_nat (length g.(paPktRtp)))
  then Some (s <| GroupDone := Null |>) else None.

(** Frees a group; the pointer the caller still holds is left dangling. *)
Definition _rtpfec_group_free (p : group_ptr) : option group_ptr :=
  match p with
  | Null => Some Null
  | Dangling => None
  | Live _ => Some Dangling
  end.

(** One packet copied into its slot of a group. *)
Definition store_rtp (g : RTPFECPktGroup) (index : Z) (pkt : DataPacket)
    : option RTPFECPktGroup :=
  dst ← arr_get g.(paPktRtp) index;
  dst ← dst;
  bytes ← mem_read pkt.(data) 0 pkt.(data_size);
  dst ← mem_write dst bytes;
  slots ← arr_set g.(paPktRtp) index (Some dst);
  lens ← arr_set g.(aPktRtpLen) index pkt.(data_size);
  lost ← arr_set g.(lost_map) index 1;
  let g := g <| paPktRtp := slots |> <| aPktRtpLen := lens |> <| lost_map := lost |> in
  Some (if pkt.(data_size) >? g.(rtp_pkt_size)
        then g <| rtp_pkt_size := pkt.(data_size) |> else g).

(** One FEC packet copied behind the packets it protects. *)
Definition store_fec (s : RTPFECContext) (g : RTPFECPktGroup) (pkt : DataPacket) (fec_seq : Z)
    : option RTPFECPktGroup :=
  dst ← arr_get g.(paPktFec) fec_seq;
  dst ← dst;
  bytes ← mem_read pkt.(data) 24 s.(fec_dec_len);
  dst ← mem_write dst bytes;
  slots ← arr_set g.(paPktFec) fec_seq (Some dst);
  lost ← arr_set g.(lost_map) (s.(rtp_pkt_num) + fec_seq) 1;
  Some (g <| paPktFec := slots |> <| lost_map := lost |>).

Definition in_group (s : RTPFECContext) (index : Z) : bool :=
  (0 <=? index) && (index <? s.(rtp_pkt_num)).

(** A packet that belongs to the group being filled, or to none. *)
Definition rtppkt_downloading (s : RTPFECContext) (g : RTPFECPktGroup) (pkt : DataPacket)
    (pktseq : Z) : option (RTPFECContext * Z) :=
  let index := _rtpfec_get_index g.(rtp_seq_start) g.(rtp_seq_end) pktseq 65535 in
  if in_group s index then
    g ← store_rtp g index pkt;
    Some (s <| GroupDownLoading := Live g |>, 0)
  else
    let s := if negb (is_null s.(GroupCheckMiss))
             then fst (_rtpfec_group_checkmiss_to_done s) else s in
    let s := fst (_rtpfec_group_downloading_to_checkmiss s) in
    Some (s <| have_fec := 0 |>, 0).

(** A packet of the group after the one being filled. *)
Definition rtppkt_next (s : RTPFECContext) (pkt : DataPacket) (index : Z)
    : option (RTPFECContext * Z) :=
  let s := if negb (is_null s.(GroupCheckMiss))
           then fst (_rtpfec_group_checkmiss_to_done s) else s in
  let '(s, ret) := _rtpfec_group_downloading_to_checkmiss s in
  if negb (ret =? 0) then Some (s, ret) else
  c ← deref s.(GroupCheckMiss);
  '(s, ret) ← _rtpfec_create_group_downloading s (Z.land (c.(rtp_seq_end) + 1) 65535);
  if negb (ret =? 0) then Some (s, ret) else
  g ← deref s.(GroupDownLoading);
  g ← store_rtp g index pkt;
  Some (s <| GroupDownLoading := Live g |>, 0).

Definition _rtpfec_group_rtppkt_in (s : RTPFECContext) (pkt : DataPacket) (pktseq : Z)
    : option (RTPFECContext * Z) :=
  let filling :=
    if is_null s.(GroupDownLoading) then Some (s, -1) else
    g ← deref s.(GroupDownLoading);
    let index := _rtpfec_get_index (Z.land (g.(rtp_seq_end) + 1) 65535)
                   (Z.land (g.(rtp_seq_end) + s.(rtp_pkt_num)) 65535) pktseq 65535 in
    if in_group s index then rtppkt_next s pkt index
    else rtppkt_downloading s g pkt pktseq in
  if negb (is_null s.(GroupCheckMiss)) then
    c ← deref s.(GroupCheckMiss);
    let index := _rtpfec_get_index c.(rtp_seq_start) c.(rtp_seq_end) pktseq 65535 in
    if in_group s index then
      c ← store_rtp c index pkt;
      Some (s <| GroupCheckMiss := Live c |>, 0)
    else filling
  else filling.

Definition _rtpfec_group_fecpkt_in (s : RTPFECContext) (pkt : DataPacket) (pktseq fec_seq : Z)
    : option (RTPFECContext * Z) :=
  let filling :=
    if is_null s.(GroupDownLoading) then Some (s, -1) else
    g ← deref s.(GroupDownLoading);
    if pktseq =? g.(rtp_seq_start) then
      g ← store_fec s g pkt fec_seq;
      Some (s <| GroupDownLoading := Live g |>, 0)
    else if pktseq =? Z.land (g.(rtp_seq_start) + s.(rtp_pkt_num)) 65535 then
      let s := fst (_rtpfec_group_downloading_to_checkmiss s) in
      c ← deref s.(GroupCheckMiss);
      '(s, ret) ← _rtpfec_create_group_downloading s (Z.land (c.(rtp_seq_end) + 1) 65535);
      if negb (ret =? 0) then Some (s, ret) else
      g ← deref s.(GroupDownLoading);
      g ← store_fec s g pkt fec_seq;
      Some (s <| GroupDownLoading := Live g |>, 0)
    else if pktseq =? Z.land (g.(rtp_seq_start) - s.(rtp_pkt_num)) 65535 then Some (s, 0)
    else Some (s, 0) in
  if negb (is_null s.(GroupCheckMiss)) then
    c ← deref s.(GroupCheckMiss);
    if pktseq =? c.(rtp_seq_start) then
      c ← store_fec s c pkt fec_seq;
      Some (s <| GroupCheckMiss := Live c |>, 0)
    else filling
  else filling.

(** ** Deciding whether to decode *)

(** The RTP loop of [_rtpfec_check_miss] from packet [i], [n] packets left:
    [Some None] is the early return, otherwise the missing packets. The array
    [lost_pkt_idx] has room for 20. *)
Fixpoint scan_rtp (s : RTPFECContext) (lost : list Z) (n : nat) (i : Z) (idx : list Z)
    : option (option (list Z)) :=
  match n with
  | O => Some (Some idx)
  | S n =>
      l ← arr_get lost i;
      if l =? 0 then
        if Z.of_nat (length idx) >=? s.(fec_pkt_num) - 1 then Some None
        else if Z.of_nat (length idx) >=? RTP_FEC_GROUP_PKT_NUM_FEC then None
        else scan_rtp s lost n (i + 1) (idx ++ [i])
      else scan_rtp s lost n (i + 1) idx
  end.

(** The FEC loop; [false] is the early return. *)
Fixpoint scan_fec (s : RTPFECContext) (lost : list Z) (lost_pkt_count : Z) (n : nat)
    (i lost_fec_count : Z) : option bool :=
  match n with
  | O => Some true
  | S n =>
      l ← arr_get lost (s.(rtp_pkt_num) + i);
      if l =? 0 then
        let lost_fec_count := lost_fec_count + 1 in
        if lost_pkt_count + lost_fec_count >=? s.(fec_pkt_num) - 1 then Some false
        else scan_fec s lost lost_pkt_count n (i + 1) lost_fec_count
      else scan_fec s lost lost_pkt_count n (i + 1) lost_fec_count
  end.

(** The missing packets get the length the decoder will give them. *)
Fixpoint set_lens (lens idx : list Z) (len : Z) : option (list Z) :=
  match idx with
  | [] => Some lens
  | i :: idx => lens ← arr_set lens i len; set_lens lens idx len
  end.

Definition _rtpfec_check_miss (s : RTPFECContext) : option (RTPFECContext * Z) :=
  if is_null s.(GroupCheckMiss) then Some (s, 0) else
  g ← deref s.(GroupCheckMiss);
  idx ← scan_rtp s g.(lost_map) (Z.to_nat s.(rtp_pkt_num)) 0 [];
  match idx with
  | None => Some (s, 0)
  | Some idx =>
      let count := Z.of_nat (length idx) in
      go ← scan_fec s g.(lost_map) count (Z.to_nat s.(fec_pkt_num)) 0 0;
      if negb go then Some (s, 0) else
      if count =? 0 then Some (s, 0) else
      lens ← set_lens g.(aPktRtpLen) idx s.(fec_dec_len);
      Some (s <| GroupCheckMiss := Live (g <| aPktRtpLen := lens |>) |>, 1)
  end.
End Groups.

(** ** The receiver *)

(** The receiver with its queues, the RTP parser's state, the sizes the FEC
    library was initialised with (RTP packets, FEC packets, length) and the
    answers the interrupt callback will give (no interrupt once they run out). *)
Record receiver (Q D : Type) := mkReceiver {
  ctx : RTPFECContext;
  ts_queue : Q;
  rtp_queue : Q;
  fec_queue : Q;
  empty_buf_queue : Q;
  rtpdmx : D;
  fec_state : Z * Z * Z;
  interrupts : list bool;
}.
Arguments mkReceiver {Q D}.
Arguments ctx {Q D}.
Arguments ts_queue {Q D}.
Arguments rtp_queue {Q D}.
Arguments fec_queue {Q D}.
Arguments empty_buf_queue {Q D}.
Arguments rtpdmx {Q D}.
Arguments fec_state {Q D}.
Arguments interrupts {Q D}.

#[export] Instance receiver_fields {Q D} : Fields (receiver Q D) := fun r =>
  mkReceiver r.(ctx) r.(ts_queue) r.(rtp_queue) r.(fec_queue) r.(empty_buf_queue)
    r.(rtpdmx) r.(fec_state) r.(interrupts).

(** The functions of libavformat and of the FEC decoder, which are not part of
    the repository. [ff_rtp_parse_packet] is given a packet, or [None] to
    continue with the last one; it returns its code, the media packet it
    produced and whether it kept the buffer. [fec_decode_adp] works with the sizes
    of the last [fec_init_adp] on the buffers of a group. *)
Class RtpExternals (D : Type) := {
  AVERROR_EOF : Z;
  ff_rtp_parse_packet : D -> option (list Z) -> D * Z * list Z * bool;
  fec_decode_adp : Z * Z * Z -> list buffer -> list buffer -> list Z ->
    list buffer * list buffer * list Z * Z;
}.

(** What one round of the loop of [rtpfec_read] does next. *)
Inductive round (W : Type) :=
| Again (w : W)
| Enough (w : W)
| Return (w : W) (ret : Z)
| Blocked (w : W).
Arguments Again {W}.
Arguments Enough {W}.
Arguments Return {W}.
Arguments Blocked {W}.

(** How a call of [rtpfec_read] ends; [Unfinished] when the fuel runs out. *)
Inductive read_result :=
| ReadDone (ret : Z) (bytes : list Z)
| ReadBlocked
| Unfinished.

Section Receiver.
Context {E : AvErrors} {Q D : Type} {QO : PacketQueue Q} {X : RtpExternals D}.
Implicit Types w : receiver Q D.

(** The FEC header behind the RTP header: the sequence numbers of the group, the
    number of FEC packets, the place of this one and the protected length. *)
Definition fec_header (d : list Z) : option (Z * Z * Z * Z * Z) :=
  rtp_seq_start ← AV_RB16 d 12;
  rtp_seq_end ← AV_RB16 d 14;
  fec_num ← AV_RB8 d 16;
  fec_seq ← AV_RB8 d 17;
  dec_len ← AV_RB16 d 20;
  Some (rtp_seq_start, rtp_seq_end, fec_num, fec_seq, dec_len).

(** The first FEC packet starts the groups, after the one it protects. *)
Definition first_fec (s : RTPFECContext) (rtp_seq_end rtp_num fec_num dec_len : Z)
    : option (RTPFECContext * Z) :=
  let s := s <| have_fec := 1 |> <| fec_dec_len := dec_len |>
             <| rtp_pkt_num := rtp_num |> <| fec_pkt_num := fec_num |> in
  p ← (if is_null s.(GroupDownLoading) then Some Null
       else _rtpfec_group_free s.(GroupDownLoading));
  _rtpfec_create_group_downloading (s <| GroupDownLoading := p |>) (Z.land (rtp_seq_end + 1) 65535).

(** A FEC packet taken from the queue. *)
Definition fecpkt_arrived (s : RTPFECContext) (fecpkt : DataPacket) : option (RTPFECContext * Z) :=
  if s.(rtp_seq_lost) =? 0 then Some (s, 0) else
  if RTP_FEC_RTP_HEAD_LEN + RTP_FEC_FEC_HEAD_LEN >=? fecpkt.(data_size) then Some (s, -1) else
  d ← fecpkt.(data);
  '(rtp_seq_start, rtp_seq_end, fec_num, fec_seq, dec_len) ← fec_header d;
  let rtp_num := Z.land (rtp_seq_end + 1 - rtp_seq_start) 65535 in
  if (RTP_FEC_GROUP_PKT_NUM_RTP <? rtp_num)
     || (negb (s.(have_fec) =? 0) && negb (rtp_num =? s.(rtp_pkt_num))) then Some (s, -1) else
  if (RTP_FEC_GROUP_PKT_NUM_FEC <? fec_num)
     || (negb (s.(have_fec) =? 0) && negb (fec_num =? s.(fec_pkt_num))) then Some (s, -1) else
  if fec_num <=? fec_seq then Some (s, -1) else
  '(s, ret) ← (if s.(have_fec) =? 0
               then first_fec s rtp_seq_end rtp_num fec_num dec_len else Some (s, 0));
  if negb (ret =? 0) then Some (s, ret) else
  _rtpfec_group_fecpkt_in s fecpkt rtp_seq_start fec_seq.

Definition _rtpfec_get_fecpkt w : option (receiver Q D * Z) :=
  o ← q_get w.(fec_queue) 0;
  match o with
  | Blocks => None
  | Got q ret pkt =>
      let w := w <| fec_queue := q |> in
      if 0 >=? ret then Some (w, 0) else
      pkt ← pkt;
      '(s, ret) ← fecpkt_arrived w.(ctx) pkt;
      Some (w <| ctx := s |>, ret)
  end.

(** A media packet goes to the output queue, or is dropped. *)
Definition put_ts w (bytes : list Z) : option (receiver Q D) :=
  let len := Z.of_nat (length bytes) in
  '(q, _) ← q_put w.(ts_queue) (mkPkt (Some bytes) 0 len len 0 None);
  Some (w <| ts_queue := q |>).

(** The packets the parser still holds. *)
Fixpoint parse_rest (fuel : nat) w : option (receiver Q D) :=
  match fuel with
  | O => None
  | S fuel =>
      let '(d, ret, bytes, _) := ff_rtp_parse_packet w.(rtpdmx) None in
      let w := w <| rtpdmx := d |> in
      w ← (if (ret =? 0) || (ret =? 1) then put_ts w bytes else Some w);
      if ret =? 1 then parse_rest fuel w else Some w
  end.

(** What follows a call of the parser that returned [ret]. *)
Definition parsed (fuel : nat) w (ret : Z) (bytes : list Z) : option (receiver Q D) :=
  if (ret =? 0) || (ret =? 1) then
    w ← put_ts w bytes;
    if ret =? 1 then parse_rest fuel w else Some w
  else Some w.

(** One packet of the group that is done. *)
Definition drain_done (fuel : nat) w (g : RTPFECPktGroup) : option (receiver Q D) :=
  if g.(pkt_read_pos) >=? w.(ctx).(rtp_pkt_num) then
    s ← _rtpfec_group_done_release w.(ctx); Some (w <| ctx := s |>)
  else
    len ← arr_get g.(aPktRtpLen) g.(pkt_read_pos);
    buf ← arr_get g.(paPktRtp) g.(pkt_read_pos);
    let advance w (g : RTPFECPktGroup) :=
      w <| ctx ::= fun s => s <| GroupDone := Live (g <| pkt_read_pos := g.(pkt_read_pos) + 1 |>) |> |> in
    match buf with
    | Some d =>
        if 0 <? len then
          bytes ← mem_read (Some d) 0 len;
          let '(dm, ret, out, kept) := ff_rtp_parse_packet w.(rtpdmx) (Some bytes) in
          let w := w <| rtpdmx := dm |> in
          g ← (if kept : bool then
                 bufs ← arr_set g.(paPktRtp) g.(pkt_read_pos) None;
                 lens ← arr_set g.(aPktRtpLen) g.(pkt_read_pos) 0;
                 Some (g <| paPktRtp := bufs |> <| aPktRtpLen := lens |>)
               else Some g);
          w ← parsed fuel w ret out;
          Some (advance w g)
        else Some (advance w g)
    | None => Some (advance w g)
    end.

(** The group waiting for late packets is decoded if it has to be and is done.
    The library is initialised once, before the first decoding. *)
Definition finish_check w : option (round (receiver Q D)) :=
  '(s, need_dec) ← _rtpfec_check_miss w.(ctx);
  '(w, ret) ← (if negb (need_dec =? 0) then
                 let w := if s.(fec_init) =? 0
                          then w <| fec_state := (s.(rtp_pkt_num), s.(fec_pkt_num), s.(fec_dec_len)) |>
                          else w in
                 let s := s <| fec_init := 1 |> in
                 c ← deref s.(GroupCheckMiss);
                 let '(rtp, fec, lost, ret) :=
                   fec_decode_adp w.(fec_state) c.(paPktRtp) c.(paPktFec) c.(lost_map) in
                 let c := c <| paPktRtp := rtp |> <| paPktFec := fec |> <| lost_map := lost |> in
                 Some (w <| ctx := s <| GroupCheckMiss := Live c |> |>, ret)
               else Some (w <| ctx := s |>, 0));
  if negb (ret =? 0) then Some (Return w ret) else
  let '(s, ret) := _rtpfec_group_checkmiss_to_done w.(ctx) in
  let w := w <| ctx := s |> in
  if negb (ret =? 0) then Some (Return w (-1)) else Some (Again w).

(** A buffer handed back for reuse, unless the parser kept it. *)
Definition recycle w (pkt : DataPacket) (kept : bool) : option (receiver Q D) :=
  if kept then Some w else
  '(q, _) ← q_put w.(empty_buf_queue) pkt;
  Some (w <| empty_buf_queue := q |>).

(** A packet parsed as it came. *)
Definition parse_now (fuel : nat) w (pkt : DataPacket) : option (receiver Q D) :=
  bytes ← mem_read pkt.(data) 0 pkt.(data_size);
  let '(dm, ret, out, kept) := ff_rtp_parse_packet w.(rtpdmx) (Some bytes) in
  w ← recycle (w <| rtpdmx := dm |>) pkt kept;
  parsed fuel w ret out.

(** Before any loss the sequence numbers are only watched. *)
Definition watch_seq (s : RTPFECContext) (rtp_seq : Z) : RTPFECContext :=
  if s.(rtp_seq_lost) =? 0 then
    let s := if negb (s.(rtp_seq_next) =? -1) && negb (s.(rtp_seq_next) =? rtp_seq)
             then s <| rtp_seq_lost := 1 |> else s in
    s <| rtp_seq_next := Z.land (rtp_seq + 1) 65535 |>
  else s.

(** An RTP packet taken from the queue. *)
Definition rtp_arrived (fuel : nat) w (pkt : DataPacket) : option (round (receiver Q D)) :=
  d ← pkt.(data);
  rtp_seq ← AV_RB16 d 2;
  if negb (w.(ctx).(have_fec) =? 0) then
    let s := w.(ctx) <| check_count ::= fun c => s32 (c + 1) |> in
    '(s, ret) ← _rtpfec_group_rtppkt_in s pkt rtp_seq;
    let w := w <| ctx := s |> in
    if negb (ret =? 0) then w ← parse_now fuel w pkt; Some (Again w)
    else Some (Again w)
  else
    let w := w <| ctx ::= fun s => watch_seq s rtp_seq |> in
    w ← parse_now fuel w pkt; Some (Again w).

Definition get_rtp (fuel : nat) w : option (round (receiver Q D)) :=
  let timeout_ms := if q_size w.(ts_queue) >? 0 then 0 else -1 in
  o ← q_get w.(rtp_queue) timeout_ms;
  match o with
  | Blocks => Some (Blocked w)
  | Got q ret pkt =>
      let w := w <| rtp_queue := q |> in
      if ret <=? 0 then
        if q_size w.(ts_queue) >? 0 then Some (Enough w) else Some (Return w ret)
      else pkt ← pkt; rtp_arrived fuel w pkt
  end.

(** One round of the loop of [rtpfec_read]. *)
Definition rtpfec_round (fuel : nat) w : option (round (receiver Q D)) :=
  let '(stop, rest) := match w.(interrupts) with [] => (false, []) | b :: l => (b, l) end in
  let w := w <| interrupts := rest |> in
  if stop : bool then
    Some (Return (w <| ctx ::= fun s => s <| is_exit := 1 |> |>) AVERROR_EOF)
  else if negb (is_null w.(ctx).(GroupDone)) then
    g ← deref w.(ctx).(GroupDone);
    w ← drain_done fuel w g; Some (Again w)
  else if (w.(ctx).(have_fec) =? 0) && negb (is_null w.(ctx).(GroupCheckMiss)) then
    Some (Again (w <| ctx ::= fun s => fst (_rtpfec_group_checkmiss_to_done s) |>))
  else
    '(w, ret) ← _rtpfec_get_fecpkt w;
    if negb (ret =? 0) then Some (Return w ret) else
    if negb (w.(ctx).(have_fec) =? 0) && negb (is_null w.(ctx).(GroupCheckMiss))
       && (RTP_FEC_CHECK_MISS_COUNT_MAX <? w.(ctx).(check_count))
    then finish_check w
    else get_rtp fuel w.

Fixpoint read_rounds (fuel pfuel : nat) w (size : Z) : option (receiver Q D * read_result) :=
  let finish w :=
    '(q, ret, bytes) ← q_read w.(ts_queue) size;
    Some (w <| ts_queue := q |>, ReadDone ret bytes) in
  if negb (q_size w.(ts_queue) <? size) then finish w else
  match fuel with
  | O => Some (w, Unfinished)
  | S n =>
      r ← rtpfec_round pfuel w;
      match r with
      | Again w => read_rounds n pfuel w size
      | Enough w => finish w
      | Return w ret => Some (w, ReadDone ret [])
      | Blocked w => Some (w, ReadBlocked)
      end
  end.

(** [fuel] bounds the rounds, [pfuel] the packets the parser holds at once. *)
Definition rtpfec_read (fuel pfuel : nat) w (size : Z) : option (receiver Q D * read_result) :=
  if negb (w.(ctx).(is_exit) =? 0) then Some (w, ReadDone AVERROR_EOF [])
  else read_rounds fuel pfuel w size.

(** The groups at [rtpfec_close]; the queues are destroyed as in PktQueue. *)
Definition close_groups (s : RTPFECContext) : option RTPFECContext :=
  let s := s <| is_exit := 1 |> in
  _ ← _rtpfec_group_free s.(GroupDone);
  let s := s <| GroupDone := Null |> in
  _ ← _rtpfec_group_free s.(GroupCheckMiss);
  let s := s <| GroupCheckMiss := Null |> in
  _ ← _rtpfec_group_free s.(GroupDownLoading);
  Some (s <| GroupDownLoading := Null |> <| fec_init := 0 |>).
End Receiver.

#[global] Arguments _rtpfec_get_index : simpl never.
#[global] Arguments store_rtp : simpl never.
#[global] Arguments store_fec : simpl never.
#[global] Arguments zero_group : simpl never.
#[global] Arguments set_slots : simpl never.
#[global] Arguments fec_header : simpl never.
#[global] Arguments _rtpfec_create_group_downloading : simpl never.
#[global] Arguments _rtpfec_check_miss : simpl never.

(** ** Sequence windows *)

(** The place of [seq] in a window that starts at [start], modulo 2^16. *)
Definition seq_dist (start seq : Z) : Z := u16 (seq - start).

Lemma get_index_dist start num seq :
  0 <= start < 65536 -> 1 <= num <= 65535 -> 0 <= seq < 65536 ->
  _rtpfec_get_index start (Z.land (start + num - 1) 65535) seq 65535 =
  if seq_dist start seq <? num then seq_dist start seq else -1.
Proof.
  intros Hs Hn Hq. rewrite land_u16. unfold _rtpfec_get_index, seq_dist.
  assert (u16 (start + num - 1) = if start + num <=? 65536 then start + num - 1
                                   else start + num - 65537) as ->.
  { destruct (Z.leb_spec (start + num) 65536); [apply u16_small; lia|].
    rewrite <- (u16_shift _ (-1)), u16_small; lia. }
  assert (u16 (seq - start) = if start <=? seq then seq - start else seq - start + 65536) as ->.
  { destruct (Z.leb_spec start seq); [apply u16_small; lia|].
    rewrite <- (u16_shift _ 1), u16_small; lia. }
  destruct (Z.leb_spec (start + num) 65536), (Z.leb_spec start seq); zbool.
Qed.

(** ** Deciding whether to decode *)

Section CheckMiss.
Implicit Types (s : RTPFECContext) (lost lens idx : list Z).

(** The places from [lo + i] on, [n] of them, that hold no packet; as offsets
    from [lo]. *)
Definition missing lost (lo i : Z) (n : nat) : list Z :=
  filter (fun j => arr_get lost (lo + j) = Some 0) (seqZ i (Z.of_nat n)).

Lemma missing_S lost lo i n :
  missing lost lo i (S n) =
  (if decide (arr_get lost (lo + i) = Some 0) then [i] else []) ++ missing lost lo (i + 1) n.
Proof.
  unfold missing. rewrite seqZ_cons by lia. rewrite filter_cons.
  replace (Z.pred (Z.of_nat (S n))) with (Z.of_nat n) by lia. unfold Z.succ.
  by case_decide.
Qed.

Lemma missing_range lost lo i n j : j ∈ missing lost lo i n -> i <= j < i + Z.of_nat n.
Proof. unfold missing. intros [_ Hj]%list_elem_of_filter. apply elem_of_seqZ in Hj. lia. Qed.

Lemma scan_rtp_ok s lost n : forall i idx,
  0 <= i -> i + Z.of_nat n <= Z.of_nat (length lost) ->
  1 <= s.(fec_pkt_num) <= 20 -> Z.of_nat (length idx) <= s.(fec_pkt_num) - 1 ->
  scan_rtp s lost n i idx = Some
    (if Z.of_nat (length idx) + Z.of_nat (length (missing lost 0 i n)) <=? s.(fec_pkt_num) - 1
     then Some (idx ++ missing lost 0 i n) else None).
Proof.
  induction n as [|n IH]; intros i idx Hi Hn Hf Hidx; cbn [scan_rtp].
  - change (missing lost 0 i 0) with (@nil Z). cbn. rewrite app_nil_r.
    by rewrite (proj2 (Z.leb_le _ _)) by lia.
  - rewrite missing_S. destruct (arr_get_in lost i ltac:(lia)) as [l Hl]. rewrite Hl.
    cbn [mbind option_bind]. rewrite Z.add_0_l, Hl.
    destruct (Z.eqb_spec l 0) as [->|Hne].
    + rewrite decide_True by done. cbn [app length].
      destruct (Z.geb_spec (Z.of_nat (length idx)) (fec_pkt_num s - 1)).
      * by rewrite (proj2 (Z.leb_gt _ _)) by lia.
      * unfold RTP_FEC_GROUP_PKT_NUM_FEC. zfalse (Z.of_nat (length idx) >=? 20).
        rewrite IH; [|lia|lia|lia|rewrite length_app; cbn; lia].
        rewrite length_app, <- app_assoc. cbn [app length].
        replace (Z.of_nat (length idx + 1)) with (Z.of_nat (length idx) + 1) by lia.
        replace (Z.of_nat (S (length (missing lost 0 (i + 1) n)))) with
          (1 + Z.of_nat (length (missing lost 0 (i + 1) n))) by lia.
        by rewrite Z.add_assoc.
    + rewrite decide_False by congruence. cbn [app]. apply IH; lia.
Qed.

Lemma scan_fec_ok s lost c n : forall i k,
  0 <= i -> 0 <= s.(rtp_pkt_num) ->
  s.(rtp_pkt_num) + i + Z.of_nat n <= Z.of_nat (length lost) ->
  scan_fec s lost c n i k = Some
    (let m := Z.of_nat (length (missing lost s.(rtp_pkt_num) i n)) in
     (m =? 0) || (c + k + m <? s.(fec_pkt_num) - 1)).
Proof.
  induction n as [|n IH]; intros i k Hi Hr Hn; cbn [scan_fec]; [done|].
  rewrite missing_S. destruct (arr_get_in lost (rtp_pkt_num s + i) ltac:(lia)) as [l Hl].
  rewrite Hl. cbn [mbind option_bind].
  destruct (Z.eqb_spec l 0) as [->|Hne].
  - rewrite decide_True by done. cbn [app length]. cbv zeta.
    destruct (Z.geb_spec (c + (k + 1)) (fec_pkt_num s - 1)).
    + f_equal. symmetry. apply orb_false_iff.
      split; [apply Z.eqb_neq; lia|apply Z.ltb_ge; lia].
    + rewrite IH by lia. f_equal. cbv zeta. rewrite Nat2Z.inj_succ, <- Z.add_1_r.
      pose proof (Nat2Z.is_nonneg (length (missing lost (rtp_pkt_num s) (i + 1) n))) as Hm.
      revert Hm. generalize (Z.of_nat (length (missing lost (rtp_pkt_num s) (i + 1) n))).
      intros m Hm. lia.
  - rewrite decide_False by congruence. cbn [app]. apply IH; lia.
Qed.

Lemma set_lens_ok len idx : forall lens,
  (forall j, j ∈ idx -> 0 <= j < Z.of_nat (length lens)) ->
  exists lens', set_lens lens idx len = Some lens' /\ length lens' = length lens /\
    forall i, arr_get lens' i = if decide (i ∈ idx) then Some len else arr_get lens i.
Proof.
  induction idx as [|j idx IH]; intros lens Hj; cbn [set_lens].
  - exists lens. split; [done|]. split; [done|]. intros i. by rewrite decide_False by set_solver.
  - rewrite arr_set_in by (apply Hj; set_solver). cbn.
    destruct (IH (<[Z.to_nat j := len]> lens)) as (lens' & -> & Hl & Hg).
    { intros j' Hj'. rewrite length_insert. apply Hj. set_solver. }
    exists lens'. split; [done|]. split; [by rewrite Hl, length_insert|].
    intros i. rewrite Hg. destruct (decide (i ∈ idx)) as [Hi|Hi].
    + rewrite decide_True; [done|set_solver].
    + destruct (decide (i = j)) as [->|Hne].
      * rewrite decide_True by set_solver. apply arr_get_set_eq, Hj. set_solver.
      * rewrite decide_False by set_solver. apply arr_get_set_ne; [|done].
        apply Hj. set_solver.
Qed.

(** Decoding is worth while and possible: some RTP packet is missing, fewer
    than the FEC packets, with two to spare when FEC packets are missing too. *)
Definition decodable (fec_num rtp_lost fec_lost : Z) : bool :=
  (1 <=? rtp_lost) && (rtp_lost <=? fec_num - 1) &&
  ((fec_lost =? 0) || (rtp_lost + fec_lost <=? fec_num - 2)).

Lemma check_miss_ok s g :
  s.(GroupCheckMiss) = Live g -> length g.(lost_map) = 275%nat ->
  length g.(aPktRtpLen) = 255%nat -> 0 <= s.(rtp_pkt_num) <= 255 ->
  1 <= s.(fec_pkt_num) <= 20 ->
  let R := missing g.(lost_map) 0 0 (Z.to_nat s.(rtp_pkt_num)) in
  let F := missing g.(lost_map) s.(rtp_pkt_num) 0 (Z.to_nat s.(fec_pkt_num)) in
  if decodable s.(fec_pkt_num) (Z.of_nat (length R)) (Z.of_nat (length F)) then
    exists lens,
      _rtpfec_check_miss s = Some (s <| GroupCheckMiss := Live (g <| aPktRtpLen := lens |>) |>, 1) /\
      length lens = 255%nat /\
      forall i, arr_get lens i = if decide (i ∈ R) then Some s.(fec_dec_len)
                                 else arr_get g.(aPktRtpLen) i
  else _rtpfec_check_miss s = Some (s, 0).
Proof.
  intros Hg Hlost Hlens Hr Hf R F. unfold _rtpfec_check_miss. rewrite Hg. cbn [is_null deref].
  cbn [mbind option_bind].
  rewrite scan_rtp_ok by (cbn; lia). cbn [mbind option_bind app length]. fold R.
  unfold decodable. rewrite Z.add_0_l.
  destruct (Z.leb_spec (Z.of_nat (length R)) (fec_pkt_num s - 1)).
  2: { by rewrite andb_false_r. }
  rewrite scan_fec_ok by lia. cbn [mbind option_bind]. fold F. cbv zeta.
  replace (Z.of_nat (length R) + 0 + Z.of_nat (length F) <? fec_pkt_num s - 1) with
    (Z.of_nat (length R) + Z.of_nat (length F) <=? fec_pkt_num s - 2) by lia.
  rewrite andb_true_r.
  destruct ((Z.of_nat (length F) =? 0) || _); cbn [negb]; rewrite ?andb_true_r, ?andb_false_r; [|done].
  destruct (Z.eqb_spec (Z.of_nat (length R)) 0) as [H0|H0]; [by rewrite H0|].
  ztrue (1 <=? Z.of_nat (length R)).
  destruct (set_lens_ok (fec_dec_len s) R (aPktRtpLen g)) as (lens & -> & Hl & Hget).
  { intros j Hj%missing_range. lia. }
  cbn. exists lens. split; [done|]. split; [by rewrite Hl|done].
Qed.
End CheckMiss.

(** ** Well-formed groups *)

Section GroupsOk.
Context {E : AvErrors}.
Implicit Types (s : RTPFECContext) (g : RTPFECPktGroup) (b : buffer).

(** A buffer is NULL or has [L] bytes. *)
Definition buf_ok (L : Z) b : Prop :=
  match b with Some d => Z.of_nat (length d) = L | None => True end.

Record group_ok (num L : Z) g : Prop := {
  gok_rtp : length g.(paPktRtp) = 255%nat;
  gok_len : length g.(aPktRtpLen) = 255%nat;
  gok_fec : length g.(paPktFec) = 20%nat;
  gok_lost : length g.(lost_map) = 275%nat;
  gok_rtp_bufs : Forall (buf_ok L) g.(paPktRtp);
  gok_fec_bufs : Forall (buf_ok L) g.(paPktFec);
  gok_lens : Forall (fun l => 0 <= l <= L) g.(aPktRtpLen);
  gok_start : 0 <= g.(rtp_seq_start) < 65536;
  gok_end : g.(rtp_seq_end) = u16 (g.(rtp_seq_start) + num - 1);
  gok_pos : 0 <= g.(pkt_read_pos);
}.

(** A group that is being filled: it has all its buffers. *)
Definition group_full (num fecn L : Z) g : Prop :=
  group_ok num L g /\
  (forall i, 0 <= i < num -> exists d, arr_get g.(paPktRtp) i = Some (Some d)) /\
  (forall i, 0 <= i < fecn -> exists d, arr_get g.(paPktFec) i = Some (Some d)).

Definition ptr_ok (P : RTPFECPktGroup -> Prop) (p : group_ptr) : Prop :=
  match p with Null => True | Dangling => False | Live g => P g end.

(** The receiver never holds a dangling pointer, its groups have the sizes of
    the stream, and without FEC no group is being filled. *)
Record ctx_ok (L : Z) s : Prop := {
  cok_have : s.(have_fec) = 0 \/ s.(have_fec) = 1;
  cok_num : 0 <= s.(rtp_pkt_num) <= 255;
  cok_fec : 0 <= s.(fec_pkt_num) <= 20;
  cok_fec1 : s.(have_fec) = 1 -> 1 <= s.(fec_pkt_num) /\ s.(fec_dec_len) = L;
  cok_done : ptr_ok (group_ok s.(rtp_pkt_num) s.(fec_dec_len)) s.(GroupDone);
  cok_check : ptr_ok (group_full s.(rtp_pkt_num) s.(fec_pkt_num) s.(fec_dec_len)) s.(GroupCheckMiss);
  cok_down : ptr_ok (group_full s.(rtp_pkt_num) s.(fec_pkt_num) s.(fec_dec_len)) s.(GroupDownLoading);
  cok_none : s.(have_fec) = 0 -> s.(GroupDownLoading) = Null;
  cok_mem : s.(mallocs) = None;
}.

(** Packets as the sockets deliver them: the data lies in the buffer, an RTP
    packet is no longer than the protected length [L], and an FEC packet that is
    long enough to be looked at announces [L] and carries it. *)
Definition rtp_ok (L : Z) (n : DataPacket) : Prop :=
  pkt_ok n /\ n.(data_size) <= L /\
  exists d, n.(data) = Some d /\ 4 <= Z.of_nat (length d) /\ n.(data_size) <= Z.of_nat (length d) /\
    Forall (fun x => 0 <= x < 256) d.

Definition fec_ok (L : Z) (n : DataPacket) : Prop :=
  24 < n.(data_size) ->
  exists d, n.(data) = Some d /\ 24 + L <= Z.of_nat (length d) /\
    Forall (fun x => 0 <= x < 256) d /\ AV_RB16 d 20 = Some L.

Lemma byte_get d i x : Forall (fun x => 0 <= x < 256) d -> arr_get d i = Some x -> 0 <= x < 256.
Proof.
  unfold arr_get. case_match; [|done]. intros Hd Hx. by eapply Forall_lookup_1 in Hd.
Qed.

Lemma rb16 d i : Forall (fun x => 0 <= x < 256) d -> 0 <= i -> i + 1 < Z.of_nat (length d) ->
  exists v, AV_RB16 d i = Some v /\ 0 <= v < 65536.
Proof.
  intros Hd Hi Hl. unfold AV_RB16.
  destruct (arr_get_in d i ltac:(lia)) as [a Ha]. rewrite Ha. cbn.
  destruct (arr_get_in d (i + 1) ltac:(lia)) as [b Hb]. rewrite Hb. cbn.
  apply byte_get in Ha; [|done]. apply byte_get in Hb; [|done].
  eexists. split; [done|]. lia.
Qed.

Lemma rb8 d i : Forall (fun x => 0 <= x < 256) d -> 0 <= i < Z.of_nat (length d) ->
  exists v, AV_RB8 d i = Some v /\ 0 <= v < 256.
Proof.
  intros Hd Hi. destruct (arr_get_in d i Hi) as [a Ha]. exists a. split; [done|]. by eapply byte_get.
Qed.

(** Allocating all the buffers of a group. *)
Lemma alloc_all n L :
  0 <= L -> alloc_slots n L None = (replicate n (Some (replicate (Z.to_nat L) 0)), None, true).
Proof. intros HL. induction n as [|n IH]; cbn; [done|]. by rewrite IH. Qed.

Lemma set_slots_replicate (slots : list buffer) n b :
  (n <= length slots)%nat -> set_slots slots (replicate n b) = Some (replicate n b ++ drop n slots).
Proof.
  intros Hn. unfold set_slots. rewrite length_replicate. by rewrite (proj2 (Nat.leb_le _ _)).
Qed.

Lemma filled_slots (N n : nat) L :
  0 <= L -> (n <= N)%nat ->
  let b := Some (replicate (Z.to_nat L) 0) in
  let l : list buffer := replicate n b ++ drop n (replicate N None) in
  length l = N /\ Forall (buf_ok L) l /\
  forall i, 0 <= i < Z.of_nat n -> arr_get l i = Some b.
Proof.
  intros HL Hn b l. subst l. rewrite drop_replicate. split_and!.
  - rewrite length_app, !length_replicate. lia.
  - apply Forall_app. split; apply Forall_replicate; [|done]. cbn. rewrite length_replicate. lia.
  - intros i Hi. unfold arr_get. ztrue (0 <=? i).
    rewrite lookup_app_l by (rewrite length_replicate; lia). apply lookup_replicate_2. lia.
Qed.

#[local] Arguments replicate : simpl never.

Lemma zero_group_eq :
  zero_group = mkGroup (replicate 255 None) (replicate 255 0) (replicate 20 None)
                 (replicate 275 0) 0 0 0 0 0.
Proof. done. Qed.

Lemma create_ok s start :
  s.(GroupDownLoading) = Null -> s.(mallocs) = None -> 0 <= s.(rtp_pkt_num) <= 255 ->
  0 <= s.(fec_pkt_num) <= 20 -> 0 <= s.(fec_dec_len) -> 0 <= start < 65536 ->
  exists g, _rtpfec_create_group_downloading s start =
              Some (s <| GroupDownLoading := Live g |>, 0) /\
    group_full s.(rtp_pkt_num) s.(fec_pkt_num) s.(fec_dec_len) g /\ g.(rtp_seq_start) = start /\
    g.(pkt_read_pos) = 0 /\
    g.(aPktRtpLen) = replicate 255 0 /\ g.(lost_map) = replicate 275 0.
Proof.
  intros Hn Hm Hr Hf HL Hs. unfold _rtpfec_create_group_downloading. rewrite Hn, Hm. cbn.
  rewrite alloc_all by done. cbn. rewrite zero_group_eq. cbn.
  rewrite set_slots_replicate by (rewrite length_replicate; lia). cbn.
  rewrite alloc_all by done. cbn.
  rewrite set_slots_replicate by (rewrite length_replicate; lia). cbn.
  destruct (filled_slots 255 (Z.to_nat (rtp_pkt_num s)) (fec_dec_len s)) as (A1 & A2 & A3); [lia|lia|].
  destruct (filled_slots 20 (Z.to_nat (fec_pkt_num s)) (fec_dec_len s)) as (B1 & B2 & B3); [lia|lia|].
  set (g := if _ <? _ then _ else _).
  exists g. split.
  { by destruct s; cbn in *; subst. }
  assert (paPktRtp g = replicate (Z.to_nat (rtp_pkt_num s)) (Some (replicate (Z.to_nat (fec_dec_len s)) 0))
            ++ drop (Z.to_nat (rtp_pkt_num s)) (replicate 255 None) /\
    paPktFec g = replicate (Z.to_nat (fec_pkt_num s)) (Some (replicate (Z.to_nat (fec_dec_len s)) 0))
            ++ drop (Z.to_nat (fec_pkt_num s)) (replicate 20 None) /\
    aPktRtpLen g = replicate 255 0 /\ lost_map g = replicate 275 0 /\ pkt_read_pos g = 0 /\
    rtp_seq_start g = start /\ rtp_seq_end g = Z.land (start + rtp_pkt_num s - 1) 65535)
    as (G1 & G2 & G3 & G4 & G5 & G6 & G7) by (subst g; by case_match).
  clearbody g. split; [|by split_and!]. split; [split|split].
  - by rewrite G1.
  - by rewrite G3.
  - by rewrite G2.
  - by rewrite G4.
  - by rewrite G1.
  - by rewrite G2.
  - rewrite G3. apply Forall_replicate. lia.
  - by rewrite G6.
  - by rewrite G6, G7, land_u16.
  - by rewrite G5.
  - intros i Hi. rewrite G1, A3 by lia. by eexists.
  - intros i Hi. rewrite G2, B3 by lia. by eexists.
Qed.

Lemma arr_get_elem {A} (a : list A) i x : arr_get a i = Some x -> x ∈ a.
Proof. unfold arr_get. case_match; [|done]. apply list_elem_of_lookup_2. Qed.

Lemma mem_read_prefix (d : list Z) n :
  0 <= n <= Z.of_nat (length d) -> mem_read (Some d) 0 n = Some (take (Z.to_nat n) d).
Proof.
  intros Hn. unfold mem_read. destruct (Z.eqb_spec n 0) as [->|]; [done|]. cbn.
  rewrite Z.add_0_l. by ztrue ((0 <=? n) && (n <=? Z.of_nat (length d))).
Qed.

Lemma mem_write_length dst bytes :
  (length bytes <= length dst)%nat ->
  exists d, mem_write dst bytes = Some d /\ length d = length dst /\ d = bytes ++ drop (length bytes) dst.
Proof.
  intros Hl. unfold mem_write. rewrite (proj2 (Nat.leb_le _ _)) by done.
  eexists. split; [done|]. split; [|done]. rewrite length_app, length_drop. lia.
Qed.

(** The packet a slot holds: its first [len] bytes. *)
Definition slot_holds g (i : Z) (bytes : list Z) : Prop :=
  (exists d, arr_get g.(paPktRtp) i = Some (Some d) /\ take (length bytes) d = bytes) /\
  arr_get g.(aPktRtpLen) i = Some (Z.of_nat (length bytes)) /\
  arr_get g.(lost_map) i = Some 1.

(** The slots other than [i], and everything but the RTP slots, are the same. *)
Definition other_slots g g' (i : Z) : Prop :=
  (forall j, j <> i -> arr_get g'.(paPktRtp) j = arr_get g.(paPktRtp) j /\
     arr_get g'.(aPktRtpLen) j = arr_get g.(aPktRtpLen) j /\
     arr_get g'.(lost_map) j = arr_get g.(lost_map) j) /\
  g'.(paPktFec) = g.(paPktFec) /\ g'.(pkt_read_pos) = g.(pkt_read_pos) /\
  g'.(rtp_seq_start) = g.(rtp_seq_start) /\ g'.(rtp_seq_end) = g.(rtp_seq_end).

Lemma group_full_rtp num fecn L g g' i d :
  group_full num fecn L g -> 0 <= i < 255 -> Z.of_nat (length d) = L ->
  length g'.(paPktRtp) = 255%nat ->
  arr_get g'.(paPktRtp) i = Some (Some d) -> other_slots g g' i ->
  g'.(paPktRtp) = <[Z.to_nat i := Some d]> g.(paPktRtp) ->
  length g'.(aPktRtpLen) = 255%nat -> length g'.(lost_map) = 275%nat ->
  Forall (fun l => 0 <= l <= L) g'.(aPktRtpLen) -> group_full num fecn L g'.
Proof.
  intros ([] & Hr & Hf) Hi Hd Hl Hgi (Ho & E1 & E2 & E3 & E4) Hrtp Hlens Hlost Hfl.
  split; [split|split]; rewrite ?E1, ?E2, ?E3, ?E4; try done.
  - rewrite Hrtp. apply Forall_insert; done.
  - intros j Hj. destruct (decide (j = i)) as [->|Hne]; [by eexists|].
    destruct (Ho j Hne) as (-> & _). by apply Hr.
Qed.

Lemma store_rtp_ok num fecn L g i n :
  group_full num fecn L g -> rtp_ok L n -> 0 <= i < num -> num <= 255 ->
  exists g' bytes, store_rtp g i n = Some g' /\ group_full num fecn L g' /\
    mem_read n.(data) 0 n.(data_size) = Some bytes /\ slot_holds g' i bytes /\ other_slots g g' i.
Proof.
  intros Hg ((_ & Hds & _) & HL & d & Hd & _ & Hdl & _) Hi Hn.
  pose proof Hg as ([Hl1 Hl2 Hl3 Hl4 Hb1 Hb2 Hln Hst Hen Hps] & Hr & Hf).
  destruct (Hr i Hi) as [b Hb]. unfold store_rtp. rewrite Hb. cbn.
  rewrite Hd, mem_read_prefix by lia. cbn.
  set (bytes := take (Z.to_nat (data_size n)) d).
  assert (length bytes = Z.to_nat (data_size n)) as Hbl by (unfold bytes; rewrite length_take; lia).
  assert (Z.of_nat (length b) = L) as Hbd.
  { apply arr_get_elem in Hb. rewrite Forall_forall in Hb1. apply (Hb1 _ Hb). }
  destruct (mem_write_length b bytes) as (b' & -> & Hb'l & Hb'); [lia|]. cbn.
  rewrite !arr_set_in by lia. cbn.
  set (g' := if _ >? _ then _ else _). exists g', bytes.
  assert (paPktRtp g' = <[Z.to_nat i := Some b']> (paPktRtp g) /\
    aPktRtpLen g' = <[Z.to_nat i := data_size n]> (aPktRtpLen g) /\
    lost_map g' = <[Z.to_nat i := 1]> (lost_map g) /\ paPktFec g' = paPktFec g /\
    pkt_read_pos g' = pkt_read_pos g /\ rtp_seq_start g' = rtp_seq_start g /\
    rtp_seq_end g' = rtp_seq_end g) as (G1 & G2 & G3 & G4 & G5 & G6 & G7)
    by (subst g'; by case_match).
  clearbody g'.
  assert (other_slots g g' i) as Ho.
  { split; [|by split_and!]. intros j Hj. rewrite G1, G2, G3, !arr_get_set_ne by lia. done. }
  assert (arr_get (paPktRtp g') i = Some (Some b')) as Hgi by (rewrite G1; apply arr_get_set_eq; lia).
  split; [done|]. split; [|split; [done|split; [|done]]].
  - apply (group_full_rtp _ _ _ g g' i b'); try done; try lia.
    + by rewrite G1, length_insert.
    + by rewrite G2, length_insert.
    + by rewrite G3, length_insert.
    + rewrite G2. apply Forall_insert; [done|lia].
  - split; [|split].
    + exists b'. split; [done|]. by rewrite Hb', take_app_length.
    + rewrite G2, arr_get_set_eq by lia. f_equal. lia.
    + by rewrite G3, arr_get_set_eq by lia.
Qed.

Lemma store_fec_ok s g n i :
  group_full s.(rtp_pkt_num) s.(fec_pkt_num) s.(fec_dec_len) g -> fec_ok s.(fec_dec_len) n ->
  24 < n.(data_size) -> 0 <= i < s.(fec_pkt_num) -> s.(fec_pkt_num) <= 20 ->
  0 <= s.(rtp_pkt_num) <= 255 -> 0 <= s.(fec_dec_len) ->
  exists g', store_fec s g n i = Some g' /\
    group_full s.(rtp_pkt_num) s.(fec_pkt_num) s.(fec_dec_len) g' /\
    arr_get g'.(lost_map) (s.(rtp_pkt_num) + i) = Some 1 /\
    g'.(paPktRtp) = g.(paPktRtp) /\ g'.(aPktRtpLen) = g.(aPktRtpLen) /\
    g'.(rtp_seq_start) = g.(rtp_seq_start).
Proof.
  intros Hg Hn Hds Hi Hf20 Hr255 HL. destruct (Hn Hds) as (d & Hd & Hdl & _).
  pose proof Hg as ([Hl1 Hl2 Hl3 Hl4 Hb1 Hb2 Hln Hst Hen Hps] & Hr & Hf).
  destruct (Hf i Hi) as [b Hb]. unfold store_fec. rewrite Hb. cbn. rewrite Hd.
  assert (exists bytes, mem_read (Some d) 24 (fec_dec_len s) = Some bytes /\
          Z.of_nat (length bytes) = fec_dec_len s) as (bytes & -> & Hbl).
  { unfold mem_read. destruct (Z.eqb_spec (fec_dec_len s) 0) as [H0|]; [rewrite H0; by exists []|].
    cbn. ztrue ((0 <=? fec_dec_len s) && (24 + fec_dec_len s <=? Z.of_nat (length d))).
    eexists. split; [done|]. rewrite length_take, length_drop. lia. }
  cbn. assert (Z.of_nat (length b) = fec_dec_len s) as Hbd.
  { apply arr_get_elem in Hb. rewrite Forall_forall in Hb2. apply (Hb2 _ Hb). }
  destruct (mem_write_length b bytes) as (b' & -> & Hb'l & Hb'); [lia|]. cbn.
  rewrite !arr_set_in by lia. cbn. eexists. split; [done|].
  split; [|split_and!; try done; cbn; apply arr_get_set_eq; lia].
  split; [split|split]; cbn; rewrite ?length_insert; try done.
  - apply Forall_insert; [done|]. cbn. lia.
  - intros j Hj. destruct (decide (j = i)) as [->|Hne].
    + rewrite arr_get_set_eq by lia. by eexists.
    + rewrite arr_get_set_ne by lia. by apply Hf.
Qed.

(** The sizes of the stream, which moving groups does not change. *)
Definition same_stream s s' : Prop :=
  s'.(rtp_pkt_num) = s.(rtp_pkt_num) /\ s'.(fec_pkt_num) = s.(fec_pkt_num) /\
  s'.(fec_dec_len) = s.(fec_dec_len) /\ s'.(mallocs) = s.(mallocs) /\
  s'.(have_fec) = s.(have_fec).

Lemma to_done_ok L s :
  ctx_ok L s -> s.(GroupDone) = Null ->
  let s' := fst (_rtpfec_group_checkmiss_to_done s) in
  snd (_rtpfec_group_checkmiss_to_done s) = 0 /\ ctx_ok L s' /\ s'.(GroupCheckMiss) = Null /\
  s'.(GroupDone) = s.(GroupCheckMiss) /\ s'.(GroupDownLoading) = s.(GroupDownLoading) /\
  same_stream s s' /\ s'.(check_count) = s.(check_count).
Proof.
  intros [] Hd. unfold _rtpfec_group_checkmiss_to_done. rewrite Hd. cbn.
  split; [done|]. split; [|by split_and!]. split; cbn; try done.
  destruct (GroupCheckMiss s); [done|done|]. by destruct cok_check0.
Qed.

Lemma to_check_ok L s :
  ctx_ok L s -> s.(GroupCheckMiss) = Null ->
  let s' := fst (_rtpfec_group_downloading_to_checkmiss s) in
  snd (_rtpfec_group_downloading_to_checkmiss s) = 0 /\ ctx_ok L s' /\
  s'.(GroupCheckMiss) = s.(GroupDownLoading) /\ s'.(GroupDone) = s.(GroupDone) /\
  s'.(GroupDownLoading) = Null /\ same_stream s s'.
Proof.
  intros [] Hd. unfold _rtpfec_group_downloading_to_checkmiss. rewrite Hd. cbn.
  split; [done|]. split; [|by split_and!]. by split.
Qed.

Lemma set_check_ok L s g :
  ctx_ok L s -> group_full s.(rtp_pkt_num) s.(fec_pkt_num) s.(fec_dec_len) g ->
  ctx_ok L (s <| GroupCheckMiss := Live g |>).
Proof. intros [] Hg. by split. Qed.

Lemma set_down_ok L s g :
  ctx_ok L s -> s.(have_fec) = 1 ->
  group_full s.(rtp_pkt_num) s.(fec_pkt_num) s.(fec_dec_len) g ->
  ctx_ok L (s <| GroupDownLoading := Live g |>).
Proof. intros [] Hh Hg. split; cbn; try done. lia. Qed.

(** Whatever is waiting for late packets makes room. *)
Definition make_room s : RTPFECContext :=
  if negb (is_null s.(GroupCheckMiss)) then fst (_rtpfec_group_checkmiss_to_done s) else s.

Lemma make_room_ok L s :
  ctx_ok L s -> s.(GroupDone) = Null ->
  ctx_ok L (make_room s) /\ (make_room s).(GroupCheckMiss) = Null /\
  (make_room s).(GroupDownLoading) = s.(GroupDownLoading) /\ same_stream s (make_room s).
Proof.
  intros Hs Hd. unfold make_room. destruct (GroupCheckMiss s) eqn:Hc; cbn.
  - split; [done|]. split; [done|]. by split_and!.
  - destruct Hs. by rewrite Hc in cok_check0.
  - destruct (to_done_ok L s Hs Hd) as (_ & ? & ? & _ & ? & ? & _). done.
Qed.

(** The group after [g], created behind it. *)
Lemma next_group_ok L s g :
  ctx_ok L s -> s.(have_fec) = 1 -> s.(GroupCheckMiss) = Null -> s.(GroupDownLoading) = Live g ->
  0 <= L ->
  let s1 := fst (_rtpfec_group_downloading_to_checkmiss s) in
  exists g' s2,
    s1.(GroupCheckMiss) = Live g /\
    _rtpfec_create_group_downloading s1 (Z.land (g.(rtp_seq_end) + 1) 65535) = Some (s2, 0) /\
    s2 = s1 <| GroupDownLoading := Live g' |> /\
    ctx_ok L s2 /\ same_stream s s2 /\
    group_full s.(rtp_pkt_num) s.(fec_pkt_num) s.(fec_dec_len) g' /\
    g'.(rtp_seq_start) = u16 (g.(rtp_seq_end) + 1).
Proof.
  intros Hs Hh Hc Hg HL s1. destruct (to_check_ok L s Hs Hc) as (_ & Hs1 & Hc1 & _ & Hd1 & Hst).
  fold s1 in Hs1, Hc1, Hd1, Hst. destruct Hst as (E1 & E2 & E3 & E4 & E5).
  rewrite Hg in Hc1. pose proof Hs1 as [].
  destruct (cok_fec2 ltac:(congruence)) as [Hf1 HdL].
  destruct (create_ok s1 (Z.land (g.(rtp_seq_end) + 1) 65535)) as (g' & Hcr & Hg' & Hst' & _);
    try done; [by rewrite HdL|rewrite land_u16; apply u16_range|].
  rewrite E1, E2, E3 in Hg'.
  exists g', (s1 <| GroupDownLoading := Live g' |>). split; [done|]. split; [done|].
  split; [done|]. split.
  - apply set_down_ok; [done|congruence|]. by rewrite E1, E2, E3.
  - split; [by split_and!|]. split; [done|]. by rewrite <- land_u16.
Qed.

Lemma rtppkt_in_ok L s n seq :
  ctx_ok L s -> s.(have_fec) = 1 -> s.(GroupDone) = Null -> rtp_ok L n -> 0 <= L ->
  exists s' ret, _rtpfec_group_rtppkt_in s n seq = Some (s', ret) /\ ctx_ok L s'.
Proof.
  intros Hs Hh Hd Hn HL. pose proof Hs as [].
  destruct (cok_fec2 Hh) as [Hf1 HdL]. rewrite HdL in *.
  assert (forall i, in_group s i = true -> 0 <= i < rtp_pkt_num s) as Hin by (unfold in_group; lia).
  assert (exists s' ret,
    (if is_null s.(GroupDownLoading) then Some (s, -1) else
     g ← deref s.(GroupDownLoading);
     let index := _rtpfec_get_index (Z.land (g.(rtp_seq_end) + 1) 65535)
                    (Z.land (g.(rtp_seq_end) + s.(rtp_pkt_num)) 65535) seq 65535 in
     if in_group s index then rtppkt_next s n index
     else rtppkt_downloading s g n seq) = Some (s', ret) /\ ctx_ok L s') as Hfill.
  { destruct (GroupDownLoading s) as [| |g] eqn:Hg; cbn; [by eexists _, _|done|].
    destruct (make_room_ok L s Hs Hd) as (Hm & Hmc & Hmd & E1 & E2 & E3 & E4 & E5).
    case_match.
    - unfold rtppkt_next. fold (make_room s).
      destruct (next_group_ok L (make_room s) g) as (g' & s2 & Hc1 & Hcr & -> & Hs2 & Hst2 & Hg' & _);
        try done; [congruence|congruence|].
      destruct (to_check_ok L (make_room s) Hm Hmc) as (Hret & _).
      destruct (_rtpfec_group_downloading_to_checkmiss (make_room s)) as [s1 r]. cbn in *. subst r.
      cbn. rewrite Hc1. cbn. rewrite Hcr. cbn.
      rewrite E1, E2, E3, HdL in Hg'.
      destruct (store_rtp_ok _ _ _ g' _ n Hg' Hn (Hin _ H)) as (g2 & bytes & -> & Hg2 & _); [lia|].
      cbn. eexists _, _. split; [done|]. destruct Hst2 as (F1 & F2 & F3 & F4 & F5). cbn in *.
      apply (set_down_ok L (s1 <| GroupDownLoading := Live g' |>)); [done|cbn; congruence|].
      cbn. by rewrite F1, F2, F3, E1, E2, E3, HdL.
    - unfold rtppkt_downloading. case_match.
      + destruct (store_rtp_ok _ _ _ g _ n cok_down0 Hn (Hin _ H0)) as (g2 & bytes & -> & Hg2 & _);
          [lia|]. cbn. eexists _, _. split; [done|]. apply set_down_ok; [done|done|]. by rewrite HdL.
      + fold (make_room s). destruct (to_check_ok L (make_room s) Hm Hmc) as (_ & Hs1 & _ & _ & Hn1 & _).
        eexists _, _. split; [done|]. destruct Hs1. split; cbn; try done. by left. }
  unfold _rtpfec_group_rtppkt_in.
  destruct (GroupCheckMiss s) as [| |c] eqn:Hc; cbn [is_null negb]; [exact Hfill|done|].
  cbn [deref mbind option_bind].
  destruct (in_group s (_rtpfec_get_index (rtp_seq_start c) (rtp_seq_end c) seq 65535)) eqn:H;
    [|exact Hfill].
  destruct (store_rtp_ok _ _ _ c _ n cok_check0 Hn (Hin _ H)) as (c2 & bytes & -> & Hc2 & _); [lia|].
  cbn. eexists _, _. split; [done|]. apply set_check_ok; [done|]. by rewrite HdL.
Qed.

Lemma fecpkt_in_ok L s n seq i :
  ctx_ok L s -> s.(have_fec) = 1 -> fec_ok L n -> 24 < n.(data_size) ->
  0 <= i < s.(fec_pkt_num) -> 0 <= L ->
  exists s' ret, _rtpfec_group_fecpkt_in s n seq i = Some (s', ret) /\ ctx_ok L s' /\
    s'.(GroupDone) = s.(GroupDone).
Proof.
  intros Hs Hh Hn Hds Hi HL. pose proof Hs as [].
  destruct (cok_fec2 Hh) as [Hf1 HdL].
  assert (forall s0 g, same_stream s s0 ->
    group_full s0.(rtp_pkt_num) s0.(fec_pkt_num) s0.(fec_dec_len) g ->
    exists g', store_fec s0 g n i = Some g' /\
      group_full s0.(rtp_pkt_num) s0.(fec_pkt_num) s0.(fec_dec_len) g') as Hstore.
  { intros s0 g (E1 & E2 & E3 & _) Hg.
    destruct (store_fec_ok s0 g n i) as (g' & ? & ? & _); rewrite ?E1, ?E2, ?E3; try done; try lia.
    - by rewrite E1, E2, E3 in Hg.
    - by rewrite HdL.
    - exists g'. by rewrite <- E1, <- E2, <- E3. }
  assert (same_stream s s) as Hss by by split_and!.
  unfold _rtpfec_group_fecpkt_in.
  match goal with |- context [if negb (is_null (GroupCheckMiss s)) then _ else ?f] =>
    assert (exists s' ret, f = Some (s', ret) /\ ctx_ok L s' /\ s'.(GroupDone) = s.(GroupDone)) as Hfill end.
  { destruct (GroupDownLoading s) as [| |g] eqn:Hg; cbn [is_null]; [by eexists _, _|done|].
    cbn [deref mbind option_bind].
    destruct (seq =? rtp_seq_start g); cbn [orb].
    { destruct (Hstore s g Hss cok_down0) as (g' & -> & Hg'). cbn. eexists _, _. split; [done|].
      split; [|done]. by apply set_down_ok. }
    destruct (seq =? Z.land (rtp_seq_start g + rtp_pkt_num s) 65535).
    2: { destruct (seq =? _); by eexists _, _. }
    destruct (GroupCheckMiss s) as [| |c] eqn:Hc; [|done|].
    - destruct (next_group_ok L s g Hs Hh Hc Hg HL) as (g' & s2 & Hc1 & Hcr & -> & Hs2 & Hst2 & Hg' & _).
      rewrite Hc1. cbn [deref mbind option_bind]. rewrite Hcr. cbn.
      match goal with |- context [store_fec ?x g' n i] =>
        destruct (Hstore x g' Hst2) as (g2 & -> & Hg2) end.
      { destruct Hst2 as (F1 & F2 & F3 & _). cbn in *. by rewrite F1, F2, F3. }
      cbn. eexists _, _. split; [done|]. split.
      + pose proof Hst2 as (_ & _ & _ & _ & F5). apply (set_down_ok L _ g2 Hs2); [|done].
        cbn in F5 |- *. congruence.
      + destruct (to_check_ok L s Hs Hc) as (_ & _ & _ & Hgd & _). done.
    - unfold _rtpfec_group_downloading_to_checkmiss. rewrite Hc. cbn.
      unfold _rtpfec_create_group_downloading. rewrite Hc, Hg. cbn.
      rewrite Hg. cbn. destruct (Hstore s g Hss cok_down0) as (g' & -> & Hg'). cbn.
      eexists _, _. split; [done|]. split; [|done]. by apply set_down_ok. }
  destruct (GroupCheckMiss s) as [| |c] eqn:Hc; cbn [is_null negb]; [exact Hfill|done|].
  cbn [deref mbind option_bind]. destruct (seq =? rtp_seq_start c); [|exact Hfill].
  destruct (Hstore s c Hss cok_check0) as (c' & -> & Hc'). cbn. eexists _, _. split; [done|].
  split; [|done]. by apply set_check_ok.
Qed.

Lemma first_fec_ok L s last num fecn :
  ctx_ok L s -> s.(have_fec) = 0 -> s.(GroupDone) = Null -> s.(GroupCheckMiss) = Null ->
  0 <= num <= 255 -> 1 <= fecn <= 20 -> 0 <= L ->
  exists s', first_fec s last num fecn L = Some (s', 0) /\ ctx_ok L s' /\ s'.(have_fec) = 1 /\
    s'.(fec_pkt_num) = fecn /\ s'.(GroupDone) = Null.
Proof.
  intros [] Hh Hd Hc Hn Hf HL. unfold first_fec. cbn. rewrite cok_none0 by done. cbn.
  match goal with |- context [_rtpfec_create_group_downloading ?x ?q] =>
    destruct (create_ok x q) as (g & -> & Hg & _); cbn; try done; try lia end.
  { rewrite land_u16. apply u16_range. }
  eexists. split; [done|]. split; [|by split_and!].
  split; cbn; rewrite ?Hd, ?Hc; try done; lia.
Qed.

Lemma fecpkt_arrived_ok L s n :
  ctx_ok L s -> s.(GroupDone) = Null -> (s.(have_fec) = 0 -> s.(GroupCheckMiss) = Null) ->
  fec_ok L n -> 0 <= L < 65536 ->
  exists s' ret, fecpkt_arrived s n = Some (s', ret) /\ ctx_ok L s' /\ s'.(GroupDone) = Null.
Proof.
  intros Hs Hd Hc Hn HL. unfold fecpkt_arrived.
  unfold RTP_FEC_RTP_HEAD_LEN, RTP_FEC_FEC_HEAD_LEN, RTP_FEC_GROUP_PKT_NUM_RTP,
    RTP_FEC_GROUP_PKT_NUM_FEC.
  case_match; [by eexists _, _|].
  destruct (Z.geb_spec (12 + 12) (data_size n)) as [|Hds]; [by eexists _, _|].
  destruct (Hn ltac:(lia)) as (d & Hdat & Hdl & Hby & Hdec). rewrite Hdat. cbn [mbind option_bind].
  unfold fec_header. 
  destruct (rb16 d 12 Hby) as (a & -> & Ha); [lia|lia|]. cbn [mbind option_bind].
  destruct (rb16 d 14 Hby) as (b & -> & Hb); [lia|lia|]. cbn [mbind option_bind].
  destruct (rb8 d 16 Hby) as (fn & -> & Hfn); [lia|]. cbn [mbind option_bind].
  destruct (rb8 d 17 Hby) as (fs & -> & Hfs); [lia|]. cbn [mbind option_bind].
  rewrite Hdec. cbn [mbind option_bind].
  set (num := Z.land (b + 1 - a) 65535).
  assert (0 <= num < 65536) as Hnum by (subst num; rewrite land_u16; apply u16_range).
  destruct ((255 <? num) || _) eqn:H1; [by eexists _, _|].
  destruct ((20 <? fn) || _) eqn:H2; [by eexists _, _|].
  destruct (Z.leb_spec fn fs) as [|Hfs']; [by eexists _, _|].
  pose proof Hs as [].
  destruct (Z.eqb_spec (have_fec s) 0) as [Hh|Hh].
  - destruct (first_fec_ok L s b num fn Hs Hh Hd (Hc Hh)) as (s1 & -> & Hs1 & Hh1 & Hf1 & Hd1);
      [lia|lia|lia|]. cbn.
    destruct (fecpkt_in_ok L s1 n a fs Hs1 Hh1 Hn) as (s2 & r & -> & Hs2 & Hd2); [lia|lia|lia|].
    eexists _, _. split; [done|]. split; [done|]. congruence.
  - cbn. assert (fn = fec_pkt_num s) as -> by (cbn in H2; lia).
    destruct (fecpkt_in_ok L s n a fs Hs ltac:(lia) Hn) as (s2 & r & -> & Hs2 & Hd2); [lia|lia|lia|].
    eexists _, _. split; [done|]. split; [done|]. congruence.
Qed.
End GroupsOk.

(** ** Every round is safe *)

(** What the model relies on of libavformat and the decoder: the parser holds a
    bounded number of packets, one less each time it is asked for more, of
    bounded size; the decoder writes into the buffers it is given. *)
Definition same_shape (b b' : buffer) : Prop :=
  match b, b' with
  | Some d, Some d' => length d = length d'
  | None, None => True
  | _, _ => False
  end.

Class RtpExternalsOk (D : Type) {X : RtpExternals D} := {
  pending : D -> nat;
  pending_max : nat;
  out_max : Z;
  out_max_small : out_max < 2147483648;
  pending_le d : (pending d <= pending_max)%nat;
  parse_more d d' out kept :
    ff_rtp_parse_packet d None = (d', 1, out, kept) -> (pending d' < pending d)%nat;
  parse_out d x d' r out kept :
    ff_rtp_parse_packet d x = (d', r, out, kept) -> Z.of_nat (length out) <= out_max;
  decode_shape k rtp fec lost rtp' fec' lost' r :
    fec_decode_adp k rtp fec lost = (rtp', fec', lost', r) ->
    Forall2 same_shape rtp rtp' /\ Forall2 same_shape fec fec' /\ length lost' = length lost;
}.

Section Safety.
Context {E : AvErrors} {Q D : Type} {QO : PacketQueue Q} {QOk : PacketQueueOk Q}
  {X : RtpExternals D} {XOk : RtpExternalsOk D}.
Context (L : Z) (HL : 0 <= L < 65536) (Hout : out_max <= q_packet).
Implicit Types (w : receiver Q D) (s : RTPFECContext).

Definition queues_ok w : Prop :=
  (exists l, q_holds w.(ts_queue) l) /\
  (exists l, q_holds w.(rtp_queue) l /\ Forall (fun n => rtp_ok L n /\ n.(buf_size) <= q_packet) l) /\
  (exists l, q_holds w.(fec_queue) l /\ Forall (fec_ok L) l) /\
  (exists l, q_holds w.(empty_buf_queue) l).

Definition receiver_ok w : Prop := ctx_ok L w.(ctx) /\ queues_ok w.

Lemma put_ts_ok w bytes :
  queues_ok w -> Z.of_nat (length bytes) <= out_max ->
  exists w', put_ts w bytes = Some w' /\ queues_ok w' /\ w'.(ctx) = w.(ctx) /\ w'.(rtpdmx) = w.(rtpdmx).
Proof.
  intros ([lt Ht] & Hr & Hf & He) Hb. unfold put_ts.
  set (n := mkPkt _ _ _ _ _ _). pose proof out_max_small.
  destruct (pkt_valid n) eqn:Hv.
  - destruct (q_put_total w.(ts_queue) n lt Ht) as (q & r & l' & -> & Hq & _).
    + split_and!; cbn; try lia. intros _. eexists. split; [done|]. lia.
    + cbn. lia.
    + cbn. eexists. split; [done|]. split; [|done]. split; [by exists l'|done].
  - rewrite q_put_invalid by done. cbn. eexists. split; [done|]. split; [|done].
    split; [by exists lt|done].
Qed.

Lemma parse_rest_ok fuel : forall w,
  queues_ok w -> (pending w.(rtpdmx) < fuel)%nat ->
  exists w', parse_rest fuel w = Some w' /\ queues_ok w' /\ w'.(ctx) = w.(ctx).
Proof.
  induction fuel as [|fuel IH]; intros w Hw Hf; [lia|]. cbn [parse_rest].
  destruct (ff_rtp_parse_packet (rtpdmx w) None) as [[[d r] out] kept] eqn:Hp.
  pose proof (parse_out _ _ _ _ _ _ Hp) as Ho.
  assert (queues_ok (w <| rtpdmx := d |>)) as Hw1 by done.
  assert (exists w1, (if (r =? 0) || (r =? 1) then put_ts (w <| rtpdmx := d |>) out
     else Some (w <| rtpdmx := d |>)) = Some w1 /\ queues_ok w1 /\ ctx w1 = ctx w /\ rtpdmx w1 = d)
    as (w1 & -> & Hq1 & Hc1 & Hd1).
  { case_match; [|by eexists]. destruct (put_ts_ok _ out Hw1 Ho) as (w1 & -> & ? & ? & ?).
    by exists w1. }
  cbn [mbind option_bind]. destruct (Z.eqb_spec r 1) as [->|]; [|by exists w1].
  destruct (IH w1 Hq1) as (w2 & -> & ? & ?).
  - pose proof (parse_more _ _ _ _ Hp). rewrite Hd1. lia.
  - exists w2. split_and!; [done|done|congruence].
Qed.

Lemma parsed_ok fuel w r out :
  queues_ok w -> Z.of_nat (length out) <= out_max -> (pending_max < fuel)%nat ->
  exists w', parsed fuel w r out = Some w' /\ queues_ok w' /\ w'.(ctx) = w.(ctx).
Proof.
  intros Hw Ho Hf. unfold parsed. case_match; [|by exists w].
  destruct (put_ts_ok w out Hw Ho) as (w1 & -> & Hw1 & Hc1 & _). cbn.
  case_match; [|by exists w1].
  destruct (parse_rest_ok fuel w1 Hw1) as (w2 & -> & ? & ?).
  - pose proof (pending_le w1.(rtpdmx)). lia.
  - exists w2. split_and!; [done|done|congruence].
Qed.

Lemma parse_now_ok fuel w n :
  queues_ok w -> rtp_ok L n -> n.(buf_size) <= q_packet -> (pending_max < fuel)%nat ->
  exists w', parse_now fuel w n = Some w' /\ queues_ok w' /\ w'.(ctx) = w.(ctx).
Proof.
  intros Hw Hn HnB Hf. pose proof Hn as (Hpk & _ & d & Hd & _ & Hdl & _).
  unfold parse_now. rewrite Hd, mem_read_prefix by (destruct Hpk; lia). cbn.
  destruct (ff_rtp_parse_packet _ _) as [[[dm r] out] kept] eqn:Hp.
  pose proof (parse_out _ _ _ _ _ _ Hp) as Ho.
  assert (exists w1, recycle (w <| rtpdmx := dm |>) n kept = Some w1 /\ queues_ok w1 /\ ctx w1 = ctx w)
    as (w1 & -> & Hw1 & Hc1).
  { unfold recycle. destruct kept; [by eexists|]. destruct Hw as (Ht & Hr & Hfq & [le He]).
    destruct (q_put_total w.(empty_buf_queue) n le He) as (q & r' & l' & Hq & Hql & _); [done|done|].
    cbn. rewrite Hq. cbn. eexists. split; [done|]. split; [|done].
    split; [done|]. split; [done|]. split; [done|]. by exists l'. }
  cbn. destruct (parsed_ok fuel w1 r out Hw1 Ho Hf) as (w2 & -> & ? & ?).
  exists w2. split_and!; [done|done|congruence].
Qed.

Lemma get_fecpkt_ok w :
  receiver_ok w -> w.(ctx).(GroupDone) = Null ->
  (w.(ctx).(have_fec) = 0 -> w.(ctx).(GroupCheckMiss) = Null) ->
  exists w' r, _rtpfec_get_fecpkt w = Some (w', r) /\ receiver_ok w' /\
    w'.(ctx).(GroupDone) = Null.
Proof.
  intros [Hs (Ht & Hr & [lf [Hf Hfl]] & He)] Hd Hc. unfold _rtpfec_get_fecpkt.
  destruct lf as [|n lf].
  - destruct (q_get_empty w.(fec_queue) Hf) as (r & -> & Hr0). cbn.
    ztrue (0 >=? r). eexists _, _. split; [done|]. split; [|done]. split; [done|].
    split; [done|]. split; [done|]. split; [by exists []|done].
  - destruct (q_get_head w.(fec_queue) n lf 0 Hf) as (q & -> & Hq & _). cbn.
    apply Forall_cons in Hfl as [Hn Hfl].
    assert (queues_ok (w <| fec_queue := q |>)) as Hw1.
    { split; [done|]. split; [done|]. split; [by exists lf|done]. }
    case_match; [by eexists _, _|].
    destruct (fecpkt_arrived_ok L w.(ctx) n Hs Hd Hc Hn HL) as (s' & r & -> & Hs' & Hd').
    cbn. by eexists _, _.
Qed.

Lemma forall2_shape (P : buffer -> Prop) l l' :
  (forall b b', P b -> same_shape b b' -> P b') ->
  Forall2 same_shape l l' -> Forall P l -> Forall P l'.
Proof.
  intros HP. induction 1 as [|b b' l l' Hb _ IH]; [done|].
  intros [? ?]%Forall_cons. constructor; [by eapply HP|by apply IH].
Qed.

Lemma shape_get l l' i d :
  Forall2 same_shape l l' -> arr_get l i = Some (Some d) -> exists d', arr_get l' i = Some (Some d').
Proof.
  intros Hl. unfold arr_get. case_match; [|done]. intros Hi.
  destruct (Forall2_lookup_l _ _ _ _ _ Hl Hi) as (b' & Hb' & Hsh). destruct b' as [d'|]; [|done].
  by exists d'.
Qed.

Lemma shape_buf_ok K b b' : buf_ok K b -> same_shape b b' -> buf_ok K b'.
Proof. destruct b, b'; cbn; try done. by intros <- ->. Qed.

Lemma decode_full num fecn K g k rtp fec lost r :
  group_full num fecn K g ->
  fec_decode_adp k g.(paPktRtp) g.(paPktFec) g.(lost_map) = (rtp, fec, lost, r) ->
  group_full num fecn K (g <| paPktRtp := rtp |> <| paPktFec := fec |> <| lost_map := lost |>).
Proof.
  intros ([] & Hr & Hf) (Sr & Sf & Sl)%decode_shape.
  split; [split|split]; cbn; try done.
  - by rewrite <- (Forall2_length _ _ _ Sr).
  - by rewrite <- (Forall2_length _ _ _ Sf).
  - by rewrite Sl.
  - eapply forall2_shape; [apply shape_buf_ok|exact Sr|done].
  - eapply forall2_shape; [apply shape_buf_ok|exact Sf|done].
  - intros i Hi. destruct (Hr i Hi) as [d Hd]. by eapply shape_get.
  - intros i Hi. destruct (Hf i Hi) as [d Hd]. by eapply shape_get.
Qed.

(** The lengths that [_rtpfec_check_miss] sets. *)
Lemma check_miss_keeps s :
  ctx_ok L s -> s.(have_fec) = 1 ->
  exists s' r, _rtpfec_check_miss s = Some (s', r) /\ ctx_ok L s' /\ s'.(have_fec) = 1 /\
    s'.(GroupDone) = s.(GroupDone) /\
    (is_null s.(GroupCheckMiss) = false -> is_null s'.(GroupCheckMiss) = false).
Proof.
  intros Hs Hh. pose proof Hs as [].
  destruct (cok_fec2 Hh) as [Hf1 HdL].
  destruct (GroupCheckMiss s) as [| |g] eqn:Hg.
  { unfold _rtpfec_check_miss. rewrite Hg. cbn. eexists _, _. split; [done|]. by rewrite Hg. }
  { done. }
  destruct cok_check0 as ([] & Hr & Hf).
  pose proof (check_miss_ok s g Hg gok_lost0 gok_len0 cok_num0 ltac:(lia)) as Hc. cbv zeta in Hc.
  destruct (decodable _ _ _).
  - destruct Hc as (lens & -> & Hlen & Hget). eexists _, _. split; [done|]. split; [|done].
    apply set_check_ok; [done|]. split; [split|split]; cbn; try done.
    apply Forall_lookup_2. intros i l Hl.
    assert (arr_get lens (Z.of_nat i) = Some l) as Hl' by by rewrite arr_get_nat.
    rewrite Hget in Hl'. case_decide; [simplify_eq; lia|].
    rewrite arr_get_nat in Hl'. by eapply Forall_lookup_1 in gok_lens0.
  - rewrite Hc. eexists _, _. split; [done|]. by rewrite Hg.
Qed.

Lemma finish_check_ok w :
  receiver_ok w -> w.(ctx).(have_fec) = 1 -> w.(ctx).(GroupDone) = Null ->
  is_null w.(ctx).(GroupCheckMiss) = false ->
  exists w', receiver_ok w' /\
    (finish_check w = Some (Again w') \/ exists r, finish_check w = Some (Return w' r)).
Proof.
  intros [Hs Hq] Hh Hd Hn. unfold finish_check.
  destruct (check_miss_keeps w.(ctx) Hs Hh) as (s & r & -> & Hs1 & Hh1 & Hd1 & Hn1). cbn.
  specialize (Hn1 Hn).
  match goal with |- context [(if negb (r =? 0) then ?a else ?b) ≫= _] =>
    assert (exists w2 r2, (if negb (r =? 0) then a else b) = Some (w2, r2) /\ receiver_ok w2 /\
      w2.(ctx).(GroupDone) = Null) as (w2 & r2 & -> & [Hs2 Hq2] & Hd2) end.
  { destruct (negb (r =? 0)); [|eexists _, _; split; [done|]; split; [by split|by rewrite <- Hd, <- Hd1]].
    destruct (GroupCheckMiss s) as [| |c] eqn:Hc; [done| |].
    - pose proof (cok_check _ _ Hs1) as Hx. by rewrite Hc in Hx.
    - cbn. destruct (fec_decode_adp _ _ _ _) as [[[rtp fec] lost] r'] eqn:Hdec.
      eexists _, _. split; [done|]. split; [split|by rewrite <- Hd, <- Hd1].
      + pose proof (cok_check _ _ Hs1) as Hx. rewrite Hc in Hx.
        apply (set_check_ok L (s <| fec_init := 1 |>)); [by destruct Hs1|].
        by apply (decode_full _ _ _ _ _ _ _ _ _ Hx) in Hdec.
      + by destruct (fec_init s =? 0). }
  cbn. destruct (negb (r2 =? 0)).
  - eexists. split; [|right; by eexists]. by split.
  - destruct (to_done_ok L w2.(ctx) Hs2 Hd2) as (Hret & Hs3 & _).
    destruct (_rtpfec_group_checkmiss_to_done w2.(ctx)) as [s3 r3]. cbn in Hret, Hs3 |- *. subst r3. cbn.
    eexists. split; [|by left]. by split.
Qed.

Lemma set_done_ok s g :
  ctx_ok L s -> group_ok s.(rtp_pkt_num) s.(fec_dec_len) g -> ctx_ok L (s <| GroupDone := Live g |>).
Proof. intros [] Hg. by split. Qed.

Lemma advance_ok num K g : group_ok num K g -> group_ok num K (g <| pkt_read_pos := g.(pkt_read_pos) + 1 |>).
Proof. intros []. split; cbn; try done. lia. Qed.

Lemma drain_done_ok fuel w g :
  receiver_ok w -> w.(ctx).(GroupDone) = Live g -> (pending_max < fuel)%nat ->
  exists w', drain_done fuel w g = Some w' /\ receiver_ok w'.
Proof.
  intros [Hs Hq] Hg Hf. pose proof Hs as []. rewrite Hg in cok_done0. pose proof cok_done0 as [].
  unfold drain_done. destruct (Z.geb_spec (pkt_read_pos g) (rtp_pkt_num (ctx w))) as [Hp|Hp].
  { unfold _rtpfec_group_done_release. rewrite Hg. cbn. rewrite gok_fec0, gok_rtp0.
    rewrite !(proj2 (Z.leb_le _ _)) by lia.
    cbn. eexists. split; [done|]. split; [|done]. by split. }
  destruct (arr_get_in (aPktRtpLen g) (pkt_read_pos g) ltac:(lia)) as [len Hlen].
  destruct (arr_get_in (paPktRtp g) (pkt_read_pos g) ltac:(lia)) as [buf Hbuf].
  rewrite Hlen, Hbuf. cbn [mbind option_bind].
  assert (forall w1 g1, receiver_ok w1 -> same_stream (ctx w) (ctx w1) ->
    group_ok (rtp_pkt_num (ctx w)) (fec_dec_len (ctx w)) g1 ->
    receiver_ok (w1 <| ctx ::= fun s => s <| GroupDone :=
      Live (g1 <| pkt_read_pos := g1.(pkt_read_pos) + 1 |>) |> |>)) as Hadv.
  { intros w1 g1 [Hs1 Hq1] (E1 & E2 & E3 & _) Hg1. split; [|done]. cbn.
    apply set_done_ok; [done|]. apply advance_ok. by rewrite E1, E3. }
  assert (same_stream (ctx w) (ctx w)) as Hss by by split_and!.
  destruct buf as [d|]; [|eexists; split; [done|]; by apply Hadv].
  destruct (Z.ltb_spec 0 len); [|eexists; split; [done|]; by apply Hadv].
  assert (Z.of_nat (length d) = fec_dec_len (ctx w)) as Hdl.
  { apply arr_get_elem in Hbuf. rewrite Forall_forall in gok_rtp_bufs0. apply (gok_rtp_bufs0 _ Hbuf). }
  assert (len <= fec_dec_len (ctx w)) as Hle.
  { apply arr_get_elem in Hlen. rewrite Forall_forall in gok_lens0. apply (gok_lens0 _ Hlen). }
  rewrite mem_read_prefix by lia. cbn [mbind option_bind].
  destruct (ff_rtp_parse_packet _ _) as [[[dm r] out] kept] eqn:Hparse.
  pose proof (parse_out _ _ _ _ _ _ Hparse) as Ho.
  match goal with |- context [(if kept then ?a else ?b) ≫= _] =>
    assert (exists g1, (if kept then a else b) = Some g1 /\
      group_ok (rtp_pkt_num (ctx w)) (fec_dec_len (ctx w)) g1) as (g1 & -> & Hg1) end.
  { destruct kept; [|by exists g].
    rewrite !arr_set_in by lia. cbn. eexists. split; [done|]. split; cbn; rewrite ?length_insert; try done.
    - by apply Forall_insert.
    - apply Forall_insert; [done|lia]. }
  cbn [mbind option_bind].
  match goal with |- context [parsed fuel ?x r out] =>
    destruct (parsed_ok fuel x r out Hq Ho Hf) as (w1 & -> & Hq1 & Hc1) end.
  cbn [mbind option_bind]. eexists. split; [done|]. apply Hadv; [|by rewrite Hc1|done].
  split; [by rewrite Hc1|done].
Qed.

Lemma watch_seq_ok s q : ctx_ok L s -> ctx_ok L (watch_seq s q).
Proof. intros []. unfold watch_seq. repeat case_match; by split. Qed.

Lemma rtp_arrived_ok fuel w n :
  receiver_ok w -> w.(ctx).(GroupDone) = Null -> rtp_ok L n -> n.(buf_size) <= q_packet ->
  (pending_max < fuel)%nat ->
  exists w', rtp_arrived fuel w n = Some (Again w') /\ receiver_ok w'.
Proof.
  intros [Hs Hq] Hd Hn HnB Hf. pose proof Hn as (_ & _ & d & Hdat & Hdl & _ & Hby).
  unfold rtp_arrived. rewrite Hdat. cbn [mbind option_bind].
  destruct (rb16 d 2 Hby) as (seq & -> & Hseq); [lia|lia|]. cbn [mbind option_bind].
  pose proof (cok_have _ _ Hs) as Hhave.
  destruct (Z.eqb_spec (have_fec (ctx w)) 0) as [Hh|Hh]; cbn [negb].
  - destruct (parse_now_ok fuel (w <| ctx ::= fun s => watch_seq s seq |>) n) as (w1 & -> & Hq1 & Hc1);
      [done|done|done|done|].
    cbn. eexists. split; [done|]. split; [|done]. rewrite Hc1. by apply watch_seq_ok.
  - assert (ctx_ok L (w.(ctx) <| check_count ::= fun c => s32 (c + 1) |>)) as Hs1 by by destruct Hs.
    destruct (rtppkt_in_ok L _ n seq Hs1) as (s2 & r & -> & Hs2); [cbn; lia|done|done|lia|].
    cbn [mbind option_bind]. destruct (negb (r =? 0)).
    + destruct (parse_now_ok fuel (w <| ctx := s2 |>) n) as (w1 & -> & Hq1 & Hc1);
        [done|done|done|done|].
      cbn. eexists. split; [done|]. split; [|done]. by rewrite Hc1.
    + eexists. split; [done|]. by split.
Qed.

(** What a round may end with. *)
Definition round_ok (r : round (receiver Q D)) : Prop :=
  match r with
  | Again w | Return w _ | Blocked w => receiver_ok w
  | Enough w => receiver_ok w /\ 0 < q_size w.(ts_queue)
  end.

Lemma get_rtp_ok fuel w :
  receiver_ok w -> w.(ctx).(GroupDone) = Null -> (pending_max < fuel)%nat ->
  exists r, get_rtp fuel w = Some r /\ round_ok r.
Proof.
  intros [Hs (Ht & [lr [Hr Hrl]] & Hfq & He)] Hd Hf. unfold get_rtp.
  destruct lr as [|n lr].
  - assert (queues_ok w) as Hqw by (split_and!; [done|by exists []|done|done]).
    destruct (Z.gtb_spec (q_size (ts_queue w)) 0).
    + destruct (q_get_empty w.(rtp_queue) Hr) as (r & -> & Hr0). cbn.
      ztrue (r <=? 0). ztrue (q_size (ts_queue w) >? 0). eexists. split; [done|].
      split; [|done]. by split.
    + rewrite q_get_waits by done. cbn. eexists. split; [done|]. by split.
  - match goal with |- context [q_get (rtp_queue w) ?t] =>
      destruct (q_get_head w.(rtp_queue) n lr t Hr) as (q & -> & Hql & _) end. cbn.
    apply Forall_cons in Hrl as [[Hn HnB] Hrl].
    assert (receiver_ok (w <| rtp_queue := q |>)) as Hw1.
    { split; [done|]. split; [done|]. split; [by exists lr|done]. }
    destruct (data_size n <=? 0).
    + destruct (Z.gtb_spec (q_size (ts_queue w)) 0); (eexists; split; [done|]); [|done].
      by split.
    + destruct (rtp_arrived_ok fuel _ n Hw1 Hd Hn HnB Hf) as (w2 & -> & Hw2).
      by eexists.
Qed.

Lemma rtpfec_round_ok fuel w :
  receiver_ok w -> (pending_max < fuel)%nat ->
  exists r, rtpfec_round fuel w = Some r /\ round_ok r.
Proof.
  intros Hw Hf. unfold rtpfec_round.
  destruct (match interrupts w with [] => (false, []) | b :: l => (b, l) end) as [stop rest].
  assert (receiver_ok (w <| interrupts := rest |>)) as Hw1 by done.
  assert (ctx (w <| interrupts := rest |>) = ctx w) as Hc1 by done.
  set (w1 := w <| interrupts := rest |>) in *. clearbody w1. cbv zeta.
  destruct stop.
  { eexists. split; [done|]. cbn. destruct Hw1 as [[] ?]. split; [by split|done]. }
  destruct Hw1 as [Hs1 Hq1].
  destruct (GroupDone (ctx w1)) as [| |g] eqn:Hd; cbn [is_null negb].
  2: { pose proof (cok_done _ _ Hs1) as Hx. by rewrite Hd in Hx. }
  2: { destruct (drain_done_ok fuel w1 g (conj Hs1 Hq1) Hd Hf) as (w2 & Hdr & Hw2).
       cbn [deref mbind option_bind]. rewrite Hdr. cbn. eexists. by split. }
  destruct ((have_fec (ctx w1) =? 0) && negb (is_null (GroupCheckMiss (ctx w1)))) eqn:Hmv.
  { eexists. split; [done|]. cbn. destruct (to_done_ok L (ctx w1) Hs1 Hd) as (_ & ? & _).
    by split. }
  destruct (get_fecpkt_ok w1 (conj Hs1 Hq1) Hd) as (w2 & r & -> & Hw2 & Hd2).
  { intros Hh. rewrite Hh in Hmv. cbn in Hmv. by destruct (GroupCheckMiss (ctx w1)). }
  cbn [mbind option_bind]. destruct (negb (r =? 0)); [eexists; by split|].
  destruct (negb (have_fec (ctx w2) =? 0) && _ && _) eqn:Hck.
  - apply andb_prop in Hck as [[Hh Hn]%andb_prop _].
    pose proof Hw2 as [Hs2 _]. pose proof (cok_have _ _ Hs2).
    destruct (finish_check_ok w2 Hw2) as (w3 & Hw3 & [-> | [r' ->]]); [lia|done| |by eexists|by eexists].
    by apply negb_true_iff.
  - by apply get_rtp_ok.
Qed.

Lemma read_rounds_ok fuel pfuel size : forall w,
  receiver_ok w -> (pending_max < pfuel)%nat -> 0 < size < 2147483648 ->
  exists w' r, read_rounds fuel pfuel w size = Some (w', r) /\ receiver_ok w'.
Proof.
  assert (forall w, receiver_ok w -> 0 < size < 2147483648 -> 0 < q_size w.(ts_queue) ->
    exists w' r, ('(q, ret, bytes) ← q_read w.(ts_queue) size;
      Some (w <| ts_queue := q |>, ReadDone ret bytes)) = Some (w', r) /\ receiver_ok w') as Hfin.
  { intros w [Hs ([lt Ht] & Hr & Hfq & He)] Hsz Hpos.
    destruct (q_read_stream w.(ts_queue) lt size Ht Hsz) as (q & l' & bytes & -> & Hq & _).
    - intros Hn. rewrite (q_size_total _ _ Ht), Hn in Hpos. cbn in Hpos. lia.
    - cbn. eexists _, _. split; [done|]. split; [done|]. split; [by exists l'|done]. }
  induction fuel as [|fuel IH]; intros w Hw Hf Hsz; cbn [read_rounds].
  - destruct (Z.ltb_spec (q_size (ts_queue w)) size); cbn [negb]; [by eexists _, _|].
    apply Hfin; [done|done|lia].
  - destruct (Z.ltb_spec (q_size (ts_queue w)) size); cbn [negb]; [|apply Hfin; [done|done|lia]].
    destruct (rtpfec_round_ok pfuel w Hw Hf) as (r & -> & Hr). cbn [mbind option_bind].
    destruct r as [w1|w1|w1 ret|w1]; cbn in Hr.
    + by apply IH.
    + destruct Hr as [Hr Hpos]. by apply Hfin.
    + by eexists _, _.
    + by eexists _, _.
Qed.
End Safety.

(** ** Where a packet goes *)

Section Placement.
Context {E : AvErrors}.
Implicit Types (s : RTPFECContext) (g c : RTPFECPktGroup).

(** [seq] lies in the window of [num] numbers from [start]. *)
Definition in_window (start num seq : Z) : bool := seq_dist start seq <? num.

Lemma seq_dist_range start seq : 0 <= seq_dist start seq < 65536.
Proof. apply u16_range. Qed.

Lemma index_of_group s g L seq :
  group_ok s.(rtp_pkt_num) L g -> 1 <= s.(rtp_pkt_num) <= 255 -> 0 <= seq < 65536 ->
  let i := _rtpfec_get_index g.(rtp_seq_start) g.(rtp_seq_end) seq 65535 in
  in_group s i = in_window g.(rtp_seq_start) s.(rtp_pkt_num) seq /\
  (in_group s i = true -> i = seq_dist g.(rtp_seq_start) seq).
Proof.
  intros [] Hn Hq i. subst i. rewrite gok_end0, <- land_u16, get_index_dist by lia.
  pose proof (seq_dist_range g.(rtp_seq_start) seq).
  unfold in_group, in_window. destruct (Z.ltb_spec (seq_dist (rtp_seq_start g) seq) (rtp_pkt_num s));
    [|done]. split; [|done]. lia.
Qed.

(** The first number after the window of a group. *)
Definition seq_after g (num : Z) : Z := u16 (g.(rtp_seq_start) + num).

Lemma seq_end_next L g num :
  group_ok num L g -> 1 <= num <= 255 ->
  Z.land (g.(rtp_seq_end) + 1) 65535 = seq_after g num /\
  Z.land (g.(rtp_seq_end) + num) 65535 = Z.land (seq_after g num + num - 1) 65535.
Proof.
  intros [] Hn. rewrite !land_u16, gok_end0. unfold seq_after, u16. split.
  - rewrite Zplus_mod_idemp_l. f_equal. lia.
  - rewrite Zplus_mod_idemp_l. rewrite <- (Zminus_mod_idemp_l (_ + num)), Zplus_mod_idemp_l,
      Zminus_mod_idemp_l. f_equal. lia.
Qed.

Lemma index_of_next s g L seq :
  group_ok s.(rtp_pkt_num) L g -> 1 <= s.(rtp_pkt_num) <= 255 -> 0 <= seq < 65536 ->
  let i := _rtpfec_get_index (Z.land (g.(rtp_seq_end) + 1) 65535)
             (Z.land (g.(rtp_seq_end) + s.(rtp_pkt_num)) 65535) seq 65535 in
  in_group s i = in_window (seq_after g s.(rtp_pkt_num)) s.(rtp_pkt_num) seq /\
  (in_group s i = true -> i = seq_dist (seq_after g s.(rtp_pkt_num)) seq).
Proof.
  intros Hg Hn Hq i. destruct (seq_end_next L g (rtp_pkt_num s) Hg Hn) as [E1 E2].
  subst i. rewrite E1, E2, get_index_dist; [|apply u16_range|lia|lia].
  pose proof (seq_dist_range (seq_after g (rtp_pkt_num s)) seq).
  unfold in_group, in_window.
  destruct (Z.ltb_spec (seq_dist (seq_after g (rtp_pkt_num s)) seq) (rtp_pkt_num s)); [|done].
  split; [|done]. lia.
Qed.

(** Storing puts the packet at its distance from the group's first number and
    leaves the rest of the group alone. *)
Definition stored g g' (start seq : Z) (bytes : list Z) : Prop :=
  slot_holds g' (seq_dist start seq) bytes /\ other_slots g g' (seq_dist start seq).

(** The group waiting for late packets takes the number. *)
Definition late s seq : Prop :=
  exists c, s.(GroupCheckMiss) = Live c /\ in_window c.(rtp_seq_start) s.(rtp_pkt_num) seq = true.

Lemma store_at num fecn L g i n start seq bytes :
  group_full num fecn L g -> rtp_ok L n -> mem_read n.(data) 0 n.(data_size) = Some bytes ->
  i = seq_dist start seq -> 0 <= i < num -> num <= 255 ->
  exists g', store_rtp g i n = Some g' /\ stored g g' start seq bytes.
Proof.
  intros Hg Hn Hb -> Hi Hnum.
  destruct (store_rtp_ok num fecn L g _ n Hg Hn Hi Hnum) as (g' & b & Hst & _ & Hb' & Hs & Ho).
  exists g'. rewrite Hb in Hb'. simplify_eq. by split.
Qed.

(** A group is filled, or created behind the current one, or everything moves
    on because the number belongs to none. *)
Definition filled s s' g seq bytes : Prop :=
  let num := s.(rtp_pkt_num) in
  if in_window (seq_after g num) num seq then
    exists g0 g', stored g0 g' (seq_after g num) seq bytes /\
      g0.(aPktRtpLen) = replicate 255 0 /\ g0.(lost_map) = replicate 275 0 /\
      g0.(rtp_seq_start) = seq_after g num /\
      s'.(GroupDownLoading) = Live g' /\ s'.(GroupCheckMiss) = Live g /\
      s'.(GroupDone) = s.(GroupCheckMiss) /\ s'.(have_fec) = 1
  else if in_window g.(rtp_seq_start) num seq then
    exists g', stored g g' g.(rtp_seq_start) seq bytes /\ s' = s <| GroupDownLoading := Live g' |>
  else
    s'.(GroupDownLoading) = Null /\ s'.(GroupCheckMiss) = Live g /\
    s'.(GroupDone) = s.(GroupCheckMiss) /\ s'.(have_fec) = 0.

Lemma make_room_moves s :
  s.(GroupDone) = Null -> s.(GroupCheckMiss) <> Dangling ->
  (make_room s).(GroupDone) = s.(GroupCheckMiss) /\ (make_room s).(GroupCheckMiss) = Null /\
  (make_room s).(GroupDownLoading) = s.(GroupDownLoading) /\ same_stream s (make_room s).
Proof.
  intros Hd Hc. unfold make_room, _rtpfec_group_checkmiss_to_done. rewrite Hd. cbn.
  destruct (GroupCheckMiss s) eqn:He; [|done|]; cbn; rewrite ?He; by split_and!.
Qed.

Lemma rtppkt_fill L s n seq bytes g :
  ctx_ok L s -> s.(have_fec) = 1 -> s.(GroupDone) = Null -> rtp_ok L n -> 0 <= L ->
  1 <= s.(rtp_pkt_num) -> 0 <= seq < 65536 -> s.(GroupDownLoading) = Live g ->
  mem_read n.(data) 0 n.(data_size) = Some bytes ->
  exists s',
    (let index := _rtpfec_get_index (Z.land (g.(rtp_seq_end) + 1) 65535)
                    (Z.land (g.(rtp_seq_end) + s.(rtp_pkt_num)) 65535) seq 65535 in
     if in_group s index then rtppkt_next s n index
     else rtppkt_downloading s g n seq) = Some (s', 0) /\ filled s s' g seq bytes.
Proof.
  intros Hs Hh Hd Hn HL Hnum Hq Hg Hb. pose proof Hs as [].
  destruct (cok_fec2 Hh) as [Hf1 HdL]. rewrite HdL, ?Hg in *. cbn in cok_down0.
  pose proof cok_down0 as (Hgo & _).
  destruct (index_of_next s g L seq Hgo ltac:(lia) Hq) as [Hn1 Hn2].
  destruct (index_of_group s g L seq Hgo ltac:(lia) Hq) as [Hw1 Hw2].
  assert (GroupCheckMiss s <> Dangling) as Hcd by (intros Hx; by rewrite Hx in cok_check0).
  destruct (make_room_moves s Hd Hcd) as (M1 & M2 & M3 & M4 & M5 & M6 & M7 & M8).
  unfold filled. cbv zeta. rewrite <- Hn1.
  destruct (in_group s (_rtpfec_get_index (Z.land _ _) _ _ _)) eqn:Hin.
  - specialize (Hn2 eq_refl). unfold rtppkt_next. fold (make_room s).
    destruct (make_room_ok L s Hs Hd) as (Hm & _).
    destruct (next_group_ok L (make_room s) g Hm) as (g0 & s2 & Hc1 & Hcr & -> & _ & _ & Hg0 & Hst0);
      [congruence|done|congruence|done|].
    destruct (create_ok (fst (_rtpfec_group_downloading_to_checkmiss (make_room s)))
                (Z.land (rtp_seq_end g + 1) 65535)) as (g1 & Hcr1 & _ & Hst1 & _ & Hl1 & Hl2).
    { unfold _rtpfec_group_downloading_to_checkmiss. by rewrite M2. }
    1-4: unfold _rtpfec_group_downloading_to_checkmiss; rewrite M2; cbn;
      rewrite ?M4, ?M5, ?M6, ?M7; try done; try lia.
    { rewrite land_u16. apply u16_range. }
    rewrite Hcr in Hcr1. injection Hcr1 as Hgg. subst g1.
    destruct (to_check_ok L (make_room s) Hm M2) as (Hret & _ & _ & Hdone & _).
    destruct (_rtpfec_group_downloading_to_checkmiss (make_room s)) as [s1 r] eqn:Htc.
    cbn in *. subst r. cbn. rewrite Hc1. cbn. rewrite Hcr. cbn.
    rewrite M4, M5, M6, HdL in Hg0.
    destruct (store_at _ _ _ g0 _ n (seq_after g (rtp_pkt_num s)) seq bytes Hg0 Hn Hb Hn2)
      as (g' & -> & Hstd); [unfold in_group in Hin; lia|lia|].
    cbn. eexists. split; [done|]. exists g0, g'. cbn.
    unfold _rtpfec_group_downloading_to_checkmiss in Htc. rewrite M2 in Htc. cbn in Htc.
    injection Htc as <-. cbn in *. split_and!; try done; try congruence.
    rewrite Hst0. destruct (seq_end_next L g (rtp_pkt_num s) Hgo ltac:(lia)) as [E1 _].
    by rewrite <- E1, land_u16.
  - unfold rtppkt_downloading. rewrite <- Hw1.
    destruct (in_group s (_rtpfec_get_index (rtp_seq_start g) _ _ _)) eqn:Hin2.
    + specialize (Hw2 eq_refl).
      destruct (store_at _ _ _ g _ n (rtp_seq_start g) seq bytes cok_down0 Hn Hb Hw2)
        as (g' & -> & Hstd); [unfold in_group in Hin2; lia|lia|].
      cbn. eexists. split; [done|]. by exists g'.
    + fold (make_room s). eexists. split; [done|]. cbn.
      unfold _rtpfec_group_downloading_to_checkmiss. rewrite M2. cbn.
      split_and!; try done. congruence.
Qed.
End Placement.

(** ** Properties *)

(** A sequence number has an index in a window of [num] numbers exactly
    when its distance from the first one modulo 2^16 is below [num], and the
    index is that distance, also for windows that wrap around 65535. *)
Theorem get_index_window (start num seq : Z) :
  0 <= start < 65536 -> 1 <= num <= 65535 -> 0 <= seq < 65536 ->
  _rtpfec_get_index start (Z.land (start + num - 1) 65535) seq 65535 =
  if u16 (seq - start) <? num then u16 (seq - start) else -1.
Proof. apply get_index_dist. Qed.

Lemma get_index_window_witness :
  _rtpfec_get_index 65530 (Z.land (65530 + 100 - 1) 65535) 3 65535 = 9.
Proof. apply (get_index_window 65530 100 3); lia. Defined.


(** A receiver whose first FEC packet announced groups of ten packets of
    [len] bytes, from number 65530 on. *)
Definition sample_ctx (len : Z) : RTPFECContext :=
  default (mkCtx 0 Null Null Null 0 0 0 0 0 0 0 0 None) (fst <$>
    @first_fec linux_errors (mkCtx 0 Null Null Null 0 (-1) 1 0 0 0 0 0 None) 65529 10 4 len).

Definition sample_pkt (size : nat) : DataPacket :=
  mkPkt (Some (replicate size 7)) 0 (Z.of_nat size) (Z.of_nat size) 0 None.

Definition sample_group : RTPFECPktGroup :=
  default zero_group (deref (sample_ctx 20).(GroupDownLoading)).

Lemma sample_ctx_ok : ctx_ok 20 (sample_ctx 20) /\ (sample_ctx 20).(GroupDone) = Null.
Proof.
  destruct (first_fec_ok 20 (mkCtx 0 Null Null Null 0 (-1) 1 0 0 0 0 0 None) 65529 10 4)
    as (s & Hs & Hok & _ & _ & Hd); try done; try lia.
  { split; cbn; try done; lia. }
  unfold sample_ctx. by rewrite Hs.
Qed.

Lemma sample_facts :
  (sample_ctx 20).(have_fec) = 1 /\ (sample_ctx 20).(rtp_pkt_num) = 10 /\
  (sample_ctx 20).(GroupCheckMiss) = Null /\
  (sample_ctx 20).(GroupDownLoading) = Live sample_group /\
  sample_group.(rtp_seq_start) = 65530.
Proof. by vm_compute. Qed.

Lemma sample_rtp_ok : rtp_ok 20 (sample_pkt 16).
Proof.
  split; [|split; [done|]].
  - split_and!; try done. intros _. by eexists.
  - eexists. split_and!; [done|by cbn|by cbn|]. by apply Forall_replicate.
Qed.


(** The slots of a group are as long as the FEC packet said, and nothing
    checks a received packet against them: one that is longer is copied over
    the end of the heap buffer. *)
Theorem rtppkt_overflow {E : AvErrors} (L : Z) (s : RTPFECContext) (n : DataPacket)
    (seq : Z) (g : RTPFECPktGroup) (d : list Z) :
  ctx_ok L s -> s.(have_fec) = 1 -> s.(GroupCheckMiss) = Null -> s.(GroupDownLoading) = Live g ->
  1 <= s.(rtp_pkt_num) -> 0 <= seq < 65536 ->
  in_window (seq_after g s.(rtp_pkt_num)) s.(rtp_pkt_num) seq = false ->
  in_window g.(rtp_seq_start) s.(rtp_pkt_num) seq = true ->
  n.(data) = Some d -> L < n.(data_size) <= Z.of_nat (length d) -> 0 <= L ->
  _rtpfec_group_rtppkt_in s n seq = None.
Proof.
  intros Hs Hh Hc Hg Hnum Hq Hnext Hin Hd Hlen HL. pose proof Hs as [].
  destruct (cok_fec2 Hh) as [_ HdL]. rewrite HdL, ?Hg in *. cbn in cok_down0.
  pose proof cok_down0 as (Hgo & Hr & _).
  unfold _rtpfec_group_rtppkt_in. rewrite Hc, Hg. cbn [is_null negb deref mbind option_bind].
  destruct (index_of_next s g L seq Hgo ltac:(lia) Hq) as [Hn1 _].
  destruct (index_of_group s g L seq Hgo ltac:(lia) Hq) as [Hw1 _].
  rewrite Hn1, Hnext. unfold rtppkt_downloading. rewrite Hw1, Hin.
  set (i := _rtpfec_get_index (rtp_seq_start g) _ _ _) in *.
  assert (0 <= i < rtp_pkt_num s) as Hi by (rewrite Hin in Hw1; unfold in_group in Hw1; lia).
  destruct (Hr i Hi) as [b Hb]. unfold store_rtp. rewrite Hb. cbn.
  rewrite Hd, mem_read_prefix by lia. cbn.
  unfold mem_write. rewrite (proj2 (Nat.leb_gt _ _)); [done|].
  destruct Hgo. apply arr_get_elem in Hb. rewrite Forall_forall in gok_rtp_bufs0.
  specialize (gok_rtp_bufs0 _ Hb). cbn in gok_rtp_bufs0. rewrite length_take. lia.
Qed.

Lemma rtppkt_overflow_witness :
  _rtpfec_group_rtppkt_in (sample_ctx 20) (sample_pkt 21) 65531 = None.
Proof.
  destruct sample_ctx_ok as [Hok Hd]. destruct sample_facts as (Hh & Hn & Hc & Hg & Hst).
  apply (rtppkt_overflow 20 (sample_ctx 20) (sample_pkt 21) 65531 sample_group (replicate 21 7)
           Hok Hh Hc Hg); unfold seq_after; rewrite ?Hn, ?Hst; try lia; try reflexivity.
  cbn. lia.
Defined.

(** [_rtpfec_check_miss] asks for the decoder exactly when some RTP packet is
    missing, fewer are missing than there are FEC packets, and, when FEC packets
    are missing too, two of them remain to spare; it then gives the missing
    packets, and only them, the protected length. *)
Theorem check_miss_decision (s : RTPFECContext) (g : RTPFECPktGroup) :
  s.(GroupCheckMiss) = Live g -> length g.(lost_map) = 275%nat ->
  length g.(aPktRtpLen) = 255%nat -> 0 <= s.(rtp_pkt_num) <= 255 ->
  1 <= s.(fec_pkt_num) <= 20 ->
  let R := missing g.(lost_map) 0 0 (Z.to_nat s.(rtp_pkt_num)) in
  let F := missing g.(lost_map) s.(rtp_pkt_num) 0 (Z.to_nat s.(fec_pkt_num)) in
  if decodable s.(fec_pkt_num) (Z.of_nat (length R)) (Z.of_nat (length F)) then
    exists lens,
      _rtpfec_check_miss s = Some (s <| GroupCheckMiss := Live (g <| aPktRtpLen := lens |>) |>, 1) /\
      length lens = 255%nat /\
      forall i, arr_get lens i = if decide (i ∈ R) then Some s.(fec_dec_len)
                                 else arr_get g.(aPktRtpLen) i
  else _rtpfec_check_miss s = Some (s, 0).
Proof. apply check_miss_ok. Qed.

(** The sample group with two RTP packets missing, waiting for late packets. *)
Definition lossy_group : RTPFECPktGroup :=
  sample_group <| lost_map := replicate 3 1 ++ [0] ++ replicate 4 1 ++ [0] ++ replicate 5 1
                               ++ replicate 261 0 |>.

Lemma check_miss_decision_witness :
  let s := (sample_ctx 20) <| GroupCheckMiss := Live lossy_group |> in
  let g := lossy_group in
  let R := missing g.(lost_map) 0 0 (Z.to_nat s.(rtp_pkt_num)) in
  let F := missing g.(lost_map) s.(rtp_pkt_num) 0 (Z.to_nat s.(fec_pkt_num)) in
  if decodable s.(fec_pkt_num) (Z.of_nat (length R)) (Z.of_nat (length F)) then
    exists lens,
      _rtpfec_check_miss s = Some (s <| GroupCheckMiss := Live (g <| aPktRtpLen := lens |>) |>, 1) /\
      length lens = 255%nat /\
      forall i, arr_get lens i = if decide (i ∈ R) then Some s.(fec_dec_len)
                                 else arr_get g.(aPktRtpLen) i
  else _rtpfec_check_miss s = Some (s, 0).
Proof.
  intros s g. destruct sample_facts as (_ & Hn & _).
  apply (check_miss_decision s g); [reflexivity|by vm_compute|by vm_compute| |].
  - change (rtp_pkt_num s) with (rtp_pkt_num (sample_ctx 20)). rewrite Hn. lia.
  - by vm_compute.
Defined.

(** An FEC packet of the group after the one being filled is misplaced when
    another group is still waiting for late packets: the groups cannot move,
    the failure is ignored, and the packet is stored as protecting the group
    being filled. *)
Theorem fecpkt_wrong_group {E : AvErrors} (s : RTPFECContext) (n : DataPacket) (i : Z)
    (c g : RTPFECPktGroup) :
  group_full s.(rtp_pkt_num) s.(fec_pkt_num) s.(fec_dec_len) g -> fec_ok s.(fec_dec_len) n ->
  24 < n.(data_size) -> 0 <= i < s.(fec_pkt_num) -> s.(fec_pkt_num) <= 20 ->
  1 <= s.(rtp_pkt_num) <= 255 -> 0 <= s.(fec_dec_len) ->
  s.(GroupCheckMiss) = Live c -> s.(GroupDownLoading) = Live g ->
  c.(rtp_seq_start) <> seq_after g s.(rtp_pkt_num) ->
  exists g', _rtpfec_group_fecpkt_in s n (seq_after g s.(rtp_pkt_num)) i =
      Some (s <| GroupDownLoading := Live g' |>, 0) /\
    g'.(rtp_seq_start) = g.(rtp_seq_start) /\
    arr_get g'.(lost_map) (s.(rtp_pkt_num) + i) = Some 1.
Proof.
  intros Hgf Hn Hds Hi Hf Hr HL Hc Hg Hne.
  unfold _rtpfec_group_fecpkt_in. rewrite Hc, Hg. cbn [is_null negb deref mbind option_bind].
  zfalse (seq_after g (rtp_pkt_num s) =? rtp_seq_start c).
  assert (seq_after g (rtp_pkt_num s) <> rtp_seq_start g) as Hng.
  { pose proof Hgf as ([] & _). unfold seq_after. intros Heq.
    destruct (Z.lt_ge_cases (rtp_seq_start g + rtp_pkt_num s) 65536).
    - rewrite u16_small in Heq by lia. lia.
    - rewrite <- (u16_shift _ (-1)), u16_small in Heq by lia. lia. }
  zfalse (seq_after g (rtp_pkt_num s) =? rtp_seq_start g).
  rewrite land_u16. fold (seq_after g (rtp_pkt_num s)). rewrite Z.eqb_refl.
  unfold _rtpfec_group_downloading_to_checkmiss. rewrite Hc. cbn.
  rewrite Hc. cbn. unfold _rtpfec_create_group_downloading. rewrite Hg. cbn. rewrite Hg. cbn.
  destruct (store_fec_ok s g n i Hgf Hn Hds Hi Hf) as (g' & -> & _ & Hl & _ & _ & Hst); [lia|lia|].
  cbn. by exists g'.
Qed.

(** An FEC packet that carries twenty bytes. *)
Definition sample_fec : DataPacket :=
  mkPkt (Some (replicate 21 0 ++ [20] ++ replicate 22 5)) 0 44 44 0 None.

Lemma fecpkt_wrong_group_witness :
  let s := (sample_ctx 20) <| GroupCheckMiss := Live (sample_group <| rtp_seq_start := 65520 |>) |> in
  exists g', _rtpfec_group_fecpkt_in s sample_fec (seq_after sample_group s.(rtp_pkt_num)) 2 =
      Some (s <| GroupDownLoading := Live g' |>, 0) /\
    g'.(rtp_seq_start) = sample_group.(rtp_seq_start) /\
    arr_get g'.(lost_map) (s.(rtp_pkt_num) + 2) = Some 1.
Proof.
  intros s. destruct sample_ctx_ok as [Hok _]. destruct sample_facts as (Hh & Hn & Hc & Hg & Hst).
  pose proof (cok_down _ _ Hok) as Hgf. rewrite Hg in Hgf.
  apply (fecpkt_wrong_group s sample_fec 2 (sample_group <| rtp_seq_start := 65520 |>) sample_group Hgf).
  - intros _. eexists. split; [reflexivity|]. split; [by vm_compute|]. split; [|by vm_compute].
    repeat constructor; lia.
  - by vm_compute.
  - by vm_compute.
  - by vm_compute.
  - by vm_compute.
  - by vm_compute.
  - reflexivity.
  - exact Hg.
  - by vm_compute.
Defined.
