(* ===== verification/RtpSession.v ===== *)
(** * Whole sessions of the RTP receiver

    Theorems about [rtpfec_read] as its callers use it: every session is safe; a
    session without losses hands the media of the packets on unchanged; a group
    with losses is repaired and drained in order. They hold for any packet
    queue that keeps the promises of PktIface.v and any parser and decoder with
    the documented behaviour, and are witnessed with the linked queue. *)

From S2P Require Import Prelude PktQueue PktIface RtpFec.

(** ** Filling a queue *)

Section Puts.
Context {Q : Type} {QO : PacketQueue Q} {QOk : PacketQueueOk Q}.

Definition puts (q : Q) (ns : list DataPacket) : Q :=
  fold_left (fun q n => default q (fst <$> q_put q n)) ns q.

Lemma puts_hold ns : forall q l,
  q_holds q l -> q_open q ->
  Forall (fun n => pkt_ok n /\ n.(buf_size) <= q_packet /\ pkt_valid n = true /\ n.(next) = None) ns ->
  total buf_size l + total buf_size ns <= q_limit ->
  q_holds (puts q ns) (l ++ ns) /\ q_open (puts q ns).
Proof.
  induction ns as [|n ns IH]; intros q l Hq Ho Hns Ht.
  - by rewrite app_nil_r.
  - apply Forall_cons in Hns as [(Hn & HnB & Hv & Hx) Hns]. cbn in Ht.
    assert (0 <= total buf_size ns) as Hpos.
    { clear -Hns. induction Hns as [|m ns (Hm & _) _ IH]; cbn; [done|]. destruct Hm. lia. }
    pose proof Hn as (_ & _ & _ & [Hb _] & _).
    destruct (q_put_tail q n l Hq Ho Hn HnB Hv) as (q' & Hp & Hq' & Ho'); [lia|].
    cbn. rewrite Hp. cbn.
    replace (set_next None n) with n in Hq' by (destruct n; cbn in *; by subst).
    replace (l ++ n :: ns) with ((l ++ [n]) ++ ns) by (by rewrite <- app_assoc).
    apply IH; try done. rewrite total_app. cbn. lia.
Qed.
End Puts.

(** ** Sessions without losses *)

Section Lossless.
Context {E : AvErrors} {Q D : Type} {QO : PacketQueue Q} {QOk : PacketQueueOk Q}
  {X : RtpExternals D}.
Implicit Types (w : receiver Q D) (n : DataPacket).

(** A payload format with one media packet per RTP packet. *)
Definition one_to_one (media : list Z -> list Z) : Prop :=
  forall d bytes, exists d' kept, ff_rtp_parse_packet d (Some bytes) = (d', 0, media bytes, kept).

Definition rtp_bytes n : list Z := take (Z.to_nat n.(data_size)) (default [] n.(data)).

Definition media_pkt (bytes : list Z) : DataPacket :=
  let len := Z.of_nat (length bytes) in mkPkt (Some bytes) 0 len len 0 None.

(** The media of a packet, as far as [media] gives one the queue can take. *)
Definition media_ok (media : list Z -> list Z) (bytes : list Z) : Prop :=
  media bytes <> [] /\ Z.of_nat (length (media bytes)) <= q_packet /\
  Z.of_nat (length (media bytes)) < 2147483648.

(** The packets follow each other from number [next] on ([-1] for any number). *)
Fixpoint in_order (next : Z) (l : list DataPacket) : Prop :=
  match l with
  | [] => True
  | n :: l => exists d seq, n.(data) = Some d /\ AV_RB16 d 2 = Some seq /\
      (next = -1 \/ next = seq) /\ in_order (Z.land (seq + 1) 65535) l
  end.

(** No group exists and nothing was lost: [lt] is ready for the reader, [l] waits
    to be parsed. *)
Record lossless (lt l : list DataPacket) w : Prop := {
  ll_exit : w.(ctx).(is_exit) = 0;
  ll_have : w.(ctx).(have_fec) = 0;
  ll_done : w.(ctx).(GroupDone) = Null;
  ll_check : w.(ctx).(GroupCheckMiss) = Null;
  ll_lost : w.(ctx).(rtp_seq_lost) = 0;
  ll_order : in_order w.(ctx).(rtp_seq_next) l;
  ll_stop : Forall (fun b => b = false) w.(interrupts);
  ll_ts : q_holds w.(ts_queue) lt;
  ll_open : q_open w.(ts_queue);
  ll_rtp : q_holds w.(rtp_queue) l;
  ll_fec : exists lf, q_holds w.(fec_queue) lf;
  ll_empty : exists le, q_holds w.(empty_buf_queue) le;
}.

Context (media : list Z -> list Z) (Hone : one_to_one media) (L : Z).

Definition rtp_in n : Prop :=
  rtp_ok L n /\ 0 < n.(data_size) /\ n.(buf_size) <= q_packet /\ media_ok media (rtp_bytes n).

Lemma media_pkt_ok bytes :
  bytes <> [] -> Z.of_nat (length bytes) < 2147483648 ->
  pkt_ok (media_pkt bytes) /\ pkt_valid (media_pkt bytes) = true /\
  payload (media_pkt bytes) = bytes.
Proof.
  intros Hb Hl. assert (0 < length bytes)%nat by (destruct bytes; [done|cbn; lia]).
  split_and!.
  - split_and!; cbn; try lia. intros _. by eexists.
  - unfold pkt_valid. cbn. lia.
  - unfold payload. cbn. by rewrite Nat2Z.id, take_ge.
Qed.

Lemma put_ts_exact w lt bytes :
  q_holds w.(ts_queue) lt -> q_open w.(ts_queue) -> bytes <> [] ->
  Z.of_nat (length bytes) <= q_packet -> Z.of_nat (length bytes) < 2147483648 ->
  total buf_size lt <= q_limit ->
  exists q, put_ts w bytes = Some (w <| ts_queue := q |>) /\
    q_holds q (lt ++ [media_pkt bytes]) /\ q_open q.
Proof.
  intros Ht Ho Hb HB Hl Hq. destruct (media_pkt_ok bytes Hb Hl) as (Hk & Hv & _).
  destruct (q_put_tail w.(ts_queue) (media_pkt bytes) lt Ht Ho Hk) as (q & Hp & Hq' & Ho');
    try done.
  exists q. unfold put_ts. fold (media_pkt bytes). cbv zeta. by rewrite Hp.
Qed.

Lemma parse_now_exact fuel w lt n le :
  rtp_in n -> q_holds w.(ts_queue) lt -> q_open w.(ts_queue) ->
  q_holds w.(empty_buf_queue) le -> total buf_size lt <= q_limit ->
  exists q qe dm le', parse_now fuel w n =
      Some (w <| ts_queue := q |> <| empty_buf_queue := qe |> <| rtpdmx := dm |>) /\
    q_holds q (lt ++ [media_pkt (media (rtp_bytes n))]) /\ q_open q /\ q_holds qe le'.
Proof.
  intros ((Hk & _ & d & Hd & _ & Hdl & _) & Hpos & HB & (Hm & HmB & Hml)) Ht Ho He Hq.
  unfold parse_now, rtp_bytes in *. rewrite Hd in *. cbn [default] in *.
  rewrite mem_read_prefix by lia. cbn [mbind option_bind].
  set (bytes := take (Z.to_nat (data_size n)) d) in *.
  destruct (Hone w.(rtpdmx) bytes) as (dm & kept & ->).
  assert (exists qe le', recycle (w <| rtpdmx := dm |>) n kept =
      Some (w <| empty_buf_queue := qe |> <| rtpdmx := dm |>) /\ q_holds qe le')
    as (qe & le' & -> & He').
  { unfold recycle. destruct kept; [exists w.(empty_buf_queue), le; by destruct w|].
    destruct (q_put_total w.(empty_buf_queue) n le He Hk HB) as (q & r & l' & Hp & Hl' & _).
    cbn. rewrite Hp. exists q, l'. done. }
  cbn [mbind option_bind]. unfold parsed. cbn [Z.eqb orb].
  destruct (put_ts_exact (w <| empty_buf_queue := qe |> <| rtpdmx := dm |>) lt (media bytes))
    as (q & -> & Hq' & Ho'); try done.
  by exists q, qe, dm, le'.
Qed.

Lemma skip_fecpkt w :
  w.(ctx).(rtp_seq_lost) = 0 -> (exists lf, q_holds w.(fec_queue) lf) ->
  exists q lf, _rtpfec_get_fecpkt w = Some (w <| fec_queue := q |>, 0) /\ q_holds q lf.
Proof.
  intros Hl [lf Hf]. unfold _rtpfec_get_fecpkt. destruct lf as [|n lf].
  - destruct (q_get_empty _ Hf) as (r & -> & Hr). cbn. ztrue (0 >=? r).
    exists w.(fec_queue), []. split; [by destruct w|done].
  - destruct (q_get_head _ n lf 0 Hf) as (q & -> & Hq & _). cbn.
    exists q, lf. split; [|done]. case_match; [done|].
    unfold fecpkt_arrived. cbn. by rewrite Hl.
Qed.

Lemma lossless_round fuel w lt n l :
  lossless lt (n :: l) w -> rtp_in n -> total buf_size lt <= q_limit ->
  exists w', rtpfec_round fuel w = Some (Again w') /\
    lossless (lt ++ [media_pkt (media (rtp_bytes n))]) l w'.
Proof.
  intros [] Hn Hq. unfold rtpfec_round.
  assert (exists rest, (match interrupts w with [] => (false, []) | b :: l => (b, l) end)
    = (false, rest) /\ Forall (fun b => b = false) rest) as (rest & -> & Hrest).
  { destruct ll_stop0; [by eexists|]. subst. by eexists. }
  set (w0 := w <| interrupts := rest |>). change (ctx w0) with (ctx w).
  rewrite ll_done0, ll_have0, ll_check0. cbn [is_null negb andb Z.eqb mbind option_bind].
  destruct (skip_fecpkt w0 ll_lost0 ll_fec0) as (qf & lf & -> & Hqf).
  cbn [mbind option_bind negb Z.eqb].
  set (w1 := w0 <| fec_queue := qf |>). change (ctx w1) with (ctx w).
  rewrite ll_have0. cbn [Z.eqb negb andb].
  unfold get_rtp. cbv zeta.
  match goal with |- context [q_get (rtp_queue w1) ?t] =>
    destruct (q_get_head w1.(rtp_queue) n l t ll_rtp0) as (qr & -> & Hqr & _) end.
  cbn [mbind option_bind]. pose proof Hn as (_ & Hpos & _). zfalse (data_size n <=? 0).
  destruct ll_order0 as (d & seq & Hd & Hseq & Hnext & Hord).
  unfold rtp_arrived. rewrite Hd. cbn [mbind option_bind]. rewrite Hseq. cbn [mbind option_bind].
  set (w2 := w1 <| rtp_queue := qr |>). change (ctx w2) with (ctx w).
  rewrite ll_have0. cbn [Z.eqb negb].
  destruct ll_empty0 as [le He].
  destruct (parse_now_exact fuel (w2 <| ctx ::= fun s => watch_seq s seq |>) lt n le)
    as (q & qe & dm & le' & -> & Hts & Hop & Hem); try done.
  cbn [mbind option_bind]. eexists. split; [done|].
  assert (watch_seq (ctx w) seq = (ctx w) <| rtp_seq_next := Z.land (seq + 1) 65535 |>) as Hws.
  { unfold watch_seq. rewrite ll_lost0. cbn [Z.eqb].
    replace (negb (rtp_seq_next (ctx w) =? -1) && negb (rtp_seq_next (ctx w) =? seq)) with false
      by lia. done. }
  split; cbn; rewrite ?Hws; cbn; try done; by eexists.
Qed.

Lemma lossless_rounds pfuel size l : forall w lt,
  lossless lt l w -> Forall rtp_in l -> 0 < size < 2147483648 ->
  total buf_size lt + total buf_size (map media_pkt (map media (map rtp_bytes l))) <= q_limit ->
  size <= Z.of_nat (length (stream lt ++ concat (map media (map rtp_bytes l)))) ->
  exists w' k lt', let all := stream lt ++ concat (map media (map rtp_bytes (take k l))) in
    read_rounds (length l) pfuel w size =
      Some (w', ReadDone size (take (Z.to_nat size) all)) /\
    (k <= length l)%nat /\
    (forall j, (j < k)%nat ->
       Z.of_nat (length (stream lt ++ concat (map media (map rtp_bytes (take j l))))) < size) /\
    lossless lt' (drop k l) w' /\ stream lt' = drop (Z.to_nat size) all.
Proof.
  induction l as [|n l IH]; intros w lt Hw Hl Hs Hq Hlen.
  all: assert (size <= Z.of_nat (length (stream lt)) ->
    exists q lt', q_read w.(ts_queue) size = Some (q, size, take (Z.to_nat size) (stream lt)) /\
      (forall l0, lossless lt l0 w -> lossless lt' l0 (w <| ts_queue := q |>)) /\
      stream lt' = drop (Z.to_nat size) (stream lt)) as Hread.
  1, 3: intros Hen; pose proof Hw as [];
    destruct (q_read_stream w.(ts_queue) lt size ll_ts0 Hs) as (q & lt' & bytes & Hr & Hq' & Hb & Hd & Ho);
    [intros Hn; rewrite Hn in Hen; cbn in Hen; lia|];
    exists q, lt'; subst bytes; rewrite length_take in Hr;
    (split; [rewrite Hr; do 3 f_equal; lia|]); (split; [|done]);
    intros l0 []; split; cbn; try done; by apply Ho.
  all: pose proof (q_size_total _ _ (ll_ts _ _ _ Hw)) as Hsz; cbn [length read_rounds].
  - destruct Hread as (q & lt' & Hr & Hk & Hd); [cbn in Hlen; rewrite app_nil_r in Hlen; lia|].
    cbn in Hlen. rewrite app_nil_r in Hlen.
    rewrite Hsz. zfalse (Z.of_nat (length (stream lt)) <? size). cbn [negb].
    rewrite Hr. cbn. exists (w <| ts_queue := q |>), 0%nat, lt'. cbn. rewrite app_nil_r.
    split; [done|]. split; [lia|]. split; [intros; lia|]. split; [by apply Hk|done].
  - rewrite Hsz. destruct (Z.ltb_spec (Z.of_nat (length (stream lt))) size); cbn [negb].
    2: { destruct Hread as (q & lt' & Hr & Hk & Hd); [done|].
         rewrite Hr. cbn. exists (w <| ts_queue := q |>), 0%nat, lt'. cbn. rewrite app_nil_r.
         split; [done|]. split; [lia|]. split; [intros; lia|]. split; [by apply Hk|done]. }
    apply Forall_cons in Hl as [Hn Hl]. cbn in Hq. pose proof Hn as (_ & _ & _ & (Hm & HmB & Hml)).
    assert (0 <= total buf_size (map media_pkt (map media (map rtp_bytes l)))) as Hpos.
    { clear. induction l; cbn; lia. }
    destruct (lossless_round pfuel w lt n l Hw Hn) as (w1 & -> & Hw1); [lia|].
    cbn [mbind option_bind].
    destruct (media_pkt_ok _ Hm Hml) as (_ & _ & Hpay).
    assert (stream (lt ++ [media_pkt (media (rtp_bytes n))]) = stream lt ++ media (rtp_bytes n)) as Hst.
    { unfold stream. rewrite map_app, concat_app. cbn [map concat]. by rewrite Hpay, app_nil_r. }
    destruct (IH w1 _ Hw1 Hl Hs) as (w2 & k & lt' & Hrd & Hk & Hmin & Hw2 & Hd).
    + rewrite total_app. cbn. lia.
    + rewrite Hst, <- app_assoc. done.
    + exists w2, (S k), lt'. cbn. rewrite Hst, <- app_assoc in Hrd, Hd.
      split; [done|]. split; [lia|]. split; [|by split].
      intros [|j] Hj; cbn; [by rewrite app_nil_r|].
      specialize (Hmin j ltac:(lia)). by rewrite Hst, <- app_assoc in Hmin.
Qed.
End Lossless.

(** ** Repairing a group *)

Section Repair.
Context {E : AvErrors} {Q D : Type} {QO : PacketQueue Q} {QOk : PacketQueueOk Q}
  {X : RtpExternals D} {XOk : RtpExternalsOk D}.
Implicit Types (w : receiver Q D) (c g : RTPFECPktGroup).

(** [k] rounds that all go on. *)
Fixpoint rounds (pfuel k : nat) w : option (receiver Q D) :=
  match k with
  | O => Some w
  | S k => r ← rtpfec_round pfuel w; match r with Again w => rounds pfuel k w | _ => None end
  end.

Context (num fecn K : Z) (encode : list (list Z) -> list (list Z)).

(** The RTP and FEC slots of a group that are marked received hold the packets
    [pkts], padded to the protected length, and their code. *)
Definition holds_code (rtp fec : list buffer) (lost : list Z) (pkts : list (list Z)) : Prop :=
  (forall i, 0 <= i < num -> arr_get lost i = Some 1 -> arr_get rtp i = Some (arr_get pkts i)) /\
  (forall j, 0 <= j < fecn -> arr_get lost (num + j) = Some 1 ->
     arr_get fec j = Some (arr_get (encode pkts) j)) /\
  (forall i, 0 <= i < num + fecn -> arr_get lost i = Some 0 \/ arr_get lost i = Some 1) /\
  (forall i, 0 <= i < num -> exists d, arr_get rtp i = Some (Some d) /\ Z.of_nat (length d) = K).

Definition losses_ok (lost : list Z) : bool :=
  decodable fecn (Z.of_nat (length (missing lost 0 0 (Z.to_nat num))))
    (Z.of_nat (length (missing lost num 0 (Z.to_nat fecn)))).

(** What an erasure code does: the decoder restores the packets of a group with
    few enough losses. *)
Definition restores : Prop :=
  forall pkts rtp fec lost,
    Z.of_nat (length pkts) = num -> Forall (fun p => Z.of_nat (length p) = K) pkts ->
    holds_code rtp fec lost pkts -> losses_ok lost = true ->
    exists rtp' fec' lost', fec_decode_adp (num, fecn, K) rtp fec lost = (rtp', fec', lost', 0) /\
      forall i, 0 <= i < num -> arr_get rtp' i = Some (arr_get pkts i).

(** The packets as the reader gets them: a restored packet has the protected
    length, a received one its own. *)
Definition repaired c (pkts : list (list Z)) : list (list Z) :=
  imap (fun i p => if decide (arr_get c.(lost_map) (Z.of_nat i) = Some 0) then p
                   else take (Z.to_nat (default 0 (arr_get c.(aPktRtpLen) (Z.of_nat i)))) p) pkts.

(** The packets [bs] are what is left of the group being drained. *)
Record draining (lt : list DataPacket) g (bs : list (list Z)) w : Prop := {
  dr_done : w.(ctx).(GroupDone) = Live g;
  dr_num : w.(ctx).(rtp_pkt_num) = num /\ w.(ctx).(fec_pkt_num) = fecn /\ w.(ctx).(fec_dec_len) = K;
  dr_group : group_ok num K g;
  dr_left : g.(pkt_read_pos) + Z.of_nat (length bs) = num;
  dr_slots k b : bs !! k = Some b -> exists d l,
    arr_get g.(paPktRtp) (g.(pkt_read_pos) + Z.of_nat k) = Some (Some d) /\
    arr_get g.(aPktRtpLen) (g.(pkt_read_pos) + Z.of_nat k) = Some l /\
    0 < l <= Z.of_nat (length d) /\ b = take (Z.to_nat l) d;
  dr_stop : w.(interrupts) = [];
  dr_ts : q_holds w.(ts_queue) lt;
  dr_open : q_open w.(ts_queue);
}.

Context (Hnum : 0 <= num <= 255) (Hfec : 1 <= fecn <= 20).
Context (media : list Z -> list Z) (Hone : one_to_one media).

Lemma drain_round pfuel w lt g b bs :
  draining lt g (b :: bs) w -> media_ok media b -> total buf_size lt <= q_limit ->
  exists w' g', rtpfec_round pfuel w = Some (Again w') /\
    draining (lt ++ [media_pkt (media b)]) g' bs w' /\
    w'.(ctx).(GroupCheckMiss) = w.(ctx).(GroupCheckMiss).
Proof.
  intros [] (Hm & HmB & Hml) Hq. destruct dr_num0 as (En & Ef & EK).
  destruct (dr_slots0 0%nat b eq_refl) as (d & l & Hd & Hl & Hdl & ->).
  rewrite Z.add_0_r in Hd, Hl. cbn [length] in dr_left0.
  unfold rtpfec_round. rewrite dr_stop0. cbn. rewrite dr_done0. cbn. unfold drain_done. cbn.
  rewrite En. zfalse (g.(pkt_read_pos) >=? num). rewrite Hl, Hd. cbn [mbind option_bind].
  ztrue (0 <? l). rewrite mem_read_prefix by lia. cbn [mbind option_bind].
  match goal with |- context [ff_rtp_parse_packet ?dm (Some ?x)] =>
    destruct (Hone dm x) as (dm' & kept & ->) end.
  match goal with |- context [(if kept then ?a else ?b) ≫= _] =>
    assert (exists g1, (if kept then a else b) = Some g1 /\ group_ok num K g1 /\
      g1.(pkt_read_pos) = g.(pkt_read_pos) /\
      (forall j, j <> g.(pkt_read_pos) -> arr_get g1.(paPktRtp) j = arr_get g.(paPktRtp) j /\
         arr_get g1.(aPktRtpLen) j = arr_get g.(aPktRtpLen) j)) as (g1 & -> & Hg1 & Hpos & Hoth) end.
  { pose proof dr_group0 as []. pose proof (arr_get_Some _ _ _ Hd). pose proof (arr_get_Some _ _ _ Hl).
    destruct kept; [|by exists g]. rewrite !arr_set_in by lia. cbn. eexists. split; [done|].
    split; [split; cbn; rewrite ?length_insert; try done|split; [done|]].
    - by apply Forall_insert.
    - apply Forall_insert; [done|]. pose proof (arr_get_elem _ _ _ Hl) as Hin.
      rewrite Forall_forall in gok_lens. specialize (gok_lens _ Hin). lia.
    - intros j Hj. cbn. rewrite !arr_get_set_ne by lia. done. }
  cbn [mbind option_bind]. unfold parsed. cbn [Z.eqb orb].
  match goal with |- context [put_ts ?x (media ?y)] =>
    destruct (put_ts_exact x lt (media y)) as (q & -> & Hq' & Ho'); try done end.
  cbn. eexists _, (g1 <| pkt_read_pos := g1.(pkt_read_pos) + 1 |>). split; [done|]. split; [|done].
  split; cbn; try done.
  - by apply advance_ok.
  - lia.
  - intros k b' Hk. destruct (dr_slots0 (S k) b' Hk) as (d' & l' & Hd' & Hl' & Hr').
    exists d', l'. replace (pkt_read_pos g1 + 1 + Z.of_nat k) with
      (pkt_read_pos g + Z.of_nat (S k)) by lia.
    destruct (Hoth (pkt_read_pos g + Z.of_nat (S k))) as [-> ->]; [lia|]. done.
Qed.
Lemma release_round pfuel w lt g :
  draining lt g [] w ->
  rtpfec_round pfuel w = Some (Again (w <| ctx ::= fun s => s <| GroupDone := Null |> |>)).
Proof.
  intros []. destruct dr_num0 as (En & Ef & _), dr_group0. cbn in dr_left0.
  unfold rtpfec_round. rewrite dr_stop0. cbn. rewrite dr_done0. cbn. unfold drain_done. cbn.
  rewrite En. ztrue (g.(pkt_read_pos) >=? num).
  unfold _rtpfec_group_done_release. rewrite dr_done0. cbn. rewrite En, Ef, gok_rtp, gok_fec.
  rewrite !(proj2 (Z.leb_le _ _)) by lia. cbn. do 2 f_equal. destruct w. cbn in *. by subst.
Qed.

Lemma drain_rounds pfuel bs : forall w lt g,
  draining lt g bs w -> Forall (media_ok media) bs ->
  total buf_size lt + total buf_size (map media_pkt (map media bs)) <= q_limit ->
  exists w', rounds pfuel (S (length bs)) w = Some w' /\
    w'.(ctx).(GroupDone) = Null /\ w'.(ctx).(GroupCheckMiss) = w.(ctx).(GroupCheckMiss) /\
    q_holds w'.(ts_queue) (lt ++ map media_pkt (map media bs)).
Proof.
  induction bs as [|b bs IH]; intros w lt g Hw Hm Hq.
  - cbn [length rounds]. rewrite (release_round pfuel w lt g Hw). cbn. rewrite app_nil_r.
    eexists. split; [done|]. split; [done|]. split; [done|]. apply Hw.
  - apply Forall_cons in Hm as [Hmb Hm]. cbn in Hq.
    assert (0 <= total buf_size (map media_pkt (map media bs))) as Hpos.
    { clear. induction bs; cbn; lia. }
    destruct (drain_round pfuel w lt g b bs Hw Hmb) as (w1 & g1 & Hr & Hw1 & Hc); [lia|].
    cbn [length]. change (rounds pfuel (S (S (length bs))) w) with
      (r ← rtpfec_round pfuel w;
       match r with Again w => rounds pfuel (S (length bs)) w | _ => None end).
    rewrite Hr. cbn [mbind option_bind].
    destruct (IH w1 _ g1 Hw1 Hm) as (w2 & -> & Hd & Hc2 & Hts); [rewrite total_app; cbn; lia|].
    exists w2. split; [done|]. split; [done|]. split; [congruence|]. by rewrite <- app_assoc in Hts.
Qed.

(** A group with losses whose turn has come. *)
Record lossy (lt : list DataPacket) c pkts w : Prop := {
  ly_have : w.(ctx).(have_fec) = 1;
  ly_done : w.(ctx).(GroupDone) = Null;
  ly_check : w.(ctx).(GroupCheckMiss) = Live c;
  ly_num : w.(ctx).(rtp_pkt_num) = num /\ w.(ctx).(fec_pkt_num) = fecn /\ w.(ctx).(fec_dec_len) = K;
  ly_turn : RTP_FEC_CHECK_MISS_COUNT_MAX < w.(ctx).(check_count);
  ly_init : w.(ctx).(fec_init) = 0 \/ w.(fec_state) = (num, fecn, K);
  ly_group : group_full num fecn K c;
  ly_fresh : c.(pkt_read_pos) = 0;
  ly_code : holds_code c.(paPktRtp) c.(paPktFec) c.(lost_map) pkts;
  ly_lens i : 0 <= i < num -> arr_get c.(lost_map) i = Some 1 ->
    exists l, arr_get c.(aPktRtpLen) i = Some l /\ 0 < l;
  ly_pkts : Z.of_nat (length pkts) = num /\ Forall (fun p => Z.of_nat (length p) = K) pkts;
  ly_losses : losses_ok c.(lost_map) = true;
  ly_stop : w.(interrupts) = [];
  ly_fec : q_holds w.(fec_queue) [];
  ly_ts : q_holds w.(ts_queue) lt;
  ly_open : q_open w.(ts_queue);
}.

Context (HK : 0 < K < 65536) (Hrest : restores).

Lemma idle_fecpkt w : q_holds w.(fec_queue) [] -> _rtpfec_get_fecpkt w = Some (w, 0).
Proof.
  intros Hf. unfold _rtpfec_get_fecpkt. destruct (q_get_empty _ Hf) as (r & -> & Hr). cbn.
  ztrue (0 >=? r). by destruct w.
Qed.

Lemma repaired_slots c pkts (rtp : list buffer) (lens : list Z) k b :
  Forall (fun p => Z.of_nat (length p) = K) pkts -> Z.of_nat (length pkts) = num ->
  group_ok num K c ->
  holds_code c.(paPktRtp) c.(paPktFec) c.(lost_map) pkts ->
  (forall i, 0 <= i < num -> arr_get c.(lost_map) i = Some 1 ->
     exists l, arr_get c.(aPktRtpLen) i = Some l /\ 0 < l) ->
  (forall i, 0 <= i < num -> arr_get rtp i = Some (arr_get pkts i)) ->
  (forall i, arr_get lens i = if decide (i ∈ missing c.(lost_map) 0 0 (Z.to_nat num))
     then Some K else arr_get c.(aPktRtpLen) i) ->
  repaired c pkts !! k = Some b ->
  exists d l, arr_get rtp (Z.of_nat k) = Some (Some d) /\ arr_get lens (Z.of_nat k) = Some l /\
    0 < l <= Z.of_nat (length d) /\ b = take (Z.to_nat l) d.
Proof.
  intros Hp Hlen Hg (_ & _ & H01 & _) Hpos Hrtp Hlens Hk.
  unfold repaired in Hk. rewrite list_lookup_imap in Hk.
  apply fmap_Some in Hk as (p & Hpk & ->).
  pose proof (lookup_lt_Some _ _ _ Hpk) as Hlt.
  assert (Z.of_nat (length p) = K) as HpK by by eapply Forall_lookup_1 in Hp.
  assert (0 <= Z.of_nat k < num) as Hi by lia.
  rewrite Hrtp, arr_get_nat, Hpk by done. rewrite Hlens.
  destruct (H01 (Z.of_nat k)) as [H0|H1]; [lia| |].
  - rewrite decide_True.
    2: { unfold missing. apply list_elem_of_filter. split; [by rewrite Z.add_0_l|].
         apply elem_of_seqZ. lia. }
    rewrite decide_True by done. exists p, K. split_and!; try done; try lia.
    by rewrite take_ge by lia.
  - rewrite decide_False.
    2: { unfold missing. intros [H0 _]%list_elem_of_filter. rewrite Z.add_0_l in H0. congruence. }
    rewrite decide_False by congruence.
    destruct (Hpos (Z.of_nat k) Hi H1) as (l & Hl & Hl0). rewrite Hl. cbn.
    exists p, l. split_and!; try done. destruct Hg.
    apply arr_get_elem in Hl. rewrite Forall_forall in gok_lens. specialize (gok_lens _ Hl). lia.
Qed.

Lemma lossy_round pfuel w lt c pkts :
  lossy lt c pkts w ->
  exists w' g, rtpfec_round pfuel w = Some (Again w') /\ draining lt g (repaired c pkts) w' /\
    w'.(ctx).(GroupCheckMiss) = Null.
Proof.
  intros []. destruct ly_num0 as (En & Ef & EK), ly_pkts0 as [Hlen Hpk], ly_group0 as (Hg & HgR & HgF).
  pose proof Hg as Hg'. destruct Hg'.
  unfold rtpfec_round. rewrite ly_stop0.
  set (w0 := w <| interrupts := [] |>).
  assert (w0 = w) as -> by (unfold w0; destruct w; cbn in *; by subst).
  rewrite ly_done0, ly_have0. cbn [is_null negb andb Z.eqb]. rewrite idle_fecpkt by done.
  cbn [mbind option_bind negb Z.eqb]. rewrite ly_have0, ly_check0. cbn [is_null negb andb Z.eqb].
  ztrue (RTP_FEC_CHECK_MISS_COUNT_MAX <? check_count (ctx w)).
  unfold finish_check.
  pose proof (check_miss_ok w.(ctx) c ly_check0 gok_lost gok_len ltac:(lia) ltac:(lia)) as Hcm.
  cbv zeta in Hcm. rewrite En, Ef, EK in Hcm. unfold losses_ok in ly_losses0.
  rewrite ly_losses0 in Hcm. destruct Hcm as (lens & -> & Hll & Hget). cbn [mbind option_bind negb Z.eqb].
  destruct (Hrest pkts c.(paPktRtp) c.(paPktFec) c.(lost_map)) as (rtp & fec & lost & Hdec & Hrtp);
    try done.
  pose proof (decode_full _ _ _ _ _ _ _ _ _ (conj Hg (conj HgR HgF)) Hdec) as [Hfull _].
  assert (forall x : receiver Q D, x.(fec_state) = (num, fecn, K) -> x.(ctx) = w.(ctx) ->
    x.(interrupts) = [] -> x.(ts_queue) = w.(ts_queue) ->
    exists w' g, ('(w0, ret) ← (let s := (w.(ctx) <| GroupCheckMiss := Live (c <| aPktRtpLen := lens |>) |>)
                       <| fec_init := 1 |> in
       c ← deref s.(GroupCheckMiss);
       let '(rtp, fec, lost, ret) := fec_decode_adp x.(fec_state) c.(paPktRtp) c.(paPktFec) c.(lost_map) in
       let c := c <| paPktRtp := rtp |> <| paPktFec := fec |> <| lost_map := lost |> in
       Some (x <| ctx := s <| GroupCheckMiss := Live c |> |>, ret));
     if negb (ret =? 0) then Some (Return w0 ret) else
     let '(s, ret) := _rtpfec_group_checkmiss_to_done w0.(ctx) in
     let w1 := w0 <| ctx := s |> in
     if negb (ret =? 0) then Some (Return w1 (-1)) else Some (Again w1)) = Some (Again w') /\
     draining lt g (repaired c pkts) w' /\ GroupCheckMiss (ctx w') = Null) as Hgo.
  { intros x Hst Hctx Hint Hts. cbn. rewrite Hst, Hdec. cbn.
    unfold _rtpfec_group_checkmiss_to_done. cbn. rewrite ly_done0. cbn.
    eexists _, _. split; [done|]. split; [|done]. split; cbn; try done.
    - destruct Hfull. split; cbn in *; try done.
      apply Forall_lookup_2. intros i l Hl.
      assert (arr_get lens (Z.of_nat i) = Some l) as Hl' by by rewrite arr_get_nat.
      rewrite Hget in Hl'. case_decide; [simplify_eq; lia|].
      rewrite arr_get_nat in Hl'. by eapply Forall_lookup_1 in gok_lens.
    - cbn. rewrite ly_fresh0. unfold repaired. rewrite length_imap. lia.
    - cbn. rewrite ly_fresh0. intros k b Hk. rewrite !Z.add_0_l.
      by eapply (repaired_slots c pkts rtp lens k b).
    - by rewrite Hts.
    - by rewrite Hts. }
  set (x := if fec_init (ctx w) =? 0
            then w <| fec_state := (rtp_pkt_num (ctx w), fec_pkt_num (ctx w), fec_dec_len (ctx w)) |>
            else w).
  destruct (Hgo x) as (w' & g & Hr & Hdr).
  1-4: subst x; destruct (Z.eqb_spec (fec_init (ctx w)) 0); cbn; try done.
  - by rewrite En, Ef, EK.
  - by destruct ly_init0.
  - exists w', g. split; [exact Hr|exact Hdr].
Qed.

Lemma repair_rounds pfuel w lt c pkts :
  lossy lt c pkts w -> Forall (media_ok media) (repaired c pkts) ->
  total buf_size lt + total buf_size (map media_pkt (map media (repaired c pkts))) <= q_limit ->
  exists w', rounds pfuel (S (S (length pkts))) w = Some w' /\
    w'.(ctx).(GroupDone) = Null /\ w'.(ctx).(GroupCheckMiss) = Null /\
    q_holds w'.(ts_queue) (lt ++ map media_pkt (map media (repaired c pkts))).
Proof.
  intros Hw Hm Hq. destruct (lossy_round pfuel w lt c pkts Hw) as (w1 & g & Hr & Hd & Hc).
  change (rounds pfuel (S (S (length pkts))) w) with
    (r ← rtpfec_round pfuel w;
     match r with Again w => rounds pfuel (S (length pkts)) w | _ => None end).
  rewrite Hr. cbn [mbind option_bind].
  destruct (drain_rounds pfuel (repaired c pkts) w1 lt g Hd Hm Hq) as (w2 & Hw2 & Hn & Hc2 & Hts).
  unfold repaired in Hw2. rewrite length_imap in Hw2.
  exists w2. split; [exact Hw2|]. split; [done|]. split; [congruence|done].
Qed.
End Repair.


(** ** A concrete receiver for the witnesses *)

(** A parser that strips the twelve bytes of the header, and a decoder that
    repairs nothing. *)
#[local] Instance strip_header : RtpExternals unit := {|
  AVERROR_EOF := -541478725;
  ff_rtp_parse_packet _ x :=
    match x with
    | Some bytes => (tt, 0, take 1316 (drop 12 bytes), false)
    | None => (tt, -1, [], false)
    end;
  fec_decode_adp _ rtp fec lost := (rtp, fec, lost, 0);
|}.

Lemma same_shape_refl (l : list buffer) : Forall2 same_shape l l.
Proof. apply Forall_Forall2_diag, Forall_forall. by intros [d|] _. Qed.

#[local] Instance strip_header_ok : RtpExternalsOk unit.
Proof.
  refine (Build_RtpExternalsOk unit _ (fun _ => 0%nat) 0%nat 1316 _ _ _ _ _); try done.
  - intros d [x|] d' r out kept H; injection H as <- <- <- <-; [rewrite length_take|cbn]; lia.
  - intros k rtp fec lost rtp' fec' lost' r [= <- <- <- _]. by split_and!; [apply same_shape_refl..|].
Defined.

#[local] Instance sample_queue : PacketQueue state := linked_queue 4000 2000.
#[local] Instance sample_queue_ok : PacketQueueOk state := ltac:(by apply (linked_queue_ok 4000 2000)).

Lemma new_queue_holds : q_holds (new_queue 4000 100) [] /\ q_open (new_queue 4000 100).
Proof.
  split; [|by vm_compute]. split; [|by vm_compute].
  destruct (reachable_bounded (Z.to_nat 6000) 4000 100 2000 (new_queue 4000 100)) as [fill Hb]; try done.
  { by eapply reach_create. }
  by rewrite (bounded_no_pkt _ _ _ _ Hb eq_refl) in Hb.
Qed.

(** An RTP packet with sequence number [seq] and three bytes of media. *)
Definition rtp_packet (seq a b c : Z) : DataPacket :=
  mkPkt (Some ([128; 33; seq / 256; seq mod 256] ++ replicate 8 0 ++ [a; b; c])) 0 15 15 0 None.

(** The three packets of the samples, and an FEC packet nobody needs. *)
Definition sample_rtps : list DataPacket :=
  [rtp_packet 65534 1 2 3; rtp_packet 65535 4 5 6; rtp_packet 0 7 8 9].

Definition sample_receiver (s : RTPFECContext) : receiver state unit :=
  let q := new_queue 4000 100 in
  mkReceiver s q (puts q sample_rtps) (puts q [sample_fec]) q tt (0, 0, 0) [].

Definition opened_ctx : RTPFECContext := mkCtx 0 Null Null Null 0 (-1) 0 0 0 0 0 0 None.

Ltac samples_valid :=
  repeat constructor; cbn; try lia; try done; by (intros _; eexists; split; [reflexivity|vm_compute]).

Lemma sample_queues s :
  q_holds (sample_receiver s).(rtp_queue) sample_rtps /\
  q_holds (sample_receiver s).(fec_queue) [sample_fec].
Proof.
  destruct new_queue_holds as [Hq Ho].
  split; (apply (puts_hold _ _ [] Hq Ho); [samples_valid|cbn; lia]).
Qed.

Lemma sample_rtps_ok : Forall (fun n => rtp_ok 20 n /\ n.(buf_size) <= q_packet) sample_rtps.
Proof.
  apply Forall_forall. intros n Hn. unfold sample_rtps in Hn. rewrite !elem_of_cons, elem_of_nil in Hn.
  destruct Hn as [-> | [-> | [-> | []]]].
  all: split; [|by vm_compute]; split; [split_and!; try (by vm_compute); intros _; by eexists|].
  all: split; [by vm_compute|]; eexists; split; [reflexivity|]; split; [by vm_compute|].
  all: split; [by vm_compute|]; repeat constructor; by vm_compute.
Qed.





(** ** A parity code for the witness *)

(** Every FEC packet is the exclusive or of the packets: one loss is repaired. *)
Definition parity (K : nat) (pkts : list (list Z)) : list Z :=
  map (fun k => foldr Z.lxor 0 (map (fun p => nth k p 0) pkts)) (seq 0 K).

Definition present (rtp : list buffer) (i : nat) : list (list Z) :=
  omap id (delete i rtp).

#[local] Instance xor_code : RtpExternals unit := {|
  AVERROR_EOF := -541478725;
  ff_rtp_parse_packet _ x :=
    match x with
    | Some bytes => (tt, 0, take 1316 (drop 12 bytes), false)
    | None => (tt, -1, [], false)
    end;
  fec_decode_adp k rtp fec lost :=
    let '(num, fecn, K) := k in
    match missing lost 0 0 (Z.to_nat num), arr_get fec 0 with
    | [i], Some (Some f) =>
        let others := present (take (Z.to_nat num) rtp) (Z.to_nat i) in
        let r := map (fun k => Z.lxor (nth k f 0) (foldr Z.lxor 0 (map (fun p => nth k p 0) others)))
                   (seq 0 (Z.to_nat K)) in
        match arr_get rtp i with
        | Some (Some d) => if Nat.eqb (length d) (Z.to_nat K) then (<[Z.to_nat i := Some r]> rtp, fec, lost, 0)
                           else (rtp, fec, lost, -1)
        | _ => (rtp, fec, lost, -1)
        end
    | _, _ => (rtp, fec, lost, -1)
    end;
|}.

#[local] Instance xor_code_ok : RtpExternalsOk unit.
Proof.
  refine (Build_RtpExternalsOk unit _ (fun _ => 0%nat) 0%nat 1316 _ _ _ _ _); try done.
  - intros d [x|] d' r out kept H; injection H as <- <- <- <-; [rewrite length_take|cbn]; lia.
  - intros [[num fecn] K] rtp fec lost rtp' fec' lost' r H. cbn in H.
    assert (forall rtp1, rtp' = rtp1 -> fec' = fec -> lost' = lost -> Forall2 same_shape rtp rtp1 ->
      Forall2 same_shape rtp rtp' /\ Forall2 same_shape fec fec' /\ length lost' = length lost) as Hend.
    { intros rtp1 -> -> -> Hs. split_and!; [done|apply same_shape_refl|done]. }
    destruct (missing _ _ _ _) as [|i [|]]; [by injection H as <- <- <- _; apply (Hend rtp), same_shape_refl| |
      by injection H as <- <- <- _; apply (Hend rtp), same_shape_refl].
    destruct (arr_get fec 0) as [[f|]|]; [|by injection H as <- <- <- _; apply (Hend rtp), same_shape_refl..].
    destruct (arr_get rtp i) as [[d|]|] eqn:Hd; [|by injection H as <- <- <- _; apply (Hend rtp), same_shape_refl..].
    destruct (Nat.eqb_spec (length d) (Z.to_nat K)) as [Hl|];
      [|by injection H as <- <- <- _; apply (Hend rtp), same_shape_refl].
    injection H as <- <- <- _. eapply Hend; try done.
    unfold arr_get in Hd. case_match; [|done].
    rewrite <- (list_insert_id rtp (Z.to_nat i) (Some d)) at 1 by done.
    apply Forall2_insert; [apply same_shape_refl|]. cbn. by rewrite length_map, length_seq.
Defined.

Lemma xor_middle (a b : list Z) x :
  foldr Z.lxor 0 (a ++ x :: b) = Z.lxor x (foldr Z.lxor 0 (a ++ b)).
Proof.
  induction a as [|y a IH]; [done|]. cbn. rewrite IH.
  rewrite <- !Z.lxor_assoc. by rewrite (Z.lxor_comm y x).
Qed.

Lemma map_nth_seq' (p : list Z) : map (fun k => nth k p 0) (seq 0 (length p)) = p.
Proof.
  apply list_eq. intros k. rewrite list_lookup_fmap.
  destruct (decide (k < length p)%nat) as [Hk|Hk].
  - rewrite lookup_seq_lt by done. cbn. rewrite nth_lookup.
    destruct (lookup_lt_is_Some_2 p k Hk) as [v Hv]. by rewrite Hv.
  - rewrite lookup_seq_ge by lia. cbn. symmetry. apply lookup_ge_None. lia.
Qed.

(** One packet out of [l1 ++ p :: l2] is given back by the parity. *)
Lemma parity_restores l1 l2 p :
  map (fun k => Z.lxor (nth k (parity (length p) (l1 ++ p :: l2)) 0)
                  (foldr Z.lxor 0 (map (fun p => nth k p 0) (l1 ++ l2)))) (seq 0 (length p)) = p.
Proof.
  transitivity (map (fun k => nth k p 0) (seq 0 (length p))); [|apply map_nth_seq'].
  apply map_ext_in. intros k Hk%in_seq.
  unfold parity. rewrite (nth_lookup _ k), list_lookup_fmap, lookup_seq_lt by lia. cbn.
  rewrite !map_app. cbn. rewrite xor_middle, Z.lxor_assoc, Z.lxor_nilpotent. apply Z.lxor_0_r.
Qed.

Lemma present_others (l1 l2 : list (list Z)) d :
  present (map Some l1 ++ Some d :: map Some l2) (length l1) = l1 ++ l2.
Proof.
  unfold present. rewrite <- (length_map Some l1), delete_middle, <- map_app.
  generalize (l1 ++ l2). intros l. induction l as [|x l IH]; [done|]. cbn. by rewrite IH.
Qed.

Lemma missing_in lost lo n j :
  j ∈ missing lost lo 0 (Z.to_nat n) <-> arr_get lost (lo + j) = Some 0 /\ 0 <= j < n.
Proof. unfold missing. rewrite list_elem_of_filter, elem_of_seqZ. split; intros []; (split; [done|lia]). Qed.

Lemma decodable_true k r f :
  decodable k r f = true -> 1 <= r <= k - 1 /\ (f = 0 \/ r + f <= k - 2).
Proof. unfold decodable. lia. Qed.

(** One loss, and both FEC packets there. *)
Lemma one_loss num lost :
  0 <= num -> (forall i, 0 <= i < num + 2 -> arr_get lost i = Some 0 \/ arr_get lost i = Some 1) ->
  losses_ok num 2 lost = true ->
  exists i, missing lost 0 0 (Z.to_nat num) = [i] /\ 0 <= i < num /\ arr_get lost i = Some 0 /\
    (forall j, 0 <= j < num -> j <> i -> arr_get lost j = Some 1) /\ arr_get lost num = Some 1.
Proof.
  intros Hn H01 [Hok1 Hok2]%decodable_true.
  destruct (missing lost num 0 _) as [|f F] eqn:HF; [|cbn [length] in Hok2; lia].
  destruct (missing lost 0 0 _) as [|i [|i2 R]] eqn:HR; [cbn in Hok1; lia| |cbn [length] in Hok1; lia].
  assert (forall j, j ∈ [i] <-> arr_get lost j = Some 0 /\ 0 <= j < num) as Hi.
  { intros j. rewrite <- HR, missing_in. by rewrite Z.add_0_l. }
  exists i. destruct (proj1 (Hi i)) as [H0 Hr]; [set_solver|]. split_and!; try done; try lia.
  - intros j Hj Hne. destruct (H01 j) as [Hj0|]; [lia| |done].
    assert (j ∈ [i]) by (by apply Hi). set_solver.
  - destruct (H01 num) as [Hj0|]; [lia| |done].
    assert (0 ∈ missing lost num 0 (Z.to_nat 2)) as Hin.
    { apply missing_in. rewrite Z.add_0_r. split; [done|lia]. }
    rewrite HF in Hin. set_solver.
Qed.

Lemma xor_restores num K :
  0 <= num -> 0 <= K -> restores num 2 K (fun pkts => replicate 2 (parity (Z.to_nat K) pkts)).
Proof.
  intros Hn HK pkts rtp fec lost Hlen Hp (Hr & Hf & H01 & Hb) Hok.
  destruct (one_loss num lost Hn H01 Hok) as (i & HR & Hi & H0 & H1 & HF).
  destruct (Hb i Hi) as (d & Hd & Hdl).
  destruct (arr_get_in pkts i ltac:(lia)) as [p Hpi].
  assert (Z.of_nat (length p) = K) as HpK.
  { rewrite Forall_forall in Hp. apply Hp. by eapply arr_get_elem. }
  specialize (Hf 0 ltac:(lia)). rewrite Z.add_0_r in Hf. specialize (Hf HF).
  unfold fec_decode_adp, xor_code. rewrite HR, Hf, Hd.
  change (arr_get (replicate 2 ?x) 0) with (Some x). cbv iota.
  rewrite (proj2 (Nat.eqb_eq _ _)) by lia.
  eexists _, _, _. split; [done|].
  assert (pkts !! Z.to_nat i = Some p) as Hpn by (by rewrite <- arr_get_nat, Z2Nat.id by lia).
  pose proof (take_drop_middle _ _ _ Hpn) as Hsplit.
  set (l1 := take (Z.to_nat i) pkts) in *. set (l2 := drop (S (Z.to_nat i)) pkts) in *.
  assert (length l1 = Z.to_nat i) as Hl1 by (unfold l1; rewrite length_take; lia).
  assert (take (Z.to_nat num) rtp = map Some l1 ++ Some d :: map Some l2) as Hrtp.
  { assert (map Some l1 ++ Some d :: map Some l2 = <[Z.to_nat i := Some d]> (map Some pkts)) as ->.
    { rewrite <- Hsplit, map_app. cbn. rewrite <- Hl1.
      by rewrite <- (length_map Some l1), list_insert_middle. }
    apply list_eq. intros k. destruct (decide (k < Z.to_nat num)%nat) as [Hk|Hk].
    - rewrite lookup_take_lt by done.
      destruct (decide (k = Z.to_nat i)) as [->|Hne].
      + rewrite list_lookup_insert_eq by (rewrite length_map; lia).
        by rewrite <- arr_get_nat, Z2Nat.id by lia.
      + rewrite list_lookup_insert_ne, list_lookup_fmap by done.
        rewrite <- arr_get_nat, Hr by (try apply H1; lia). rewrite arr_get_nat.
        destruct (lookup_lt_is_Some_2 pkts k ltac:(lia)) as [v ->]. done.
    - rewrite lookup_take_ge by lia. symmetry. apply lookup_ge_None.
      rewrite length_insert, length_map. lia. }
  intros j Hj. destruct (decide (j = i)) as [->|Hne].
  - rewrite arr_get_set_eq by (split; [lia|]; by eapply arr_get_Some).
    rewrite Hpi. do 2 f_equal. rewrite Hrtp, <- Hl1, present_others, <- Hsplit.
    replace (Z.to_nat K) with (length p) by lia. apply parity_restores.
  - rewrite arr_get_set_ne by lia. apply Hr; [done|]. by apply H1.
Qed.

(** A group of three packets, the second one lost, with two FEC packets. *)
Definition parity_pkts : list (list Z) :=
  [replicate 12 1 ++ replicate 8 11; replicate 12 2 ++ replicate 8 12; replicate 12 3 ++ replicate 8 13].

Definition parity_group : RTPFECPktGroup :=
  let par := Some (parity 20 parity_pkts) in
  mkGroup ([parity_pkts !! 0%nat; Some (replicate 20 0); parity_pkts !! 2%nat] ++ replicate 252 None)
    ([20; 0; 15] ++ replicate 252 0) ([par; par] ++ replicate 18 None)
    ([1; 0; 1; 1; 1] ++ replicate 270 0) 0 0 100 102 0.

Definition parity_receiver : receiver state unit :=
  let q := new_queue 4000 100 in
  mkReceiver (mkCtx 0 Null (Live parity_group) Null 1 103 1 11 0 20 3 2 None) q q q q tt (0, 0, 0) [].

Lemma three_cases (P : Z -> Prop) : P 0 -> P 1 -> P 2 -> forall i, 0 <= i < 3 -> P i.
Proof. intros H0 H1 H2 i Hi. assert (i = 0 \/ i = 1 \/ i = 2) as [-> | [-> | ->]] by lia; done. Qed.

Lemma parity_group_full : group_full 3 2 20 parity_group.
Proof.
  split; [split; try (by vm_compute)|split].
  - apply Forall_app. split; [repeat constructor|by apply Forall_replicate].
  - apply Forall_app. split; [repeat constructor|by apply Forall_replicate].
  - apply Forall_app. split; [repeat constructor; lia|apply Forall_replicate; lia].
  - apply three_cases; by eexists.
  - intros i Hi. assert (i = 0 \/ i = 1) as [-> | ->] by lia; by eexists.
Qed.

Lemma parity_lossy :
  lossy 3 2 20 (fun pkts => replicate 2 (parity 20 pkts)) [] parity_group parity_pkts parity_receiver.
Proof.
  destruct new_queue_holds as [Hq Ho].
  split; try done; try (by left); try (by vm_compute).
  - apply parity_group_full.
  - split_and!.
    + apply (three_cases (fun i => _ -> _)); by vm_compute.
    + intros j Hj. assert (j = 0 \/ j = 1) as [-> | ->] by lia; by vm_compute.
    + intros i Hi. assert (i = 0 \/ i = 1 \/ i = 2 \/ i = 3 \/ i = 4) as [-> | [-> | [-> | [-> | ->]]]] by lia;
        vm_compute; auto.
    + apply (three_cases (fun i => exists d, _)); by eexists.
  - apply (three_cases (fun i => _ -> _)); intros H; [by eexists|by vm_compute in H|by eexists].
  - split; [done|]. repeat constructor.
Qed.

