(* ===== verification/VpssImg.v ===== *)
(** * The image list of a VPSS instance

    Models vpss_v3_0/vpss_in/vpss_img.c: the frames a video-processing instance
    has been given wait in a list of nodes; an interlaced frame takes two nodes,
    one per field, and is given back to its source when the second one is done.
    The kernel's circular lists are sequences of node addresses, with the list
    head as a position of its own ([Head]). [None] is undefined behaviour: a
    frame read through the head of the list, a node linked twice, a freed node
    used, or a call of a callback that was not registered. *)

From S2P Require Import Prelude.

(** Constants of headers that are not part of the repository. *)
Class VpssConsts := {
  VPSS_SOURCE_MAX_NUMB : nat;
  HI_INVALID_HANDLE : Z;
  DEF_HI_DRV_VPSS_LAST_FRAME_FLAG : Z;
  DEF_HI_DRV_VPSS_LAST_ERROR_FLAG : Z;
}.

(** What the module relies on of them. *)
Class VpssConstsOk (V : VpssConsts) : Prop := {
  vpss_flags_ne : DEF_HI_DRV_VPSS_LAST_FRAME_FLAG <> DEF_HI_DRV_VPSS_LAST_ERROR_FLAG;
  vpss_flags_nz : DEF_HI_DRV_VPSS_LAST_FRAME_FLAG <> 0 /\ DEF_HI_DRV_VPSS_LAST_ERROR_FLAG <> 0;
}.

(** ** Frames *)

Inductive HI_DRV_FIELD_MODE_E :=
| HI_DRV_FIELD_TOP
| HI_DRV_FIELD_BOTTOM
| HI_DRV_FIELD_ALL
| HI_DRV_FIELD_BUTT.

#[export] Instance field_mode_eq : EqDecision HI_DRV_FIELD_MODE_E.
Proof. solve_decision. Defined.

(** Pixel formats, as numbered by the enumeration. *)
Definition HI_DRV_PIX_FMT_NV12_TILE : Z := 97.
Definition HI_DRV_PIX_FMT_NV21_TILE : Z := 98.
Definition HI_DRV_PIX_FMT_NV12_TILE_CMP : Z := 100.
Definition HI_DRV_PIX_FMT_NV21_TILE_CMP : Z := 101.

Record HI_DRV_VID_FRAME_ADDR_S := mkAddr {
  u32PhyAddr_YHead : Z;
  u32PhyAddr_Y : Z;
  u32Stride_Y : Z;
  u32PhyAddr_CHead : Z;
  u32PhyAddr_C : Z;
  u32Stride_C : Z;
  u32PhyAddr_CrHead : Z;
  u32PhyAddr_Cr : Z;
  u32Stride_Cr : Z;
}.

#[export] Instance addr_fields : Fields HI_DRV_VID_FRAME_ADDR_S := fun r =>
  mkAddr r.(u32PhyAddr_YHead) r.(u32PhyAddr_Y) r.(u32Stride_Y) r.(u32PhyAddr_CHead)
    r.(u32PhyAddr_C) r.(u32Stride_C) r.(u32PhyAddr_CrHead) r.(u32PhyAddr_Cr) r.(u32Stride_Cr).

(** The fields of a frame the module reads or writes; [u32LastFlag] and
    [s32InterPtsDelta] lie in its private area, [others] stands for the rest, which
    is only copied. *)
Record HI_DRV_VIDEO_FRAME_S := mkFrame {
  u32FrameIndex : Z;
  stBufAddr : list HI_DRV_VID_FRAME_ADDR_S;
  u32Pts : Z;
  s64OmxPts : Z;
  u32FrameRate : Z;
  ePixFormat : Z;
  bProgressive : bool;
  enFieldMode : HI_DRV_FIELD_MODE_E;
  bTopFieldFirst : bool;
  bIsFirstIFrame : bool;
  u32LastFlag : Z;
  s32InterPtsDelta : Z;
  others : list Z;
}.

#[export] Instance frame_fields : Fields HI_DRV_VIDEO_FRAME_S := fun r =>
  mkFrame r.(u32FrameIndex) r.(stBufAddr) r.(u32Pts) r.(s64OmxPts) r.(u32FrameRate) r.(ePixFormat)
    r.(bProgressive) r.(enFieldMode) r.(bTopFieldFirst) r.(bIsFirstIFrame) r.(u32LastFlag)
    r.(s32InterPtsDelta) r.(others).

Definition zero_addr : HI_DRV_VID_FRAME_ADDR_S := mkAddr 0 0 0 0 0 0 0 0 0.
Definition zero_frame : HI_DRV_VIDEO_FRAME_S :=
  mkFrame 0 [zero_addr; zero_addr] 0 0 0 0 false HI_DRV_FIELD_TOP false false 0 0 [].

(** ** Kernel lists *)

Abbreviation node := positive.

(** A position of a list: its head or a node. *)
Inductive LIST := Head | Node (x : node).

#[export] Instance list_pos_eq : EqDecision LIST.
Proof. solve_decision. Defined.

Definition first (l : list node) : LIST := match l with [] => Head | x :: _ => Node x end.

(** What follows a node; [None] if it is not in the list. *)
Fixpoint after (l : list node) (x : node) : option (list node) :=
  match l with
  | [] => None
  | y :: l => if decide (x = y) then Some l else after l x
  end.

(** The nodes behind a position, up to the end. *)
Definition behind (l : list node) (p : LIST) : option (list node) :=
  match p with Head => Some l | Node x => after l x end.

Definition list_next (l : list node) (p : LIST) : option LIST := first <$> behind l p.
Definition list_prev (l : list node) (p : LIST) : option LIST := first <$> behind (rev l) p.

(** [list_entry]: the node a position lies in. *)
Definition list_entry (p : LIST) : option node :=
  match p with Head => None | Node x => Some x end.

Definition list_empty (l : list node) : bool := match l with [] => true | _ => false end.

Definition list_del_init (l : list node) (x : node) : option (list node) :=
  if decide (x ∈ l) then Some (filter (fun y => x <> y) l) else None.

(** The nodes [xs] linked in behind a position. *)
Fixpoint link_after (l : list node) (x : node) (xs : list node) : option (list node) :=
  match l with
  | [] => None
  | y :: l => if decide (x = y) then Some (y :: xs ++ l) else r ← link_after l x xs; Some (y :: r)
  end.
Definition link_behind (l : list node) (p : LIST) (xs : list node) : option (list node) :=
  match p with Head => Some (xs ++ l) | Node x => link_after l x xs end.

(** ** The image list *)

(** The last two fields are the memory of the nodes and the calls of
    [pfnRlsImage] so far, with the handle and the frame they were given. *)
Record VPSS_IMAGELIST_INFO_S := mkImgList {
  stFulImageList : list node;
  stEmptyImageList : list node;
  pstTarget_1 : LIST;
  u32GetUsrTotal : Z;
  u32GetUsrSuccess : Z;
  u32RelUsrTotal : Z;
  u32RelUsrSuccess : Z;
  hSrc : Z;
  pfnAcqImage : option Z;
  pfnRlsImage : option Z;
  nodes : gmap node HI_DRV_VIDEO_FRAME_S;
  released : list (Z * Z * HI_DRV_VIDEO_FRAME_S);
}.

#[export] Instance imglist_fields : Fields VPSS_IMAGELIST_INFO_S := fun r =>
  mkImgList r.(stFulImageList) r.(stEmptyImageList) r.(pstTarget_1) r.(u32GetUsrTotal)
    r.(u32GetUsrSuccess) r.(u32RelUsrTotal) r.(u32RelUsrSuccess) r.(hSrc) r.(pfnAcqImage)
    r.(pfnRlsImage) r.(nodes) r.(released).

Record VPSS_IMG_CALLBACK_S := mkCallback {
  cb_hSrc : Z;
  cb_pfnAcqImage : option Z;
  cb_pfnRlsImage : option Z;
}.

Section Images.
Context {C : HiConsts} {V : VpssConsts}.
Implicit Types s : VPSS_IMAGELIST_INFO_S.

Definition get_image s (x : node) : option HI_DRV_VIDEO_FRAME_S := s.(nodes) !! x.
Definition set_image s (x : node) (f : HI_DRV_VIDEO_FRAME_S) : VPSS_IMAGELIST_INFO_S :=
  s <| nodes := <[x := f]> s.(nodes) |>.

(** A node that is in one of the lists may not be linked again. *)
Definition unlinked s (x : node) : bool :=
  bool_decide (x ∉ s.(stFulImageList)) && bool_decide (x ∉ s.(stEmptyImageList)).

(** [bProgressive = HI_TRUE] for the nodes [l]. *)
Fixpoint mark_progressive s (l : list node) : option VPSS_IMAGELIST_INFO_S :=
  match l with
  | [] => Some s
  | x :: l => f ← get_image s x; mark_progressive (set_image s x (f <| bProgressive := true |>)) l
  end.

Definition VPSS_IMG_AddFulImage s (x : node) : option (VPSS_IMAGELIST_INFO_S * Z) :=
  f ← get_image s x;
  s ← (if negb f.(bProgressive) then
         if list_empty s.(stFulImageList) then Some (set_image s x (f <| bProgressive := true |>))
         else Some s
       else if negb (list_empty s.(stFulImageList)) then
         l ← behind s.(stFulImageList) s.(pstTarget_1); mark_progressive s l
       else Some s);
  if unlinked s x then Some (s <| stFulImageList := s.(stFulImageList) ++ [x] |>, HI_SUCCESS) else None.

Definition VPSS_IMG_AddEmptyImage s (x : node) : option (VPSS_IMAGELIST_INFO_S * Z) :=
  if unlinked s x then Some (s <| stEmptyImageList := s.(stEmptyImageList) ++ [x] |>, HI_SUCCESS)
  else None.

Definition VPSS_IMG_GetEmptyImage s : option (VPSS_IMAGELIST_INFO_S * option node) :=
  match s.(stEmptyImageList) with
  | [] => Some (s, None)
  | x :: _ =>
      l ← list_del_init s.(stEmptyImageList) x;
      _ ← get_image s x;
      Some (set_image (s <| stEmptyImageList := l |>) x zero_frame, Some x)
  end.

Definition VPSS_IMG_GetProcessImg s : option (Z * option node) :=
  p ← list_next s.(stFulImageList) s.(pstTarget_1);
  match p with
  | Node x => Some (HI_SUCCESS, Some x)
  | Head => Some (HI_FAILURE, None)
  end.

Definition VPSS_IMG_CheckEmptyNode s : option (VPSS_IMAGELIST_INFO_S * bool) :=
  '(s, x1) ← VPSS_IMG_GetEmptyImage s;
  match x1 with
  | None => Some (s, false)
  | Some x1 =>
      '(s, x2) ← VPSS_IMG_GetEmptyImage s;
      match x2 with
      | None => '(s, _) ← VPSS_IMG_AddEmptyImage s x1; Some (s, false)
      | Some x2 =>
          '(s, _) ← VPSS_IMG_AddEmptyImage s x1;
          '(s, _) ← VPSS_IMG_AddEmptyImage s x2;
          Some (s, true)
      end
  end.

(** Whether the image after the target can be processed. *)
Definition VPSS_IMG_CheckImageList s : option (VPSS_IMAGELIST_INFO_S * bool) :=
  let l := s.(stFulImageList) in
  undo ← list_next l s.(pstTarget_1);
  match undo with
  | Head => Some (s, false)
  | Node x =>
      f ← get_image s x;
      if f.(bProgressive) then Some (s, true) else
      let pre := s.(pstTarget_1) in
      if decide (pre = Head) then
        next ← list_next l pre;
        Some (if decide (next <> Head) then s <| pstTarget_1 := next |> else s, false)
      else
        cur ← list_next l pre;
        if decide (cur = Head) then Some (s, false) else
        next1 ← list_next l cur;
        if decide (next1 = Head) then Some (s, false) else
        next2 ← list_next l next1;
        if decide (next2 = Head) then Some (s, false) else
        next3 ← list_next l next2;
        if decide (next3 = Head) then Some (s, false) else Some (s, true)
  end.

Definition VPSS_IMG_CheckNeedRelease (f : HI_DRV_VIDEO_FRAME_S) : bool :=
  if negb f.(bProgressive) then
    (bool_decide (f.(enFieldMode) = HI_DRV_FIELD_TOP) && negb f.(bTopFieldFirst))
    || (bool_decide (f.(enFieldMode) = HI_DRV_FIELD_BOTTOM) && f.(bTopFieldFirst))
  else true.
(** An interlaced frame as its two fields. *)
Definition split_fields (f : HI_DRV_VIDEO_FRAME_S) : HI_DRV_VIDEO_FRAME_S * HI_DRV_VIDEO_FRAME_S :=
  let f2 := f in
  let '(f1, f2) :=
    if f.(bTopFieldFirst)
    then (f <| enFieldMode := HI_DRV_FIELD_TOP |>, f2 <| enFieldMode := HI_DRV_FIELD_BOTTOM |>)
    else (f <| enFieldMode := HI_DRV_FIELD_BOTTOM |>, f2 <| enFieldMode := HI_DRV_FIELD_TOP |>) in
  let f2 := f2 <| u32Pts := u32 (f1.(u32Pts) + f1.(s32InterPtsDelta)) |> in
  let f2 := f2 <| s64OmxPts := s64 (f1.(s64OmxPts) + s32 (f1.(s32InterPtsDelta) * 1000)) |> in
  let f1 := f1 <| u32FrameRate := u32 (f1.(u32FrameRate) * 2) |> in
  let f2 := f2 <| u32FrameRate := u32 (f2.(u32FrameRate) * 2) |> in
  let f2 := if f1.(bIsFirstIFrame) then f2 <| bIsFirstIFrame := false |> else f2 in
  (f1, f2).

(** [pstPreNode->stSrcImage.bProgressive = HI_TRUE], unless at the head. *)
Definition mark_prev s (p : LIST) : option VPSS_IMAGELIST_INFO_S :=
  match p with Head => Some s | Node x => mark_progressive s [x] end.

(** The last three fields become progressive, if the last one is a field. *)
Definition mark_last_three s : option VPSS_IMAGELIST_INFO_S :=
  p1 ← list_prev s.(stFulImageList) Head;
  bPreProg ← match p1 with Head => Some false | Node x => bProgressive <$> get_image s x end;
  if bPreProg || bool_decide (p1 = Head) then Some s else
  s ← mark_prev s p1;
  p2 ← list_prev s.(stFulImageList) p1;
  s ← mark_prev s p2;
  p3 ← list_prev s.(stFulImageList) p2;
  mark_prev s p3.

(** The last frame's fields, and the image before them, become progressive. *)
Definition last_frame s x1 x2 (f1 f2 : HI_DRV_VIDEO_FRAME_S) : option VPSS_IMAGELIST_INFO_S :=
  p ← list_prev s.(stFulImageList) Head;
  s ← mark_prev s p;
  let s := set_image s x1 (f1 <| bProgressive := true |> <| u32LastFlag := 0 |>) in
  let s := set_image s x2 (f2 <| bProgressive := true |>
                              <| u32LastFlag := DEF_HI_DRV_VPSS_LAST_FRAME_FLAG |>) in
  '(s, _) ← VPSS_IMG_AddFulImage s x1;
  '(s, _) ← VPSS_IMG_AddFulImage s x2;
  Some s.

(** The fields of an interlaced frame, in the two nodes. *)
Definition add_fields s (x1 x2 : node) (f : HI_DRV_VIDEO_FRAME_S) : option VPSS_IMAGELIST_INFO_S :=
  let '(f1, f2) := split_fields f in
  let s := set_image (set_image s x1 f1) x2 f2 in
  if f1.(u32LastFlag) =? DEF_HI_DRV_VPSS_LAST_FRAME_FLAG then last_frame s x1 x2 f1 f2
  else if f1.(u32LastFlag) =? DEF_HI_DRV_VPSS_LAST_ERROR_FLAG then
    s ← mark_last_three s;
    '(s, _) ← VPSS_IMG_AddEmptyImage s x1;
    '(s, _) ← VPSS_IMG_AddEmptyImage s x2;
    Some s
  else
    '(s, _) ← VPSS_IMG_AddFulImage s x1;
    '(s, _) ← VPSS_IMG_AddFulImage s x2;
    Some s.

Definition VPSS_IMG_AddNewImg s (f : HI_DRV_VIDEO_FRAME_S) : option (VPSS_IMAGELIST_INFO_S * Z) :=
  '(s, x1) ← VPSS_IMG_GetEmptyImage s;
  match x1 with
  | None => Some (s, HI_FAILURE)
  | Some x1 =>
      '(s, x2) ← VPSS_IMG_GetEmptyImage s;
      match x2 with
      | None => '(s, _) ← VPSS_IMG_AddEmptyImage s x1; Some (s, HI_FAILURE)
      | Some x2 =>
          let s := set_image s x1 f in
          if negb f.(bProgressive) && bool_decide (f.(enFieldMode) = HI_DRV_FIELD_ALL) then
            s ← add_fields s x1 x2 f; Some (s, HI_SUCCESS)
          else
            '(s, _) ← VPSS_IMG_AddFulImage s x1;
            '(s, _) ← VPSS_IMG_AddEmptyImage s x2;
            Some (s, HI_SUCCESS)
      end
  end.

(** ** Addresses of fields *)

(** The second line of a buffer: the first line of its bottom field. *)
Definition is_tile (ePixFormat : Z) : bool :=
  (ePixFormat =? HI_DRV_PIX_FMT_NV12_TILE) || (ePixFormat =? HI_DRV_PIX_FMT_NV21_TILE)
  || (ePixFormat =? HI_DRV_PIX_FMT_NV21_TILE_CMP) || (ePixFormat =? HI_DRV_PIX_FMT_NV12_TILE_CMP).

Definition bottom_addr (ePixFormat phy stride : Z) : Z :=
  if stride >=? 256 then
    if is_tile ePixFormat then u32 (phy + 256) else u32 (phy + stride)
  else u32 (phy + stride).

Definition VPSS_IMG_CopyAddr s (p : LIST) (eLReye : nat) : option HI_DRV_VID_FRAME_ADDR_S :=
  x ← list_entry p;
  f ← get_image s x;
  a ← f.(stBufAddr) !! eLReye;
  if bool_decide (f.(enFieldMode) = HI_DRV_FIELD_BOTTOM) then
    let a := a <| u32PhyAddr_Y := bottom_addr f.(ePixFormat) a.(u32PhyAddr_Y) a.(u32Stride_Y) |> in
    let a := a <| u32PhyAddr_C := bottom_addr f.(ePixFormat) a.(u32PhyAddr_C) a.(u32Stride_C) |> in
    Some a
  else Some a.

(** [None] for the addresses when the call fails. *)
Definition VPSS_IMG_GetFieldAddr s (eLReye : nat)
    : option (Z * option (list HI_DRV_VID_FRAME_ADDR_S)) :=
  let l := s.(stFulImageList) in
  let p := s.(pstTarget_1) in
  if decide (p = Head) then Some (HI_FAILURE, None) else
  a0 ← VPSS_IMG_CopyAddr s p eLReye;
  p ← list_next l p;
  p ← list_next l p;
  a3 ← VPSS_IMG_CopyAddr s p eLReye;
  p ← list_next l p;
  a4 ← VPSS_IMG_CopyAddr s p eLReye;
  p ← list_next l p;
  a5 ← VPSS_IMG_CopyAddr s p eLReye;
  Some (HI_SUCCESS, Some [a0; zero_addr; zero_addr; a3; a4; a5]).

(** ** Completion *)

(** The frame of a node goes back to its source if it has to; the node is empty. *)
Definition give_back s (x : node) : option VPSS_IMAGELIST_INFO_S :=
  f ← get_image s x;
  s ← (if VPSS_IMG_CheckNeedRelease f then
         let s := s <| u32RelUsrTotal := u32 (s.(u32RelUsrTotal) + 1) |> in
         cb ← s.(pfnRlsImage);
         let s := s <| released := s.(released) ++ [(cb, s.(hSrc), f)] |> in
         Some (s <| u32RelUsrSuccess := u32 (s.(u32RelUsrSuccess) + 1) |>)
       else Some s);
  fst <$> VPSS_IMG_AddEmptyImage s x.

Definition unlink s (x : node) : option VPSS_IMAGELIST_INFO_S :=
  l ← list_del_init s.(stFulImageList) x; Some (s <| stFulImageList := l |>).

(** The loop over the images before the one that is done, [n] being the position
    after [pos]. *)
Fixpoint release_before (fuel : nat) s (pos n : LIST) : option VPSS_IMAGELIST_INFO_S :=
  stop ← list_next s.(stFulImageList) s.(pstTarget_1);
  if decide (pos = stop) then Some s else
  match fuel with
  | O => None
  | S fuel =>
      x ← list_entry pos;
      s ← (if decide (pos = s.(pstTarget_1)) then
             p ← list_prev s.(stFulImageList) s.(pstTarget_1);
             Some (s <| pstTarget_1 := p |>)
           else Some s);
      s ← unlink s x;
      s ← give_back s x;
      n' ← list_next s.(stFulImageList) n;
      release_before fuel s n n'
  end.

(** The progressive image [done] itself. *)
Definition complete_done s : option VPSS_IMAGELIST_INFO_S :=
  done ← list_next s.(stFulImageList) s.(pstTarget_1);
  match done with
  | Head => Some s
  | Node x =>
      f ← get_image s x;
      next ← list_next s.(stFulImageList) (Node x);
      match next with
      | Node y =>
          g ← get_image s y;
          if g.(u32FrameIndex) =? f.(u32FrameIndex) then
            let s := set_image s x (f <| bProgressive := false |>) in
            Some (s <| pstTarget_1 := Node x |>)
          else
            let s := if negb f.(bProgressive) then set_image s x (f <| bProgressive := true |>) else s in
            s ← unlink s x; give_back s x
      | Head => s ← unlink s x; give_back s x
      end
  end.

Definition VPSS_IMG_Complete s : option (VPSS_IMAGELIST_INFO_S * Z) :=
  let l := s.(stFulImageList) in
  next ← list_next l s.(pstTarget_1);
  match next with
  | Head => Some (s, HI_FAILURE)
  | Node x =>
      f ← get_image s x;
      if f.(bProgressive) then
        let pos := first l in
        n ← list_next l pos;
        s ← release_before (length l) s pos n;
        s ← complete_done s;
        Some (s, HI_SUCCESS)
      else
        match s.(pstTarget_1) with
        | Head => Some (s, HI_SUCCESS)
        | Node t =>
            p ← list_prev l (Node t);
            s ← unlink (s <| pstTarget_1 := p |>) t;
            s ← give_back s t;
            p ← list_next s.(stFulImageList) s.(pstTarget_1);
            Some (s <| pstTarget_1 := p |>, HI_SUCCESS)
        end
  end.

(** ** Life cycle *)

Definition VPSS_IMG_Regist s (cb : VPSS_IMG_CALLBACK_S) : VPSS_IMAGELIST_INFO_S * Z :=
  if s.(hSrc) =? HI_INVALID_HANDLE then
    (s <| hSrc := cb.(cb_hSrc) |> <| pfnAcqImage := cb.(cb_pfnAcqImage) |>
       <| pfnRlsImage := cb.(cb_pfnRlsImage) |>, HI_SUCCESS)
  else (s, HI_FAILURE).

(** [n] nodes are still to be allocated, [mallocs] are the results of the next
    allocations; [false] when one fails. *)
Fixpoint alloc_nodes (n : nat) s (mallocs : list (option node))
    : option (VPSS_IMAGELIST_INFO_S * bool) :=
  match n with
  | O => Some (s, true)
  | S n =>
      match mallocs with
      | Some x :: mallocs =>
          if unlinked s x then
            alloc_nodes n ((set_image s x zero_frame)
              <| stEmptyImageList := s.(stEmptyImageList) ++ [x] |>) mallocs
          else None
      | _ => Some (s, false)
      end
  end.

Definition VPSS_IMG_Init s (mallocs : list (option node)) : option (VPSS_IMAGELIST_INFO_S * Z) :=
  let s := s <| hSrc := HI_INVALID_HANDLE |> <| pfnAcqImage := None |> <| pfnRlsImage := None |>
    <| u32GetUsrTotal := 0 |> <| u32GetUsrSuccess := 0 |> <| u32RelUsrTotal := 0 |>
    <| u32RelUsrSuccess := 0 |> <| stEmptyImageList := [] |> <| stFulImageList := [] |> in
  '(s, ok) ← alloc_nodes VPSS_SOURCE_MAX_NUMB s mallocs;
  if ok : bool then Some (s <| pstTarget_1 := Head |>, HI_SUCCESS) else Some (s, HI_FAILURE).

(** The nodes [l] of a list are freed, counting them; a node that is not
    allocated may not be freed. *)
Fixpoint free_nodes (mem : gmap node HI_DRV_VIDEO_FRAME_S) (l : list node) (u32Count : Z)
    : option (gmap node HI_DRV_VIDEO_FRAME_S * Z) :=
  match l with
  | [] => Some (mem, u32Count)
  | x :: l => _ ← mem !! x; free_nodes (delete x mem) l (u32 (u32Count + 1))
  end.

Definition VPSS_IMG_DeInit s : option (VPSS_IMAGELIST_INFO_S * Z) :=
  '(mem, u32Count) ← free_nodes s.(nodes) s.(stEmptyImageList) 0;
  '(mem, u32Count) ← free_nodes mem s.(stFulImageList) u32Count;
  let s := s <| nodes := mem |> <| stEmptyImageList := [] |> <| stFulImageList := [] |> in
  Some (s, if negb (u32Count =? Z.of_nat VPSS_SOURCE_MAX_NUMB) then HI_FAILURE else HI_SUCCESS).

Fixpoint empty_nodes s (l : list node) : option VPSS_IMAGELIST_INFO_S :=
  match l with
  | [] => Some s
  | x :: l => s ← unlink s x; '(s, _) ← VPSS_IMG_AddEmptyImage s x; empty_nodes s l
  end.

Definition VPSS_IMG_Reset s : option (VPSS_IMAGELIST_INFO_S * Z) :=
  s ← empty_nodes s s.(stFulImageList);
  Some (s <| pstTarget_1 := Head |>, HI_SUCCESS).

(** ** Reversing the field order *)

(** The loop of [VPSS_IMG_CorrectListOrder] at the position [pos]. *)
Fixpoint swap_fields (fuel : nat) s (pos : LIST) : option VPSS_IMAGELIST_INFO_S :=
  let l := s.(stFulImageList) in
  n ← list_next l pos;
  if decide (pos = Head) then Some s else
  match fuel with
  | O => None
  | S fuel =>
      pPreNode ← list_prev l pos;
      xn ← list_entry n;
      xp ← list_entry pos;
      fn ← get_image s xn;
      fp ← get_image s xp;
      let s := if decide (s.(pstTarget_1) <> pos)
               then set_image (set_image s xn (fn <| u32Pts := fp.(u32Pts) |>))
                      xp (fp <| u32Pts := fn.(u32Pts) |>)
               else s <| pstTarget_1 := n |> in
      l ← list_del_init l xp;
      l ← list_del_init l xn;
      l ← link_behind l pPreNode [xn; xp];
      let s := s <| stFulImageList := l |> in
      pos ← list_next l pos;
      swap_fields fuel s pos
  end.

Definition VPSS_IMG_CorrectListOrder s (bTopFirst : bool) : option (VPSS_IMAGELIST_INFO_S * Z) :=
  p ← list_next s.(stFulImageList) s.(pstTarget_1);
  x ← list_entry p;
  f ← get_image s x;
  if bool_decide (f.(enFieldMode) = if bTopFirst then HI_DRV_FIELD_BOTTOM else HI_DRV_FIELD_TOP)
  then Some (s, HI_FAILURE)
  else
    s ← swap_fields (length s.(stFulImageList)) s (first s.(stFulImageList));
    Some (s, HI_SUCCESS).
End Images.

#[global] Arguments set_image : simpl never.
#[global] Arguments list_next : simpl never.
#[global] Arguments list_prev : simpl never.
#[global] Arguments list_del_init : simpl never.

(** ** Positions of a list *)

Section Lists.
Implicit Types (l : list node) (x y : node).

Lemma after_mid l1 x l2 : x ∉ l1 -> after (l1 ++ x :: l2) x = Some l2.
Proof.
  induction l1 as [|y l1 IH]; cbn; intros Hx; [by rewrite decide_True|].
  apply not_elem_of_cons in Hx as [Hne Hx]. rewrite decide_False by done. by apply IH.
Qed.

Lemma next_mid l1 x l2 : NoDup (l1 ++ x :: l2) -> list_next (l1 ++ x :: l2) (Node x) = Some (first l2).
Proof.
  intros (_ & Hd & _)%NoDup_app. unfold list_next. cbn. rewrite after_mid; [done|].
  intros Hx. apply (Hd x Hx). set_solver.
Qed.

Lemma next_head l : list_next l Head = Some (first l).
Proof. done. Qed.

Lemma next_front x l : list_next (x :: l) (Node x) = Some (first l).
Proof. unfold list_next. cbn. by rewrite decide_True. Qed.

Lemma prev_front x l : NoDup (x :: l) -> list_prev (x :: l) (Node x) = Some Head.
Proof.
  intros [Hx _]%NoDup_cons. unfold list_prev. cbn. rewrite after_mid; [done|].
  by rewrite list_elem_of_In, <- in_rev, <- list_elem_of_In.
Qed.

Lemma prev_head l x : list_prev (l ++ [x]) Head = Some (Node x).
Proof. unfold list_prev. by rewrite rev_app_distr. Qed.

Lemma after_in l x : x ∈ l -> exists l', after l x = Some l' /\ l' ⊆ l.
Proof.
  induction l as [|y l IH]; [set_solver|]. intros Hx. cbn. destruct (decide (x = y)).
  - exists l. split; [done|set_solver].
  - destruct IH as (l' & Ha & Hl'); [set_solver|]. exists l'. split; [done|set_solver].
Qed.

Lemma prev_in l p : (forall x, p = Node x -> x ∈ l) ->
  exists q, list_prev l p = Some q /\ forall x, q = Node x -> x ∈ l.
Proof.
  intros Hp. unfold list_prev.
  assert (forall x, x ∈ rev l <-> x ∈ l) as Hrev.
  { intros x. by rewrite !list_elem_of_In, <- in_rev. }
  assert (exists l', behind (rev l) p = Some l' /\ l' ⊆ rev l) as (l' & -> & Hl').
  { destruct p as [|x]; cbn; [by eexists|]. apply after_in, Hrev. by apply Hp. }
  cbn. eexists. split; [done|]. intros x Hx. apply Hrev, Hl'. destruct l'; [done|].
  cbn in Hx. simplify_eq. set_solver.
Qed.

Lemma filter_others x l : x ∉ l -> filter (fun y => x <> y) l = l.
Proof.
  induction l as [|y l IH]; [done|]. intros [Hne Hx]%not_elem_of_cons.
  by rewrite filter_cons_True, IH.
Qed.

Lemma del_front x l : NoDup (x :: l) -> list_del_init (x :: l) x = Some l.
Proof.
  intros [Hx Hl]%NoDup_cons. unfold list_del_init. rewrite decide_True by set_solver.
  rewrite filter_cons_False by auto. f_equal. by apply filter_others.
Qed.
End Lists.

(** ** Nodes are neither lost nor linked twice *)

Section Conserved.
Context {C : HiConsts} {V : VpssConsts} (ids : list node).
Implicit Types (s : VPSS_IMAGELIST_INFO_S) (x : node).

(** The nodes [ids] are each in one of the lists or held by the caller, and the
    target is the head of the list of images or its first image. *)
Record img_ok (held : list node) s : Prop := {
  ok_nodes : held ++ s.(stFulImageList) ++ s.(stEmptyImageList) ≡ₚ ids;
  ok_nodup : NoDup ids;
  ok_mem x : is_Some (s.(nodes) !! x) <-> x ∈ ids;
  ok_target : s.(pstTarget_1) = Head \/
    exists x l, s.(stFulImageList) = x :: l /\ s.(pstTarget_1) = Node x;
  ok_rls : is_Some s.(pfnRlsImage);
}.

Lemma ok_lists h s : img_ok h s -> NoDup (h ++ s.(stFulImageList) ++ s.(stEmptyImageList)).
Proof. intros [-> Hd _ _ _]. done. Qed.

Lemma ok_ful h s : img_ok h s -> NoDup s.(stFulImageList).
Proof. by intros (_ & _ & (? & _)%NoDup_app)%ok_lists%NoDup_app. Qed.

Lemma ok_disjoint h s x : img_ok h s -> x ∈ s.(stFulImageList) -> x ∉ s.(stEmptyImageList).
Proof. intros (_ & _ & (_ & Hd & _)%NoDup_app)%ok_lists%NoDup_app. apply Hd. Qed.

Lemma ok_image h s x : img_ok h s -> x ∈ h ++ s.(stFulImageList) ++ s.(stEmptyImageList) ->
  exists f, s.(nodes) !! x = Some f.
Proof. intros [Hn _ Hm _ _] Hx. apply Hm. by rewrite <- Hn. Qed.

Lemma ok_unlinked h s x : img_ok (x :: h) s -> unlinked s x = true.
Proof.
  intros (Hx & _)%ok_lists%NoDup_cons. unfold unlinked.
  rewrite !bool_decide_eq_true_2; [done|set_solver|set_solver].
Qed.

Lemma set_image_mem s x f y :
  is_Some (s.(nodes) !! x) -> is_Some ((set_image s x f).(nodes) !! y) <-> is_Some (s.(nodes) !! y).
Proof.
  intros Hx. unfold set_image. cbn. destruct (decide (x = y)) as [->|Hne].
  - rewrite lookup_insert_eq. split; [done|by eexists].
  - by rewrite lookup_insert_ne.
Qed.

(** Images that are behind the target. *)
Definition tail_images s : list node :=
  match s.(pstTarget_1) with Head => s.(stFulImageList) | Node _ => tail s.(stFulImageList) end.

Lemma behind_target h s : img_ok h s -> behind s.(stFulImageList) s.(pstTarget_1) = Some (tail_images s).
Proof.
  intros []. unfold tail_images. destruct ok_target0 as [-> | (x & l & -> & ->)]; cbn; [done|].
  by rewrite decide_True.
Qed.

Lemma next_target h s : img_ok h s ->
  list_next s.(stFulImageList) s.(pstTarget_1) = Some (first (tail_images s)).
Proof. intros Hs. unfold list_next. by rewrite (behind_target _ _ Hs). Qed.

(** Marking nodes changes a flag of theirs. *)
Definition progressive (f : HI_DRV_VIDEO_FRAME_S) : HI_DRV_VIDEO_FRAME_S := f <| bProgressive := true |>.
Definition marked (l : list node) (m : gmap node HI_DRV_VIDEO_FRAME_S) : gmap node HI_DRV_VIDEO_FRAME_S :=
  fold_left (fun m x => alter progressive x m) l m.

Lemma marked_lookup l : forall m x,
  marked l m !! x = if decide (x ∈ l) then progressive <$> m !! x else m !! x.
Proof.
  induction l as [|y l IH]; intros m x; cbn [marked fold_left].
  { rewrite decide_False; [done|]. apply not_elem_of_nil. }
  fold (marked l (alter progressive y m)). rewrite IH.
  destruct (decide (x ∈ y :: l)) as [Hin|Hin]; rewrite elem_of_cons in Hin.
  - destruct (decide (x = y)) as [->|Hne].
    + rewrite lookup_alter_eq. case_decide; [|done]. by destruct (m !! y).
    + rewrite lookup_alter_ne by done. rewrite decide_True; [done|]. by destruct Hin.
  - rewrite decide_False by tauto. rewrite lookup_alter_ne; [done|]. intros ->. tauto.
Qed.

Lemma mark_ok l : forall s, (forall x, x ∈ l -> is_Some (s.(nodes) !! x)) ->
  mark_progressive s l = Some (s <| nodes := marked l s.(nodes) |>).
Proof.
  induction l as [|x l IH]; intros s Hl; [by destruct s|].
  destruct (Hl x ltac:(set_solver)) as [f Hf]. cbn. unfold get_image. rewrite Hf. cbn.
  assert (<[x := progressive f]> s.(nodes) = alter progressive x s.(nodes)) as Hm.
  { apply map_eq. intros y. destruct (decide (x = y)) as [->|].
    - by rewrite lookup_insert_eq, lookup_alter_eq, Hf.
    - by rewrite lookup_insert_ne, lookup_alter_ne. }
  unfold set_image. fold (progressive f). rewrite Hm.
  rewrite IH; [done|].
  intros y Hy. cbn. apply lookup_alter_is_Some, Hl. set_solver.
Qed.

Lemma marked_mem l m x : is_Some (marked l m !! x) <-> is_Some (m !! x).
Proof. rewrite marked_lookup. case_decide; [by rewrite fmap_is_Some|done]. Qed.

(** A change of frames only. *)
Lemma with_nodes h s m :
  img_ok h s -> (forall x, is_Some (m !! x) <-> is_Some (s.(nodes) !! x)) -> img_ok h (s <| nodes := m |>).
Proof. intros [] Hm. split; try done. cbn. intros x. by rewrite Hm. Qed.

Lemma set_image_ok h s x f :
  img_ok h s -> is_Some (s.(nodes) !! x) -> img_ok h (set_image s x f).
Proof.
  intros Hs Hx. apply (with_nodes h s _ Hs). intros y. apply (set_image_mem s x f y Hx).
Qed.

Lemma tail_images_in s x : x ∈ tail_images s -> x ∈ s.(stFulImageList).
Proof. unfold tail_images. destruct (pstTarget_1 s); [done|]. destruct (stFulImageList s); [done|]. cbn. set_solver. Qed.

(** Adding a node marks the images behind the target, or the node itself. *)
Definition ful_marks s x (f : HI_DRV_VIDEO_FRAME_S) : gmap node HI_DRV_VIDEO_FRAME_S :=
  if bProgressive f then marked (tail_images s) s.(nodes)
  else if list_empty s.(stFulImageList) then <[x := progressive f]> s.(nodes) else s.(nodes).

Lemma add_ful_ok h s x f :
  img_ok (x :: h) s -> s.(nodes) !! x = Some f ->
  let s' := s <| nodes := ful_marks s x f |> <| stFulImageList := s.(stFulImageList) ++ [x] |> in
  VPSS_IMG_AddFulImage s x = Some (s', HI_SUCCESS) /\ img_ok h s'.
Proof.
  intros Hs Hf s'. pose proof (ok_unlinked _ _ _ Hs) as Hu.
  assert (img_ok h s') as Hs'.
  { destruct Hs. split; cbn; try done.
    - rewrite <- ok_nodes0. solve_Permutation.
    - intros y. rewrite <- ok_mem0. unfold ful_marks. destruct (bProgressive f).
      + apply marked_mem.
      + destruct (list_empty _); [|done]. apply (set_image_mem s). by eexists.
    - destruct ok_target0 as [|(y & l & -> & ->)]; [by left|right]. by eexists _, _. }
  split; [|done]. unfold VPSS_IMG_AddFulImage, get_image. rewrite Hf. cbn.
  unfold s', ful_marks. destruct (bProgressive f) eqn:Hp; cbn.
  - destruct (stFulImageList s) as [|y l] eqn:Hl; cbn.
    + rewrite Hu. assert (tail_images s = []) as ->.
      { unfold tail_images. rewrite Hl. by destruct (pstTarget_1 s). }
      rewrite Hl. by destruct s.
    + rewrite <- Hl, (behind_target _ _ Hs). cbn. rewrite mark_ok; cbn.
      * change (unlinked (s <| nodes := ?m |>) x) with (unlinked s x). rewrite Hu, Hl. done.
      * intros z Hz%tail_images_in. apply (ok_image (x :: h) s z Hs). set_solver.
  - destruct (list_empty _); cbn.
    + change (unlinked (set_image s x ?g) x) with (unlinked s x). by rewrite Hu.
    + rewrite Hu. by destruct s.
Qed.

Lemma add_empty_ok h s x :
  img_ok (x :: h) s ->
  let s' := s <| stEmptyImageList := s.(stEmptyImageList) ++ [x] |> in
  VPSS_IMG_AddEmptyImage s x = Some (s', HI_SUCCESS) /\ img_ok h s'.
Proof.
  intros Hs s'. unfold VPSS_IMG_AddEmptyImage. rewrite (ok_unlinked _ _ _ Hs). split; [done|].
  destruct Hs. split; cbn; try done. rewrite <- ok_nodes0. solve_Permutation.
Qed.

Lemma get_empty_ok h s x l :
  img_ok h s -> s.(stEmptyImageList) = x :: l ->
  let s' := set_image (s <| stEmptyImageList := l |>) x zero_frame in
  VPSS_IMG_GetEmptyImage s = Some (s', Some x) /\ img_ok (x :: h) s'.
Proof.
  intros Hs He s'. destruct (ok_image h s x Hs) as [f Hf]; [rewrite He; set_solver|].
  pose proof (ok_lists _ _ Hs) as Hd. rewrite He in Hd.
  apply NoDup_app in Hd as (_ & _ & (_ & _ & Hd)%NoDup_app).
  unfold VPSS_IMG_GetEmptyImage, get_image. rewrite He, (del_front x l Hd), Hf. split; [done|].
  apply set_image_ok; [|cbn; by eexists]. destruct Hs. split; cbn; try done.
  rewrite <- ok_nodes0, He. solve_Permutation.
Qed.

(** What giving back the frame [f] of node [x] leaves. *)
Definition give_result s x (f : HI_DRV_VIDEO_FRAME_S) : VPSS_IMAGELIST_INFO_S :=
  let s := if VPSS_IMG_CheckNeedRelease f
           then s <| u32RelUsrTotal := u32 (s.(u32RelUsrTotal) + 1) |>
                  <| released := s.(released) ++ [(default 0 s.(pfnRlsImage), s.(hSrc), f)] |>
                  <| u32RelUsrSuccess := u32 (s.(u32RelUsrSuccess) + 1) |>
           else s in
  s <| stEmptyImageList := s.(stEmptyImageList) ++ [x] |>.

Lemma give_back_ok h s x f :
  img_ok (x :: h) s -> s.(nodes) !! x = Some f ->
  give_back s x = Some (give_result s x f) /\ img_ok h (give_result s x f).
Proof.
  intros Hs Hf. unfold give_back, give_result, get_image. rewrite Hf. cbn [mbind option_bind].
  pose proof (ok_rls _ _ Hs) as [cb Hcb].
  destruct (VPSS_IMG_CheckNeedRelease f).
  - cbn. rewrite Hcb. cbn.
    match goal with |- context [VPSS_IMG_AddEmptyImage ?s2 x] =>
      destruct (add_empty_ok h s2 x) as [-> Hs2] end; [by destruct Hs|done].
  - destruct (add_empty_ok h s x Hs) as [He Hs']. cbn. by rewrite He.
Qed.

Lemma unlink_front_ok h s x l :
  img_ok h s -> s.(stFulImageList) = x :: l -> s.(pstTarget_1) = Head ->
  unlink s x = Some (s <| stFulImageList := l |>) /\ img_ok (x :: h) (s <| stFulImageList := l |>).
Proof.
  intros Hs Hl Ht. pose proof (ok_ful _ _ Hs) as Hd. rewrite Hl in Hd.
  unfold unlink. rewrite Hl, (del_front x l Hd). split; [done|].
  destruct Hs. split; cbn; try done; [|by left]. rewrite <- ok_nodes0, Hl. solve_Permutation.
Qed.

Lemma pop_ok h s x l f :
  img_ok h s -> s.(stFulImageList) = x :: l -> s.(pstTarget_1) = Head -> s.(nodes) !! x = Some f ->
  let s' := give_result (s <| stFulImageList := l |>) x f in
  (s ← unlink s x; give_back s x) = Some s' /\ img_ok h s'.
Proof.
  intros Hs Hl Ht Hf s'. destruct (unlink_front_ok h s x l Hs Hl Ht) as [-> Hs1]. cbn.
  by apply give_back_ok.
Qed.

(** ** Completion *)

Lemma complete_done_ok s x l f :
  img_ok [] s -> s.(pstTarget_1) = Head -> s.(stFulImageList) = x :: l -> s.(nodes) !! x = Some f ->
  bProgressive f = true ->
  let s' := match l with
            | y :: _ =>
                if match s.(nodes) !! y with
                   | Some g => g.(u32FrameIndex) =? f.(u32FrameIndex) | None => false end
                then (set_image s x (f <| bProgressive := false |>)) <| pstTarget_1 := Node x |>
                else give_result (s <| stFulImageList := l |>) x f
            | [] => give_result (s <| stFulImageList := l |>) x f
            end in
  complete_done s = Some s' /\ img_ok [] s'.
Proof.
  intros Hs Ht Hl Hf Hp s'. destruct (pop_ok [] s x l f Hs Hl Ht Hf) as [Hpop Hok].
  unfold complete_done, get_image. rewrite Hl, Ht, next_head. cbn. rewrite Hf, next_front. cbn.
  destruct l as [|y l]; cbn; [done|].
  destruct (ok_image [] s y Hs) as [g Hg]; [rewrite Hl; set_solver|].
  unfold s'. rewrite Hg. cbn. destruct (_ =? _).
  - split; [done|]. assert (is_Some (s.(nodes) !! x)) as Hx by by eexists.
    destruct (set_image_ok [] s x (f <| bProgressive := false |>) Hs Hx).
    split; try done. right. by exists x, (y :: l).
  - rewrite Hp. cbn. by split.
Qed.

(** The image before the one that is done is given back. *)
Definition drop_target s : VPSS_IMAGELIST_INFO_S :=
  match s.(pstTarget_1) with
  | Head => s
  | Node x => give_result (s <| pstTarget_1 := Head |> <| stFulImageList := tail s.(stFulImageList) |>) x
                (default zero_frame (s.(nodes) !! x))
  end.

Lemma target_cases s y l :
  img_ok [] s -> tail_images s = y :: l ->
  (s.(pstTarget_1) = Head /\ s.(stFulImageList) = y :: l) \/
  exists x f, s.(pstTarget_1) = Node x /\ s.(stFulImageList) = x :: y :: l /\ s.(nodes) !! x = Some f.
Proof.
  intros Hs Hl. pose proof Hs as []. unfold tail_images in Hl.
  destruct ok_target0 as [Ht | (x & l' & Hf & Ht)]; rewrite Ht in Hl; [by left|right].
  rewrite Hf in Hl. cbn in Hl. subst l'.
  destruct (ok_image [] s x Hs) as [f Hx]; [rewrite Hf; set_solver|]. by exists x, f.
Qed.

Lemma drop_fields s y l :
  img_ok [] s -> tail_images s = y :: l ->
  (drop_target s).(pstTarget_1) = Head /\ (drop_target s).(stFulImageList) = y :: l /\
  (drop_target s).(nodes) = s.(nodes).
Proof.
  intros Hs Hl. unfold drop_target.
  destruct (target_cases s y l Hs Hl) as [[Ht Hf] | (x & f & Ht & Hf & _)]; rewrite Ht; [done|].
  rewrite Hf. unfold give_result. by destruct (VPSS_IMG_CheckNeedRelease _).
Qed.

(** Taking the target out: the node is given back behind the new target. *)
Lemma drop_target_ok s x y l f :
  img_ok [] s -> s.(pstTarget_1) = Node x -> s.(stFulImageList) = x :: y :: l ->
  s.(nodes) !! x = Some f ->
  (s ← unlink (s <| pstTarget_1 := Head |>) x; give_back s x) = Some (drop_target s) /\
  img_ok [] (drop_target s).
Proof.
  intros Hs Ht Hf Hx. unfold drop_target. rewrite Ht, Hf, Hx. cbn [default tail].
  apply (pop_ok [] (s <| pstTarget_1 := Head |>)); try done.
  destruct Hs. split; try done. by left.
Qed.

Lemma complete_none s : img_ok [] s -> tail_images s = [] -> VPSS_IMG_Complete s = Some (s, HI_FAILURE).
Proof.
  intros Hs Hl. unfold VPSS_IMG_Complete. cbv zeta. by rewrite (next_target _ _ Hs), Hl.
Qed.

Lemma complete_interlaced s y l g :
  img_ok [] s -> tail_images s = y :: l -> s.(nodes) !! y = Some g -> bProgressive g = false ->
  let s' := match s.(pstTarget_1) with
            | Head => s | Node _ => (drop_target s) <| pstTarget_1 := Node y |> end in
  VPSS_IMG_Complete s = Some (s', HI_SUCCESS) /\ img_ok [] s'.
Proof.
  intros Hs Hl Hg Hp s'. unfold VPSS_IMG_Complete.
  cbv zeta. rewrite (next_target _ _ Hs), Hl. cbn. unfold get_image. rewrite Hg. cbn.
  rewrite Hp. unfold s'. destruct (target_cases s y l Hs Hl) as [[Ht _] | (x & f & Ht & Hf & Hx)]; rewrite Ht.
  { done. }
  pose proof (ok_ful _ _ Hs) as Hd. rewrite Hf in Hd |- *. rewrite prev_front by done. cbn [mbind option_bind].
  destruct (drop_target_ok s x y l f Hs Ht Hf Hx) as [Hdrop Hok].
  destruct (unlink _ x) as [s1|]; [|done]. cbn in Hdrop |- *. rewrite Hdrop. cbn.
  destruct (drop_fields s y l Hs Hl) as (Ht' & Hf' & _). rewrite Ht', Hf', next_head. cbn.
  split; [done|]. destruct Hok. split; try done. right. by exists y, l.
Qed.

Lemma complete_progressive s y l g :
  img_ok [] s -> tail_images s = y :: l -> s.(nodes) !! y = Some g -> bProgressive g = true ->
  exists s', VPSS_IMG_Complete s = Some (s', HI_SUCCESS) /\
    complete_done (drop_target s) = Some s' /\ img_ok [] (drop_target s) /\ img_ok [] s'.
Proof.
  intros Hs Hl Hg Hp. unfold VPSS_IMG_Complete.
  cbv zeta. rewrite (next_target _ _ Hs), Hl. cbn. unfold get_image. rewrite Hg. cbn.
  rewrite Hp. destruct (drop_fields s y l Hs Hl) as (Ht' & Hf' & Hn').
  destruct (target_cases s y l Hs Hl) as [[Ht Hf] | (x & f & Ht & Hf & Hx)].
  - assert (drop_target s = s) as Hds by (unfold drop_target; by rewrite Ht). rewrite Hds.
    destruct (complete_done_ok s y l g Hs Ht Hf Hg Hp) as [Hcd Hok].
    eexists. split; [|by split_and!]. rewrite Hf. cbn [first]. rewrite next_front. cbn.
    rewrite Ht, Hf, next_head. cbn. rewrite decide_True by done. cbn. by rewrite Hcd.
  - pose proof (ok_ful _ _ Hs) as Hd. rewrite Hf in Hd.
    destruct (drop_target_ok s x y l f Hs Ht Hf Hx) as [Hdrop Hok].
    rewrite <- Hn' in Hg.
    destruct (complete_done_ok (drop_target s) y l g Hok Ht' Hf' Hg Hp) as [Hcd Hok2].
    eexists. split; [|by split_and!]. rewrite Hf. cbn [first]. rewrite next_front. cbn.
    rewrite Ht, Hf, next_front. cbn. apply NoDup_cons in Hd as Hd'. destruct Hd' as [Hxy _].
    rewrite decide_False by (intros [= ->]; set_solver). cbn.
    rewrite decide_True by done. rewrite prev_front by done. cbn.
    destruct (unlink _ x) as [s1|] eqn:Hu; [|done]. cbn in Hdrop |- *. rewrite Hdrop. cbn.
    rewrite Hf', next_front. cbn. destruct l as [|z l]; cbn; rewrite Ht', next_head; cbn;
      rewrite decide_True by done; cbn; by rewrite Hcd.
Qed.

(** ** New images *)

Definition pos_nodes (p : LIST) : list node := match p with Head => [] | Node x => [x] end.

Lemma mark_prev_ok h s p :
  img_ok h s -> (forall x, p = Node x -> x ∈ s.(stFulImageList)) ->
  mark_prev s p = Some (s <| nodes := marked (pos_nodes p) s.(nodes) |>).
Proof.
  intros Hs Hp. destruct p as [|x]; [by destruct s|]. unfold mark_prev. rewrite mark_ok; [done|].
  intros y Hy. apply list_elem_of_singleton in Hy as ->. apply (ok_image h s x Hs).
  specialize (Hp x eq_refl). set_solver.
Qed.

Lemma marked_app l1 l2 m : marked l2 (marked l1 m) = marked (l1 ++ l2) m.
Proof. unfold marked. by rewrite fold_left_app. Qed.

Lemma marked_ok h s l : img_ok h s -> img_ok h (s <| nodes := marked l s.(nodes) |>).
Proof. intros Hs. apply with_nodes; [done|]. intros x. apply marked_mem. Qed.

Lemma mark_last_three_ok h s :
  img_ok h s -> exists l, l ⊆ s.(stFulImageList) /\
    mark_last_three s = Some (s <| nodes := marked l s.(nodes) |>).
Proof.
  intros Hs. unfold mark_last_three.
  destruct (prev_in s.(stFulImageList) Head) as (p1 & -> & Hp1); [done|]. cbn [mbind option_bind].
  assert (exists b, match p1 with Head => Some false | Node x => bProgressive <$> get_image s x end = Some b)
    as (b & ->).
  { destruct p1 as [|x]; [by eexists|]. destruct (ok_image h s x Hs) as [f Hf].
    - specialize (Hp1 x eq_refl). set_solver.
    - unfold get_image. rewrite Hf. by eexists. }
  cbn [mbind option_bind]. destruct (b || _).
  { exists []. split; [set_solver|]. by destruct s. }
  rewrite (mark_prev_ok h s p1 Hs Hp1). cbn [mbind option_bind].
  set (s1 := s <| nodes := _ |>). assert (img_ok h s1) as Hs1 by by apply marked_ok.
  destruct (prev_in s1.(stFulImageList) p1 Hp1) as (p2 & -> & Hp2). cbn [mbind option_bind].
  rewrite (mark_prev_ok h s1 p2 Hs1 Hp2). cbn [mbind option_bind].
  set (s2 := s1 <| nodes := _ |>). assert (img_ok h s2) as Hs2 by by apply marked_ok.
  destruct (prev_in s2.(stFulImageList) p2 Hp2) as (p3 & -> & Hp3). cbn [mbind option_bind].
  rewrite (mark_prev_ok h s2 p3 Hs2 Hp3).
  exists ((pos_nodes p1 ++ pos_nodes p2) ++ pos_nodes p3). split.
  - intros x. rewrite !elem_of_app. unfold pos_nodes.
    destruct p1, p2, p3; rewrite ?list_elem_of_singleton, ?elem_of_nil; naive_solver.
  - unfold s2, s1. cbn. by rewrite <- !marked_app.
Qed.

Lemma held_mem x h s : img_ok h s -> x ∈ h -> is_Some (s.(nodes) !! x).
Proof. intros Hs Hx. destruct (ok_image h s x Hs) as [f ->]; [set_solver|by eexists]. Qed.
End Conserved.
