(* ===== verification/VpssFlow.v ===== *)
(** * The flow of frames through the image list

    The calls of vpss_img.c in any order: no node is lost and every call is
    defined; the frames that were accepted are released in order, each exactly
    once. The list of nodes refines a queue of frames. *)

From S2P Require Import Prelude VpssImg.

(** ** Every call is defined *)

Section Calls.
Context {C : HiConsts} {V : VpssConsts} (ids : list node).
Abbreviation img_ok := (img_ok ids).
Implicit Types (s : VPSS_IMAGELIST_INFO_S) (x : node) (f : HI_DRV_VIDEO_FRAME_S).

(** The frame [g] is [f], or [f] made progressive. *)
Definition raised f g : Prop := g = f \/ g = progressive f.

(** [s'] is [s] with the nodes [xs] added to the images; the images that were
    there stay, or become progressive, but not the target. *)
Record added s s' (xs : list node) : Prop := {
  ad_state : s' = s <| nodes := s'.(nodes) |> <| stFulImageList := s.(stFulImageList) ++ xs |>;
  ad_raised x f : s.(nodes) !! x = Some f -> exists g, s'.(nodes) !! x = Some g /\ raised f g;
  ad_first x l : s.(pstTarget_1) = Node x -> s.(stFulImageList) = x :: l ->
    s'.(nodes) !! x = s.(nodes) !! x;
}.

Lemma raised_trans f g h : raised f g -> raised g h -> raised f h.
Proof. unfold raised. intros [-> | ->] [-> | ->]; auto. Qed.

Lemma add_ful_added h s x f :
  img_ok (x :: h) s -> s.(nodes) !! x = Some f ->
  exists s', VPSS_IMG_AddFulImage s x = Some (s', HI_SUCCESS) /\ img_ok h s' /\ added s s' [x].
Proof.
  intros Hs Hf. destruct (add_ful_ok ids h s x f Hs Hf) as [Ha Hok].
  eexists. split; [exact Ha|]. split; [exact Hok|]. split; [done| |]; cbn; unfold ful_marks.
  - intros y g Hg. destruct (bProgressive f).
    + rewrite marked_lookup, Hg. case_decide; eexists; (split; [done|]); [by right|by left].
    + destruct (list_empty _); [|eexists; by split; [|left]].
      destruct (decide (x = y)) as [->|Hne].
      * rewrite Hf in Hg. simplify_eq. rewrite lookup_insert_eq. eexists. by split; [|right].
      * rewrite lookup_insert_ne by done. eexists. by split; [|left].
  - intros y l Ht Hl. destruct (bProgressive f).
    + rewrite marked_lookup, decide_False; [done|]. unfold tail_images. rewrite Ht, Hl. cbn.
      pose proof (ok_ful _ _ _ Hs) as Hd. rewrite Hl in Hd. by apply NoDup_cons in Hd as [? _].
    + by rewrite Hl.
Qed.

(** The two empty nodes a new image takes. *)
Lemma two_empty s x1 x2 l :
  img_ok [] s -> s.(stEmptyImageList) = x1 :: x2 :: l ->
  exists s1 s2, VPSS_IMG_GetEmptyImage s = Some (s1, Some x1) /\
    VPSS_IMG_GetEmptyImage s1 = Some (s2, Some x2) /\ img_ok [x1; x2] s2 /\
    s2 = s <| stEmptyImageList := l |> <| nodes := s2.(nodes) |> /\
    (forall y, y ∈ s.(stFulImageList) -> s2.(nodes) !! y = s.(nodes) !! y).
Proof.
  intros Hs He. destruct (get_empty_ok ids [] s x1 (x2 :: l) Hs He) as [H1 Hs1].
  match type of H1 with _ = Some (?s1, _) =>
    destruct (get_empty_ok ids [x1] s1 x2 l Hs1 eq_refl) as [H2 Hs2] end.
  eexists _, _. split; [exact H1|]. split; [exact H2|]. split; [|split; [done|]].
  - destruct Hs2. split; try done. rewrite <- ok_nodes. solve_Permutation.
  - intros y Hy. unfold set_image. cbn. pose proof (ok_disjoint _ _ _ _ Hs Hy) as Hd. rewrite He in Hd.
    rewrite !lookup_insert_ne by set_solver. done.
Qed.

(** ** Roles *)

(** A node holds a whole image, or the first or the second field of one. *)
Inductive kind := Whole | First | Second.
Abbreviation role := (kind * Z)%type.

#[local] Instance kind_eq : EqDecision kind.
Proof. solve_decision. Defined.

Definition role_of (r : role) f : Prop :=
  f.(u32FrameIndex) = r.2 /\
  match r.1 with
  | Whole => f.(bProgressive) = true
  | First => VPSS_IMG_CheckNeedRelease (f <| bProgressive := false |>) = false
  | Second => VPSS_IMG_CheckNeedRelease (f <| bProgressive := false |>) = true
  end.

Lemma role_raised r f g : role_of r f -> raised f g -> role_of r g.
Proof. intros Hr [-> | ->]; [done|]. destruct r as [[] i], Hr; by split. Qed.

(** A first field is followed by the second one; an image waits until its last
    node is done. *)
Fixpoint paired (rs : list role) : Prop :=
  match rs with
  | [] => True
  | (First, i) :: rs => match rs with (Second, j) :: rs => i = j /\ paired rs | _ => False end
  | _ :: rs => paired rs
  end.

Definition waiting (rs : list role) : list Z :=
  omap (fun r : role => match r.1 with First => None | _ => Some r.2 end) rs.

Lemma paired_app rs qs : paired rs -> paired qs -> paired (rs ++ qs).
Proof.
  revert rs. fix IH 1. intros rs Hr Hq. destruct rs as [|[[] i] rs]; [done|..]; cbn in *.
  - by apply IH.
  - destruct rs as [|[[] j] rs]; try done. destruct Hr as [-> Hr]. split; [done|]. by apply IH.
  - by apply IH.
Qed.

(** The images of the list have the roles [rs]; a target that is a first field is
    not progressive. *)
Record flow s (rs : list role) : Prop := {
  fl_roles : Forall2 (fun x r => exists f, s.(nodes) !! x = Some f /\ role_of r f)
               s.(stFulImageList) rs;
  fl_first x i qs : s.(pstTarget_1) = Node x -> rs = (First, i) :: qs ->
    exists f, s.(nodes) !! x = Some f /\ f.(bProgressive) = false;
}.

Lemma flow_added h s s' x r g rs :
  img_ok h s -> flow s rs -> added s s' [x] -> s'.(nodes) !! x = Some g -> role_of r g ->
  flow s' (rs ++ [r]).
Proof.
  intros Hs [Hr Hf] [Ha Hra Hfi] Hg Hrg. rewrite Ha. split; cbn.
  - apply Forall2_app; [|by constructor; [eexists|]].
    eapply Forall2_impl; [exact Hr|]. intros y q (f & Hy & Hq).
    destruct (Hra y f Hy) as (f' & Hf' & Hup). exists f'. split; [done|]. by eapply role_raised.
  - intros y i qs Ht He. destruct (ok_target _ _ _ Hs) as [Hn | (z & l & Hl & Hz)]; [congruence|].
    assert (z = y) as -> by congruence. rewrite Hl in Hr.
    inversion Hr as [|? q ? rs' Hq Hrs]; subst. cbn in He. simplify_eq.
    rewrite (Hfi y l Hz Hl). by apply (Hf y i rs').
Qed.

Lemma flow_frames s m rs :
  flow s rs -> (forall x, x ∈ s.(stFulImageList) -> m !! x = s.(nodes) !! x) ->
  (forall x, s.(pstTarget_1) = Node x -> x ∈ s.(stFulImageList)) ->
  flow (s <| nodes := m |>) rs.
Proof.
  intros [Hr Hf] Hm Ht. split; cbn.
  - apply Forall2_same_length_lookup in Hr as [Hlen Hr]. apply Forall2_same_length_lookup.
    split; [done|]. intros k x q Hx Hq. rewrite Hm; [by eapply Hr|by eapply list_elem_of_lookup_2].
  - intros x i qs Hx He. rewrite Hm by by apply Ht. by eapply Hf.
Qed.

Lemma target_in h s x : img_ok h s -> s.(pstTarget_1) = Node x -> x ∈ s.(stFulImageList).
Proof. intros [_ _ _ [Ht | (y & l & Hl & Ht)] _] Hx; [congruence|]. rewrite Hl, elem_of_cons. left. congruence. Qed.

Lemma flow_set_held h s x f rs :
  img_ok h s -> x ∈ h -> flow s rs -> flow (set_image s x f) rs.
Proof.
  intros Hs Hx Hf. apply flow_frames; [done| |intros y; by eapply target_in].
  intros y Hy. rewrite lookup_insert_ne; [done|]. intros ->.
  pose proof (ok_lists _ _ _ Hs) as (_ & Hd & _)%NoDup_app. apply (Hd y Hx). set_solver.
Qed.

(** The last image becomes progressive. *)
Lemma flow_mark_last h s p rs :
  img_ok h s -> flow s rs -> paired rs -> list_prev s.(stFulImageList) Head = Some p ->
  flow (s <| nodes := marked (pos_nodes p) s.(nodes) |>) rs.
Proof.
  intros Hs [Hr Hf] Hp Hprev. split; cbn.
  - eapply Forall2_impl; [exact Hr|]. intros y q (f & Hy & Hq). rewrite marked_lookup, Hy.
    case_decide; eexists; (split; [done|]); [|done]. by apply (role_raised q f); [|right].
  - intros x i qs Ht ->. destruct (Hf x i qs Ht eq_refl) as (f & Hx & Hpf).
    exists f. split; [|done]. rewrite marked_lookup, decide_False; [done|]. intros Hin.
    destruct (ok_target _ _ _ Hs) as [Hn | (z & l & Hl & Hz)]; [congruence|].
    assert (z = x) as -> by congruence. pose proof (ok_ful _ _ _ Hs) as Hd. rewrite Hl in *.
    inversion Hr as [|? ? ? ? _ Hrs]; subst. cbn in Hp. destruct qs as [|[[] j] qs]; try done.
    inversion Hrs as [|y ? l' ? _ _]; subst.
    destruct (exists_last (l := y :: l')) as (l0 & w & Hl0); [done|].
    rewrite Hl0, app_comm_cons, prev_head in Hprev. simplify_eq. cbn in Hin.
    apply list_elem_of_singleton in Hin as ->. apply NoDup_cons in Hd as [Hd _].
    apply Hd. rewrite Hl0. set_solver.
Qed.

(** ** New images *)

Lemma split_roles f :
  let '(f1, f2) := split_fields f in
  role_of (First, f.(u32FrameIndex)) f1 /\ role_of (Second, f.(u32FrameIndex)) f2 /\
  f1.(u32LastFlag) = f.(u32LastFlag).
Proof.
  unfold split_fields, role_of, VPSS_IMG_CheckNeedRelease.
  destruct f as [? ? ? ? ? ? ? ? [] [] ? ? ?]; by split_and!.
Qed.

Lemma add_two_ok s x1 x2 f1 f2 :
  img_ok [x1; x2] s -> s.(nodes) !! x1 = Some f1 -> s.(nodes) !! x2 = Some f2 ->
  exists s', ('(s, _) ← VPSS_IMG_AddFulImage s x1; '(s, _) ← VPSS_IMG_AddFulImage s x2; Some s) = Some s' /\
    img_ok [] s' /\ s'.(released) = s.(released) /\
    forall rs i, flow s rs -> role_of (First, i) f1 -> role_of (Second, i) f2 ->
      flow s' (rs ++ [(First, i); (Second, i)]).
Proof.
  intros Hs H1 H2. destruct (add_ful_added [x2] s x1 f1 Hs H1) as (s1 & -> & Hs1 & Ha1). cbn.
  destruct (ad_raised _ _ _ Ha1 x1 f1 H1) as (g1 & Hg1 & Hr1).
  destruct (ad_raised _ _ _ Ha1 x2 f2 H2) as (g2 & Hg2 & Hr2).
  destruct (add_ful_added [] s1 x2 g2 Hs1 Hg2) as (s2 & -> & Hs2 & Ha2). cbn.
  destruct (ad_raised _ _ _ Ha2 x2 g2 Hg2) as (h2 & Hh2 & Hr2').
  exists s2. split; [done|]. split; [done|]. split.
  { rewrite (ad_state _ _ _ Ha2). cbn. by rewrite (ad_state _ _ _ Ha1). }
  intros rs i Hf R1 R2.
  pose proof (flow_added _ _ _ x1 (First, i) g1 rs Hs Hf Ha1 Hg1 (role_raised _ _ _ R1 Hr1)) as Hf1.
  replace (rs ++ [(First, i); (Second, i)]) with ((rs ++ [(First, i)]) ++ [(Second, i)])
    by by rewrite <- app_assoc.
  eapply (flow_added _ s1 s2 x2); try done. eapply role_raised; [|done]. by eapply role_raised.
Qed.

Lemma held_two s x1 x2 : img_ok [x1; x2] s -> x1 <> x2.
Proof. intros (Hx & _)%ok_lists%NoDup_cons ->. set_solver. Qed.

Lemma set_two_ok s x1 x2 f1 f2 rs :
  img_ok [x1; x2] s ->
  let s' := set_image (set_image s x1 f1) x2 f2 in
  img_ok [x1; x2] s' /\ s'.(nodes) !! x1 = Some f1 /\ s'.(nodes) !! x2 = Some f2 /\
  (flow s rs -> flow s' rs).
Proof.
  intros Hs s'. pose proof (held_two _ _ _ Hs) as Hne.
  assert (img_ok [x1; x2] (set_image s x1 f1)) as Hs1.
  { apply set_image_ok; [done|]. eapply held_mem; [done|]. set_solver. }
  split; [|split; [|split]].
  - apply set_image_ok; [done|]. eapply held_mem; [done|]. set_solver.
  - unfold s', set_image. cbn. by rewrite lookup_insert_ne, lookup_insert_eq.
  - unfold s', set_image. cbn. by rewrite lookup_insert_eq.
  - intros Hf. apply (flow_set_held [x1; x2]); [done|set_solver|].
    apply (flow_set_held [x1; x2]); [done|set_solver|done].
Qed.

Lemma last_frame_ok s x1 x2 f1 f2 :
  img_ok [x1; x2] s ->
  exists s', last_frame s x1 x2 f1 f2 = Some s' /\ img_ok [] s' /\ s'.(released) = s.(released) /\
    forall rs i, flow s rs -> paired rs -> role_of (First, i) f1 -> role_of (Second, i) f2 ->
      flow s' (rs ++ [(First, i); (Second, i)]).
Proof.
  intros Hs. unfold last_frame.
  destruct (prev_in s.(stFulImageList) Head) as (p & Hp & Hin); [done|]. rewrite Hp. cbn [mbind option_bind].
  rewrite (mark_prev_ok ids _ s p Hs Hin). cbn [mbind option_bind].
  set (sm := s <| nodes := _ |>). assert (img_ok [x1; x2] sm) as Hsm by by apply marked_ok.
  set (g1 := f1 <| bProgressive := true |> <| u32LastFlag := 0 |>). set (g2 := f2 <| bProgressive := _ |> <| u32LastFlag := _ |>).
  destruct (set_two_ok sm x1 x2 g1 g2 [] Hsm) as (Hs2 & H1 & H2 & _).
  destruct (add_two_ok _ x1 x2 g1 g2 Hs2 H1 H2) as (s' & Hadd & Hok & Hrel & Hfl).
  exists s'. split; [exact Hadd|]. split; [done|]. split; [done|]. intros rs i Hf Hpd R1 R2.
  apply Hfl; [|exact R1|exact R2].
  destruct (set_two_ok sm x1 x2 g1 g2 rs Hsm) as (_ & _ & _ & Hset). apply Hset.
  by eapply flow_mark_last.
Qed.

(** Frames the source delivers: progressive, or interlaced with both fields and
    not marked as following an error. *)
Definition regular f : Prop :=
  f.(bProgressive) = true \/
  (f.(enFieldMode) = HI_DRV_FIELD_ALL /\ f.(u32LastFlag) <> DEF_HI_DRV_VPSS_LAST_ERROR_FLAG).

Definition roles_of f : list role :=
  if f.(bProgressive) then [(Whole, f.(u32FrameIndex))]
  else [(First, f.(u32FrameIndex)); (Second, f.(u32FrameIndex))].

Lemma flow_same s s' rs :
  flow s rs -> s'.(stFulImageList) = s.(stFulImageList) -> s'.(pstTarget_1) = s.(pstTarget_1) ->
  (forall y, y ∈ s.(stFulImageList) -> s'.(nodes) !! y = s.(nodes) !! y) ->
  (forall x, s.(pstTarget_1) = Node x -> x ∈ s.(stFulImageList)) -> flow s' rs.
Proof.
  intros Hf Hl Ht Hn Hin. destruct (flow_frames s s'.(nodes) rs Hf Hn Hin) as [H1 H2].
  split; [by rewrite Hl|by rewrite Ht].
Qed.

Lemma add_fields_ok s x1 x2 f :
  img_ok [x1; x2] s ->
  exists s', add_fields s x1 x2 f = Some s' /\ img_ok [] s' /\ s'.(released) = s.(released) /\
    forall rs, flow s rs -> paired rs -> f.(u32LastFlag) <> DEF_HI_DRV_VPSS_LAST_ERROR_FLAG ->
      flow s' (rs ++ [(First, f.(u32FrameIndex)); (Second, f.(u32FrameIndex))]).
Proof.
  intros Hs. unfold add_fields. pose proof (split_roles f) as Hsplit.
  destruct (split_fields f) as [f1 f2]. destruct Hsplit as (R1 & R2 & Hflag). cbv zeta.
  set (s1 := set_image _ x2 f2).
  destruct (set_two_ok s x1 x2 f1 f2 [] Hs) as (Hs1 & H1 & H2 & _). fold s1 in Hs1, H1, H2.
  assert (forall rs, flow s rs -> flow s1 rs) as Hset.
  { intros rs. by destruct (set_two_ok s x1 x2 f1 f2 rs Hs) as (_ & _ & _ & ?). }
  destruct (f1.(u32LastFlag) =? _).
  { destruct (last_frame_ok s1 x1 x2 f1 f2 Hs1) as (s' & -> & Hok & Hrel & Hfl).
    exists s'. split; [done|]. split; [done|]. split; [done|]. intros rs Hf Hp _. apply Hfl; auto. }
  destruct (Z.eqb_spec f1.(u32LastFlag) DEF_HI_DRV_VPSS_LAST_ERROR_FLAG) as [He|He].
  { destruct (mark_last_three_ok ids _ s1 Hs1) as (l & _ & ->). cbn [mbind option_bind].
    set (s2 := s1 <| nodes := _ |>). assert (img_ok [x1; x2] s2) as Hs2 by by apply marked_ok.
    destruct (add_empty_ok ids [x2] s2 x1 Hs2) as [-> Hs3]. cbn [mbind option_bind].
    match goal with |- context [VPSS_IMG_AddEmptyImage ?s3 x2] =>
      destruct (add_empty_ok ids [] s3 x2 Hs3) as [-> Hs4] end.
    eexists. split; [done|]. split; [exact Hs4|]. split; [done|]. intros rs _ _ Hne. congruence. }
  destruct (add_two_ok s1 x1 x2 f1 f2 Hs1 H1 H2) as (s' & Hadd & Hok & Hrel & Hfl).
  exists s'. split; [exact Hadd|]. split; [done|]. split; [done|]. intros rs Hf _ _. apply Hfl; auto.
Qed.

(** A single empty node is put back. *)
Lemma one_empty s x :
  img_ok [] s -> s.(stEmptyImageList) = [x] ->
  exists s1 s2, VPSS_IMG_GetEmptyImage s = Some (s1, Some x) /\
    VPSS_IMG_GetEmptyImage s1 = Some (s1, None) /\
    VPSS_IMG_AddEmptyImage s1 x = Some (s2, HI_SUCCESS) /\ img_ok [] s2 /\
    s2.(released) = s.(released) /\ forall rs, flow s rs -> flow s2 rs.
Proof.
  intros Hs He. destruct (get_empty_ok ids [] s x [] Hs He) as [H1 Hs1].
  destruct (add_empty_ok ids [] _ x Hs1) as [H2 Hs2].
  eexists _, _. split; [exact H1|]. split; [done|]. split; [exact H2|]. split; [exact Hs2|].
  split; [done|]. intros rs Hf. eapply (flow_same s); try done; [|intros y; by eapply target_in].
  intros y Hy. unfold set_image. cbn. rewrite lookup_insert_ne; [done|]. intros ->.
  apply (ok_disjoint _ _ _ _ Hs Hy). rewrite He. by apply list_elem_of_singleton.
Qed.

Lemma add_new_none s f :
  img_ok [] s -> (length s.(stEmptyImageList) < 2)%nat ->
  exists s', VPSS_IMG_AddNewImg s f = Some (s', HI_FAILURE) /\ img_ok [] s' /\
    s'.(released) = s.(released) /\ forall rs, flow s rs -> flow s' rs.
Proof.
  intros Hs Hl. unfold VPSS_IMG_AddNewImg.
  destruct (stEmptyImageList s) as [|x1 [|]] eqn:He; [| |cbn in Hl; lia].
  - exists s. unfold VPSS_IMG_GetEmptyImage. by rewrite He.
  - destruct (one_empty s x1 Hs He) as (s1 & s2 & -> & H2 & H3 & Hok & Hr & Hf). cbn.
    rewrite H2. cbn. rewrite H3. cbn. by exists s2.
Qed.

Lemma add_new_some s f :
  img_ok [] s -> (2 <= length s.(stEmptyImageList))%nat ->
  exists s', VPSS_IMG_AddNewImg s f = Some (s', HI_SUCCESS) /\ img_ok [] s' /\
    s'.(released) = s.(released) /\
    forall rs, flow s rs -> paired rs -> regular f -> flow s' (rs ++ roles_of f).
Proof.
  intros Hs Hl. destruct (stEmptyImageList s) as [|x1 [|x2 l]] eqn:He; [cbn in Hl; lia..|].
  destruct (two_empty s x1 x2 l Hs He) as (s1 & s2 & H1 & H2 & Hs2 & Hst & Hn).
  unfold VPSS_IMG_AddNewImg. rewrite H1. cbn [mbind option_bind]. rewrite H2. cbn [mbind option_bind].
  assert (img_ok [x1; x2] (set_image s2 x1 f)) as Hs3.
  { apply set_image_ok; [done|]. eapply held_mem; [done|]. set_solver. }
  assert (forall rs, flow s rs -> flow (set_image s2 x1 f) rs) as Hfl.
  { intros rs Hf. apply (flow_set_held [x1; x2]); [done|set_solver|].
    eapply (flow_same s); [done|by rewrite Hst..|done|]. intros x. by eapply target_in. }
  assert ((set_image s2 x1 f).(released) = s.(released)) as Hrel by by rewrite Hst.
  destruct (negb (bProgressive f) && _) eqn:Hc.
  - apply andb_prop in Hc as [Hp%negb_true_iff _].
    destruct (add_fields_ok _ x1 x2 f Hs3) as (s4 & -> & Hok & Hr & Hf4). cbn [mbind option_bind].
    exists s4. split; [done|]. split; [done|]. split; [congruence|].
    intros rs Hf Hpd Hreg. unfold roles_of. rewrite Hp. apply Hf4; [auto|done|].
    destruct Hreg as [Hx|[_ Hx]]; [congruence|done].
  - destruct (add_ful_added [x2] (set_image s2 x1 f) x1 f Hs3) as (s4 & -> & Hs4 & Ha).
    { unfold set_image. cbn. by rewrite lookup_insert_eq. }
    cbn [mbind option_bind]. destruct (add_empty_ok ids [] s4 x2 Hs4) as [-> Hs5]. cbn [mbind option_bind].
    eexists. split; [done|]. split; [exact Hs5|].
    split; [cbn; rewrite (ad_state _ _ _ Ha); exact Hrel|]. intros rs Hf Hpd Hreg.
    assert (bProgressive f = true) as Hp.
    { destruct Hreg as [|[Hm _]]; [done|]. rewrite Hm in Hc. destruct (bProgressive f); [done|].
      by rewrite bool_decide_eq_true_2 in Hc. }
    unfold roles_of. rewrite Hp. eapply (flow_same s4); try done; [|intros x; by eapply target_in].
    destruct (ad_raised _ _ _ Ha x1 f) as (g & Hg & Hr).
    { unfold set_image. cbn. by rewrite lookup_insert_eq. }
    eapply (flow_added [x1; x2]); [| |done|done|].
    + exact Hs3.
    + by apply Hfl.
    + eapply role_raised; [|done]. by split.
Qed.

(** ** Completion *)

(** The frames given back so far, by their index. *)
Definition released_frames s : list Z := map (fun r => r.2.(u32FrameIndex)) s.(released).

(** From [s] with the roles [rs] to [s']: the images released are the first ones
    that waited. *)
Definition goes_on s rs s' : Prop :=
  exists rs' popped, flow s' rs' /\ paired rs' /\ waiting rs = popped ++ waiting rs' /\
    released_frames s' = released_frames s ++ popped.

Lemma goes_on_refl s s' rs :
  flow s' rs -> paired rs -> s'.(released) = s.(released) -> goes_on s rs s'.
Proof.
  intros Hf Hp Hr. exists rs, []. unfold released_frames. rewrite Hr. by rewrite app_nil_r.
Qed.

Lemma paired_tail r rs : paired (r :: rs) -> paired rs.
Proof. destruct r as [[] i]; [done| |done]. cbn. destruct rs as [|[[] j] rs]; try done. tauto. Qed.

Lemma paired_head k i rs : paired ((k, i) :: rs) -> i ∈ waiting ((k, i) :: rs).
Proof.
  destruct k; cbn; rewrite ?elem_of_cons; try by left.
  destruct rs as [|[[] j] rs]; try done. intros [-> _]. cbn. rewrite elem_of_cons. by left.
Qed.

Lemma need_release k i f : role_of (k, i) f -> (k = First -> f.(bProgressive) = false) ->
  VPSS_IMG_CheckNeedRelease f = match k with First => false | _ => true end.
Proof.
  intros [_ Hr] Hp. destruct f as [? ? ? ? ? ? P ? ? ? ? ? ?]. destruct k, P; cbn in *; try done.
  by specialize (Hp eq_refl).
Qed.

Lemma give_fields s x f :
  let s' := give_result s x f in
  s'.(pstTarget_1) = s.(pstTarget_1) /\ s'.(stFulImageList) = s.(stFulImageList) /\
  s'.(nodes) = s.(nodes) /\
  released_frames s' = released_frames s ++
    if VPSS_IMG_CheckNeedRelease f then [f.(u32FrameIndex)] else [].
Proof.
  unfold give_result, released_frames. destruct (VPSS_IMG_CheckNeedRelease f); cbn.
  - by rewrite map_app.
  - by rewrite app_nil_r.
Qed.

(** The first image is given back. *)
Lemma pop_flow s x l f k i rs :
  s.(stFulImageList) = x :: l -> s.(nodes) !! x = Some f -> flow s ((k, i) :: rs) ->
  paired ((k, i) :: rs) -> (k = First -> f.(bProgressive) = false) ->
  goes_on s ((k, i) :: rs) (give_result (s <| pstTarget_1 := Head |> <| stFulImageList := l |>) x f).
Proof.
  intros Hl Hx [Hr _] Hp Hk. rewrite Hl in Hr.
  inversion Hr as [|? ? ? ? (f' & Hf' & Hrole) Hrs]; subst. assert (f' = f) as -> by congruence.
  set (s1 := s <| pstTarget_1 := Head |> <| stFulImageList := l |>).
  destruct (give_fields s1 x f) as (Ht & Hl' & Hn & Hrel).
  exists rs, match k with First => [] | _ => [i] end. split; [|split; [|split]].
  - split; [by rewrite Hl', Hn|]. intros z j qs Hz. by rewrite Ht in Hz.
  - by eapply paired_tail.
  - by destruct k.
  - rewrite Hrel, (need_release k i f) by done. destruct Hrole as [Hi _]. cbn in Hi. rewrite Hi. by destruct k.
Qed.

Lemma drop_flow s y l rs :
  img_ok [] s -> tail_images s = y :: l -> flow s rs -> paired rs -> goes_on s rs (drop_target s).
Proof.
  intros Hs Hl Hf Hp. destruct (target_cases ids s y l Hs Hl) as [[Ht _] | (x & f & Ht & Hful & Hx)].
  { unfold drop_target. rewrite Ht. by apply goes_on_refl. }
  unfold drop_target. rewrite Ht, Hx, Hful. cbn [tail default].
  pose proof Hf as [Hr Hfi]. rewrite Hful in Hr. inversion Hr as [|? [k i] ? qs _ _]; subst.
  apply (pop_flow s x (y :: l) f); try done.
  intros ->. destruct (Hfi x i qs Ht eq_refl) as (f' & ? & ?). congruence.
Qed.

Lemma done_flow s s' y l g rs :
  img_ok [] s -> s.(pstTarget_1) = Head -> s.(stFulImageList) = y :: l -> s.(nodes) !! y = Some g ->
  g.(bProgressive) = true -> complete_done s = Some s' ->
  flow s rs -> paired rs -> NoDup (waiting rs) -> goes_on s rs s'.
Proof.
  intros Hs Ht Hl Hg Hp Hcd Hf Hpd Hnd.
  destruct (complete_done_ok ids s y l g Hs Ht Hl Hg Hp) as [Hcd' _].
  rewrite Hcd in Hcd'. injection Hcd' as ->. pose proof Hf as [Hr _]. rewrite Hl in Hr.
  inversion Hr as [|? [k i] ? qs (g' & Hg' & Hrole) Hrs]; subst. assert (g' = g) as -> by congruence.
  assert (s <| stFulImageList := l |> = s <| pstTarget_1 := Head |> <| stFulImageList := l |>) as Hst
    by (destruct s; cbn in *; by subst).
  assert (k <> First -> goes_on s ((k, i) :: qs) (give_result (s <| stFulImageList := l |>) y g)) as Hpop.
  { intros Hk. rewrite Hst. by apply pop_flow. }
  inversion Hrs as [|z [k' j] l' qs' (h & Hh & Hroleh) Hrs']; subst.
  - apply Hpop. destruct k; [done| |done]. done.
  - rewrite Hh. destruct Hrole as [Hgi Hrole]. destruct Hroleh as [Hhj Hroleh]. cbn in Hgi, Hhj.
    rewrite Hgi, Hhj. destruct (decide (k = First)) as [->|Hk].
    + cbn in Hpd. destruct k'; try done. destruct Hpd as [-> Hpd]. rewrite Z.eqb_refl.
      apply goes_on_refl; [|by split|done]. pose proof (ok_ful _ _ _ Hs) as Hd. rewrite Hl in Hd.
      apply NoDup_cons in Hd as [Hyz Hd].
      split; cbn; unfold set_image; cbn.
      * rewrite Hl. constructor; [rewrite lookup_insert_eq; by eexists|].
        constructor; [rewrite lookup_insert_ne by set_solver; by eexists|].
        apply Forall2_same_length_lookup in Hrs' as [Hlen Hrs']. apply Forall2_same_length_lookup.
        split; [done|]. intros n x q Hx Hq. rewrite lookup_insert_ne; [by eapply Hrs'|].
        intros ->. apply list_elem_of_lookup_2 in Hx. apply Hyz. set_solver.
      * intros x j' qs [= <-] _. rewrite lookup_insert_eq. by eexists.
    + replace (j =? i) with false; [by apply Hpop|]. symmetry. apply Z.eqb_neq. intros ->.
      apply paired_tail, paired_head in Hpd.
      destruct k; [|done|]; cbn in Hnd; apply NoDup_cons in Hnd as [Hi _]; done.
Qed.

Lemma complete_flow s rs :
  img_ok [] s -> flow s rs -> paired rs -> NoDup (waiting rs) ->
  exists s' r, VPSS_IMG_Complete s = Some (s', r) /\ img_ok [] s' /\ goes_on s rs s'.
Proof.
  intros Hs Hf Hp Hnd. destruct (tail_images s) as [|y l] eqn:Hl.
  { exists s, HI_FAILURE. split; [by eapply complete_none|]. split; [done|]. by apply goes_on_refl. }
  destruct (ok_image ids [] s y Hs) as [g Hg].
  { assert (y ∈ s.(stFulImageList)); [|set_solver]. apply tail_images_in. rewrite Hl. set_solver. }
  destruct (drop_flow s y l rs Hs Hl Hf Hp) as (qs & p1 & Hf1 & Hp1 & Hw1 & Hr1).
  destruct (bProgressive g) eqn:HP.
  - destruct (complete_progressive ids s y l g Hs Hl Hg HP) as (s' & -> & Hcd & Hok1 & Hok).
    eexists _, _. split; [done|]. split; [done|].
    destruct (drop_fields ids s y l Hs Hl) as (Ht' & Hl' & Hn'). rewrite <- Hn' in Hg.
    rewrite Hw1 in Hnd. apply NoDup_app in Hnd as (_ & _ & Hnd).
    destruct (done_flow _ _ y l g qs Hok1 Ht' Hl' Hg HP Hcd Hf1 Hp1 Hnd) as (rs' & p2 & Hf2 & Hp2 & Hw2 & Hr2).
    exists rs', (p1 ++ p2). split; [done|]. split; [done|].
    rewrite Hw1, Hw2, Hr2, Hr1. by rewrite !app_assoc.
  - destruct (complete_interlaced ids s y l g Hs Hl Hg HP) as [-> Hok]. eexists _, _. split; [done|].
    split; [done|]. destruct (target_cases ids s y l Hs Hl) as [[Ht _] | (x & f & Ht & _ & _)];
      rewrite Ht; [by apply goes_on_refl|].
    exists qs, p1. split; [|done]. destruct Hf1 as [Hfr _]. split; [done|]. cbn.
    intros x' i qs' [= <-] _. exists g. destruct (drop_fields ids s y l Hs Hl) as (_ & _ & ->). done.
Qed.

(** ** The other calls *)

Lemma check_image_spec s :
  img_ok [] s ->
  VPSS_IMG_CheckImageList s = Some
    match tail_images s with
    | [] => (s, false)
    | x :: _ =>
        if match s.(nodes) !! x with Some f => f.(bProgressive) | None => false end then (s, true)
        else match s.(pstTarget_1) with
             | Head => (s <| pstTarget_1 := Node x |>, false)
             | Node _ => (s, Nat.leb 4 (length (tail_images s)))
             end
    end.
Proof.
  intros Hs. unfold VPSS_IMG_CheckImageList. cbv zeta. rewrite (next_target _ _ _ Hs).
  destruct (tail_images s) as [|x l] eqn:Hl; cbn [first mbind option_bind]; [done|].
  pose proof (ok_ful _ _ _ Hs) as Hd.
  destruct (target_cases ids s x l Hs Hl) as [[Ht Hf] | (t & f & Ht & Hf & Hx)].
  - destruct (ok_image ids [] s x Hs) as [g Hg]; [rewrite Hf; set_solver|].
    unfold get_image. rewrite Hg. cbn. destruct (bProgressive g); [done|].
    by rewrite Ht, !decide_True by done.
  - rewrite Ht, Hf in *. destruct (ok_image ids [] s x Hs) as [g Hg]; [rewrite Hf; set_solver|].
    unfold get_image. rewrite Hg. cbn [mbind option_bind]. destruct (bProgressive g); [done|].
    rewrite decide_False by done. cbn [mbind option_bind first].
    rewrite decide_False by done. rewrite (next_mid [t] x l Hd : list_next (t :: x :: l) (Node x) = _). cbn [mbind option_bind].
    destruct l as [|x2 l]; cbn [first]; [done|]. rewrite decide_False by done.
    rewrite (next_mid [t; x] x2 l Hd : list_next (t :: x :: x2 :: l) (Node x2) = _). cbn [mbind option_bind].
    destruct l as [|x3 l]; cbn [first]; [done|]. rewrite decide_False by done.
    rewrite (next_mid [t; x; x2] x3 l Hd : list_next (t :: x :: x2 :: x3 :: l) (Node x3) = _). cbn [mbind option_bind].
    destruct l as [|x4 l]; cbn [first]; [done|]. by rewrite decide_False.
Qed.

Lemma check_image_ok s rs :
  img_ok [] s -> exists s' b, VPSS_IMG_CheckImageList s = Some (s', b) /\ img_ok [] s' /\
    s'.(released) = s.(released) /\ (flow s rs -> flow s' rs).
Proof.
  intros Hs. rewrite (check_image_spec s Hs).
  destruct (tail_images s) as [|x l] eqn:Hl; [by eexists _, _|].
  destruct (target_cases ids s x l Hs Hl) as [[Ht Hf] | (t & f & Ht & Hf & Hx)];
    destruct (ok_image ids [] s x Hs) as [g Hg]; try (rewrite Hf; set_solver); rewrite Hg, Ht.
  - destruct (bProgressive g) eqn:Hp; eexists _, _; (split; [done|]); [done|]. split.
    + destruct Hs. split; try done. right. by exists x, l.
    + split; [done|]. intros [Hr _]. split; [done|]. cbn. intros y i qs [= <-] _. by exists g.
  - destruct (bProgressive g); by eexists _, _.
Qed.

Lemma check_empty_ok s rs :
  img_ok [] s -> exists s' b, VPSS_IMG_CheckEmptyNode s = Some (s', b) /\ img_ok [] s' /\
    s'.(released) = s.(released) /\ (flow s rs -> flow s' rs).
Proof.
  intros Hs. unfold VPSS_IMG_CheckEmptyNode.
  destruct (stEmptyImageList s) as [|x1 [|x2 l]] eqn:He.
  - unfold VPSS_IMG_GetEmptyImage. rewrite He. by exists s, false.
  - destruct (one_empty s x1 Hs He) as (s1 & s2 & -> & H2 & H3 & Hok & Hr & Hf). cbn.
    rewrite H2. cbn. rewrite H3. cbn. exists s2, false. auto.
  - destruct (two_empty s x1 x2 l Hs He) as (s1 & s2 & -> & H2 & Hs2 & Hst & Hn). cbn [mbind option_bind].
    rewrite H2. cbn [mbind option_bind]. destruct (add_empty_ok ids [x2] s2 x1 Hs2) as [-> Hs3].
    cbn [mbind option_bind].
    match goal with |- context [VPSS_IMG_AddEmptyImage ?s3 x2] =>
      destruct (add_empty_ok ids [] s3 x2 Hs3) as [-> Hs4] end.
    eexists _, _. split; [done|]. split; [exact Hs4|]. cbn. split; [by rewrite Hst|].
    intros Hf. eapply (flow_same s); cbn; [done|by rewrite Hst..|done|]. intros x. by eapply target_in.
Qed.

Lemma get_process_ok s : img_ok [] s -> exists r, VPSS_IMG_GetProcessImg s = Some r.
Proof.
  intros Hs. unfold VPSS_IMG_GetProcessImg. rewrite (next_target _ _ _ Hs).
  destruct (tail_images s); cbn; by eexists.
Qed.

Lemma empty_nodes_ok l : forall s,
  s.(stFulImageList) = l -> NoDup (l ++ s.(stEmptyImageList)) ->
  empty_nodes s l = Some (s <| stFulImageList := [] |> <| stEmptyImageList := s.(stEmptyImageList) ++ l |>).
Proof.
  induction l as [|x l IH]; intros s Hl Hd; cbn [empty_nodes].
  - rewrite app_nil_r. destruct s. cbn in *. by subst.
  - apply NoDup_cons in Hd as [Hx Hd]. rewrite elem_of_app in Hx.
    unfold unlink. rewrite Hl, del_front by (apply NoDup_cons; split; [tauto|by apply NoDup_app in Hd as [? _]]).
    cbn [mbind option_bind].
    unfold VPSS_IMG_AddEmptyImage, unlinked. cbn. rewrite !bool_decide_eq_true_2 by tauto. cbn.
    rewrite IH; cbn; [by rewrite <- app_assoc|done|].
    rewrite app_assoc. apply NoDup_app. split; [done|]. split; [|apply NoDup_singleton].
    intros y Hy Hyx. apply list_elem_of_singleton in Hyx as ->. rewrite elem_of_app in Hy. tauto.
Qed.

Lemma img_reset_ok s :
  img_ok [] s -> exists s', VPSS_IMG_Reset s = Some (s', HI_SUCCESS) /\ img_ok [] s' /\
    s'.(stFulImageList) = [] /\ s'.(released) = s.(released).
Proof.
  intros Hs. unfold VPSS_IMG_Reset. rewrite (empty_nodes_ok _ s) by (try done; apply (ok_lists _ _ _ Hs)).
  cbn. eexists. split; [done|]. split; [|done].
  destruct Hs. split; cbn; try done; [|by left]. rewrite <- ok_nodes. cbn. solve_Permutation.
Qed.

(** ** The end and the beginning *)

Lemma free_nodes_ok l : forall mem n,
  NoDup l -> (forall x, x ∈ l -> is_Some (mem !! x)) -> 0 <= n -> n + Z.of_nat (length l) < 4294967296 ->
  exists mem', free_nodes mem l n = Some (mem', n + Z.of_nat (length l)) /\
    forall x, mem' !! x = if decide (x ∈ l) then None else mem !! x.
Proof.
  induction l as [|y l IH]; intros mem n Hd Hin Hn Hl; cbn [free_nodes].
  - exists mem. split; [by rewrite Z.add_0_r|]. intros x. rewrite decide_False; [done|]. apply not_elem_of_nil.
  - apply NoDup_cons in Hd as [Hy Hd]. cbn in Hl.
    destruct (Hin y) as [f Hf]; [set_solver|]. rewrite Hf. cbn [mbind option_bind].
    rewrite u32_small by (unfold is_u32; lia).
    destruct (IH (delete y mem) (n + 1)) as (mem' & -> & Hm); [done| |lia|lia|].
    { intros x Hx. rewrite lookup_delete_ne by (intros ->; done). apply Hin. set_solver. }
    exists mem'. split; [cbn; do 2 f_equal; lia|]. intros x. rewrite Hm.
    destruct (decide (x = y)) as [->|Hne].
    + rewrite (decide_False (P := y ∈ l)) by done. rewrite lookup_delete_eq, decide_True; [done|]. set_solver.
    + rewrite lookup_delete_ne by done. destruct (decide (x ∈ l)).
      * rewrite decide_True; [done|]. set_solver.
      * rewrite decide_False; [done|]. rewrite elem_of_cons. tauto.
Qed.

Lemma deinit_ok s :
  img_ok [] s -> Z.of_nat (length ids) < 4294967296 ->
  exists s', VPSS_IMG_DeInit s =
      Some (s', if Nat.eqb (length ids) VPSS_SOURCE_MAX_NUMB then HI_SUCCESS else HI_FAILURE) /\
    s'.(nodes) = ∅.
Proof.
  intros Hs Hlen. pose proof (ok_lists _ _ _ Hs) as Hd. cbn in Hd.
  pose proof (Permutation_length (ok_nodes _ _ _ Hs)) as Hl. cbn in Hl. rewrite length_app in Hl.
  apply NoDup_app in Hd as (Hdf & Hdis & Hde).
  unfold VPSS_IMG_DeInit.
  destruct (free_nodes_ok s.(stEmptyImageList) s.(nodes) 0) as (m1 & -> & Hm1); try done; try lia.
  { intros x Hx. destruct (ok_image ids [] s x Hs) as [f ->]; [set_solver|by eexists]. }
  cbn [mbind option_bind].
  destruct (free_nodes_ok s.(stFulImageList) m1 (0 + Z.of_nat (length s.(stEmptyImageList)))) as (m2 & -> & Hm2);
    try done; try lia.
  { intros x Hx. rewrite Hm1, decide_False by (by apply Hdis).
    destruct (ok_image ids [] s x Hs) as [f ->]; [set_solver|by eexists]. }
  cbn [mbind option_bind].
  replace (0 + Z.of_nat (length (stEmptyImageList s)) + Z.of_nat (length (stFulImageList s)))
    with (Z.of_nat (length ids)) by lia.
  eexists. split.
  - do 2 f_equal. destruct (Nat.eqb_spec (length ids) VPSS_SOURCE_MAX_NUMB) as [->|Hne].
    + by rewrite Z.eqb_refl.
    + replace (_ =? _) with false; [done|]. symmetry. apply Z.eqb_neq. lia.
  - cbn. apply map_empty. intros x. rewrite Hm2, Hm1. repeat case_decide; try done.
    apply eq_None_not_Some. rewrite (ok_mem _ _ _ Hs), <- (ok_nodes _ _ _ Hs). set_solver.
Qed.

Lemma alloc_nodes_ok xs : forall s rest,
  NoDup (s.(stEmptyImageList) ++ xs) -> s.(stFulImageList) = [] ->
  exists s', alloc_nodes (length xs) s (map Some xs ++ rest) = Some (s', true) /\
    s' = s <| stEmptyImageList := s.(stEmptyImageList) ++ xs |> <| nodes := s'.(nodes) |> /\
    forall x, is_Some (s'.(nodes) !! x) <-> is_Some (s.(nodes) !! x) \/ x ∈ xs.
Proof.
  induction xs as [|x xs IH]; intros s rest Hd Hf; cbn [length alloc_nodes map app].
  - exists s. split; [done|]. split; [rewrite app_nil_r; by destruct s|]. set_solver.
  - assert (x ∉ s.(stEmptyImageList)) as Hx.
    { apply NoDup_app in Hd as (_ & Hd & _). intros Hx. apply (Hd x Hx). set_solver. }
    unfold unlinked. rewrite Hf, !bool_decide_eq_true_2 by (done || apply not_elem_of_nil). cbn [andb].
    match goal with |- context [alloc_nodes _ ?s1 _] => destruct (IH s1 rest) as (s' & -> & Hs' & Hm) end.
    + cbn. by rewrite <- app_assoc.
    + done.
    + exists s'. split; [done|]. split; [rewrite Hs'; cbn; by rewrite <- app_assoc|].
      intros y. rewrite Hm. unfold set_image. cbn. rewrite elem_of_cons.
      destruct (decide (x = y)) as [->|Hne].
      * rewrite lookup_insert_eq. split; intros _; [right; by left|left; by eexists].
      * rewrite lookup_insert_ne by done. naive_solver.
Qed.
End Calls.

(** ** Histories *)

Section Histories.
Context {C : HiConsts} {V : VpssConsts}.
Implicit Types (s : VPSS_IMAGELIST_INFO_S) (f : HI_DRV_VIDEO_FRAME_S).

(** The calls of an instance, in any order. *)
Inductive call :=
| NewImg (f : HI_DRV_VIDEO_FRAME_S)
| ImgComplete
| CheckImageList
| CheckEmptyNode
| GetProcessImg
| Reset.

(** The index of a frame that was accepted. *)
Definition accepted f (ret : Z) : list Z := if ret =? HI_SUCCESS then [f.(u32FrameIndex)] else [].

Definition do_call s (c : call) : option (VPSS_IMAGELIST_INFO_S * list Z) :=
  match c with
  | NewImg f => '(s, ret) ← VPSS_IMG_AddNewImg s f; Some (s, accepted f ret)
  | ImgComplete => '(s, _) ← VPSS_IMG_Complete s; Some (s, [])
  | CheckImageList => '(s, _) ← VPSS_IMG_CheckImageList s; Some (s, [])
  | CheckEmptyNode => '(s, _) ← VPSS_IMG_CheckEmptyNode s; Some (s, [])
  | GetProcessImg => _ ← VPSS_IMG_GetProcessImg s; Some (s, [])
  | Reset => '(s, _) ← VPSS_IMG_Reset s; Some (s, [])
  end.

Fixpoint run s (cs : list call) : option (VPSS_IMAGELIST_INFO_S * list Z) :=
  match cs with
  | [] => Some (s, [])
  | c :: cs => '(s, a1) ← do_call s c; '(s, a2) ← run s cs; Some (s, a1 ++ a2)
  end.

(** [VPSS_IMG_Init] with the nodes [xs], then [VPSS_IMG_Regist]. *)
Definition start s (xs : list node) (cb : VPSS_IMG_CALLBACK_S) : option VPSS_IMAGELIST_INFO_S :=
  '(s, _) ← VPSS_IMG_Init s (map Some xs);
  Some (fst (VPSS_IMG_Regist s cb)).

(** Memory the nodes are allocated from: nothing is in it, nothing was released. *)
Definition blank s : Prop := s.(nodes) = ∅ /\ s.(released) = [].

Lemma img_start_ok s xs cb :
  blank s -> NoDup xs -> length xs = VPSS_SOURCE_MAX_NUMB -> is_Some cb.(cb_pfnRlsImage) ->
  exists s', start s xs cb = Some s' /\ img_ok xs [] s' /\ s'.(stFulImageList) = [] /\
    s'.(released) = [].
Proof.
  intros [Hm Hrel] Hd Hl Hcb. unfold start, VPSS_IMG_Init. rewrite <- Hl.
  set (s1 := s <| hSrc := _ |> <| pfnAcqImage := _ |> <| pfnRlsImage := _ |> <| u32GetUsrTotal := _ |>
    <| u32GetUsrSuccess := _ |> <| u32RelUsrTotal := _ |> <| u32RelUsrSuccess := _ |>
    <| stEmptyImageList := _ |> <| stFulImageList := _ |>).
  destruct (alloc_nodes_ok xs s1 []) as (s2 & Ha & Hs2 & Hn); [done|done|].
  rewrite app_nil_r in Ha. cbv zeta. rewrite Ha. cbn [mbind option_bind].
  unfold VPSS_IMG_Regist. rewrite Hs2. cbn. rewrite Z.eqb_refl. cbn.
  eexists. split; [done|]. split; [|done]. split; cbn; try done.
  - intros x. rewrite Hn. cbn. rewrite Hm, lookup_empty. split; [intros [[? ?]|]; done|by right].
  - by left.
Qed.

Lemma call_ok ids s c : img_ok ids [] s -> exists s' a, do_call s c = Some (s', a) /\ img_ok ids [] s'.
Proof.
  intros Hs. destruct c as [f| | | | |]; cbn [do_call].
  - destruct (decide (length s.(stEmptyImageList) < 2)%nat).
    + destruct (add_new_none ids s f Hs) as (s' & -> & Hok & _); [done|]. by eexists _, _.
    + destruct (add_new_some ids s f Hs) as (s' & -> & Hok & _); [lia|]. by eexists _, _.
  - destruct (tail_images s) as [|y l] eqn:Hl.
    { rewrite (complete_none ids s Hs Hl). by eexists _, _. }
    destruct (ok_image ids [] s y Hs) as [g Hg].
    { assert (y ∈ s.(stFulImageList)); [|set_solver]. apply tail_images_in. rewrite Hl. set_solver. }
    destruct (bProgressive g) eqn:Hp.
    + destruct (complete_progressive ids s y l g Hs Hl Hg Hp) as (s' & -> & _ & _ & Hok). by eexists _, _.
    + destruct (complete_interlaced ids s y l g Hs Hl Hg Hp) as [-> Hok]. by eexists _, _.
  - destruct (check_image_ok ids s [] Hs) as (s' & b & -> & Hok & _). by eexists _, _.
  - destruct (check_empty_ok ids s [] Hs) as (s' & b & -> & Hok & _). by eexists _, _.
  - destruct (get_process_ok ids s Hs) as (r & ->). by eexists _, _.
  - destruct (img_reset_ok ids s Hs) as (s' & -> & Hok & _). by eexists _, _.
Qed.

Lemma run_ok ids cs : forall s, img_ok ids [] s ->
  exists s' a, run s cs = Some (s', a) /\ img_ok ids [] s'.
Proof.
  induction cs as [|c cs IH]; intros s Hs; cbn [run]; [by eexists _, _|].
  destruct (call_ok ids s c Hs) as (s1 & a1 & -> & Hs1). cbn [mbind option_bind].
  destruct (IH s1 Hs1) as (s2 & a2 & -> & Hs2). by eexists _, _.
Qed.

(** ** In order, and once *)

(** Calls that keep every image: no reset, regular frames. *)
Definition keeps (c : call) : Prop :=
  match c with NewImg f => regular f | Reset => False | _ => True end.

Definition offered (c : call) : list Z :=
  match c with NewImg f => [f.(u32FrameIndex)] | _ => [] end.

Lemma waiting_app rs qs : waiting (rs ++ qs) = waiting rs ++ waiting qs.
Proof. unfold waiting. by rewrite omap_app. Qed.

Lemma waiting_roles f : waiting (roles_of f) = [f.(u32FrameIndex)] /\ paired (roles_of f).
Proof. unfold roles_of. destruct (bProgressive f); by split. Qed.

Context {COk : HiConstsOk C}.

Lemma call_flow ids s c rs :
  img_ok ids [] s -> flow s rs -> paired rs -> NoDup (waiting rs) -> keeps c ->
  exists s' a rs' popped, do_call s c = Some (s', a) /\ img_ok ids [] s' /\
    flow s' rs' /\ paired rs' /\ waiting rs ++ a = popped ++ waiting rs' /\
    released_frames s' = released_frames s ++ popped /\ a `sublist_of` offered c.
Proof.
  intros Hs Hf Hp Hnd Hk.
  assert (forall s' a, do_call s c = Some (s', a) -> img_ok ids [] s' -> a = [] ->
    s'.(released) = s.(released) -> (flow s rs -> flow s' rs) ->
    exists s' a rs' popped, do_call s c = Some (s', a) /\ img_ok ids [] s' /\
    flow s' rs' /\ paired rs' /\ waiting rs ++ a = popped ++ waiting rs' /\
    released_frames s' = released_frames s ++ popped /\ a `sublist_of` offered c) as Hsame.
  { intros s' a Hc Hok -> Hr Hfl. exists s', [], rs, []. rewrite !app_nil_r. unfold released_frames.
    rewrite Hr. split_and!; auto. apply sublist_nil_l. }
  destruct c as [f| | | | |]; cbn [do_call keeps] in *; [| | | | |done].
  - destruct (decide (length s.(stEmptyImageList) < 2)%nat).
    + destruct (add_new_none ids s f Hs) as (s' & Hn & Hok & Hr & Hfl); [done|]. rewrite Hn in *.
      apply (Hsame s' (accepted f HI_FAILURE)); auto.
      unfold accepted. pose proof hi_codes_ne. by replace (HI_FAILURE =? HI_SUCCESS) with false by lia.
    + destruct (add_new_some ids s f Hs) as (s' & -> & Hok & Hr & Hfl); [lia|].
      destruct (waiting_roles f) as [Hw Hpr]. cbn [mbind option_bind].
      exists s', (accepted f HI_SUCCESS), (rs ++ roles_of f), []. unfold accepted. rewrite Z.eqb_refl.
      split; [done|]. split; [done|]. split; [by apply Hfl|]. split; [by apply paired_app|].
      rewrite waiting_app, Hw. split; [done|]. rewrite app_nil_r. unfold released_frames. by rewrite Hr.
  - destruct (complete_flow ids s rs Hs Hf Hp Hnd) as (s' & r & -> & Hok & rs' & popped & ? & ? & ? & ?).
    exists s', [], rs', popped. rewrite app_nil_r. split_and!; try done.
  - destruct (check_image_ok ids s rs Hs) as (s' & b & Hc & Hok & Hr & Hfl). rewrite Hc in *.
    by apply (Hsame s' []).
  - destruct (check_empty_ok ids s rs Hs) as (s' & b & Hc & Hok & Hr & Hfl). rewrite Hc in *.
    by apply (Hsame s' []).
  - destruct (get_process_ok ids s Hs) as (r & Hc). rewrite Hc in *. by apply (Hsame s []).
Qed.

(** The frames in the list of images, by their index. *)
Definition pending s : list Z :=
  remove_dups (map (fun x => default 0 (u32FrameIndex <$> s.(nodes) !! x)) s.(stFulImageList)).

Lemma roles_waiting rs j : paired rs -> j ∈ map snd rs -> j ∈ waiting rs.
Proof.
  induction rs as [|[k i] rs IH]; cbn [map]; intros Hp Hj; [done|].
  apply elem_of_cons in Hj as [->|Hj]; [by apply paired_head in Hp|].
  specialize (IH (paired_tail _ _ Hp) Hj). destruct k; cbn; rewrite ?elem_of_cons; auto.
Qed.

Lemma roles_once rs : paired rs -> NoDup (waiting rs) -> remove_dups (map snd rs) = waiting rs.
Proof.
  induction rs as [|[k i] rs IH]; intros Hp Hnd; [done|].
  pose proof (paired_tail _ _ Hp) as Hp'. cbn [map snd remove_dups].
  assert (NoDup (waiting rs)) as Hnd' by (destruct k; cbn in Hnd; [|done|]; by apply NoDup_cons in Hnd as [_ ?]).
  rewrite (IH Hp' Hnd'). case_match; destruct k; try done; cbn in Hnd |- *.
  - apply NoDup_cons in Hnd as [Hi _]. by destruct Hi; apply roles_waiting.
  - apply NoDup_cons in Hnd as [Hi _]. by destruct Hi; apply roles_waiting.
  - destruct rs as [|[[] j] rs]; try done. destruct Hp as [-> _]. match goal with H : _ ∉ _ |- _ => destruct H; apply elem_of_cons; by left end.
Qed.

Lemma pending_waiting s rs : flow s rs -> paired rs -> NoDup (waiting rs) -> pending s = waiting rs.
Proof.
  intros [Hr _] Hp Hnd. unfold pending. rewrite <- roles_once by done. f_equal. clear Hp Hnd.
  induction Hr as [|x [k i] l rs (f & Hx & Hi & _) _ IH]; [done|]. cbn in *. by rewrite Hx, IH, <- Hi.
Qed.

Lemma run_flow ids cs : forall s rs acc,
  img_ok ids [] s -> flow s rs -> paired rs -> Forall keeps cs ->
  acc = released_frames s ++ waiting rs -> NoDup (acc ++ concat (map offered cs)) ->
  exists s' a, run s cs = Some (s', a) /\ img_ok ids [] s' /\
    acc ++ a = released_frames s' ++ pending s' /\ a `sublist_of` concat (map offered cs).
Proof.
  induction cs as [|c cs IH]; intros s rs acc Hs Hf Hp Hk -> Hnd; cbn [run].
  - rewrite app_nil_r in Hnd. apply NoDup_app in Hnd as (_ & _ & Hnd).
    exists s, []. rewrite app_nil_r, (pending_waiting s rs) by done. by split_and!.
  - apply Forall_cons in Hk as [Hkc Hk]. cbn [map concat] in Hnd |- *.
    pose proof Hnd as ((_ & _ & Hndw)%NoDup_app & _ & _)%NoDup_app.
    destruct (call_flow ids s c rs Hs Hf Hp Hndw Hkc)
      as (s1 & a1 & rs1 & popped & -> & Hs1 & Hf1 & Hp1 & Hw & Hr & Hsub). cbn [mbind option_bind].
    destruct (IH s1 rs1 (released_frames s1 ++ waiting rs1) Hs1 Hf1 Hp1 Hk eq_refl)
      as (s2 & a2 & -> & Hs2 & Hacc & Hsub2).
    { rewrite Hr, <- app_assoc, <- (app_assoc _ popped), (app_assoc popped), <- Hw.
      rewrite <- !app_assoc. rewrite <- app_assoc in Hnd.
      eapply sublist_NoDup; [exact Hnd|]. apply sublist_app; [done|]. apply sublist_app; [done|].
      by apply sublist_app. }
    cbn [mbind option_bind]. exists s2, (a1 ++ a2). split; [done|]. split; [done|].
    split; [|by apply sublist_app].
    rewrite <- Hacc, Hr. rewrite <- !app_assoc. f_equal. rewrite !app_assoc. f_equal. done.
Qed.
End Histories.

(** ** Properties *)

(** C13: after [VPSS_IMG_Init] and [VPSS_IMG_Regist], whatever sequence an instance
    makes of the calls that the driver uses ([call]: new image, complete, the two
    checks, get-process-image, reset), with whatever frames, every one of them is
    defined, no node is lost or linked twice, the target is the head of the list of
    images or its first image, and [VPSS_IMG_DeInit] succeeds and frees every node
    exactly once. The two functions that nothing in the repository calls are not
    among them: [VPSS_IMG_CorrectListOrder] is undefined in a reachable state
    ([correct_order_odd]), and [VPSS_IMG_GetFieldAddr] is defined after a successful
    check ([field_addr_after_check]). *)
Theorem img_calls_safe {C : HiConsts} {V : VpssConsts} (s : VPSS_IMAGELIST_INFO_S)
    (xs : list node) (cb : VPSS_IMG_CALLBACK_S) (cs : list call) :
  blank s -> NoDup xs -> length xs = VPSS_SOURCE_MAX_NUMB ->
  Z.of_nat VPSS_SOURCE_MAX_NUMB < 4294967296 -> is_Some cb.(cb_pfnRlsImage) ->
  exists s1 s2 a, start s xs cb = Some s1 /\ run s1 cs = Some (s2, a) /\
    s2.(stFulImageList) ++ s2.(stEmptyImageList) ≡ₚ xs /\
    (s2.(pstTarget_1) = Head \/ s2.(pstTarget_1) = first s2.(stFulImageList)) /\
    exists s3, VPSS_IMG_DeInit s2 = Some (s3, HI_SUCCESS) /\ s3.(nodes) = ∅.
Proof.
  intros Hb Hd Hl Hmax Hcb. destruct (img_start_ok s xs cb Hb Hd Hl Hcb) as (s1 & H1 & Hs1 & _ & _).
  destruct (run_ok xs cs s1 Hs1) as (s2 & a & H2 & Hs2).
  exists s1, s2, a. split; [done|]. split; [done|]. split; [apply (ok_nodes _ _ _ Hs2)|]. split.
  - destruct (ok_target _ _ _ Hs2) as [|(x & l & -> & ->)]; [by left|by right].
  - destruct (deinit_ok xs s2 Hs2) as (s3 & H3 & Hn); [lia|].
    rewrite Hl, Nat.eqb_refl in H3. by exists s3.
Qed.

(** Constants for the witnesses: seven nodes, and flags as in the release headers. *)
#[local] Instance seven_nodes : VpssConsts := {|
  VPSS_SOURCE_MAX_NUMB := 7; HI_INVALID_HANDLE := 4294967295;
  DEF_HI_DRV_VPSS_LAST_FRAME_FLAG := 1; DEF_HI_DRV_VPSS_LAST_ERROR_FLAG := 2 |}.

Definition blank_list : VPSS_IMAGELIST_INFO_S := mkImgList [] [] Head 0 0 0 0 0 None None ∅ [].
Definition seven : list node := [1; 2; 3; 4; 5; 6; 7]%positive.
Definition sample_cb : VPSS_IMG_CALLBACK_S := mkCallback 5 None (Some 9).

(** An interlaced frame, top field first, and a progressive one. *)
Definition interlaced (i flag : Z) : HI_DRV_VIDEO_FRAME_S :=
  zero_frame <| u32FrameIndex := i |> <| enFieldMode := HI_DRV_FIELD_ALL |> <| bTopFieldFirst := true |>
    <| u32LastFlag := flag |> <| u32Pts := 40 * i |> <| s32InterPtsDelta := 20 |>.
Definition progressive_frame (i : Z) : HI_DRV_VIDEO_FRAME_S :=
  zero_frame <| u32FrameIndex := i |> <| bProgressive := true |> <| enFieldMode := HI_DRV_FIELD_ALL |>.

Definition sample_calls : list call :=
  [NewImg (interlaced 1 0); ImgComplete; NewImg (interlaced 2 1); CheckImageList; ImgComplete;
   NewImg (progressive_frame 3); ImgComplete; ImgComplete; ImgComplete].

Lemma seven_ok : blank blank_list /\ NoDup seven.
Proof. split; [done|]. by apply (bool_decide_unpack (NoDup seven)). Qed.

Lemma img_calls_safe_witness :
  exists s1 s2 a, start blank_list seven sample_cb = Some s1 /\
    run s1 (NewImg (interlaced 9 2) :: Reset :: sample_calls) = Some (s2, a) /\
    s2.(stFulImageList) ++ s2.(stEmptyImageList) ≡ₚ seven /\
    (s2.(pstTarget_1) = Head \/ s2.(pstTarget_1) = first s2.(stFulImageList)) /\
    exists s3, VPSS_IMG_DeInit s2 = Some (s3, HI_SUCCESS) /\ s3.(nodes) = ∅.
Proof.
  destruct seven_ok as [Hb Hd].
  apply (img_calls_safe blank_list seven sample_cb); [exact Hb|exact Hd|reflexivity|cbn; lia|by eexists].
Defined.

(** C4: the list refines a queue of frames: after any [call]s without a reset, with
    frames of different indices that are progressive, or hold both fields and carry no
    error flag ([regular]), the accepted frames are exactly the ones given back to the
    source, in the order they came, followed by the ones still in the list: each
    frame is released once, its two fields together. A reset empties the list at
    once, and [last_error_double_release] shows what an error frame does. *)
Theorem frames_released_in_order {C : HiConsts} {COk : HiConstsOk C} {V : VpssConsts}
    (s : VPSS_IMAGELIST_INFO_S) (xs : list node) (cb : VPSS_IMG_CALLBACK_S) (cs : list call) :
  blank s -> NoDup xs -> length xs = VPSS_SOURCE_MAX_NUMB -> is_Some cb.(cb_pfnRlsImage) ->
  Forall keeps cs -> NoDup (concat (map offered cs)) ->
  exists s1 s2 a, start s xs cb = Some s1 /\ run s1 cs = Some (s2, a) /\
    a = released_frames s2 ++ pending s2 /\ a `sublist_of` concat (map offered cs).
Proof.
  intros Hb Hd Hl Hcb Hk Hnd. destruct (img_start_ok s xs cb Hb Hd Hl Hcb) as (s1 & H1 & Hs1 & Hf & Hr).
  assert (flow s1 []) as Hflow.
  { split; [by rewrite Hf|]. intros x i qs _ [=]. }
  destruct (run_flow xs cs s1 [] [] Hs1 Hflow I Hk) as (s2 & a & H2 & _ & Ha & Hsub).
  - unfold released_frames. by rewrite Hr.
  - done.
  - exists s1, s2, a. by split_and!.
Qed.

Lemma frames_released_in_order_witness :
  exists s1 s2 a, start blank_list seven sample_cb = Some s1 /\ run s1 sample_calls = Some (s2, a) /\
    a = released_frames s2 ++ pending s2 /\ a `sublist_of` concat (map offered sample_calls).
Proof.
  destruct seven_ok as [Hb Hd].
  apply (frames_released_in_order blank_list seven sample_cb);
    [exact Hb|exact Hd|reflexivity|by eexists| |].
  - repeat (apply Forall_cons; split); try exact I; try (by left); try (right; by split).
  - by apply (bool_decide_unpack (NoDup [1; 2; 3])).
Defined.

(** The samples do go round: the three frames are accepted and done. *)
Example sample_run :
  (fun '(s, a) => (a, released_frames s, pending s)) <$>
    (start blank_list seven sample_cb ≫= fun s => run s sample_calls) = Some ([1; 2; 3], [1; 2; 3], []).
Proof. by vm_compute. Qed.

(** An error frame makes up to three images progressive, the first field being
    processed among them: its frame is then given back twice. *)
Theorem last_error_double_release :
  (fun '(s, a) => (a, released_frames s, pending s)) <$>
    (start blank_list seven sample_cb ≫= fun s =>
       run s [NewImg (interlaced 1 0); ImgComplete; NewImg (interlaced 2 2); ImgComplete])
  = Some ([1; 2], [1; 1], []).
Proof. by vm_compute. Qed.
