(* ===== verification/VpssFields.v ===== *)
(** * Fields: splitting, addressing, reordering

    What vpss_img.c does with the two fields of an interlaced frame: how a frame
    is split, which addresses the de-interlacer is given, and how the list is
    turned round when the field order was detected the other way. *)

From S2P Require Import Prelude VpssImg VpssFlow.

(** ** Splitting a frame *)

Section Split.
Context {C : HiConsts} {V : VpssConsts} (ids : list node).
Implicit Types (s : VPSS_IMAGELIST_INFO_S) (x : node) (f : HI_DRV_VIDEO_FRAME_S).

(** An interlaced frame without a flag. *)
Definition plain_interlaced f : Prop :=
  f.(bProgressive) = false /\ f.(enFieldMode) = HI_DRV_FIELD_ALL /\
  f.(u32LastFlag) <> DEF_HI_DRV_VPSS_LAST_FRAME_FLAG /\
  f.(u32LastFlag) <> DEF_HI_DRV_VPSS_LAST_ERROR_FLAG.

(** The fields of [f], the first one progressive if [alone]. *)
Definition first_field f (alone : bool) : HI_DRV_VIDEO_FRAME_S :=
  f <| enFieldMode := if f.(bTopFieldFirst) then HI_DRV_FIELD_TOP else HI_DRV_FIELD_BOTTOM |>
    <| u32FrameRate := u32 (2 * f.(u32FrameRate)) |> <| bProgressive := alone |>.

Definition second_field f : HI_DRV_VIDEO_FRAME_S :=
  f <| enFieldMode := if f.(bTopFieldFirst) then HI_DRV_FIELD_BOTTOM else HI_DRV_FIELD_TOP |>
    <| u32FrameRate := u32 (2 * f.(u32FrameRate)) |>
    <| u32Pts := u32 (f.(u32Pts) + f.(s32InterPtsDelta)) |>
    <| s64OmxPts := s64 (f.(s64OmxPts) + s32 (f.(s32InterPtsDelta) * 1000)) |>
    <| bIsFirstIFrame := false |> <| bProgressive := false |>.

Lemma split_spec f : f.(bProgressive) = false ->
  split_fields f = (first_field f false, second_field f).
Proof.
  intros Hp. unfold split_fields, first_field, second_field.
  destruct f as [? ? ? ? rate ? P ? [] [] ? ? ?]; cbn in *; subst P; by rewrite !(Z.mul_comm 2).
Qed.

Lemma add_plain s x1 x2 f :
  img_ok ids [x1; x2] s -> plain_interlaced f ->
  exists s', add_fields s x1 x2 f = Some s' /\
    s'.(stFulImageList) = s.(stFulImageList) ++ [x1; x2] /\
    s'.(stEmptyImageList) = s.(stEmptyImageList) /\ s'.(pstTarget_1) = s.(pstTarget_1) /\
    s'.(nodes) = <[x1 := first_field f (list_empty s.(stFulImageList))]>
                 (<[x2 := second_field f]> s.(nodes)).
Proof.
  intros Hs (Hp & Hm & Hf1 & Hf2). unfold add_fields. rewrite split_spec by done. cbv zeta.
  change (u32LastFlag (first_field f false)) with (u32LastFlag f).
  rewrite (proj2 (Z.eqb_neq _ _) Hf1), (proj2 (Z.eqb_neq _ _) Hf2).
  pose proof (held_two ids _ _ _ Hs) as Hne.
  destruct (set_two_ok ids s x1 x2 (first_field f false) (second_field f) [] Hs) as (Hs1 & H1 & H2 & _).
  set (s1 := set_image (set_image s x1 _) x2 _) in *.
  destruct (add_ful_ok ids [x2] s1 x1 _ Hs1 H1) as [-> Hs2]. cbn [mbind option_bind].
  set (s2 := s1 <| nodes := _ |> <| stFulImageList := _ |>) in *.
  assert (s2.(nodes) !! x2 = Some (second_field f)) as H2'.
  { cbn. unfold ful_marks. cbn. destruct (list_empty _); [by rewrite lookup_insert_ne|done]. }
  destruct (add_ful_ok ids [] s2 x2 _ Hs2 H2') as [-> Hs3]. cbn [mbind option_bind].
  eexists. split; [done|]. cbn. split; [by rewrite <- app_assoc|]. split; [done|]. split; [done|].
  change (stFulImageList s1) with (stFulImageList s).
  replace (list_empty (stFulImageList s ++ [x1])) with false by by destruct (stFulImageList s).
  unfold s1, set_image. cbn. destruct (list_empty (stFulImageList s)).
  - rewrite insert_insert_ne by done. rewrite insert_insert_eq. by rewrite insert_insert_ne.
  - by rewrite insert_insert_ne.
Qed.

Lemma new_plain s x1 x2 l f :
  img_ok ids [] s -> s.(stEmptyImageList) = x1 :: x2 :: l -> plain_interlaced f ->
  exists s', VPSS_IMG_AddNewImg s f = Some (s', HI_SUCCESS) /\
    s'.(stFulImageList) = s.(stFulImageList) ++ [x1; x2] /\ s'.(stEmptyImageList) = l /\
    s'.(pstTarget_1) = s.(pstTarget_1) /\
    s'.(nodes) !! x1 = Some (first_field f (list_empty s.(stFulImageList))) /\
    s'.(nodes) !! x2 = Some (second_field f) /\
    forall y, y <> x1 -> y <> x2 -> s'.(nodes) !! y = s.(nodes) !! y.
Proof.
  intros Hs He Hf. destruct (get_empty_ok ids [] s x1 (x2 :: l) Hs He) as [H1 Hs1].
  set (s1 := set_image _ x1 _) in *.
  destruct (get_empty_ok ids [x1] s1 x2 l Hs1 eq_refl) as [H2 Hs2].
  set (s2 := set_image _ x2 _) in *.
  assert (img_ok ids [x1; x2] s2) as Hs2'.
  { destruct Hs2. split; try done. rewrite <- ok_nodes. solve_Permutation. }
  assert (img_ok ids [x1; x2] (set_image s2 x1 f)) as Hs3.
  { apply set_image_ok; [done|]. eapply held_mem; [done|]. set_solver. }
  pose proof (held_two ids _ _ _ Hs3) as Hne.
  destruct (add_plain _ x1 x2 f Hs3 Hf) as (s' & Ha & Hl & He' & Ht & Hn).
  exists s'. unfold VPSS_IMG_AddNewImg. rewrite H1. cbn [mbind option_bind]. rewrite H2.
  cbn [mbind option_bind]. destruct Hf as (Hp & Hm & _).
  rewrite Hp, bool_decide_eq_true_2 by done. cbn [negb andb]. rewrite Ha. split; [done|].
  split; [done|]. split; [done|]. split; [done|]. rewrite Hn. split; [|split].
  - by rewrite lookup_insert_eq.
  - by rewrite lookup_insert_ne, lookup_insert_eq.
  - intros y Hy1 Hy2. rewrite !lookup_insert_ne by done. unfold s2, s1, set_image. cbn.
    by rewrite !lookup_insert_ne.
Qed.
End Split.

(** ** Addresses *)

Section Addresses.
Context {C : HiConsts} {V : VpssConsts} (ids : list node).
Implicit Types (s : VPSS_IMAGELIST_INFO_S) (x : node) (f : HI_DRV_VIDEO_FRAME_S).

(** The distance of the second line: tiles have lines of 256 bytes. *)
Definition line_length (ePixFormat stride : Z) : Z :=
  if is_tile ePixFormat && (256 <=? stride) then 256 else stride.

(** Where the field of node [x] begins. *)
Definition field_addr s x (e : nat) : HI_DRV_VID_FRAME_ADDR_S :=
  let f := default zero_frame (s.(nodes) !! x) in
  let a := default zero_addr (f.(stBufAddr) !! e) in
  if decide (f.(enFieldMode) = HI_DRV_FIELD_BOTTOM) then
    a <| u32PhyAddr_Y := u32 (a.(u32PhyAddr_Y) + line_length f.(ePixFormat) a.(u32Stride_Y)) |>
      <| u32PhyAddr_C := u32 (a.(u32PhyAddr_C) + line_length f.(ePixFormat) a.(u32Stride_C)) |>
  else a.

Lemma bottom_line fmt phy stride : bottom_addr fmt phy stride = u32 (phy + line_length fmt stride).
Proof.
  unfold bottom_addr, line_length. rewrite Z.geb_leb.
  destruct (is_tile fmt), (Z.leb_spec 256 stride); done.
Qed.

Lemma copy_addr_ok s x e f :
  s.(nodes) !! x = Some f -> (e < length f.(stBufAddr))%nat ->
  VPSS_IMG_CopyAddr s (Node x) e = Some (field_addr s x e).
Proof.
  intros Hf He. unfold VPSS_IMG_CopyAddr, field_addr, get_image. cbn. rewrite Hf. cbn.
  destruct (lookup_lt_is_Some_2 _ _ He) as [a Ha]. rewrite Ha. cbn.
  destruct (decide (enFieldMode f = HI_DRV_FIELD_BOTTOM)) as [Hm|Hm].
  - rewrite bool_decide_eq_true_2 by done. by rewrite !bottom_line.
  - by rewrite bool_decide_eq_false_2.
Qed.

Lemma get_field_addr_ok s e t x1 x2 x3 x4 l :
  img_ok ids [] s -> s.(pstTarget_1) = Node t ->
  s.(stFulImageList) = t :: x1 :: x2 :: x3 :: x4 :: l ->
  (forall x f, s.(nodes) !! x = Some f -> (e < length f.(stBufAddr))%nat) ->
  VPSS_IMG_GetFieldAddr s e = Some (HI_SUCCESS,
    Some [field_addr s t e; zero_addr; zero_addr; field_addr s x2 e; field_addr s x3 e; field_addr s x4 e]).
Proof.
  intros Hs Ht Hl He. pose proof (ok_ful _ _ _ Hs) as Hd.
  assert (forall x, x ∈ s.(stFulImageList) -> VPSS_IMG_CopyAddr s (Node x) e = Some (field_addr s x e)) as Hc.
  { intros x Hx. destruct (ok_image ids [] s x Hs) as [f Hf]; [set_solver|].
    apply (copy_addr_ok s x e f Hf), (He x f Hf). }
  rewrite Hl in *. unfold VPSS_IMG_GetFieldAddr. cbv zeta. rewrite Ht, Hl, decide_False by done.
  rewrite Hc by set_solver. cbn [mbind option_bind]. rewrite next_front. cbn [mbind option_bind first].
  rewrite (next_mid [t] x1 (x2 :: x3 :: x4 :: l) Hd : list_next (t :: _) (Node x1) = _).
  cbn [mbind option_bind first]. rewrite Hc by set_solver. cbn [mbind option_bind].
  rewrite (next_mid [t; x1] x2 (x3 :: x4 :: l) Hd : list_next (t :: _) (Node x2) = _).
  cbn [mbind option_bind first]. rewrite Hc by set_solver. cbn [mbind option_bind].
  rewrite (next_mid [t; x1; x2] x3 (x4 :: l) Hd : list_next (t :: _) (Node x3) = _).
  cbn [mbind option_bind first]. by rewrite Hc by set_solver.
Qed.
End Addresses.

(** ** Turning the fields round *)

Section Swap.
Context {C : HiConsts} {V : VpssConsts}.
Implicit Types (s : VPSS_IMAGELIST_INFO_S) (x y : node) (f : HI_DRV_VIDEO_FRAME_S)
  (ps : list (node * node)) (m : gmap node HI_DRV_VIDEO_FRAME_S).

(** A list of frames, each with two fields. *)
Definition flat ps : list node := concat (map (fun p : node * node => [p.1; p.2]) ps).
Definition swap (p : node * node) : node * node := (p.2, p.1).

(** The fields of a frame exchange their time stamps. *)
Definition swap_pts m x y : gmap node HI_DRV_VIDEO_FRAME_S :=
  match m !! x, m !! y with
  | Some f, Some g => <[x := f <| u32Pts := g.(u32Pts) |>]> (<[y := g <| u32Pts := f.(u32Pts) |>]> m)
  | _, _ => m
  end.

Definition swap_all m ps : gmap node HI_DRV_VIDEO_FRAME_S :=
  fold_left (fun m (p : node * node) => swap_pts m p.1 p.2) ps m.

Lemma filter_mid (l1 l2 : list node) x :
  NoDup (l1 ++ x :: l2) -> list_del_init (l1 ++ x :: l2) x = Some (l1 ++ l2).
Proof.
  intros (H1 & Hd & [Hx H2]%NoDup_cons)%NoDup_app. unfold list_del_init.
  rewrite decide_True by set_solver. rewrite filter_app, filter_cons_False by auto.
  rewrite !filter_others; [done|done|]. intros Hin. apply (Hd x Hin). set_solver.
Qed.

Lemma prev_mid (l1 l2 : list node) x :
  NoDup (l1 ++ x :: l2) -> list_prev (l1 ++ x :: l2) (Node x) = Some (first (rev l1)).
Proof.
  intros (H1 & Hd & [Hx H2]%NoDup_cons)%NoDup_app. unfold list_prev.
  rewrite rev_app_distr. cbn. rewrite <- app_assoc. cbn. rewrite after_mid; [done|].
  by rewrite list_elem_of_In, <- in_rev, <- list_elem_of_In.
Qed.

Lemma link_mid (l1 l2 xs : list node) :
  NoDup (l1 ++ l2) -> link_behind (l1 ++ l2) (first (rev l1)) xs = Some (l1 ++ xs ++ l2).
Proof.
  intros Hd. destruct l1 as [|z l1 _] using rev_ind; [done|]. rewrite rev_app_distr. cbn.
  rewrite <- !app_assoc in *. cbn in *.
  apply NoDup_app in Hd as (_ & Hd & _). assert (z ∉ l1) as Hz by (intros Hz; apply (Hd z Hz); set_solver).
  clear Hd. induction l1 as [|w l1 IH]; cbn; [by rewrite decide_True|].
  apply not_elem_of_cons in Hz as [Hw Hz]. rewrite decide_False by done. by rewrite IH.
Qed.

(** One round of the loop. *)
Lemma swap_step n s pre x y rest f g :
  NoDup (pre ++ x :: y :: rest) -> s.(stFulImageList) = pre ++ x :: y :: rest ->
  s.(nodes) !! x = Some f -> s.(nodes) !! y = Some g ->
  swap_fields (S n) s (Node x) =
  swap_fields n
    ((if decide (s.(pstTarget_1) = Node x) then s <| pstTarget_1 := Node y |>
      else s <| nodes := swap_pts s.(nodes) x y |>)
     <| stFulImageList := pre ++ y :: x :: rest |>) (first rest).
Proof.
  intros Hd Hl Hf Hg.
  assert (x <> y) as Hne.
  { apply NoDup_app in Hd as (_ & _ & [Hx _]%NoDup_cons). set_solver. }
  assert (NoDup ((pre ++ [y]) ++ x :: rest)) as Hd2.
  { eapply (NoDup_Permutation_proper (pre ++ x :: y :: rest)); [|exact Hd].
    rewrite <- app_assoc. cbn. by rewrite (Permutation_swap x y). }
  assert (NoDup (pre ++ y :: rest)) as Hd1.
  { apply NoDup_app in Hd as (H1 & H2 & [_ H3]%NoDup_cons). apply NoDup_app. split; [done|].
    split; [|done]. set_solver. }
  assert (NoDup (pre ++ rest)) as Hd0.
  { apply NoDup_app in Hd1 as (H1 & H2 & [_ H3]%NoDup_cons). apply NoDup_app. split; [done|].
    split; [|done]. set_solver. }
  cbn [swap_fields]. rewrite Hl, next_mid by done. cbn [mbind option_bind first].
  rewrite decide_False by done. rewrite prev_mid by done. cbn [mbind option_bind list_entry].
  unfold get_image. rewrite Hf, Hg. cbn [mbind option_bind].
  rewrite filter_mid by done. cbn [mbind option_bind]. rewrite filter_mid by done. cbn [mbind option_bind].
  rewrite link_mid by done. cbn [mbind option_bind].
  pose proof (next_mid (pre ++ [y]) x rest Hd2) as Hn. rewrite <- app_assoc in Hn. cbn in Hn.
  cbn [app]. rewrite Hn. cbn [mbind option_bind].
  f_equal. destruct (decide (pstTarget_1 s = Node x)) as [Ht|Ht].
  - rewrite decide_False by (intros H; by apply H). done.
  - rewrite decide_True by done. unfold swap_pts, set_image. rewrite Hf, Hg. done.
Qed.

Lemma swap_pts_mem m x y z : is_Some (swap_pts m x y !! z) <-> is_Some (m !! z).
Proof.
  unfold swap_pts. destruct (m !! x) as [f|] eqn:Hx; [|done]. destruct (m !! y) as [g|] eqn:Hy; [|done].
  rewrite !lookup_insert_is_Some'. split; [intros [<-|[<-|]]|]; auto; by eexists.
Qed.

Lemma swap_pts_other m x y z : z <> x -> z <> y -> swap_pts m x y !! z = m !! z.
Proof.
  intros Hx Hy. unfold swap_pts. destruct (m !! x); [|done]. destruct (m !! y); [|done].
  by rewrite !lookup_insert_ne.
Qed.

Lemma flat_swap ps : flat (map swap ps) ≡ₚ flat ps.
Proof.
  induction ps as [|[x y] ps IH]; [done|]. cbn. unfold flat in IH. rewrite IH. apply Permutation_swap.
Qed.

Lemma flat_in ps p : p ∈ ps -> p.1 ∈ flat ps /\ p.2 ∈ flat ps.
Proof.
  induction ps as [|[x y] ps IH]; [by intros ?%not_elem_of_nil|].
  intros [->|Hp]%elem_of_cons; cbn; rewrite !elem_of_cons; [tauto|]. destruct (IH Hp). tauto.
Qed.

Lemma swap_all_other ps : forall m z, z ∉ flat ps -> swap_all m ps !! z = m !! z.
Proof.
  induction ps as [|[x y] ps IH]; intros m z Hz; [done|]. cbn in Hz. rewrite !elem_of_cons in Hz.
  cbn. change (swap_all (swap_pts m x y) ps !! z = m !! z). rewrite IH by tauto. apply swap_pts_other; tauto.
Qed.

Lemma swap_all_lookup ps : forall m x y f g, NoDup (flat ps) -> (x, y) ∈ ps ->
  m !! x = Some f -> m !! y = Some g ->
  swap_all m ps !! x = Some (f <| u32Pts := g.(u32Pts) |>) /\
  swap_all m ps !! y = Some (g <| u32Pts := f.(u32Pts) |>).
Proof.
  induction ps as [|[x' y'] ps IH]; intros m x y f g Hd Hin Hx Hy; [by apply not_elem_of_nil in Hin|].
  cbn in Hd. apply NoDup_cons in Hd as [Hx' [Hy' Hd]%NoDup_cons]. rewrite elem_of_cons in Hx'.
  change (swap_all m ((x', y') :: ps)) with (swap_all (swap_pts m x' y') ps).
  apply elem_of_cons in Hin as [[= -> ->]|Hin].
  - rewrite !swap_all_other by tauto. unfold swap_pts. rewrite Hx, Hy.
    assert (x' <> y') by tauto. rewrite lookup_insert_eq, lookup_insert_ne, lookup_insert_eq by done. done.
  - apply IH; try done; rewrite swap_pts_other; try done; apply flat_in in Hin as [? ?]; cbn in *;
      intros ->; tauto.
Qed.

Lemma swap_rest ps : forall n s pre,
  (length ps <= n)%nat -> NoDup (pre ++ flat ps) -> s.(stFulImageList) = pre ++ flat ps ->
  (forall x, x ∈ flat ps -> is_Some (s.(nodes) !! x)) ->
  (forall x, x ∈ flat ps -> s.(pstTarget_1) <> Node x) ->
  swap_fields n s (first (flat ps)) =
  Some (s <| nodes := swap_all s.(nodes) ps |> <| stFulImageList := pre ++ flat (map swap ps) |>).
Proof.
  induction ps as [|[x y] ps IH]; intros n s pre Hn Hd Hl Hm Ht.
  - destruct s. cbn in Hl. subst. by destruct n.
  - destruct n as [|n]; [cbn in Hn; lia|]. cbn [flat map concat app fst snd] in *.
    destruct (Hm x) as [f Hf]; [rewrite elem_of_cons; tauto|].
    destruct (Hm y) as [g Hg]; [rewrite !elem_of_cons; tauto|].
    cbn [first]. rewrite (swap_step n s pre x y (flat ps) f g) by done.
    rewrite decide_False by (apply Ht; rewrite elem_of_cons; tauto).
    replace (pre ++ y :: x :: flat ps) with ((pre ++ [y; x]) ++ flat ps) by (by rewrite <- app_assoc).
    match goal with |- swap_fields _ ?s1 _ = _ => rewrite (IH n s1 (pre ++ [y; x])) end; cbn;
      [by rewrite <- app_assoc|cbn in Hn; lia| |done| |].
    + rewrite <- app_assoc. cbn. by rewrite (Permutation_swap x y).
    + intros z Hz. apply swap_pts_mem, Hm. rewrite !elem_of_cons. tauto.
    + intros z Hz. apply Ht. rewrite !elem_of_cons. tauto.
Qed.

(** The list turned round; the fields of the frame that is being processed keep
    their time stamps. *)
Definition turned s ps : VPSS_IMAGELIST_INFO_S :=
  match s.(pstTarget_1), ps with
  | Node _, (x, y) :: ps' =>
      s <| pstTarget_1 := Node y |> <| nodes := swap_all s.(nodes) ps' |>
        <| stFulImageList := flat (map swap ps) |>
  | _, _ => s <| nodes := swap_all s.(nodes) ps |> <| stFulImageList := flat (map swap ps) |>
  end.

Lemma swap_loop ids s ps :
  img_ok ids [] s -> s.(stFulImageList) = flat ps ->
  swap_fields (length s.(stFulImageList)) s (first s.(stFulImageList)) = Some (turned s ps).
Proof.
  intros Hs Hl. pose proof (ok_ful _ _ _ Hs) as Hd. rewrite Hl in *.
  assert (forall x, x ∈ flat ps -> is_Some (s.(nodes) !! x)) as Hm.
  { intros x Hx. destruct (ok_image ids [] s x Hs) as [f ->]; [rewrite Hl; set_solver|by eexists]. }
  assert (length ps <= length (flat ps))%nat as Hlen.
  { clear. induction ps as [|p ps IH]; cbn; [done|]. unfold flat in IH. lia. }
  unfold turned. destruct (ok_target _ _ _ Hs) as [Ht | (x & l & Hxl & Ht)]; rewrite Ht.
  { apply (swap_rest ps _ s []); try done. intros x _. by rewrite Ht. }
  destruct ps as [|[x' y] ps]; [by rewrite Hl in Hxl|].
  cbn [flat map concat app fst snd] in Hl, Hd, Hm, Hlen |- *. fold (flat ps) in *.
  rewrite Hl in Hxl. injection Hxl as -> _.
  destruct (Hm x) as [f Hf]; [rewrite elem_of_cons; tauto|].
  destruct (Hm y) as [g Hg]; [rewrite !elem_of_cons; tauto|]. cbn [first length].
  rewrite (swap_step _ s [] x y (flat ps) f g) by done.
  rewrite decide_True by done.
  apply NoDup_cons in Hd as [Hx [Hy Hd]%NoDup_cons]. rewrite elem_of_cons in Hx.
  match goal with |- swap_fields _ ?s1 _ = _ => rewrite (swap_rest ps _ s1 [y; x]) end; cbn; try done.
  - unfold flat in *; cbn in Hlen; lia.
  - apply NoDup_cons. split; [rewrite elem_of_cons; intros [->|]; tauto|]. apply NoDup_cons. tauto.
  - intros z Hz. apply Hm. rewrite !elem_of_cons. tauto.
  - intros z Hz [= ->]. done.
Qed.

Lemma flat_out ps z : z ∈ flat ps -> exists x y, (x, y) ∈ ps /\ (z = x \/ z = y).
Proof.
  induction ps as [|[x y] ps IH]; [by intros ?%not_elem_of_nil|]. cbn. rewrite !elem_of_cons.
  intros [->|[->|Hz]]; [exists x, y; rewrite elem_of_cons; tauto|exists x, y; rewrite elem_of_cons; tauto|].
  destruct (IH Hz) as (x' & y' & Hin & Hxy). exists x', y'. rewrite elem_of_cons. tauto.
Qed.

Lemma swap_all_mem ps : forall m z, is_Some (swap_all m ps !! z) <-> is_Some (m !! z).
Proof.
  induction ps as [|[x y] ps IH]; intros m z; [done|].
  change (swap_all m ((x, y) :: ps)) with (swap_all (swap_pts m x y) ps). by rewrite IH, swap_pts_mem.
Qed.

Lemma swap_all_twice ps m :
  NoDup (flat ps) -> (forall x, x ∈ flat ps -> is_Some (m !! x)) ->
  swap_all (swap_all m ps) (map swap ps) = m.
Proof.
  intros Hd Hm. apply map_eq. intros z. destruct (decide (z ∈ flat ps)) as [Hz|Hz].
  - destruct (flat_out ps z Hz) as (x & y & Hin & Hzxy).
    destruct (flat_in ps _ Hin) as [Hx Hy]. cbn in Hx, Hy.
    destruct (Hm x Hx) as [f Hf], (Hm y Hy) as [g Hg].
    destruct (swap_all_lookup ps m x y f g Hd Hin Hf Hg) as [H1 H2].
    destruct (swap_all_lookup (map swap ps) (swap_all m ps) y x _ _
      ltac:(by rewrite flat_swap) ltac:(by apply (list_elem_of_fmap_2 swap) in Hin) H2 H1) as [H3 H4].
    destruct Hzxy as [-> | ->]; [rewrite H4, Hf; by destruct f|rewrite H3, Hg; by destruct g].
  - rewrite !swap_all_other; [done|done|]. by rewrite flat_swap.
Qed.

Lemma turned_ok ids s ps :
  img_ok ids [] s -> s.(stFulImageList) = flat ps -> img_ok ids [] (turned s ps).
Proof.
  intros Hs Hl. pose proof Hs as []. unfold turned. rewrite Hl in *. cbn [app] in ok_nodes.
  assert (flat (map swap ps) ++ s.(stEmptyImageList) ≡ₚ ids) as Hn by by rewrite flat_swap.
  destruct ok_target as [Ht | (x & l & Hf & Ht)]; rewrite Ht.
  - split; cbn; try done; [|by left]. intros x. by rewrite swap_all_mem.
  - destruct ps as [|[x' y] ps]; [done|]. split; cbn; try done.
    + intros z. by rewrite swap_all_mem.
    + right. by eexists _, _.
Qed.

Lemma turned_twice ids s ps :
  img_ok ids [] s -> s.(stFulImageList) = flat ps -> turned (turned s ps) (map swap ps) = s.
Proof.
  intros Hs Hl. pose proof (ok_ful _ _ _ Hs) as Hd.
  assert (forall x, x ∈ flat ps -> is_Some (s.(nodes) !! x)) as Hm.
  { intros x Hx. destruct (ok_image ids [] s x Hs) as [f ->]; [rewrite Hl; set_solver|by eexists]. }
  assert (flat (map swap (map swap ps)) = flat ps) as Hss.
  { clear. induction ps as [|[x y] ps IH]; [done|]. cbn. unfold flat in IH. by rewrite IH. }
  rewrite Hl in Hd. destruct (ok_target _ _ _ Hs) as [Ht | (x & l & Hf & Ht)].
  - unfold turned. rewrite Ht. cbn. rewrite swap_all_twice, Hss, <- Hl, Ht by done. destruct s; cbn in *; by subst.
  - destruct ps as [|[x' y] ps]; [by rewrite Hl in Hf|]. rewrite Hl in Hf. cbn in Hf. injection Hf as -> Hf.
    cbn in Hd. apply NoDup_cons in Hd as [_ [_ Hd]%NoDup_cons].
    unfold turned. rewrite Ht. cbn. cbn in Hss. fold (flat ps) in *.
    rewrite swap_all_twice; [|done|intros z Hz; apply Hm; cbn; rewrite !elem_of_cons; tauto].
    destruct s; cbn in *. subst. do 2 f_equal. injection Hss as ->. done.
Qed.

(** A field without its partner. *)
Lemma odd_loop ps z : forall n s pre,
  NoDup (pre ++ flat ps ++ [z]) -> s.(stFulImageList) = pre ++ flat ps ++ [z] ->
  (forall x, x ∈ flat ps -> is_Some (s.(nodes) !! x)) ->
  swap_fields n s (first (flat ps ++ [z])) = None.
Proof.
  induction ps as [|[x y] ps IH]; intros n s pre Hd Hl Hm.
  - cbn in *. destruct n as [|n]; cbn [swap_fields]; rewrite Hl, next_mid by done;
      cbn [mbind option_bind]; rewrite decide_False by done; [done|].
    rewrite prev_mid by done. done.
  - cbn [flat map concat app fst snd] in *. fold (flat ps) in *.
    destruct (Hm x) as [f Hf]; [rewrite elem_of_cons; tauto|].
    destruct (Hm y) as [g Hg]; [rewrite !elem_of_cons; tauto|]. cbn [first].
    destruct n as [|n].
    { cbn [swap_fields]. rewrite Hl, next_mid by done. cbn [mbind option_bind]. by rewrite decide_False. }
    rewrite (swap_step n s pre x y (flat ps ++ [z]) f g) by done.
    match goal with |- swap_fields _ ?s1 _ = _ => apply (IH n s1 (pre ++ [y; x])) end; cbn.
    + rewrite <- app_assoc. cbn. by rewrite (Permutation_swap x y).
    + by rewrite <- app_assoc.
    + intros w Hw. destruct (decide _); cbn; [|apply swap_pts_mem]; apply Hm; rewrite !elem_of_cons; tauto.
Qed.
End Swap.

(** ** Properties *)

(** C33: an interlaced frame without a flag takes the first two empty nodes: they
    hold its two fields in display order, at twice the frame rate, the second one
    with the time stamps of half a frame later; the first one is processed as
    progressive if it is alone; no other node changes. *)
Theorem interlaced_split {C : HiConsts} {V : VpssConsts} (ids : list node)
    (s : VPSS_IMAGELIST_INFO_S) (x1 x2 : node) (l : list node) (f : HI_DRV_VIDEO_FRAME_S) :
  img_ok ids [] s -> s.(stEmptyImageList) = x1 :: x2 :: l -> plain_interlaced f ->
  exists s', VPSS_IMG_AddNewImg s f = Some (s', HI_SUCCESS) /\
    s'.(stFulImageList) = s.(stFulImageList) ++ [x1; x2] /\ s'.(stEmptyImageList) = l /\
    s'.(pstTarget_1) = s.(pstTarget_1) /\
    s'.(nodes) !! x1 = Some (first_field f (list_empty s.(stFulImageList))) /\
    s'.(nodes) !! x2 = Some (second_field f) /\
    forall y, y <> x1 -> y <> x2 -> s'.(nodes) !! y = s.(nodes) !! y.
Proof. apply new_plain. Qed.

(** The state after some calls. *)
#[local] Instance seven_nodes' : VpssConsts := seven_nodes.
Definition after_calls (cs : list call) : VPSS_IMAGELIST_INFO_S :=
  default blank_list (fst <$> (start blank_list seven sample_cb ≫= fun s => run s cs)).

Lemma after_calls_ok cs : img_ok seven [] (after_calls cs).
Proof.
  destruct seven_ok as [Hb Hd].
  destruct (img_start_ok blank_list seven sample_cb Hb Hd) as (s1 & H1 & Hs1 & _); [done|by eexists|].
  destruct (run_ok seven cs s1 Hs1) as (s2 & a & H2 & Hs2).
  unfold after_calls. rewrite H1. cbn. by rewrite H2.
Qed.

Lemma interlaced_split_witness :
  let s := after_calls [] in let f := interlaced 1 0 in
  exists s', VPSS_IMG_AddNewImg s f = Some (s', HI_SUCCESS) /\
    s'.(stFulImageList) = s.(stFulImageList) ++ [1%positive; 2%positive] /\
    s'.(stEmptyImageList) = [3; 4; 5; 6; 7]%positive /\ s'.(pstTarget_1) = s.(pstTarget_1) /\
    s'.(nodes) !! 1%positive = Some (first_field f (list_empty s.(stFulImageList))) /\
    s'.(nodes) !! 2%positive = Some (second_field f) /\
    forall y, y <> 1%positive -> y <> 2%positive -> s'.(nodes) !! y = s.(nodes) !! y.
Proof.
  intros s f. apply (interlaced_split seven s); [apply after_calls_ok|by vm_compute|by split_and!].
Defined.

(** When [VPSS_IMG_CheckImageList] says that an interlaced image can be
    processed, [VPSS_IMG_GetFieldAddr] succeeds: it gives the addresses of the
    image before it and of the three behind it, a bottom field beginning one line
    further (256 bytes in tiles, the stride otherwise). *)
Theorem field_addr_after_check {C : HiConsts} {V : VpssConsts} (ids : list node)
    (s s' : VPSS_IMAGELIST_INFO_S) (x : node) (f : HI_DRV_VIDEO_FRAME_S) (e : nat) :
  img_ok ids [] s ->
  list_next s.(stFulImageList) s.(pstTarget_1) = Some (Node x) -> s.(nodes) !! x = Some f ->
  f.(bProgressive) = false -> VPSS_IMG_CheckImageList s = Some (s', true) ->
  (forall x f, s.(nodes) !! x = Some f -> (e < length f.(stBufAddr))%nat) ->
  s' = s /\ exists t x2 x3 x4 l, s.(stFulImageList) = t :: x :: x2 :: x3 :: x4 :: l /\
    VPSS_IMG_GetFieldAddr s e = Some (HI_SUCCESS,
      Some [field_addr s t e; zero_addr; zero_addr; field_addr s x2 e; field_addr s x3 e; field_addr s x4 e]).
Proof.
  intros Hs Hn Hf Hp Hc He. rewrite (check_image_spec ids s Hs) in Hc.
  rewrite (next_target _ _ _ Hs) in Hn. injection Hn as Hn.
  destruct (tail_images s) as [|y l] eqn:Hl; [done|]. cbn in Hn. injection Hn as ->.
  rewrite Hf, Hp in Hc. destruct (target_cases ids s x l Hs Hl) as [[Ht _] | (t & g & Ht & Hful & _)];
    rewrite Ht in Hc; [done|].
  destruct l as [|x2 [|x3 [|x4 l]]]; try done. injection Hc as <-. split; [done|].
  exists t, x2, x3, x4, l. split; [done|]. by apply (get_field_addr_ok ids s e t x x2 x3 x4 l).
Qed.

Definition three_frames : VPSS_IMAGELIST_INFO_S :=
  after_calls [NewImg (interlaced 1 0); ImgComplete; NewImg (interlaced 2 0); NewImg (interlaced 3 0)].

Lemma three_frames_addrs x f :
  three_frames.(nodes) !! x = Some f -> (0 < length f.(stBufAddr))%nat.
Proof.
  intros Hx. apply elem_of_map_to_list in Hx.
  assert (Forall (fun p => (0 < length p.2.(stBufAddr))%nat) (map_to_list three_frames.(nodes))) as Hall.
  { vm_compute. repeat constructor. }
  rewrite Forall_forall in Hall. by apply (Hall (x, f)).
Qed.

Lemma field_addr_after_check_witness :
  let s := three_frames in
  s = s /\ exists t x2 x3 x4 l, s.(stFulImageList) = t :: 2%positive :: x2 :: x3 :: x4 :: l /\
    VPSS_IMG_GetFieldAddr s 0 = Some (HI_SUCCESS,
      Some [field_addr s t 0; zero_addr; zero_addr; field_addr s x2 0; field_addr s x3 0; field_addr s x4 0]).
Proof.
  intros s. apply (field_addr_after_check seven s s 2%positive (second_field (interlaced 1 0)) 0);
    [apply after_calls_ok|by vm_compute|by vm_compute|by vm_compute|by vm_compute|apply three_frames_addrs].
Defined.

(** A list of whole frames is turned round by [VPSS_IMG_CorrectListOrder]: the
    fields of every frame change places and time stamps; of the frame that is
    being processed, the field that is now first becomes the target, and the time
    stamps stay. Nodes are neither lost nor linked twice. *)
Theorem correct_order_turns {C : HiConsts} {V : VpssConsts} (ids : list node)
    (s : VPSS_IMAGELIST_INFO_S) (ps : list (node * node)) (x0 : node)
    (f0 : HI_DRV_VIDEO_FRAME_S) (bTopFirst : bool) :
  img_ok ids [] s -> s.(stFulImageList) = flat ps ->
  list_next s.(stFulImageList) s.(pstTarget_1) = Some (Node x0) -> s.(nodes) !! x0 = Some f0 ->
  f0.(enFieldMode) <> (if bTopFirst then HI_DRV_FIELD_BOTTOM else HI_DRV_FIELD_TOP) ->
  exists s', VPSS_IMG_CorrectListOrder s bTopFirst = Some (s', HI_SUCCESS) /\ img_ok ids [] s' /\
    s'.(stFulImageList) = flat (map swap ps) /\
    (forall x y f g, (x, y) ∈ ps -> s.(nodes) !! x = Some f -> s.(nodes) !! y = Some g ->
       if decide (s.(pstTarget_1) = Node x)
       then s'.(pstTarget_1) = Node y /\ s'.(nodes) !! x = Some f /\ s'.(nodes) !! y = Some g
       else s'.(nodes) !! x = Some (f <| u32Pts := g.(u32Pts) |>) /\
            s'.(nodes) !! y = Some (g <| u32Pts := f.(u32Pts) |>)).
Proof.
  intros Hs Hl Hn Hf0 Hm. exists (turned s ps). unfold VPSS_IMG_CorrectListOrder, get_image.
  rewrite Hn. cbn [mbind option_bind list_entry]. rewrite Hf0. cbn [mbind option_bind].
  rewrite bool_decide_eq_false_2, (swap_loop ids s ps Hs Hl) by done. split; [done|].
  split; [by apply turned_ok|]. pose proof (ok_ful _ _ _ Hs) as Hd. rewrite Hl in Hd.
  destruct (ok_target _ _ _ Hs) as [Ht | (t & l & Htl & Ht)]; unfold turned; rewrite Ht.
  { split; [done|]. intros x y f g Hin Hf Hg. rewrite decide_False by done. by apply swap_all_lookup. }
  destruct ps as [|[t' u] ps]; [by rewrite Hl in Htl|]. rewrite Hl in Htl. cbn in Htl. injection Htl as -> _.
  split; [done|]. intros x y f g Hin Hf Hg. cbn in Hd |- *.
  apply NoDup_cons in Hd as [Ht1 [Hu Hd]%NoDup_cons]. rewrite elem_of_cons in Ht1.
  apply elem_of_cons in Hin as [[= -> ->]|Hin].
  - rewrite decide_True by done. rewrite !swap_all_other by tauto. done.
  - destruct (flat_in ps _ Hin) as [Hx Hy]. cbn in Hx, Hy.
    rewrite decide_False by (intros [= ->]; tauto). by apply swap_all_lookup.
Qed.

Definition two_frames : VPSS_IMAGELIST_INFO_S := after_calls [NewImg (interlaced 1 0); NewImg (interlaced 2 0)].
Definition two_pairs : list (node * node) := [(1, 2); (3, 4)]%positive.

Lemma correct_order_turns_witness :
  exists s', VPSS_IMG_CorrectListOrder two_frames true = Some (s', HI_SUCCESS) /\ img_ok seven [] s' /\
    s'.(stFulImageList) = flat (map swap two_pairs) /\
    (forall x y f g, (x, y) ∈ two_pairs -> two_frames.(nodes) !! x = Some f -> two_frames.(nodes) !! y = Some g ->
       if decide (two_frames.(pstTarget_1) = Node x)
       then s'.(pstTarget_1) = Node y /\ s'.(nodes) !! x = Some f /\ s'.(nodes) !! y = Some g
       else s'.(nodes) !! x = Some (f <| u32Pts := g.(u32Pts) |>) /\
            s'.(nodes) !! y = Some (g <| u32Pts := f.(u32Pts) |>)).
Proof.
  apply (correct_order_turns seven two_frames two_pairs 1%positive (first_field (interlaced 1 0) true) true);
    [apply after_calls_ok|by vm_compute|by vm_compute|by vm_compute|by vm_compute].
Defined.

(** Turning a list of whole frames round twice gives back the list, the target
    and every time stamp. *)
Theorem correct_order_roundtrip {C : HiConsts} {V : VpssConsts} (ids : list node)
    (s : VPSS_IMAGELIST_INFO_S) (ps : list (node * node)) :
  img_ok ids [] s -> s.(stFulImageList) = flat ps ->
  exists s', swap_fields (length s.(stFulImageList)) s (first s.(stFulImageList)) = Some s' /\
    swap_fields (length s'.(stFulImageList)) s' (first s'.(stFulImageList)) = Some s.
Proof.
  intros Hs Hl. exists (turned s ps). split; [by eapply swap_loop|].
  assert ((turned s ps).(stFulImageList) = flat (map swap ps)) as Hl'.
  { unfold turned. by destruct (pstTarget_1 s), ps as [|[] ?]. }
  rewrite (swap_loop ids (turned s ps) (map swap ps)); [|by apply turned_ok|done].
  f_equal. by eapply turned_twice.
Qed.

Lemma correct_order_roundtrip_witness :
  exists s', swap_fields 4 two_frames (Node 1) = Some s' /\
    swap_fields (length s'.(stFulImageList)) s' (first s'.(stFulImageList)) = Some two_frames.
Proof. apply (correct_order_roundtrip seven two_frames two_pairs); [apply after_calls_ok|by vm_compute]. Defined.

(** With an odd number of fields the loop reads a frame through the head of
    the list: the behaviour is undefined, whatever the lists hold otherwise. *)
Theorem correct_order_odd {C : HiConsts} {V : VpssConsts} (ids : list node)
    (s : VPSS_IMAGELIST_INFO_S) (ps : list (node * node)) (z x0 : node)
    (f0 : HI_DRV_VIDEO_FRAME_S) (bTopFirst : bool) :
  img_ok ids [] s -> s.(stFulImageList) = flat ps ++ [z] ->
  list_next s.(stFulImageList) s.(pstTarget_1) = Some (Node x0) -> s.(nodes) !! x0 = Some f0 ->
  f0.(enFieldMode) <> (if bTopFirst then HI_DRV_FIELD_BOTTOM else HI_DRV_FIELD_TOP) ->
  VPSS_IMG_CorrectListOrder s bTopFirst = None.
Proof.
  intros Hs Hl Hn Hf0 Hm. unfold VPSS_IMG_CorrectListOrder, get_image. rewrite Hn.
  cbn [mbind option_bind list_entry]. rewrite Hf0. cbn [mbind option_bind].
  rewrite bool_decide_eq_false_2 by done. rewrite Hl. rewrite (odd_loop ps z _ s []); [done| |done|].
  - pose proof (ok_ful _ _ _ Hs) as Hd. by rewrite Hl in Hd.
  - intros x Hx. destruct (ok_image ids [] s x Hs) as [f ->]; [rewrite Hl; set_solver|by eexists].
Qed.

(** Reached when a frame is half done. *)
Lemma correct_order_odd_witness :
  VPSS_IMG_CorrectListOrder
    (after_calls [NewImg (interlaced 1 0); ImgComplete; ImgComplete; NewImg (interlaced 2 0)]) true = None.
Proof.
  eapply (correct_order_odd seven _ [(2, 3)]%positive 4%positive); [apply after_calls_ok|by vm_compute..|].
  by vm_compute.
Defined.
