(* ===== verification/OmxImage.v ===== *)
(** * From the decoder's pictures to the frames of VPSS

    Models processor_get_image and processor_release_image of
    omxvdec/processor_vpss.c, with which VPSS takes the pictures a channel has decoded
    and gives them back: the description of a picture is translated, its frame
    rate is detected by the time-stamp recovery (PtsRec.v), and the end of the
    stream is reported to the user when the last picture has been taken
    (OmxHw.v). [None] is a fault, as in those files. *)

From S2P Require Import VpssImg Prelude KList FrameRate PtsRec OmxDelay OmxChan OmxHw OmxQueue.
From S2P Require Import OmxCalls OmxServe OmxReturn OmxInit OmxDev OmxRun OmxFlush OmxProps.

Definition HI_DRV_PIX_FMT_NV21 : Z := 64.
Definition HI_DRV_SOURCE_DTV : Z := 0.
Definition HI_DRV_CS_BT601_YUV_LIMITED : Z := 2.
Definition HI_DRV_COLOR_SYS_AUTO : Z := 0.
Definition FRAME_PACKING_TYPE_BUTT : Z := 4.

Inductive HI_DRV_FRAME_TYPE_E :=
| HI_DRV_FT_NOT_STEREO | HI_DRV_FT_SBS | HI_DRV_FT_TAB | HI_DRV_FT_FPK | HI_DRV_FT_TILE.

(** The fields of a decoded picture that are read; [image] are those that the
    time-stamp recovery knows. *)
Record decoded := mkDecoded {
  image : IMAGE;
  format : Z;
  is_1Dcompress : Z;
  disp_width : Z;
  disp_height : Z;
  image_stride : Z;
  top_luma_phy_addr : Z;
  top_chrom_phy_addr : Z;
  is_3D : bool;
  top_luma_phy_addr_1 : Z;
  top_chrom_phy_addr_1 : Z;
  d_AspectWidth : Z;
  d_AspectHeight : Z;
  error_level : Z;
  seq_img_cnt : Z;
  eFramePackingType : Z;
  d_image_id : Z;
  d_image_id_1 : Z;
  btl_imageid : Z;
  btl_Is1D : Z;
  Usertag : Z;             (* UINT64 *)
  line_num_phy_addr : Z;
  is_last : bool;          (* last_frame *)
}.

#[export] Instance decoded_fields : Fields decoded := fun r =>
  mkDecoded r.(image) r.(format) r.(is_1Dcompress) r.(disp_width) r.(disp_height)
    r.(image_stride) r.(top_luma_phy_addr) r.(top_chrom_phy_addr) r.(is_3D)
    r.(top_luma_phy_addr_1) r.(top_chrom_phy_addr_1) r.(d_AspectWidth) r.(d_AspectHeight)
    r.(error_level) r.(seq_img_cnt) r.(eFramePackingType) r.(d_image_id) r.(d_image_id_1)
    r.(btl_imageid) r.(btl_Is1D) r.(Usertag) r.(line_num_phy_addr) r.(is_last).

(** What the frame says of the source, in its private area. *)
Record HI_DRV_VIDEO_ORIGINAL_INFO_S := mkOriginal {
  enSource : Z;
  o_Width : Z;
  o_Height : Z;
  u32FrmRate : Z;
  en3dType : HI_DRV_FRAME_TYPE_E;
  enSrcColorSpace : Z;
  enColorSys : Z;
  bGraphicMode : bool;
  bInterlace : bool;
}.

(** A frame of VPSS: [frm] are the fields that its image list knows. *)
Record picture := mkPicture {
  frm : HI_DRV_VIDEO_FRAME_S;
  eFrmType : HI_DRV_FRAME_TYPE_E;
  u32Circumrotate : Z;
  u32AspectWidth : Z;
  u32AspectHeight : Z;
  u32Width : Z;
  u32Height : Z;
  u32ErrorLevel : Z;
  hTunnel : Z;             (* hTunnelSrc *)
  u32TunnelPhyAddr : Z;
  u32BufferID : Z;
  stVideoOriginalInfo : HI_DRV_VIDEO_ORIGINAL_INFO_S;
  image_id : Z;
  image_id_1 : Z;
  u32BTLImageID : Z;
  u32Is1D : Z;
  u32Usertag : Z;
}.

#[export] Instance picture_fields : Fields picture := fun r =>
  mkPicture r.(frm) r.(eFrmType) r.(u32Circumrotate) r.(u32AspectWidth) r.(u32AspectHeight)
    r.(u32Width) r.(u32Height) r.(u32ErrorLevel) r.(hTunnel) r.(u32TunnelPhyAddr)
    r.(u32BufferID) r.(stVideoOriginalInfo) r.(image_id) r.(image_id_1) r.(u32BTLImageID)
    r.(u32Is1D) r.(u32Usertag).

Section Image.
Context {C : HiConsts} {E : OmxEnv}.
Implicit Types (c : OMXVDEC_CHAN_CTX) (e : OMXVDEC_ENTRY) (i : decoded) (f : picture).

Definition REALID (id : Z) : Z := id mod 100 +u 2.

(** ** Translating a picture *)

Definition pix_format c i : Z :=
  if (c.(protocol) =? STD_H263) || (c.(protocol) =? STD_SORENSON) then HI_DRV_PIX_FMT_NV21
  else if i.(is_1Dcompress) =? 0 then HI_DRV_PIX_FMT_NV21_TILE else HI_DRV_PIX_FMT_NV21_TILE_CMP.

(** VP6 pictures are stored upside down. *)
Definition circumrotate c : Z :=
  let r := Z.land c.(bReversed) 1 in
  if (c.(protocol) =? STD_VP6) || (c.(protocol) =? STD_VP6F) || (c.(protocol) =? STD_VP6A)
  then if c.(protocol) =? STD_VP6A then r else if r =? 0 then 1 else 0
  else 0.

Definition progressive i : bool :=
  (Z.land i.(format) 0x300 =? 0) || (i.(disp_height) <=? 288).

Definition field_mode i : HI_DRV_FIELD_MODE_E :=
  let m := Z.land i.(format) 0xC00 in
  if m =? 0x400 then HI_DRV_FIELD_TOP else if m =? 0x800 then HI_DRV_FIELD_BOTTOM
  else if m =? 0xC00 then HI_DRV_FIELD_ALL else HI_DRV_FIELD_BUTT.

(** The decoder's number for unknown packings is the frame type of tiles. *)
Definition frame_type (packing : Z) : HI_DRV_FRAME_TYPE_E :=
  if packing =? 0 then HI_DRV_FT_NOT_STEREO else if packing =? 1 then HI_DRV_FT_SBS
  else if packing =? 2 then HI_DRV_FT_TAB else if packing =? 3 then HI_DRV_FT_FPK
  else HI_DRV_FT_TILE.

(** The stride of the pictures that a decoder in hardware wrote is counted in 16
    bytes. *)
Definition frame_stride c i : Z :=
  if (c.(protocol) =? STD_H263) || (c.(protocol) =? STD_SORENSON) || (c.(protocol) =? STD_MJPEG)
  then i.(image_stride) else i.(image_stride) / 16.

(** The addresses of one eye; the others of the entry are kept. *)
Definition set_addr (l : list HI_DRV_VID_FRAME_ADDR_S) (k luma chroma s : Z)
    : option (list HI_DRV_VID_FRAME_ADDR_S) :=
  a ← arr_get l k;
  arr_set l k (a <| u32PhyAddr_Y := u32 luma |> <| u32Stride_Y := s |>
                 <| u32PhyAddr_C := u32 chroma |> <| u32Stride_C := s |>).

Definition set_addrs c i (l : list HI_DRV_VID_FRAME_ADDR_S) : option (list HI_DRV_VID_FRAME_ADDR_S) :=
  l ← set_addr l 0 i.(top_luma_phy_addr) i.(top_chrom_phy_addr) (frame_stride c i);
  if i.(is_3D)
  then set_addr l 1 i.(top_luma_phy_addr_1) i.(top_chrom_phy_addr_1) (i.(image_stride) / 16)
  else Some l.

(** The description up to the time stamps. *)
Definition describe c i f : option picture :=
  l ← set_addrs c i f.(frm).(stBufAddr);
  Some (f <| frm ::= fun r => r
              <| bTopFieldFirst := negb (Z.land i.(format) 0x3000 =? 0) |>
              <| ePixFormat := pix_format c i |> <| bProgressive := progressive i |>
              <| enFieldMode := field_mode i |> <| stBufAddr := l |>
              <| s64OmxPts := s64 i.(image).(SrcPts) |>
              <| VpssImg.u32FrameIndex := i.(seq_img_cnt) |> |>
          <| u32Circumrotate := circumrotate c |>
          <| u32AspectWidth := i.(d_AspectWidth) |> <| u32AspectHeight := i.(d_AspectHeight) |>
          <| u32Width := i.(disp_width) |> <| u32Height := i.(disp_height) |>
          <| u32ErrorLevel := i.(error_level) |>
          <| hTunnel := u32 (Z.lor (Z.shiftl HI_ID_VDEC 16) c.(channel_id)) |>
          <| eFrmType := if c.(protocol) =? STD_MVC then frame_type i.(eFramePackingType)
                         else f.(eFrmType) |>).

(** ** Its rate *)

(** The recovery gets the stamp in milliseconds, rounded. *)
Definition ms_stamp (pts : Z) : Z :=
  if pts mod 1000 >=? 500 then pts / 1000 + 1 else pts / 1000.

(** The decoder's rate is a fixed-point number with ten bits of fraction; VPSS
    wants thousandths. *)
Definition milli_rate (rate : Z) : Z := ((rate / 1024) *u 1000) +u rate mod 1024.

Definition frame_rate_of c (rate : Z) : Z :=
  let r := milli_rate rate in
  if (r <? 10000) || (r >? 75000) then c.(last_frame_rate) else r.

(** A new high rate is passed to the decoder. *)
Definition note_rate c (rate : Z) : OMXVDEC_CHAN_CTX :=
  let c := if (rate >? 30000) && negb (rate =? c.(last_frame_rate))
           then post c (VFMW (SET_FRAME_RATE (rate / 1000))) else c in
  c <| last_frame_rate := rate |>.

(** ** The private area *)

Definition set_private c i (delta : Z) f : picture :=
  let r := f.(frm).(VpssImg.u32FrameRate) in
  f <| u32BufferID := i.(d_image_id) |>
    <| stVideoOriginalInfo := mkOriginal HI_DRV_SOURCE_DTV i.(disp_width) i.(disp_height) r
         f.(eFrmType) HI_DRV_CS_BT601_YUV_LIMITED HI_DRV_COLOR_SYS_AUTO false
         f.(frm).(bProgressive) |>
    <| image_id := i.(d_image_id) |> <| image_id_1 := u32 i.(d_image_id_1) |>
    <| u32BTLImageID := u32 i.(btl_imageid) |> <| u32Is1D := i.(btl_Is1D) |>
    <| u32Usertag := u32 i.(Usertag) |>
    <| frm ::= fun r => r <| VpssImg.s32InterPtsDelta := s32 delta |> |>
    <| u32TunnelPhyAddr := if (c.(bLowdelay) =? 1) || g_FastOutputMode
                           then u32 i.(line_num_phy_addr) else 0 |>.

(** ** The calls *)

(** A picture was there: the channel, the table of the recovery and the frame. *)
Definition take_image c (t : chan_table) i f (now : Z)
    : option (OMXVDEC_CHAN_CTX * chan_table * picture) :=
  f ← describe c i f;
  let c := c <| progress := f.(frm).(bProgressive) |> in
  '(t, img, _) ← OMX_PTSREC_CalcStamp t c.(channel_id)
                   (i.(image) <| SrcPts ::= ms_stamp |>);
  let r := frame_rate_of c img.(frame_rate) in
  let f := f <| frm ::= fun x => x <| VpssImg.u32FrameRate := r |> |> in
  let c := note_rate c r in
  delta ← OMX_PTSREC_GetInterPtsDelta t c.(channel_id);
  let f := set_private c i delta f in
  let c := if i.(is_last) then c <| last_frame_image_id := u8 (REALID i.(d_image_id)) |> else c in
  let c := c <| last_frame_processor_got := u8 (REALID i.(d_image_id)) |> in
  c ← (if lowdelay_on c
       then add_tag_time c (u32 i.(Usertag)) OMX_LOWDELAY_REC_VPSS_RCV_IMG_TIME now else Some c);
  Some (c <| omx_chan_statinfo ::= fun s => s <| ProcessorIn ::= fun k => k +u 1 |> |>, t, f).

(** There was none: the end of the stream is reported, once its last picture has
    been taken or has failed. [others] as in [last_frame_loop]. *)
Definition no_image c others : option OMXVDEC_CHAN_CTX :=
  if (c.(last_frame_info0) =? DECODER_REPORT_LAST_FRAME)
     && ((c.(last_frame_processor_got) =? c.(last_frame_image_id))
         || (c.(last_frame_info1) =? REPORT_LAST_FRAME_FAIL))
  then
    '(c, _) ← processor_report_last_frame (c <| last_frame_info0 := PROCESSOR_GOT_LAST_FRAME |>) others;
    Some c
  else Some c.

(** [ready] is the decoder's answer. *)
Definition get_image c (t : chan_table) (ready : option decoded) f others (now : Z)
    : option (OMXVDEC_CHAN_CTX * chan_table * picture * Z) :=
  if c.(reset_pending) then Some (c, t, f, HI_FAILURE) else
  match ready with
  | None => c ← no_image c others; Some (c, t, f, HI_FAILURE)
  | Some i => '(c, t, f) ← take_image c t i f now; Some (c, t, f, 0)
  end.

Definition processor_get_image e (VpssId : Z) (ready : option decoded) f others (now : Z)
    : option (OMXVDEC_ENTRY * picture * Z) :=
  found ← channel_find_inst_by_processor_id e VpssId;
  match found with
  | None => Some (e, f, HI_FAILURE)
  | Some p =>
      s ← deref e p;
      '(c, t, f, ret) ← get_image s.(ctx) e.(pts) ready f others now;
      Some (e <| insts ::= <[p := s <| ctx := c |>]> |> <| pts := t |>, f, ret)
  end.

(** The fields of the picture that is given back to the decoder; the others are
    zero. *)
Record returned_image := mkReturned {
  ri_stride : Z;
  ri_height : Z;
  ri_width : Z;
  ri_luma : Z;            (* luma_phy_addr and top_luma_phy_addr *)
  ri_image_id : Z;
  ri_image_id_1 : Z;      (* SINT32 *)
  ri_btl_imageid : Z;     (* SINT32 *)
  ri_Is1D : Z;
}.

Definition image_of f : option returned_image :=
  a ← arr_get f.(frm).(stBufAddr) 0;
  Some (mkReturned a.(u32Stride_Y) f.(u32Height) f.(u32Width) a.(u32PhyAddr_Y)
          f.(image_id) (s32 f.(image_id_1)) (s32 f.(u32BTLImageID)) f.(u32Is1D)).

(** Answers the picture the decoder is given, if it is given one; [answer] is
    what it says. *)
Definition processor_release_image e (VpssId : Z) f (answer : Z) : option (option returned_image * Z) :=
  found ← channel_find_inst_by_processor_id e VpssId;
  match found with
  | None => Some (None, HI_FAILURE)
  | Some _ =>
      i ← image_of f;
      Some (Some i, if negb (answer =? HI_SUCCESS) then HI_FAILURE else HI_SUCCESS)
  end.
End Image.

#[global] Arguments OMX_PTSREC_CalcStamp : simpl never.
#[global] Arguments OMX_PTSREC_GetInterPtsDelta : simpl never.

(** ** Taking a picture keeps the channel *)

Section Keeps.
Context {C : HiConsts} {E : OmxEnv} {Ok : HiConstsOk C}.
Implicit Types (c : OMXVDEC_CHAN_CTX) (q : port_dir -> list node) (i : decoded) (f : picture).

(** The decoders in software give the stride in bytes, the others in 16 bytes. *)
Definition stride_shift c : Z :=
  if existsb (Z.eqb c.(protocol)) [STD_H263; STD_SORENSON; STD_MJPEG] then 1 else 16.

(** The frame of a picture: the picture's values that it carries. Bits 8 and 9 of
    the picture's format are zero for a progressive one, bits 10 and 11 tell the
    fields. *)
Record shows c i f : Prop := {
  sh_pts : f.(frm).(s64OmxPts) = s64 i.(image).(SrcPts);
  sh_size : f.(u32Width) = i.(disp_width) /\ f.(u32Height) = i.(disp_height);
  sh_addr : exists a b, f.(frm).(stBufAddr) = [a; b]
    /\ a.(u32PhyAddr_Y) = u32 i.(top_luma_phy_addr) /\ a.(u32PhyAddr_C) = u32 i.(top_chrom_phy_addr)
    /\ a.(u32Stride_Y) = i.(image_stride) / stride_shift c
    /\ a.(u32Stride_C) = i.(image_stride) / stride_shift c
    /\ (i.(is_3D) = true -> b.(u32PhyAddr_Y) = u32 i.(top_luma_phy_addr_1)
         /\ b.(u32PhyAddr_C) = u32 i.(top_chrom_phy_addr_1)
         /\ b.(u32Stride_Y) = i.(image_stride) / 16 /\ b.(u32Stride_C) = i.(image_stride) / 16);
  sh_progressive : f.(frm).(bProgressive) = true
    <-> (i.(format) / 256) mod 4 = 0 \/ i.(disp_height) <= 288;
  sh_field : (i.(format) / 1024) mod 4 =
    match f.(frm).(enFieldMode) with
    | HI_DRV_FIELD_TOP => 1 | HI_DRV_FIELD_BOTTOM => 2 | HI_DRV_FIELD_ALL => 3 | HI_DRV_FIELD_BUTT => 0
    end;
  sh_ids : f.(image_id) = i.(d_image_id) /\ f.(image_id_1) = u32 i.(d_image_id_1)
    /\ f.(u32BTLImageID) = u32 i.(btl_imageid) /\ f.(u32Is1D) = i.(btl_Is1D);
}.

Lemma frame_stride_ok c i : frame_stride c i = i.(image_stride) / stride_shift c.
Proof.
  unfold frame_stride, stride_shift. cbn [existsb]. rewrite orb_false_r, orb_assoc.
  destruct (_ || _); [by rewrite Z.div_1_r|done].
Qed.

(** Two bits of a word. *)
Lemma two_bits x k : 0 <= k -> Z.land x (Z.shiftl 3 k) = (x / 2 ^ k) mod 4 * 2 ^ k.
Proof.
  intros Hk. change 4 with (2 ^ 2). rewrite <- Z.land_ones by lia. change (Z.ones 2) with 3.
  rewrite <- Z.shiftr_div_pow2, <- Z.shiftl_mul_pow2 by done.
  apply Z.bits_inj'. intros n Hn. rewrite Z.land_spec, !Z.shiftl_spec by done.
  destruct (Z.ltb_spec n k).
  - rewrite !(Z.testbit_neg_r _ (n - k)) by lia. apply andb_false_r.
  - rewrite Z.land_spec, Z.shiftr_spec by lia. by replace (n - k + k) with n by lia.
Qed.

Lemma progressive_ok i :
  progressive i = true <-> (i.(format) / 256) mod 4 = 0 \/ i.(disp_height) <= 288.
Proof.
  unfold progressive. pose proof (two_bits (format i) 8 ltac:(lia)) as H.
  change (Z.shiftl 3 8) with 0x300 in H. change (2 ^ 8) with 256 in H. rewrite H.
  rewrite orb_true_iff, Z.eqb_eq, Z.leb_le. lia.
Qed.

Lemma field_mode_ok i :
  (i.(format) / 1024) mod 4 =
  match field_mode i with
  | HI_DRV_FIELD_TOP => 1 | HI_DRV_FIELD_BOTTOM => 2 | HI_DRV_FIELD_ALL => 3 | HI_DRV_FIELD_BUTT => 0
  end.
Proof.
  unfold field_mode. pose proof (two_bits (format i) 10 ltac:(lia)) as H.
  change (Z.shiftl 3 10) with 0xC00 in H. change (2 ^ 10) with 1024 in H. rewrite H. clear H.
  pose proof (Z.mod_pos_bound (format i / 1024) 4 ltac:(lia)). set (m := _ mod 4) in *. clearbody m.
  destruct (Z.eqb_spec (m * 1024) 0x400); [lia|]. destruct (Z.eqb_spec (m * 1024) 0x800); [lia|].
  destruct (Z.eqb_spec (m * 1024) 0xC00); lia.
Qed.

Lemma two_addrs {A} (l : list A) : length l = 2%nat -> exists a b, l = [a; b].
Proof. destruct l as [|a [|b [|x l]]]; intros H; try done. by exists a, b. Qed.

Lemma describe_ok c i f :
  length f.(frm).(stBufAddr) = 2%nat ->
  exists f', describe c i f = Some f' /\ forall c0 r delta,
    shows c i (set_private c0 i delta (f' <| frm ::= fun x => x <| VpssImg.u32FrameRate := r |> |>)).
Proof.
  intros (a & b & Hl)%two_addrs. unfold describe, set_addrs. rewrite Hl.
  change (set_addr [a; b] 0 ?x ?y ?s) with
    (Some [a <| u32PhyAddr_Y := u32 x |> <| u32Stride_Y := s |>
             <| u32PhyAddr_C := u32 y |> <| u32Stride_C := s |>; b]).
  cbn [mbind option_bind]. destruct (is_3D i) eqn:H3.
  - change (set_addr [?a; b] 1 ?x ?y ?s) with
      (Some [a; b <| u32PhyAddr_Y := u32 x |> <| u32Stride_Y := s |>
               <| u32PhyAddr_C := u32 y |> <| u32Stride_C := s |>]).
    cbn [mbind option_bind]. eexists. split; [done|]. intros c0 r delta.
    split; try done; [|apply progressive_ok|apply field_mode_ok].
    eexists _, _. rewrite <- frame_stride_ok. by split_and!.
  - cbn [mbind option_bind]. eexists. split; [done|]. intros c0 r delta.
    split; try done; [|apply progressive_ok|apply field_mode_ok].
    eexists _, _. rewrite <- frame_stride_ok. split_and!; try done. congruence.
Qed.

Lemma delta_ok t h : table_ok t -> 0 <= h < 16 -> exists v, OMX_PTSREC_GetInterPtsDelta t h = Some v.
Proof.
  intros Ht Hh. destruct (table_get t h Ht Hh) as (x & Hx & _).
  unfold OMX_PTSREC_GetInterPtsDelta. rewrite Hx. by eexists.
Qed.

(** What changes of a channel, up to the low-delay statistics. *)
Lemma image_plain c (b : bool) (r got last : Z) (il : bool) :
  let c1 := note_rate (c <| progress := b |>) r in
  let c2 := if il then c1 <| last_frame_image_id := last |> else c1 in
  mild c (c2 <| last_frame_processor_got := got |>) /\ state (c2 <| last_frame_processor_got := got |>) = state c.
Proof.
  intros c1 c2.
  assert (H1 : mild c c1).
  { unfold c1, note_rate. destruct (_ && _).
    - eapply (mild_plain _ (post (c <| progress := b |>) _)); [by split|by auto|].
      apply mild_post; [by intros []|]. eapply (mild_plain _ c); [by split|by auto|apply mild_refl].
    - eapply (mild_plain _ c); [by split|by auto|apply mild_refl]. }
  assert (H2 : mild c c2) by (unfold c2; destruct il; [eapply (mild_plain _ c1); [by split|by auto|]|]; done).
  split; [eapply (mild_plain _ c2); [by split|by auto|done]|].
  unfold c2, c1, note_rate. destruct il, (_ && _); reflexivity.
Qed.

Lemma note_tag_rate c c' tag type now :
  (if lowdelay_on c then add_tag_time c tag type now else Some c) = Some c' ->
  last_frame_rate c' = last_frame_rate c.
Proof.
  destruct (lowdelay_on c); [|by intros [= <-]]. unfold add_tag_time.
  destruct (lowdelay_rec c) as [r|]; [|done]. cbn [mbind option_bind].
  destruct (channel_add_lowdelay_tag_time _ _ _ _ _); [|done]. by intros [= <-].
Qed.

Lemma take_image_ok c q t t' img v i f now :
  0 < g_lowdelay_count_frame -> queues_ok c q -> 0 <= c.(channel_id) < 16 -> table_ok t ->
  length f.(frm).(stBufAddr) = 2%nat ->
  OMX_PTSREC_CalcStamp t c.(channel_id) (i.(image) <| SrcPts ::= ms_stamp |>) = Some (t', img, v) ->
  exists c' f', take_image c t i f now = Some (c', t', f') /\ table_ok t'
    /\ hw_ok True c q c' q /\ shows c i f'
    /\ f'.(frm).(VpssImg.u32FrameRate) = frame_rate_of c img.(frame_rate)
    /\ last_frame_rate c' = frame_rate_of c img.(frame_rate).
Proof.
  intros Hg Hok Hid Ht Hl Hcalc. unfold take_image.
  destruct (describe_ok c i f Hl) as (f1 & -> & Hsh). cbn [mbind option_bind].
  change (channel_id (c <| progress := bProgressive (frm f1) |>)) with (channel_id c).
  rewrite Hcalc. cbn [mbind option_bind].
  pose proof (calc_stamp_keeps _ _ _ _ _ _ Ht (proj1 Hid) Hcalc) as Ht'.
  set (r := frame_rate_of _ _). destruct (delta_ok t' (channel_id c) Ht' Hid) as [delta Hdelta].
  set (got := u8 (REALID (d_image_id i))).
  destruct (image_plain c (bProgressive (frm f1)) r got got (is_last i)) as [Hm Hs]. cbv zeta in Hm, Hs.
  assert (Hch : channel_id (note_rate (c <| progress := bProgressive (frm f1) |>) r) = channel_id c)
    by (unfold note_rate; by destruct (_ && _)).
  rewrite Hch, Hdelta. cbn [mbind option_bind].
  set (c1 := _ <| last_frame_processor_got := _ |>) in *.
  pose proof (hw_mild _ _ _ Hok Hm Hs) as H1.
  destruct (note_served c1 q (u32 (Usertag i)) OMX_LOWDELAY_REC_VPSS_RCV_IMG_TIME now Hg
              (kp_ok _ _ _ _ _ (hw_kept _ _ _ _ _ H1))) as (c2 & E2 & Hq2 & Ht2 & _).
  rewrite E2. cbn [mbind option_bind]. eexists _, _. split; [done|]. split; [done|].
  assert (H2 : hw_ok True c1 q c2 q).
  { apply hw_served, (served_quiet c1 c2 q []); [apply H1|done|by rewrite app_nil_r|done]. }
  split_and!.
  - eapply hw_weaken; [|eapply hw_trans; [exact H1|eapply hw_trans; [exact H2|]]]; [done|].
    apply hw_mild; [apply H2| |done]. eapply mild_plain; [apply plain_stat|by auto|apply mild_refl].
  - apply Hsh.
  - done.
  - simpl. rewrite (note_tag_rate _ _ _ _ _ E2). unfold c1. by destruct (is_last i).
Qed.

(** The rate of a frame. *)
Lemma frame_rate_in c (rate : Z) :
  let r := u32 (u32 (rate / 1024 * 1000) + rate mod 1024) in
  (10000 <= r <= 75000 -> frame_rate_of c rate = r)
  /\ (~ 10000 <= r <= 75000 -> frame_rate_of c rate = c.(last_frame_rate)).
Proof.
  unfold frame_rate_of, milli_rate. cbv zeta. set (r := u32 (u32 _ + _)).
  destruct (_ || _) eqn:Ho.
  - apply orb_true_iff in Ho as [Ho%Z.ltb_lt|Ho%Z.gtb_lt]; split; intros; try done; lia.
  - apply orb_false_iff in Ho as [H1%Z.ltb_ge H2]. rewrite Z.gtb_ltb in H2. apply Z.ltb_ge in H2.
    split; intros; [done|lia].
Qed.

Lemma frame_rate_bounds c (rate : Z) :
  10000 <= c.(last_frame_rate) <= 75000 -> 10000 <= frame_rate_of c rate <= 75000.
Proof.
  intros Hb. destruct (frame_rate_in c rate) as [H1 H2].
  destruct (decide (10000 <= u32 (u32 (rate / 1024 * 1000) + rate mod 1024) <= 75000)) as [Hr|Hr].
  - by rewrite (H1 Hr).
  - by rewrite (H2 Hr).
Qed.

(** ** The end of the stream *)

Lemma set_buf_info c n b c' : set_buf c n b = Some c' -> last_frame_info0 c' = last_frame_info0 c.
Proof.
  unfold set_buf. destruct n as [|p k|]; [done| |by intros [= <-]].
  destruct (arr_set _ _ _); [|done]. intros [= <-]. by destruct p.
Qed.

Lemma alter_info c n g c' : alter_buf c n g = Some c' -> last_frame_info0 c' = last_frame_info0 c.
Proof.
  unfold alter_buf. destruct (node_buf c n) as [b|]; [|done]. apply set_buf_info.
Qed.

Lemma get_frame_info c len c' s ret :
  processor_get_frame c len = Some (c', s, ret) -> last_frame_info0 c' = last_frame_info0 c.
Proof.
  unfold processor_get_frame. destruct (negb _); [by intros [= <- <- <-]|].
  destruct (flush_pending _); [by intros [= <- <- <-]|].
  destruct (list_empty _ _) as [[|]|]; [by intros [= <- <- <-]| |done]. cbn [mbind option_bind].
  destruct (list_find_entry _ _ _) as [[n|]|]; [|by intros [= <- <- <-]|done]. cbn [mbind option_bind].
  destruct (node_buf c n) as [b|]; [|done]. cbn [mbind option_bind].
  destruct (set_buf _ _ _) as [c1|] eqn:E1; [|done]. cbn [mbind option_bind].
  intros [= <- <- <-]. by rewrite <- (set_buf_info _ _ _ _ E1).
Qed.

Lemma finish_info c : last_frame_info0 (finish_pending c) = last_frame_info0 c.
Proof. unfold finish_pending. repeat case_match; done. Qed.

(** The report of the last picture is marked, and taken note of. *)
Lemma report_last c (f : report_frame) c' ret :
  is_eos c f = true -> processor_report_frame c f = Some (c', ret) ->
  last_frame_info0 c' = if ret =? HI_SUCCESS then LAST_FRAME_FLAG_NULL else last_frame_info0 c.
Proof.
  intros He. unfold processor_report_frame.
  assert (HF : (HI_FAILURE =? HI_SUCCESS) = false) by apply success_ne.
  destruct (_ =? 0); [intros [= <- <-]; by rewrite HF|].
  destruct (list_empty _ _) as [[|]|]; cbn [mbind option_bind]; [|..|done];
    [intros [= <- <-]; by rewrite HF|].
  destruct (find_hw _ _ _) as [[n|]|]; cbn [mbind option_bind]; [|intros [= <- <-]; by rewrite HF|done].
  destruct (alter_buf c n _) as [c1|] eqn:E1; cbn [mbind option_bind]; [|done].
  apply alter_info in E1. destruct (on_links c1 _) as [c2|] eqn:E2; cbn [mbind option_bind]; [|done].
  assert (Hc2 : last_frame_info0 c2 = last_frame_info0 c1).
  { revert E2. unfold on_links. destruct (list_del _ _); [|done]. by intros [= <-]. }
  destruct (node_buf c2 n) as [b|]; cbn [mbind option_bind]; [|done]. cbv zeta.
  fold (is_eos c2 f). replace (is_eos c2 f) with true by (unfold is_eos in *; by rewrite Hc2, E1).
  destruct (alter_buf c2 n _) as [c3|] eqn:E3; cbn [mbind option_bind]; [|done].
  intros [= <- <-]. by rewrite finish_info, Z.eqb_refl.
Qed.

(** The frame that the end of the stream is reported in. *)
Definition end_frame (addr : Z) : report_frame :=
  zero_report <| r_last := LAST_FRAME_FLAG |> <| r_addr_Y := addr |>.

(** A frame buffer that VPSS could take now. *)
Definition room c q : Prop :=
  state c = CHAN_STATE_WORK /\ pending OUT c = false
  /\ exists n b, n ∈ q OUT /\ node_buf c n = Some b /\ in_use c n = false /\ 0 <= b.(buf_len).

(** One attempt; the loop is not to be unfolded 501 times. *)
Lemma last_frame_step fuel others c k :
  last_frame_loop (S fuel) others c k =
  ('(c, fs, ret) ← processor_get_frame c 0;
   match fs with
   | Some fs => '(c, _) ← processor_report_frame c (end_frame fs.(fs_PhyAddr)); Some (c, HI_SUCCESS)
   | None => if k + 1 >? 500 then Some (others (k + 1) c, HI_FAILURE)
             else last_frame_loop fuel others (others (k + 1) c) (k + 1)
   end).
Proof. done. Qed.

Lemma last_out_no_frame c :
  Forall (fun e => exists code status, e = MSG code status NoData) (last_out_events c).
Proof.
  unfold last_out_events. case_match; [|done].
  apply Forall_app. split; [destruct (pending OUT c)|destruct (pause_pending c)]; repeat constructor; eauto.
Qed.

Lemma last_frame_room c q fuel others k :
  queues_ok c q -> room c q -> last_frame_info0 c = PROCESSOR_GOT_LAST_FRAME ->
  (forall n b, n ∈ q OUT -> node_buf c n = Some b -> hw_addr b <> 0) ->
  exists c' q' d evs, last_frame_loop (S fuel) others c k = Some (c', HI_SUCCESS)
    /\ kept c q c' q' nothing /\ last_frame_info0 c' = LAST_FRAME_FLAG_NULL
    /\ trace c' = trace c ++ MSG (done_code OUT) VDEC_S_SUCCESS (BufData d) :: evs
    /\ Forall (fun e => exists code status, e = MSG code status NoData) evs
    /\ d.(d_flags) = Z.lor VDEC_BUFFERFLAG_ENDOFFRAME VDEC_BUFFERFLAG_EOS /\ d.(data_len) = 0.
Proof.
  intros Hok (Hw & Hp & n & b & Hn & Hb & Hu & Hlen) Hinfo Haddr.
  rewrite last_frame_step.
  destruct (get_frame_ok c q 0 Hok) as (c1 & s & ret & E1 & Hs1 & Ht1 & Hcase).
  rewrite E1. cbn [mbind option_bind]. destruct s as [s|].
  2: { exfalso. destruct Hcase as (_ & _ & [?|[?|Hnone]]); [done|congruence|].
       destruct (Hnone n b Hn Hb) as [?|Hbig]; [congruence|]. unfold big_enough in Hbig.
       apply negb_false_iff, Z.gtb_lt in Hbig. lia. }
  destruct Hcase as (_ & _ & _ & n1 & b1 & (Hb1 & _ & _ & l1 & l2 & Hq & _) & _ & Hn1 & ->).
  cbn [fs_PhyAddr]. set (addr := hw_addr b1).
  assert (He : is_eos c1 (end_frame addr) = true).
  { unfold is_eos. by rewrite (get_frame_info _ _ _ _ _ E1), Hinfo, !Z.eqb_refl. }
  destruct (report_frame_ok c1 q (end_frame addr) (sv_ok _ _ _ _ _ Hs1))
    as (c2 & q2 & ret2 & E2 & Hk2 & _ & Hcase2).
  pose proof (report_last _ _ _ _ He E2) as Hi. rewrite E2.
  cbn [mbind option_bind].
  destruct Hcase2 as [(_ & _ & _ & [Hz|Hno])|(-> & n2 & b2 & m1 & m2 & _ & -> & Ht2 & _)].
  - exfalso. apply (Haddr n1 b1); [rewrite Hq; set_solver|done|exact Hz].
  - exfalso. apply (Hno n1 _ ltac:(rewrite Hq; set_solver) Hn1). done.
  - eexists _, _, _, _. split; [done|]. split.
    { exact (kept_trans _ _ _ _ _ _ nothing nothing (served_kept _ _ _ _ _ Hs1) Hk2). }
    rewrite Z.eqb_refl in Hi. split; [done|]. split; [by rewrite Ht2, Ht1|].
    split; [apply last_out_no_frame|]. rewrite He. split; [done|]. simpl. by case_match.
Qed.

(** No frame buffer that VPSS could take. *)
Definition crowded c q : Prop :=
  state c <> CHAN_STATE_WORK \/ pending OUT c = true \/ (forall n, n ∈ q OUT -> in_use c n = true).

Lemma crowded_no_frame c q :
  queues_ok c q -> crowded c q -> processor_get_frame c 0 = Some (c, None, HI_FAILURE).
Proof.
  intros Hok Hno. destruct (get_frame_ok c q 0 Hok) as (c1 & s & ret & -> & _ & _ & Hcase).
  destruct s as [s|]; [|by destruct Hcase as (-> & -> & _)]. exfalso.
  destruct Hcase as (_ & Hw & Hp & n & b & (_ & Hu & _ & l1 & l2 & Hq & _) & _).
  destruct Hno as [?|[?|Hall]]; [done|congruence|].
  rewrite (Hall n) in Hu by (rewrite Hq; set_solver). done.
Qed.

(** The channel after [k] failed attempts and the sleeps that follow them. *)
Fixpoint slept (others : Z -> OMXVDEC_CHAN_CTX -> OMXVDEC_CHAN_CTX) c (k : nat) : OMXVDEC_CHAN_CTX :=
  match k with
  | O => c
  | S k => others (Z.of_nat (S k)) (slept others c k)
  end.

(** There is no room for a while. *)
Definition crowded_for others c (k : nat) : Prop :=
  forall j, (j < k)%nat -> sound (slept others c j)
    /\ crowded (slept others c j) (queue_at (slept others c j)).

Lemma crowded_attempt others c k :
  sound (slept others c k) -> crowded (slept others c k) (queue_at (slept others c k)) ->
  processor_get_frame (slept others c k) 0 = Some (slept others c k, None, HI_FAILURE).
Proof.
  intros [q Hok] Hno. apply (crowded_no_frame _ q Hok).
  unfold crowded in Hno. by rewrite (queue_at_ok _ q OUT Hok) in Hno.
Qed.

Lemma sound_marked c k : sound c -> sound (c <| last_frame_info0 := k |>).
Proof. intros [q Hok]. exists q. eapply quiet_ok; [exact Hok|]. by split. Qed.

(** The loop has failed [k] times, and goes on. *)
Lemma last_frame_waits others c fuel k :
  crowded_for others c k -> (k <= 500)%nat ->
  last_frame_loop (k + fuel) others c 0 = last_frame_loop fuel others (slept others c k) (Z.of_nat k).
Proof.
  revert fuel. induction k as [|k IH]; intros fuel Hno Hk; [done|].
  replace (S k + fuel)%nat with (k + S fuel)%nat by lia.
  rewrite IH, last_frame_step by (lia || (intros j Hj; apply Hno; lia)).
  destruct (Hno k) as [Hs Hc]; [lia|]. rewrite (crowded_attempt _ _ _ Hs Hc). cbn [mbind option_bind].
  replace (Z.of_nat k + 1) with (Z.of_nat (S k)) by lia.
  rewrite (proj2 (Z.gtb_ltb (Z.of_nat (S k)) 500)) || destruct (Z.gtb_spec (Z.of_nat (S k)) 500); [lia|done].
Qed.

Lemma last_frame_gives_up others c :
  crowded_for others c 501 ->
  last_frame_loop 501 others c 0 = Some (slept others c 501, HI_FAILURE).
Proof.
  intros Hno. change 501%nat with (500 + 1)%nat at 1.
  rewrite (last_frame_waits others c 1 500), (last_frame_step 0) by (lia || (intros j Hj; apply Hno; lia)).
  destruct (Hno 500%nat) as [Hs Hc]; [lia|]. by rewrite (crowded_attempt _ _ _ Hs Hc).
Qed.
End Keeps.

(** ** Properties *)

Section Properties.
Context {C : HiConsts} {E : OmxEnv} {Ok : HiConstsOk C}.
Implicit Types (c : OMXVDEC_CHAN_CTX) (i : decoded) (f : picture).


(** C40: VPSS gives a picture back as what it was taken as: after any translation
    the decoder gets the picture's own identity, size and address again. The
    stride it gets is the frame's, a sixteenth of the picture's for the decoders
    in hardware. *)
Theorem image_roundtrip c (t t' : chan_table) i f (img : IMAGE) (v now : Z)
    (others : Z -> OMXVDEC_CHAN_CTX -> OMXVDEC_CHAN_CTX) :
  0 < g_lowdelay_count_frame -> sound c -> 0 <= c.(channel_id) < 16 -> table_ok t ->
  length f.(frm).(stBufAddr) = 2%nat -> c.(reset_pending) = false ->
  OMX_PTSREC_CalcStamp t c.(channel_id) (i.(image) <| SrcPts ::= ms_stamp |>) = Some (t', img, v) ->
  is_s32 i.(d_image_id_1) -> is_s32 i.(btl_imageid) ->
  exists c' f', get_image c t (Some i) f others now = Some (c', t', f', 0)
    /\ image_of f' = Some (mkReturned (frame_stride c i) i.(disp_height) i.(disp_width)
         (u32 i.(top_luma_phy_addr)) i.(d_image_id) i.(d_image_id_1) i.(btl_imageid) i.(btl_Is1D)).
Proof.
  intros Hg [q Hok] Hid Ht Hl Hr Hcalc H1 H2.
  destruct (take_image_ok c q t t' img v i f now Hg Hok Hid Ht Hl Hcalc)
    as (c' & f' & Etake & _ & _ & Hsh & _).
  exists c', f'. unfold get_image. rewrite Hr, Etake. cbn [mbind option_bind]. split; [done|].
  destruct Hsh as [_ [Hw Hh] (a & b & Hab & Hy & _ & Hs & _) _ _ (I1 & I2 & I3 & I4)].
  rewrite <- frame_stride_ok in Hs.
  unfold image_of. rewrite Hab. change (arr_get [a; b] 0) with (Some a). cbn [mbind option_bind].
  by rewrite Hy, Hs, Hh, Hw, I1, I2, I3, I4, !s32_u32, !s32_small.
Qed.

(** The table of the time-stamp recovery has 16 channels and the device hands
    out more ids. The recovery of a later channel's stamps is refused, but its
    stamp difference is then read from behind the table: every picture faults. *)
Theorem late_channel_faults c (t : chan_table) i f others (now : Z) :
  length t = 16%nat -> 16 <= c.(channel_id) -> c.(reset_pending) = false ->
  (forall img, OMX_PTSREC_CalcStamp t c.(channel_id) img = Some (t, img, u32 HI_FAILURE))
  /\ get_image c t (Some i) f others now = None.
Proof.
  intros Hl Hid Hr. assert (Hc : forall img, OMX_PTSREC_CalcStamp t c.(channel_id) img = Some (t, img, u32 HI_FAILURE)).
  { intros img. unfold OMX_PTSREC_CalcStamp, PTS_REC_MAX_NUM.
    by rewrite (proj2 (Z.geb_le (channel_id c) 16) Hid). }
  split; [done|]. unfold get_image. rewrite Hr. unfold take_image.
  destruct (describe c i f) as [f1|]; [|done]. cbn [mbind option_bind].
  change (channel_id (c <| progress := bProgressive (frm f1) |>)) with (channel_id c).
  rewrite Hc. cbn [mbind option_bind]. set (r := frame_rate_of _ _).
  assert (Hch : channel_id (note_rate (c <| progress := bProgressive (frm f1) |>) r) = channel_id c)
    by (unfold note_rate; by destruct (_ && _)).
  rewrite Hch. unfold OMX_PTSREC_GetInterPtsDelta, arr_get.
  rewrite (proj2 (Z.leb_le 0 (channel_id c))) by lia. rewrite lookup_ge_None_2; [done|]. rewrite Hl. lia.
Qed.

(** C23: when the decoder has reported its last picture and VPSS has taken it, or it
    has failed, the next request finds no picture and the user is told of the
    end in a frame buffer. [slept others c0 j] is the channel at the attempt after
    the [j]-th failure, [others] being what happens to it while the thread sleeps.
    When the first attempt that finds a frame buffer free is one of the first 501,
    the user gets exactly one message with a buffer, an empty frame with the
    end-of-stream flag (what else the call tells carries no buffer), and later
    requests report nothing more. When 501 attempts have found none VPSS gives
    up, having told nothing, and later requests do not try again. *)
Theorem end_reported c (t : chan_table) f others others' (k : nat) (now : Z) :
  c.(reset_pending) = false -> c.(last_frame_info0) = DECODER_REPORT_LAST_FRAME ->
  c.(last_frame_processor_got) = c.(last_frame_image_id) \/ c.(last_frame_info1) = REPORT_LAST_FRAME_FAIL ->
  let c0 := c <| last_frame_info0 := PROCESSOR_GOT_LAST_FRAME |> in
  let ck := slept others c0 k in
  crowded_for others c0 k -> ck.(last_frame_info0) = PROCESSOR_GOT_LAST_FRAME ->
  ((k <= 500)%nat -> sound ck -> room ck (queue_at ck) ->
   (forall n b, n ∈ queue_at ck OUT -> node_buf ck n = Some b -> hw_addr b <> 0) ->
     exists c' d evs, get_image c t None f others now = Some (c', t, f, HI_FAILURE) /\ sound c'
       /\ trace c' = trace ck ++ MSG VDEC_MSG_RESP_OUTPUT_DONE VDEC_S_SUCCESS (BufData d) :: evs
       /\ Forall (fun e => exists code status, e = MSG code status NoData) evs
       /\ d.(d_flags) = Z.lor VDEC_BUFFERFLAG_ENDOFFRAME VDEC_BUFFERFLAG_EOS /\ d.(data_len) = 0
       /\ no_image c' others' = Some c')
  /\ (k = 501%nat ->
     get_image c t None f others now = Some (ck, t, f, HI_FAILURE) /\ no_image ck others' = Some ck).
Proof.
  intros Hr Hi Hcond c0 ck Hno Hinfo.
  assert (Hgo : no_image c = fun o => '(c1, _) ← processor_report_last_frame c0 o; Some c1).
  { unfold no_image. rewrite Hi, Z.eqb_refl. destruct Hcond as [->| ->]; by rewrite Z.eqb_refl, ?orb_true_r. }
  unfold get_image. rewrite Hr, Hgo. unfold processor_report_last_frame. split.
  - intros Hk [q Hok] (Hw & Hp & n & b & Hn & Hroom) Haddr.
    rewrite (queue_at_ok ck q OUT Hok) in Hn, Haddr.
    replace 501%nat with (k + S (500 - k))%nat by lia. rewrite (last_frame_waits others c0 _ k Hno Hk).
    destruct (last_frame_room ck q (500 - k) others (Z.of_nat k) Hok) as (c' & q' & d & evs & Er & Hkp & Hi' & Ht & Hev & Hd & Hlen);
      [split; [done|]; split; [done|]; by exists n, b|done|exact Haddr|].
    fold ck. rewrite Er. cbn [mbind option_bind]. exists c', d, evs. split_and!; try done.
    + exists q'. apply Hkp.
    + unfold no_image. by rewrite Hi'.
  - intros ->. rewrite last_frame_gives_up by done. split; [done|]. fold ck. unfold no_image. by rewrite Hinfo.
Qed.

Lemma no_stamp_ms : u32 (ms_stamp 18446744073709551615) = 1271310320.
Proof. reflexivity. Qed.

Lemma invalid_pts_ms : u32 (ms_stamp 4294967295) = 4294967.
Proof. reflexivity. Qed.

(** The stamps of pictures are cut to milliseconds before the recovery looks for
    the marker of a missing stamp, and neither marker of the decoder survives the
    division. The recovery takes a picture without a stamp for one with a stamp,
    answers a constant, and extrapolates later pictures from it. *)
Theorem unstamped_as_stamped (c : PTSREC_CHAN_INFO_S) (img : IMAGE) (pts : Z) :
  HI_INVALID_PTS = 4294967295 -> pts = 18446744073709551615 \/ pts = HI_INVALID_PTS ->
  let '(c', img', v) := recover_pts c (img <| SrcPts := pts |> <| SrcPts ::= ms_stamp |>) in
  v = (if pts =? HI_INVALID_PTS then 4294967 else 1271310320)
  /\ c'.(u32LastSrcPts) = v /\ v <> HI_INVALID_PTS
  /\ forall w, w = HI_INVALID_PTS -> c.(u32LastSrcPts) = HI_INVALID_PTS ->
       snd (recover_pts c (img <| SrcPts := w |>)) = HI_INVALID_PTS.
Proof.
  intros Hinv Hp. unfold recover_pts. cbv zeta. simpl SrcPts.
  set (k := u32 (ms_stamp pts)). set (c1 := c <| u32FrameNum := _ |>).
  assert (Hk : k = if pts =? HI_INVALID_PTS then 4294967 else 1271310320).
  { unfold k. destruct Hp as [->| ->]; rewrite Hinv; [apply no_stamp_ms|apply invalid_pts_ms]. }
  clearbody k. assert (Hne : k <> HI_INVALID_PTS) by (rewrite Hk; destruct (pts =? _); lia).
  rewrite (proj2 (Z.eqb_neq HI_INVALID_PTS k)) by congruence. cbn [negb].
  unfold take_src_pts. split_and!; [done|done|done|].
  intros w -> Hl. rewrite (u32_small HI_INVALID_PTS) by apply hi_pts_u32. rewrite Z.eqb_refl. cbn [negb].
  unfold extrapolate_pts. simpl u32LastSrcPts. by rewrite Hl, Z.eqb_refl.
Qed.
End Properties.

(** ** Examples *)

(** A channel of the recovery that runs, and a picture of 1920 by 1080 at 25 Hz. *)
Definition started : chan_table :=
  default [] (fst <$> ('(t, _) ← OMX_PTSREC_Alloc init_table 0; OMX_PTSREC_Start t 0)).

Definition demo_image : decoded :=
  mkDecoded (mkImage 1000000 0 1920 1080 25600 0 1) 0xC00 0 1920 1080 30720 0x5000000 0x5200000 false 0 0
    16 9 0 1 0 4711 0 0 0 9 0 false.

Definition demo_frame : picture :=
  mkPicture zero_frame HI_DRV_FT_NOT_STEREO 0 0 0 0 0 0 0 0 0
    (mkOriginal 0 0 0 0 HI_DRV_FT_NOT_STEREO 0 0 false false) 0 0 0 0 0.

Lemma started_ok : table_ok started.
Proof.
  apply reachable_ok, (reach_call CallStart (default [] (fst <$> OMX_PTSREC_Alloc init_table 0)) _ 0);
    [|by vm_compute|by vm_compute].
  apply (reach_call CallAlloc init_table _ 0); [|by vm_compute|by vm_compute].
  by eapply (reach_init (replicate 16 (mkChan PTSREC_CHAN_INITED 0 0 0 0 0 0 0 0 0
    HI_FRMRATE_TYPE_PTS (mkFRD [] 0 0 0 0 0 0 0 0 0 0 0 0)))).
Qed.

#[local] Instance demo_platform : OmxEnv := demo_env false.

Definition demo_chan : OMXVDEC_CHAN_CTX := demo_after demo_calls.

Lemma demo_chan_sound : sound demo_chan.
Proof. apply demo_after_sound, (along_dec _ _ user_keeps_dec). by vm_compute. Qed.

Lemma demo_stamp :
  exists t' img v, OMX_PTSREC_CalcStamp started demo_chan.(channel_id)
    (demo_image.(image) <| SrcPts ::= ms_stamp |>) = Some (t', img, v).
Proof.
  destruct (OMX_PTSREC_CalcStamp _ _ _) as [[[t' img] v]|] eqn:Hc; [by eexists _, _, _|].
  exfalso. revert Hc. by vm_compute.
Qed.


Lemma image_roundtrip_witness :
  exists c' t' f', get_image demo_chan started (Some demo_image) demo_frame (fun _ c => c) 200
    = Some (c', t', f', 0)
  /\ image_of f' = Some (mkReturned (frame_stride demo_chan demo_image) 1080 1920 0x5000000 4711 0 0 0).
Proof.
  destruct demo_stamp as (t' & img & v & Hc).
  destruct (image_roundtrip demo_chan started t' demo_image demo_frame img v 200 (fun _ c => c))
    as (c' & f' & H1 & H2).
  - reflexivity.
  - exact demo_chan_sound.
  - vm_compute. split; congruence.
  - exact started_ok.
  - reflexivity.
  - vm_compute. reflexivity.
  - exact Hc.
  - split; vm_compute; congruence.
  - split; vm_compute; congruence.
  - exists c', t', f'. split; [exact H1|exact H2].
Defined.

Lemma late_channel_faults_witness :
  get_image (demo_chan <| channel_id := 16 |>) started (Some demo_image) demo_frame (fun _ c => c) 200 = None.
Proof.
  apply (late_channel_faults (demo_chan <| channel_id := 16 |>) started demo_image demo_frame (fun _ c => c) 200);
    vm_compute; congruence.
Defined.

(** The decoder has reported that its last picture failed. *)
Definition demo_ending : OMXVDEC_CHAN_CTX :=
  demo_after (demo_calls ++ [HARDWARE (HW_DECODER_EVENT (EVNT_LAST_FRAME (Some 1)) 150 0)]).

(** The channel when the end is being reported. *)
Definition demo_marked : OMXVDEC_CHAN_CTX :=
  demo_ending <| last_frame_info0 := PROCESSOR_GOT_LAST_FRAME |>.

Lemma demo_marked_sound : sound demo_marked.
Proof.
  assert (H : sound demo_ending).
  { apply demo_after_sound, (along_dec _ _ user_keeps_dec). by vm_compute. }
  by apply sound_marked.
Qed.

Lemma demo_marked_addrs n b :
  n ∈ queue_at demo_marked OUT -> node_buf demo_marked n = Some b -> hw_addr b <> 0.
Proof.
  replace (queue_at demo_marked OUT) with [Slot OUT 0; Slot OUT 1] by (by vm_compute).
  rewrite !elem_of_cons, elem_of_nil. intros [->|[->|[]]]; intros Hb Hz;
    (assert (Hz' : option_map hw_addr (node_buf demo_marked _) = Some 0) by (rewrite Hb; simpl; by rewrite Hz));
    by vm_compute in Hz'.
Qed.

Lemma demo_marked_room : room demo_marked (queue_at demo_marked).
Proof.
  split; [by vm_compute|split; [by vm_compute|]].
  destruct (node_buf demo_marked (Slot OUT 0)) as [b|] eqn:Hb.
  - exists (Slot OUT 0), b. split; [by vm_compute; constructor|split; [done|]].
    revert Hb. vm_compute. intros [= <-]. split; congruence.
  - exfalso. revert Hb. by vm_compute.
Qed.

Lemma end_reported_witness :
  exists c' d evs, get_image demo_ending started None demo_frame (fun _ c => c) 200
      = Some (c', started, demo_frame, HI_FAILURE)
    /\ trace c' = trace demo_marked ++ MSG VDEC_MSG_RESP_OUTPUT_DONE VDEC_S_SUCCESS (BufData d) :: evs
    /\ d.(d_flags) = Z.lor VDEC_BUFFERFLAG_ENDOFFRAME VDEC_BUFFERFLAG_EOS.
Proof.
  destruct (end_reported demo_ending started demo_frame (fun _ c => c) (fun _ c => c) 0 200) as [H _].
  - vm_compute. reflexivity.
  - vm_compute. reflexivity.
  - right. vm_compute. reflexivity.
  - intros j Hj. inversion Hj.
  - vm_compute. reflexivity.
  - destruct H as (c' & d & evs & H1 & _ & H2 & _ & H3 & _).
    + apply Nat.le_0_l.
    + exact demo_marked_sound.
    + exact demo_marked_room.
    + exact demo_marked_addrs.
    + exists c', d, evs. split; [exact H1|split; [exact H2|exact H3]].
Defined.

Lemma unstamped_as_stamped_witness :
  let c := default (mkChan PTSREC_CHAN_INITED 0 0 0 0 0 0 0 0 0 HI_FRMRATE_TYPE_PTS
                      (mkFRD [] 0 0 0 0 0 0 0 0 0 0 0 0)) (arr_get started 0) in
  snd (recover_pts c (demo_image.(image) <| SrcPts := 18446744073709551615 |> <| SrcPts ::= ms_stamp |>))
    = 1271310320.
Proof.
  intros c.
  pose proof (unstamped_as_stamped c demo_image.(image) 18446744073709551615 eq_refl (or_introl eq_refl)) as H.
  destruct (recover_pts c _) as [[c' img'] v]. exact (proj1 H).
Defined.
