(* ===== verification/AoRing.v ===== *)
(** * The rings of the low-latency audio output

    The user library writes PCM data straight into a ring that the audio hardware
    reads. This file holds what the two users of msp/api/ao/mpi_lowlatency.c, the
    low-latency track and the DMA ports of a sound card, do to a ring whose bytes
    and positions they have read ([busy_len], [ring_parts], [ring_write]), and shows
    that a ring with room behaves as a queue of bytes ([contents]). [None] is a copy
    that leaves the mapped buffer or the samples of the caller. *)

From S2P Require Import Prelude.

Implicit Types (buf d : list Z) (src : option (list Z)) (r w size len n pos : Z).

(** ** The operations *)

(** TrackMmapBufQueryBusy on the positions it has read. *)
Definition busy_len r w size : Z :=
  if r <=? w then w -u r else size -u (r -u w).

(** DMAPortQueryBusy adds in another order. *)
Definition dma_busy_len r w size : Z :=
  if r <=? w then w -u r else size +u w -u r.

(** TrackMmapBufQueryFree: 33 bytes less than what is free. *)
Definition free_len r w size : Z :=
  let f := if r <=? w then size -u (w -u r) else r -u w in
  let f := if f <=? 32 then 0 else f -u 32 in
  if 0 <? f then f -u 1 else f.

(** memcpy of the first [n] samples of [src] to [pos], or memset to zero when the
    source is a null pointer. *)
Definition copy_in buf pos src n : option (list Z) :=
  let put d := take (Z.to_nat pos) buf ++ d ++ drop (Z.to_nat (pos + n)) buf in
  if (0 <=? pos) && (0 <=? n) && (pos + n <=? Z.of_nat (length buf))
  then match src with
       | Some s => if n <=? Z.of_nat (length s) then Some (put (take (Z.to_nat n) s)) else None
       | None => Some (put (replicate (Z.to_nat n) 0))
       end
  else None.

(** u32WtPos and u32WtLen: up to the end of the ring, then from its start. *)
Definition ring_parts r w size len : list (Z * Z) :=
  if r <=? w
  then if w +u len <=? size then [(w, len); (0, 0)]
       else [(w, size -u w); (0, len -u (size -u w))]
  else [(w, len); (0, 0)].

(** The loop over the parts; it ends at the first empty one. *)
Fixpoint write_parts (parts : list (Z * Z)) buf src w : option (list Z * Z) :=
  match parts with
  | [] => Some (buf, w)
  | (pos, n) :: parts' =>
      if n =? 0 then Some (buf, w)
      else buf' ← copy_in buf pos src n;
           write_parts parts' buf' (drop (Z.to_nat n) <$> src) (pos +u n)
  end.

(** The whole write: the new bytes, the new write position and the count. *)
Definition ring_write buf src r w size len : option (list Z * Z * Z) :=
  let parts := ring_parts r w size len in
  '(buf', w') ← write_parts parts buf src w;
  Some (buf', if w' =? size then 0 else w', u32 (foldr (fun p s => p.2 + s) 0 parts)).

(** ** A ring as a queue of bytes *)

(** What the hardware has still to read, in order. *)
Definition contents buf r w size : list Z :=
  take (Z.to_nat (busy_len r w size)) (drop (Z.to_nat r) buf ++ take (Z.to_nat r) buf).

(** Both positions are inside a ring of at most 2^31 bytes. *)
Record ring_wf buf r w size : Prop := mkRingWf {
  ring_size : 0 < size <= 2147483648;
  ring_len : Z.of_nat (length buf) = size;
  ring_r : 0 <= r < size;
  ring_w : 0 <= w < size;
}.

(** The bytes a write of [len] bytes from [src] puts. *)
Definition data src len : list Z :=
  match src with
  | Some s => take (Z.to_nat len) s
  | None => replicate (Z.to_nat len) 0
  end.

Definition src_covers src len : Prop :=
  match src with Some s => len <= Z.of_nat (length s) | None => True end.

(** The position after [n] bytes more, as the hardware moves it. *)
Definition advance r n size : Z := (r + n) mod size.

Section Ring.

Lemma busy_len_spec buf r w size :
  ring_wf buf r w size -> busy_len r w size = if r <=? w then w - r else size + w - r.
Proof. intros []. unfold busy_len. destruct (r <=? w) eqn:?; wraps; lia. Qed.

Lemma busy_bounds buf r w size :
  ring_wf buf r w size -> 0 <= busy_len r w size < size.
Proof. intros H. rewrite (busy_len_spec buf r w size H). destruct H. zbool. Qed.

Lemma dma_busy_len_eq buf r w size :
  ring_wf buf r w size -> dma_busy_len r w size = busy_len r w size.
Proof.
  intros H. rewrite (busy_len_spec buf r w size H). destruct H.
  unfold dma_busy_len. destruct (r <=? w) eqn:?; wraps; lia.
Qed.

(** The free length never offers a byte that is in use, and leaves 33 unused. *)
Lemma free_len_spec buf r w size :
  ring_wf buf r w size ->
  free_len r w size =
    Z.max 0 ((if (r <=? w) then size - busy_len r w size else r - w) - 33).
Proof.
  intros H. rewrite (busy_len_spec buf r w size H). destruct H. unfold free_len.
  destruct (r <=? w) eqn:?; wraps.
  - destruct (Z.leb_spec (size - (w - r)) 32); [simpl; lia|]. wraps. zbool; wraps; lia.
  - destruct (Z.leb_spec (r - w) 32); [simpl; lia|]. wraps. zbool; wraps; lia.
Qed.

Lemma data_length src len :
  0 <= len -> src_covers src len -> Z.of_nat (length (data src len)) = len.
Proof.
  destruct src as [s|]; simpl; intros; rewrite ?length_take, ?length_replicate; lia.
Qed.

(** A copy inside both buffers replaces just the bytes it covers. *)
Lemma copy_in_ok buf pos src n :
  0 <= pos -> 0 <= n -> pos + n <= Z.of_nat (length buf) -> src_covers src n ->
  copy_in buf pos src n =
    Some (take (Z.to_nat pos) buf ++ data src n ++ drop (Z.to_nat (pos + n)) buf).
Proof.
  intros. unfold copy_in. ztrue (0 <=? pos). ztrue (0 <=? n).
  ztrue (pos + n <=? Z.of_nat (length buf)). simpl.
  destruct src as [s|]; simpl in *; [|done]. by ztrue (n <=? Z.of_nat (length s)).
Qed.

Lemma data_split src n len :
  0 <= n <= len ->
  data src len = data src n ++ data (drop (Z.to_nat n) <$> src) (len - n).
Proof.
  intros. destruct src as [s|]; simpl.
  - replace (Z.to_nat len) with (Z.to_nat n + Z.to_nat (len - n))%nat by lia.
    by rewrite <- take_take_drop.
  - rewrite <- replicate_add. f_equal. lia.
Qed.

Lemma src_covers_drop src n len :
  0 <= n <= len -> src_covers src len ->
  src_covers src n /\ src_covers (drop (Z.to_nat n) <$> src) (len - n).
Proof. destruct src; simpl; rewrite ?length_drop; lia. Qed.

(** The hardware takes the oldest bytes. *)
Lemma contents_length buf r w size :
  ring_wf buf r w size -> Z.of_nat (length (contents buf r w size)) = busy_len r w size.
Proof.
  intros H. pose proof (busy_bounds _ _ _ _ H). destruct H. unfold contents.
  rewrite length_take, length_app, length_drop, length_take. lia.
Qed.

Lemma contents_inner buf r w size :
  ring_wf buf r w size -> r <= w ->
  contents buf r w size = take (Z.to_nat (w - r)) (drop (Z.to_nat r) buf).
Proof.
  intros H Hle. unfold contents. rewrite (busy_len_spec buf r w size H).
  ztrue (r <=? w). destruct H. apply take_app_le. rewrite length_drop. lia.
Qed.

Lemma contents_outer buf r w size :
  ring_wf buf r w size -> w < r ->
  contents buf r w size = drop (Z.to_nat r) buf ++ take (Z.to_nat w) buf.
Proof.
  intros H Hlt. unfold contents. rewrite (busy_len_spec buf r w size H).
  zfalse (r <=? w). destruct H.
  replace (Z.to_nat (size + w - r))
    with (length (drop (Z.to_nat r) buf) + Z.to_nat w)%nat by (rewrite length_drop; lia).
  rewrite take_app_add, take_take. f_equal. f_equal. lia.
Qed.

(** A write that fits before the end of the ring, or behind the reader. *)
Lemma write_once buf src r w size len :
  ring_wf buf r w size -> 0 <= len -> src_covers src len -> w + len <= size ->
  ring_parts r w size len = [(w, len); (0, 0)] ->
  ring_write buf src r w size len =
    Some (take (Z.to_nat w) buf ++ data src len ++ drop (Z.to_nat (w + len)) buf,
          if w + len =? size then 0 else w + len, len).
Proof.
  intros H Hlen Hsrc Hfit Hp. destruct H. unfold ring_write. rewrite Hp. simpl.
  destruct (Z.eqb_spec len 0) as [->|]; simpl.
  - rewrite !Z.add_0_r. zfalse (w =? size).
    replace (data src 0) with (@nil Z) by (by destruct src). simpl.
    by rewrite take_drop.
  - rewrite copy_in_ok by (auto; lia). simpl. wraps.
    by replace (len + (0 + 0)) with len by lia.
Qed.

(** A write that goes on at the start of the ring. *)
Lemma write_twice buf src r w size len :
  ring_wf buf r w size -> r <= w -> src_covers src len -> size < w + len ->
  len < size ->
  ring_write buf src r w size len =
    Some (data (drop (Z.to_nat (size - w)) <$> src) (len - (size - w))
            ++ drop (Z.to_nat (len - (size - w))) (take (Z.to_nat w) buf)
            ++ data src (size - w),
          len - (size - w), len).
Proof.
  intros H Hle Hsrc Hbig Hlen. destruct H. unfold ring_write, ring_parts.
  ztrue (r <=? w). wraps. zfalse (w + len <=? size). wraps. simpl.
  destruct (src_covers_drop src (size - w) len ltac:(lia) Hsrc) as [H1 H2].
  zfalse (size - w =? 0). rewrite copy_in_ok by (auto; lia). simpl.
  zfalse (len - (size - w) =? 0).
  replace (Z.to_nat (w + (size - w))) with (length buf) by lia.
  rewrite drop_all, app_nil_r.
  set (b := take (Z.to_nat w) buf).
  assert (Hb : Z.of_nat (length b) = w) by (unfold b; rewrite length_take; lia).
  pose proof (data_length src (size - w) ltac:(lia) H1) as Hd.
  rewrite copy_in_ok; [|lia|lia|rewrite length_app; lia|done]. simpl. wraps.
  zfalse (0 + (len - (size - w)) =? size). rewrite !Z.add_0_l.
  rewrite drop_app_le by lia. repeat f_equal. lia.
Qed.

(** Replacing a middle part: what is before it, and the part itself. *)
Lemma splice_drop (a b c : list Z) k :
  0 <= k <= Z.of_nat (length a) ->
  drop (Z.to_nat k) (a ++ b ++ c) = drop (Z.to_nat k) a ++ b ++ c.
Proof. intros. apply drop_app_le. lia. Qed.

Lemma take_drop_take buf i j :
  0 <= i <= j ->
  drop (Z.to_nat i) (take (Z.to_nat j) buf) = take (Z.to_nat (j - i)) (drop (Z.to_nat i) buf).
Proof. intros. rewrite skipn_firstn_comm. f_equal. lia. Qed.

Lemma splice_len (a b c : list Z) n m k :
  Z.of_nat (length a) = n -> Z.of_nat (length b) = m -> Z.of_nat (length c) = k ->
  Z.of_nat (length (a ++ b ++ c)) = n + m + k.
Proof. rewrite !length_app. lia. Qed.

(** The write appends its data to the queue and does not move the reader. *)
Definition appends buf src r w size len : Prop :=
  exists buf' w', ring_write buf src r w size len = Some (buf', w', len) /\
    ring_wf buf' r w' size /\
    contents buf' r w' size = contents buf r w size ++ data src len.

Lemma take_length_ok buf r w size :
  ring_wf buf r w size -> Z.of_nat (length (take (Z.to_nat w) buf)) = w.
Proof. intros []. rewrite length_take. lia. Qed.

(** The ring after a write in one piece is well formed. *)
Lemma write_once_wf buf src r w size len :
  ring_wf buf r w size -> 0 <= len -> src_covers src len -> w + len <= size ->
  ring_wf (take (Z.to_nat w) buf ++ data src len ++ drop (Z.to_nat (w + len)) buf)
    r (if w + len =? size then 0 else w + len) size.
Proof.
  intros H Hlen Hsrc Hfit. pose proof (data_length src len Hlen Hsrc) as Hd.
  pose proof (take_length_ok _ _ _ _ H) as Ht.
  destruct H. split; [lia| |lia|destruct (w + len =? size) eqn:?; lia].
  rewrite (splice_len _ _ _ w len (size - (w + len)));
    [lia|done|done|rewrite length_drop; lia].
Qed.

Lemma write_inner buf src r w size len :
  ring_wf buf r w size -> 0 <= len -> src_covers src len ->
  r <= w -> w + len <= size -> w - r + len < size -> appends buf src r w size len.
Proof.
  intros H Hlen Hsrc Hle Hfit Hroom.
  pose proof (data_length src len Hlen Hsrc) as Hd.
  pose proof (take_length_ok _ _ _ _ H) as Ht.
  pose proof (write_once_wf buf src r w size len H Hlen Hsrc Hfit) as H'.
  eexists _, _. split; [apply write_once; auto|split; [exact H'|]].
  { destruct H. unfold ring_parts. ztrue (r <=? w). wraps. by ztrue (w + len <=? size). }
  rewrite (contents_inner buf) by done.
  pose proof (ring_len _ _ _ _ H) as Hl. pose proof (ring_r _ _ _ _ H).
  destruct (Z.eqb_spec (w + len) size) as [Hend|Hne].
  - rewrite contents_outer by (done || lia). simpl. rewrite app_nil_r, splice_drop by lia.
    rewrite take_drop_take by lia. rewrite (drop_ge buf (Z.to_nat (w + len))) by lia. by rewrite app_nil_r.
  - rewrite contents_inner by (done || lia). rewrite splice_drop, take_drop_take by lia.
    replace (Z.to_nat (w + len - r))
      with (length (take (Z.to_nat (w - r)) (drop (Z.to_nat r) buf)) + Z.to_nat len)%nat
      by (rewrite length_take, length_drop; lia).
    rewrite take_app_add. f_equal. rewrite take_app_le by lia. apply take_ge. lia.
Qed.

Lemma write_wrapped buf src r w size len :
  ring_wf buf r w size -> src_covers src len ->
  r <= w -> size < w + len -> w - r + len < size -> appends buf src r w size len.
Proof.
  intros H Hsrc Hle Hbig Hroom.
  pose proof (ring_len _ _ _ _ H) as Hl. pose proof (ring_r _ _ _ _ H) as Hr.
  pose proof (ring_w _ _ _ _ H) as Hw. pose proof (take_length_ok _ _ _ _ H) as Ht.
  eexists _, _. split; [apply write_twice; done || lia|].
  destruct (src_covers_drop src (size - w) len ltac:(lia) Hsrc) as [H1 H2].
  pose proof (data_length src (size - w) ltac:(lia) H1) as Hd1.
  pose proof (data_length _ (len - (size - w)) ltac:(lia) H2) as Hd2.
  rewrite (data_split src (size - w) len) by lia.
  set (d1 := data src (size - w)) in *.
  set (d2 := data (drop (Z.to_nat (size - w)) <$> src) (len - (size - w))) in *.
  set (m := drop (Z.to_nat (len - (size - w))) (take (Z.to_nat w) buf)).
  assert (Hm : Z.of_nat (length m) = w - (len - (size - w)))
    by (unfold m; rewrite length_drop; lia).
  assert (ring_wf (d2 ++ m ++ d1) r (len - (size - w)) size) as H'.
  { destruct H. split; [lia| |lia|lia]. rewrite (splice_len _ _ _ _ _ _ Hd2 Hm Hd1). lia. }
  split; [exact H'|]. rewrite contents_outer by (done || lia). rewrite contents_inner by done.
  rewrite take_app_le, (take_ge d2) by lia. rewrite (app_assoc _ d1 d2). f_equal.
  rewrite (app_assoc d2), drop_app_le by (rewrite length_app; lia). f_equal.
  rewrite drop_app_ge by lia. unfold m. rewrite drop_drop.
  replace (Z.to_nat (len - (size - w)) + (Z.to_nat r - length d2))%nat
    with (Z.to_nat r) by lia.
  apply take_drop_take. lia.
Qed.

Lemma write_outer buf src r w size len :
  ring_wf buf r w size -> 0 <= len -> src_covers src len ->
  w < r -> w + len < r -> appends buf src r w size len.
Proof.
  intros H Hlen Hsrc Hlt Hroom.
  pose proof (ring_len _ _ _ _ H) as Hl. pose proof (ring_r _ _ _ _ H) as Hr.
  pose proof (ring_w _ _ _ _ H) as Hw. pose proof (take_length_ok _ _ _ _ H) as Ht.
  pose proof (data_length src len Hlen Hsrc) as Hd.
  pose proof (write_once_wf buf src r w size len H Hlen Hsrc ltac:(lia)) as H'.
  eexists _, _. split; [apply write_once; auto; [lia|]|split; [exact H'|]].
  { unfold ring_parts. by zfalse (r <=? w). }
  revert H'. zfalse (w + len =? size). intros H'.
  rewrite !contents_outer by (done || lia). rewrite <- app_assoc. f_equal.
  - rewrite app_assoc, drop_app_ge by (rewrite length_app; lia).
    rewrite drop_drop, length_app. f_equal. lia.
  - replace (Z.to_nat (w + len))
      with (length (take (Z.to_nat w) buf) + Z.to_nat len)%nat by lia.
    rewrite take_app_add. f_equal. rewrite take_app_le by lia. apply take_ge. lia.
Qed.

(** A write that leaves at least one byte free appends. *)
Lemma ring_write_ok buf src r w size len :
  ring_wf buf r w size -> 0 <= len -> src_covers src len ->
  busy_len r w size + len < size -> appends buf src r w size len.
Proof.
  intros H Hlen Hsrc Hroom. rewrite (busy_len_spec buf r w size H) in Hroom.
  destruct (Z.leb_spec r w); [|apply write_outer; auto; lia].
  destruct (Z.leb_spec (w + len) size); [by apply write_inner|by apply write_wrapped].
Qed.

(** The hardware moves the read position: the oldest bytes leave the queue. *)
Lemma ring_advance_ok buf r w size n :
  ring_wf buf r w size -> 0 <= n <= busy_len r w size ->
  ring_wf buf (advance r n size) w size /\
  contents buf (advance r n size) w size = drop (Z.to_nat n) (contents buf r w size).
Proof.
  intros H Hn. rewrite (busy_len_spec buf r w size H) in Hn.
  assert (ring_wf buf (advance r n size) w size) as H'.
  { destruct H. split; auto. apply Z.mod_pos_bound. lia. }
  split; [done|]. pose proof (ring_len _ _ _ _ H) as Hl. pose proof (ring_r _ _ _ _ H) as Hr.
  pose proof (ring_w _ _ _ _ H) as Hw. unfold advance in *.
  destruct (Z.leb_spec r w) as [Hle|Hlt]; [|destruct (Z.ltb_spec (r + n) size) as [Hin|Hout]].
  - rewrite Z.mod_small in * by lia. rewrite !contents_inner by (done || lia).
    rewrite skipn_firstn_comm, drop_drop. f_equal; [lia|]. f_equal. lia.
  - rewrite Z.mod_small in * by lia. rewrite !contents_outer by (done || lia).
    rewrite drop_app_le by (rewrite length_drop; lia). rewrite drop_drop. f_equal. f_equal. lia.
  - replace ((r + n) mod size) with (r + n - size) in *
      by (apply (Z.mod_unique_pos _ _ 1); lia).
    rewrite contents_inner, contents_outer by (done || lia).
    rewrite drop_app_ge by (rewrite length_drop; lia). rewrite length_drop.
    rewrite skipn_firstn_comm. f_equal; [lia|]. f_equal. lia.
Qed.

End Ring.
