(* ===== verification/AoLowLat.v ===== *)
(** * Low-latency audio output: the track and the DMA ports

    Models msp/api/ao/mpi_lowlatency.c, the part of the audio user library that
    writes PCM frames past the driver, into rings that the hardware reads: the
    low-latency track ([LOWLATENCY_...], globals g_stMMPAttr and g_pstAipReg) and the
    DMA source of the sound card ([SND_DMA_...], global g_DMASource).

    Memory is physical: [phys] holds the buffers and position words at their physical
    addresses, [maps] the mappings of the process, so that two mappings of one
    place, a pointer that outlives its mapping and the hardware, which moves the read
    position of a ring, see the same bytes. [None] is a fault: an access through a
    null or stale pointer or outside a mapped buffer. The mapping library, the
    registers of the audio core and the driver's answers are the environment
    [AoEnv]; [clock] numbers the questions put to it. *)

From S2P Require Import Prelude.
From S2P Require Import AoRing.

(** Constants of the SDK's headers, which are not part of the repository. *)
Class AoConsts := {
  HI_UNF_SAMPLE_RATE_48K : Z;
  HI_UNF_SAMPLE_RATE_44K : Z;
  HI_UNF_BIT_DEPTH_16 : Z;
  HI_UNF_SND_OUTPUTPORT_MAX : nat;
  HI_UNF_SND_OUTPUTPORT_BUTT : Z;
  HI_ERR_AO_OUT_BUF_FULL : Z;
  HI_ERR_AO_INVALID_PARA : Z;
  HI_ID_AO : Z;
  sizeof_AIP_REGS : Z;
}.

(** What the code relies on: a refusal is not success, and the rates are in Hz. *)
Class AoConstsOk (C : HiConsts) (A : AoConsts) : Prop := {
  ao_full_ne : HI_ERR_AO_OUT_BUF_FULL <> HI_SUCCESS;
  ao_para_ne : HI_ERR_AO_INVALID_PARA <> HI_SUCCESS;
  ao_48k : HI_UNF_SAMPLE_RATE_48K = 48000;
  ao_44k : HI_UNF_SAMPLE_RATE_44K = 44100;
}.

Definition HI_ID_MASTER_SLAVE_TRACK : Z := 0x00.
Definition HI_ID_LOWLATENCY_TRACK : Z := 0x01.
Definition SND_MUTES_FRAMES : Z := 10.

(** The registers of an audio input (S_AIP_REGS_TYPE) that are used. *)
Record AIP_REGS := mkAip {
  AIP_BUF_PHYADDR : Z;
  buff_size : Z;           (* AIP_BUF_SIZE.bits.buff_size *)
  AIP_BUF_RPTR : Z;
  AIP_BUF_WPTR : Z;
}.

(** What lies at a physical address. *)
Inductive area :=
| Bytes (b : list Z)
| Word (v : Z)
| Regs (a : AIP_REGS).

Record HI_UNF_AO_FRAMEINFO_S := mkFrame {
  s32BitPerSample : Z;
  u32SampleRate : Z;
  u32Channels : Z;
  u32PcmSamplesPerFrame : Z;
  ps32PcmBuffer : option (list Z);   (* its bytes, or a null pointer *)
}.

(** The two position pointers lead into the register block; they are kept as the
    address of the block. *)
Record HI_TRACK_MmapBufAttr_S := mkMmapBuf {
  u32UserAddr : Z;
  pu32ReadPtr : Z;
  pu32WritePtr : Z;
  t_u32Size : Z;
}.

Record HI_TRACK_MmapAttr_S := mkMmapAttr {
  t_u32BitPerSample : Z;
  t_u32SampleRate : Z;
  t_u32Channels : Z;
  stMmapBuff : HI_TRACK_MmapBufAttr_S;
}.

Record SND_PORT_KERNEL_ATTR_S := mkKAttr {
  k_enOutPort : Z;
  u32PhyDma : Z;
  u32PhyWptr : Z;
  u32PhyRptr : Z;
  k_u32Size : Z;
}.

Record SND_PORT_USER_ATTR_S := mkUAttr {
  enOutPort : Z;
  pDmaAddr : Z;
  pu32Wptr : Z;
  pu32Rptr : Z;
  u32Size : Z;
}.

Record DMA_SND_SOURCE_S := mkSource {
  bEnable : bool;
  enSampleRate : Z;
  u32FrmCnt : Z;
  stPortKAttr : list SND_PORT_KERNEL_ATTR_S;
  stPortUAttr : list SND_PORT_USER_ATTR_S;
}.

(** What has been asked of the driver and the mapping library, newest first. *)
Inductive ao_event :=
| MAP (phy size a : Z)
| UNMAP (a : Z)
| SETDMAMODE (rate : Z) (en : bool) (ret : Z)
| SETFIFOBYPASS (h : Z) (en : bool) (ret : Z).

Record ao := mkAo {
  phys : gmap Z area;
  maps : gmap Z Z;         (* user address of a mapping -> physical address *)
  clock : nat;
  log : list ao_event;
  g_stMMPAttr : HI_TRACK_MmapAttr_S;
  g_pstAipReg : Z;
  g_DMASource : DMA_SND_SOURCE_S;
}.

#[export] Instance aip_fields : Fields AIP_REGS := fun r =>
  mkAip r.(AIP_BUF_PHYADDR) r.(buff_size) r.(AIP_BUF_RPTR) r.(AIP_BUF_WPTR).
#[export] Instance mmap_buf_fields : Fields HI_TRACK_MmapBufAttr_S := fun r =>
  mkMmapBuf r.(u32UserAddr) r.(pu32ReadPtr) r.(pu32WritePtr) r.(t_u32Size).
#[export] Instance mmap_attr_fields : Fields HI_TRACK_MmapAttr_S := fun r =>
  mkMmapAttr r.(t_u32BitPerSample) r.(t_u32SampleRate) r.(t_u32Channels) r.(stMmapBuff).
#[export] Instance kattr_fields : Fields SND_PORT_KERNEL_ATTR_S := fun r =>
  mkKAttr r.(k_enOutPort) r.(u32PhyDma) r.(u32PhyWptr) r.(u32PhyRptr) r.(k_u32Size).
#[export] Instance uattr_fields : Fields SND_PORT_USER_ATTR_S := fun r =>
  mkUAttr r.(enOutPort) r.(pDmaAddr) r.(pu32Wptr) r.(pu32Rptr) r.(u32Size).
#[export] Instance source_fields : Fields DMA_SND_SOURCE_S := fun r =>
  mkSource r.(bEnable) r.(enSampleRate) r.(u32FrmCnt) r.(stPortKAttr) r.(stPortUAttr).
#[export] Instance ao_fields : Fields ao := fun r =>
  mkAo r.(phys) r.(maps) r.(clock) r.(log) r.(g_stMMPAttr) r.(g_pstAipReg) r.(g_DMASource).

(** The environment. [HI_MEM_Map] answers a user address or 0; [mmaptrackattr] the
    physical address of the registers of a track. *)
Class AoEnv := {
  HI_MEM_Map : nat -> gmap Z Z -> Z -> Z -> Z;
  CMD_MMAPTRACKATTR : nat -> Z -> HI_TRACK_MmapAttr_S -> Z * Z;
  CMD_SETFIFOBYPASS : nat -> Z -> bool -> Z;
  CMD_SETDMAMODE : nat -> Z -> bool -> Z;
  CMD_GETPORTINFO : nat -> Z * list SND_PORT_KERNEL_ATTR_S;
}.

(** A new mapping does not lie over one that is in use. *)
Class AoEnvOk (E : AoEnv) : Prop := {
  map_fresh : forall n m phy size, HI_MEM_Map n m phy size <> 0 ->
    m !! HI_MEM_Map n m phy size = None;
}.

Section Ao.
Context {C : HiConsts} {A : AoConsts} {E : AoEnv}.
Implicit Types (st : ao) (f : HI_UNF_AO_FRAMEINFO_S) (u : SND_PORT_USER_ATTR_S)
  (k : SND_PORT_KERNEL_ATTR_S) (b : HI_TRACK_MmapBufAttr_S) (h : Z).

(** ** The environment *)

Definition tick st : ao := st <| clock ::= S |>.
Definition logs (ev : ao_event) st : ao := st <| log ::= cons ev |>.

Definition mem_map (phy size : Z) st : Z * ao :=
  let a := HI_MEM_Map st.(clock) st.(maps) phy size in
  let st := logs (MAP phy size a) (tick st) in
  (a, if a =? 0 then st else st <| maps ::= insert a phy |>).

Definition mem_unmap (a : Z) st : ao := logs (UNMAP a) (st <| maps ::= delete a |>).

(** Memory accesses through a user address. *)
Definition deref st (p : Z) : option area := phy ← st.(maps) !! p; st.(phys) !! phy.

Definition store st (p : Z) (x : area) : option ao :=
  phy ← st.(maps) !! p; Some (st <| phys ::= insert phy x |>).

Definition read_word st (p : Z) : option Z :=
  match deref st p with Some (Word v) => Some v | _ => None end.

Definition read_regs st (p : Z) : option AIP_REGS :=
  match deref st p with Some (Regs a) => Some a | _ => None end.

Definition read_bytes st (p : Z) : option (list Z) :=
  match deref st p with Some (Bytes d) => Some d | _ => None end.

(** A ring write through the address of its buffer. When nothing is copied the
    buffer is not touched, mapped or not. *)
Definition write_ring st (p : Z) (src : option (list Z)) (r w size len : Z)
    : option (ao * Z * Z) :=
  match read_bytes st p with
  | Some buf =>
      '(buf', w', n) ← ring_write buf src r w size len;
      st ← store st p (Bytes buf'); Some (st, w', n)
  | None => '(_, w', n) ← ring_write [] src r w size len; Some (st, w', n)
  end.

(** ** The low-latency track *)

Definition TrackMmapBufQueryBusy st b : option Z :=
  rr ← read_regs st b.(pu32ReadPtr);
  ww ← read_regs st b.(pu32WritePtr);
  Some (busy_len rr.(AIP_BUF_RPTR) ww.(AIP_BUF_WPTR) b.(t_u32Size)).

Definition TrackMmapBufQueryFree st b : option Z :=
  rr ← read_regs st b.(pu32ReadPtr);
  ww ← read_regs st b.(pu32WritePtr);
  Some (free_len rr.(AIP_BUF_RPTR) ww.(AIP_BUF_WPTR) b.(t_u32Size)).

Definition TrackMmapBufWrite st b (pDest : option (list Z)) (u32Len : Z)
    : option (ao * Z) :=
  rr ← read_regs st b.(pu32ReadPtr);
  ww ← read_regs st b.(pu32WritePtr);
  '(st, w', n) ← write_ring st b.(u32UserAddr) pDest rr.(AIP_BUF_RPTR)
                   ww.(AIP_BUF_WPTR) b.(t_u32Size) u32Len;
  ww ← read_regs st b.(pu32WritePtr);
  st ← store st b.(pu32WritePtr) (Regs (ww <| AIP_BUF_WPTR := w' |>));
  Some (st, n).

(** Bytes of a frame, and of [ms] milliseconds of it; sizeof(HI_U16) is 2. *)
Definition frame_size f : Z := f.(u32PcmSamplesPerFrame) *u f.(u32Channels) *u 2.
Definition latency_size (ms : Z) f : Z :=
  (ms *u f.(u32SampleRate) *u f.(u32Channels) *u 2) / 1000.

Definition TRACKMmapWriteFrame st b f : option (ao * Z) :=
  let u32Latency := latency_size 400 f in
  let u32FrameSize := frame_size f in
  u32BusySize ← TrackMmapBufQueryBusy st b;
  if u32BusySize +u u32FrameSize <? u32Latency
  then '(st, u32WriteSize) ← TrackMmapBufWrite st b f.(ps32PcmBuffer) u32FrameSize;
       Some (st, if u32WriteSize =? u32FrameSize then HI_SUCCESS else HI_FAILURE)
  else Some (st, HI_ERR_AO_OUT_BUF_FULL).

(** pstTrackMmapAttr is always &g_stMMPAttr. *)
Definition set_mmap_buf (g : HI_TRACK_MmapBufAttr_S -> HI_TRACK_MmapBufAttr_S) st : ao :=
  st <| g_stMMPAttr ::= fun a => a <| stMmapBuff ::= g |> |>.

Definition LOWLATENCYTrackMmap st h : option (ao * Z) :=
  let asked := st.(g_stMMPAttr) in
  let st := set_mmap_buf (fun b => b <| u32UserAddr := 0 |>) st in
  let '(s32Ret, u32AipRegAddr) := CMD_MMAPTRACKATTR st.(clock) h asked in
  let st := tick st in
  if negb (s32Ret =? HI_SUCCESS) then Some (st, s32Ret)
  else if u32AipRegAddr =? 0 then Some (st, HI_FAILURE)
  else
  let '(reg, st) := mem_map u32AipRegAddr sizeof_AIP_REGS st in
  let st := st <| g_pstAipReg := reg |> in
  if reg =? 0 then Some (st, HI_FAILURE)
  else
  a ← read_regs st reg;
  let '(addr, st) := mem_map a.(AIP_BUF_PHYADDR) a.(buff_size) st in
  if addr =? 0 then Some (mem_unmap reg st, HI_FAILURE)
  else
  a ← read_regs st reg;
  Some (set_mmap_buf (fun _ => mkMmapBuf addr reg reg a.(buff_size)) st, HI_SUCCESS).

Definition LOWLATENCYTrackUnmap st (h : Z) : ao * Z :=
  let st := mem_unmap st.(g_stMMPAttr).(stMmapBuff).(u32UserAddr) st in
  (mem_unmap st.(g_pstAipReg) st, HI_SUCCESS).

Definition is_track_id h : bool :=
  (Z.land h 0xffff0000 =? Z.shiftl HI_ID_AO 16) &&
  ((Z.land h 0xff00 =? Z.shiftl HI_ID_MASTER_SLAVE_TRACK 8) ||
   (Z.land h 0xff00 =? Z.shiftl HI_ID_LOWLATENCY_TRACK 8)).

Definition LOWLATENCYTrackSetFifoBypass st h (en : bool) : ao * Z :=
  if negb (is_track_id h) then (st, HI_ERR_AO_INVALID_PARA)
  else let ret := CMD_SETFIFOBYPASS st.(clock) h en in
       (logs (SETFIFOBYPASS h en ret) (tick st), ret).

Definition LOWLATENCY_CheckIsLowlcyTrack h : bool :=
  Z.land h 0xff00 =? Z.shiftl HI_ID_LOWLATENCY_TRACK 8.

Definition LOWLATENCY_EnableLowLatencyAttr st h (bEanble : bool) : option (ao * Z) :=
  if bEanble
  then
    let st := st <| g_stMMPAttr ::= fun a =>
                a <| t_u32BitPerSample := HI_UNF_BIT_DEPTH_16 |>
                  <| t_u32SampleRate := HI_UNF_SAMPLE_RATE_48K |>
                  <| t_u32Channels := 2 |> |> in
    '(st, ret) ← LOWLATENCYTrackMmap st h;
    if negb (ret =? HI_SUCCESS) then Some (st, ret)
    else Some (LOWLATENCYTrackSetFifoBypass st h true)
  else
    let '(st, ret) := LOWLATENCYTrackSetFifoBypass st h false in
    if negb (ret =? HI_SUCCESS) then Some (st, ret)
    else Some (LOWLATENCYTrackUnmap st h).

Definition LOWLATENCY_SendData st (h : Z) f : option (ao * Z) :=
  if negb (f.(u32Channels) =? 2) || negb (f.(s32BitPerSample) =? HI_UNF_BIT_DEPTH_16)
     || negb (f.(u32SampleRate) =? HI_UNF_SAMPLE_RATE_48K)
  then Some (st, HI_ERR_AO_INVALID_PARA)
  else TRACKMmapWriteFrame st st.(g_stMMPAttr).(stMmapBuff) f.

(** The delay and the return code. *)
Definition LOWLATENCY_GetAIPDelayMs st (h : Z) : option (Z * Z) :=
  busy ← TrackMmapBufQueryBusy st st.(g_stMMPAttr).(stMmapBuff);
  Some ((busy *u 1000) / (48000 * 2 * 2), HI_SUCCESS).

(** ** The DMA source *)

Definition zero_kattr : SND_PORT_KERNEL_ATTR_S := mkKAttr 0 0 0 0 0.
Definition zero_uattr : SND_PORT_USER_ATTR_S := mkUAttr 0 0 0 0 0.

(** g_DMASource before any call, and after memset. *)
Definition zero_source : DMA_SND_SOURCE_S :=
  mkSource false 0 0 (replicate HI_UNF_SND_OUTPUTPORT_MAX zero_kattr)
    (replicate HI_UNF_SND_OUTPUTPORT_MAX zero_uattr).

Definition set_source (g : DMA_SND_SOURCE_S -> DMA_SND_SOURCE_S) st : ao :=
  st <| g_DMASource ::= g |>.

Definition DMASourceReset st : ao :=
  set_source (fun _ =>
    zero_source <| stPortUAttr ::= map (fun u => u <| enOutPort := HI_UNF_SND_OUTPUTPORT_BUTT |>) |>
      <| stPortKAttr ::= map (fun k => k <| k_enOutPort := HI_UNF_SND_OUTPUTPORT_BUTT |>) |>
      <| enSampleRate := HI_UNF_SAMPLE_RATE_48K |>) st.

Definition DMAPortQueryBusy st u : option Z :=
  r ← read_word st u.(pu32Rptr);
  w ← read_word st u.(pu32Wptr);
  Some (dma_busy_len r w u.(u32Size)).

Definition DMAPortWrite st u (pSrc : option (list Z)) (u32Len : Z) : option (ao * Z) :=
  r ← read_word st u.(pu32Rptr);
  w ← read_word st u.(pu32Wptr);
  '(st, w', n) ← write_ring st u.(pDmaAddr) pSrc r w u.(u32Size) u32Len;
  st ← store st u.(pu32Wptr) (Word w');
  Some (st, n).

Definition SetSndDMAMode st (enSampleRate : Z) (en : bool) : ao * Z :=
  let ret := CMD_SETDMAMODE st.(clock) enSampleRate en in
  (logs (SETDMAMODE enSampleRate en ret) (tick st), ret).

Definition DMAGetPortInfo st : ao * Z :=
  let '(s32Ret, ks) := CMD_GETPORTINFO st.(clock) in
  let st := tick st in
  if negb (s32Ret =? HI_SUCCESS) then (st, s32Ret)
  else (set_source (fun s => s <| stPortKAttr := take HI_UNF_SND_OUTPUTPORT_MAX ks |>)
          (DMASourceReset st), HI_SUCCESS).

Definition port_used u : bool := negb (u.(enOutPort) =? HI_UNF_SND_OUTPUTPORT_BUTT).

Definition unmap_ptr (a : Z) st : ao := if a =? 0 then st else mem_unmap a st.

Definition unmap_port st u : ao :=
  if port_used u
  then unmap_ptr u.(pu32Rptr) (unmap_ptr u.(pu32Wptr) (unmap_ptr u.(pDmaAddr) st))
  else st.

Definition DMAUnmapPort st : ao * Z :=
  (foldl unmap_port st st.(g_DMASource).(stPortUAttr), HI_SUCCESS).

Definition set_port (i : nat) u st : ao :=
  set_source (fun s => s <| stPortUAttr ::= <[i := u]> |>) st.

(** One turn of the loop of DMAMmapPort; the flag says that a mapping failed. *)
Definition mmap_port st (i : nat) k u : ao * bool :=
  let u := u <| enOutPort := k.(k_enOutPort) |> in
  if port_used u
  then
    let '(dma, st) := mem_map k.(u32PhyDma) k.(k_u32Size) st in
    let '(wp, st) := mem_map k.(u32PhyWptr) 4 st in
    let '(rp, st) := mem_map k.(u32PhyRptr) 4 st in
    let st := set_port i (mkUAttr k.(k_enOutPort) dma wp rp k.(k_u32Size)) st in
    (st, (dma =? 0) || (wp =? 0) || (rp =? 0))
  else (set_port i u st, false).

Fixpoint mmap_ports (n i : nat) st : option (ao * Z) :=
  match n with
  | O => Some (st, HI_SUCCESS)
  | S n =>
      k ← st.(g_DMASource).(stPortKAttr) !! i;
      u ← st.(g_DMASource).(stPortUAttr) !! i;
      let '(st, failed) := mmap_port st i k u in
      if failed : bool then Some ((DMAUnmapPort st).1, HI_FAILURE)
      else mmap_ports n (S i) st
  end.

Definition DMAMmapPort st : option (ao * Z) := mmap_ports HI_UNF_SND_OUTPUTPORT_MAX 0 st.

(** The loops that write to the ports in use; the result is that of the last one. *)
Fixpoint for_ports (W : ao -> SND_PORT_USER_ATTR_S -> option (ao * Z))
    (us : list SND_PORT_USER_ATTR_S) st (ret : Z) : option (ao * Z) :=
  match us with
  | [] => Some (st, ret)
  | u :: us =>
      if port_used u then '(st, ret) ← W st u; for_ports W us st ret
      else for_ports W us st ret
  end.

Definition prepare_port st u : option (ao * Z) :=
  '(st, n) ← DMAPortWrite st u None 0x100; Some (st, s32 n).

Definition DMAPrepare st : option (ao * Z) :=
  for_ports prepare_port st.(g_DMASource).(stPortUAttr) st HI_SUCCESS.

Definition DMADisable st : ao * Z :=
  if negb st.(g_DMASource).(bEnable) then (st, HI_SUCCESS)
  else let '(st, ret) := SetSndDMAMode st HI_UNF_SAMPLE_RATE_48K false in
       (set_source (fun s => s <| bEnable := false |>) st, ret).

Definition DMAEnable st (u32SampleRate : Z) : option (ao * Z) :=
  if st.(g_DMASource).(bEnable) then Some (st, HI_SUCCESS)
  else
  let st := set_source (fun s => s <| enSampleRate := u32SampleRate |>) st in
  let '(st, ret) := SetSndDMAMode st u32SampleRate true in
  if negb (ret =? HI_SUCCESS)
  then Some (set_source (fun s => s <| enSampleRate := HI_UNF_SAMPLE_RATE_48K |>) st, ret)
  else '(st, _) ← DMAPrepare st;
       Some (set_source (fun s => s <| bEnable := true |>) st, HI_SUCCESS).

Fixpoint ports_free (us : list SND_PORT_USER_ATTR_S) st (size latency : Z) : option bool :=
  match us with
  | [] => Some true
  | u :: us =>
      if port_used u
      then busy ← DMAPortQueryBusy st u;
           if busy +u size >? latency then Some false else ports_free us st size latency
      else ports_free us st size latency
  end.

Definition PortCheckAllFree st f (u32LatencyMs : Z) : option bool :=
  ports_free st.(g_DMASource).(stPortUAttr) st (frame_size f) (latency_size u32LatencyMs f).

Definition PortWriteFrame st u f : option (ao * Z) :=
  let pcm := if st.(g_DMASource).(u32FrmCnt) >? SND_MUTES_FRAMES
             then f.(ps32PcmBuffer) else None in
  '(st, n) ← DMAPortWrite st u pcm (frame_size f);
  Some (st, if n =? frame_size f then HI_SUCCESS else HI_FAILURE).

Definition SND_DMA_Create st : option (ao * Z) :=
  let '(st, ret) := DMAGetPortInfo st in
  if negb (ret =? HI_SUCCESS) then Some (st, ret) else DMAMmapPort st.

Definition SND_DMA_Destory st : ao * Z :=
  let '(st, ret) := DMAUnmapPort st in
  if negb (ret =? HI_SUCCESS) then (st, ret)
  else let '(st, ret) := DMADisable st in (DMASourceReset st, ret).

Definition SND_DMA_SendData st f (u32LatencyMs : Z) : option (ao * Z) :=
  if negb (f.(u32Channels) =? 2) || negb (f.(s32BitPerSample) =? 16)
  then Some (st, HI_ERR_AO_INVALID_PARA)
  else if negb (f.(u32SampleRate) =? HI_UNF_SAMPLE_RATE_48K)
          && negb (f.(u32SampleRate) =? HI_UNF_SAMPLE_RATE_44K)
  then Some (st, HI_ERR_AO_INVALID_PARA)
  else if (u32LatencyMs >? 40) || (u32LatencyMs <? 10)
  then Some (st, HI_ERR_AO_INVALID_PARA)
  else
  '(st, ret) ← DMAEnable st f.(u32SampleRate);
  if negb (ret =? HI_SUCCESS) then Some (st, ret)
  else
  free ← PortCheckAllFree st f u32LatencyMs;
  if negb free then Some (st, HI_ERR_AO_OUT_BUF_FULL)
  else
  '(st, ret) ← for_ports (fun st u => PortWriteFrame st u f)
                  st.(g_DMASource).(stPortUAttr) st ret;
  Some (set_source (fun s => s <| u32FrmCnt ::= fun n => n +u 1 |>) st, ret).

(** The first port in use tells the delay. *)
Fixpoint first_busy (us : list SND_PORT_USER_ATTR_S) st : option Z :=
  match us with
  | [] => Some 0
  | u :: us => if port_used u then DMAPortQueryBusy st u else first_busy us st
  end.

Definition SND_DMA_GetDelayMs st : option (Z * Z) :=
  let u32FrameSize := st.(g_DMASource).(enSampleRate) *u 2 *u 2 in
  if u32FrameSize =? 0 then Some (0, HI_SUCCESS)
  else busy ← first_busy st.(g_DMASource).(stPortUAttr) st;
       Some ((busy *u 1000) / u32FrameSize, HI_SUCCESS).

(** ** The hardware

    It reads the ring whose positions and bytes lie at the given physical
    addresses, at most what is there, and moves the read position. *)

Definition ring_taken (d : list Z) (r w size n : Z) : list Z :=
  take (Z.to_nat n) (contents d r w size).

Definition aip_plays (reg : Z) (n : Z) st : option (ao * list Z) :=
  match st.(phys) !! reg with
  | Some (Regs a) =>
      match st.(phys) !! a.(AIP_BUF_PHYADDR) with
      | Some (Bytes d) =>
          let r := a.(AIP_BUF_RPTR) in
          let n := Z.min n (busy_len r a.(AIP_BUF_WPTR) a.(buff_size)) in
          Some (st <| phys ::= insert reg
                        (Regs (a <| AIP_BUF_RPTR := advance r n a.(buff_size) |>)) |>,
                ring_taken d r a.(AIP_BUF_WPTR) a.(buff_size) n)
      | _ => None
      end
  | _ => None
  end.

Definition port_plays k (n : Z) st : option (ao * list Z) :=
  match st.(phys) !! k.(u32PhyDma), st.(phys) !! k.(u32PhyWptr), st.(phys) !! k.(u32PhyRptr) with
  | Some (Bytes d), Some (Word w), Some (Word r) =>
      let n := Z.min n (busy_len r w k.(k_u32Size)) in
      Some (st <| phys ::= insert k.(u32PhyRptr) (Word (advance r n k.(k_u32Size))) |>,
            ring_taken d r w k.(k_u32Size) n)
  | _, _, _ => None
  end.

(** ** Accesses through a mapping *)

Lemma store_ok st p phy x :
  st.(maps) !! p = Some phy -> store st p x = Some (st <| phys ::= insert phy x |>).
Proof. unfold store. by intros ->. Qed.

Lemma read_word_ok st p phy v :
  st.(maps) !! p = Some phy -> st.(phys) !! phy = Some (Word v) -> read_word st p = Some v.
Proof. unfold read_word, deref. intros -> H. simpl. by rewrite H. Qed.

Lemma read_regs_ok st p phy a :
  st.(maps) !! p = Some phy -> st.(phys) !! phy = Some (Regs a) -> read_regs st p = Some a.
Proof. unfold read_regs, deref. intros -> H. simpl. by rewrite H. Qed.

Lemma write_ring_ok st p phy buf buf' src r w w' size len n :
  st.(maps) !! p = Some phy -> st.(phys) !! phy = Some (Bytes buf) ->
  ring_write buf src r w size len = Some (buf', w', n) ->
  write_ring st p src r w size len = Some (st <| phys ::= insert phy (Bytes buf') |>, w', n).
Proof.
  intros Hm Hp Hw. unfold write_ring, read_bytes, deref. rewrite Hm. simpl. rewrite Hp, Hw.
  simpl. by rewrite (store_ok _ _ phy).
Qed.

(** Nothing can be read through an address that is not mapped. *)
Lemma read_word_unmapped st p : st.(maps) !! p = None -> read_word st p = None.
Proof. unfold read_word, deref. by intros ->. Qed.

(** ** What a write can change *)

Definition only_phys st st' : Prop := exists m, st' = st <| phys := m |>.

#[global] Instance only_phys_refl : Reflexive only_phys.
Proof. intros st. exists st.(phys). by destruct st. Qed.

#[global] Instance only_phys_trans : Transitive only_phys.
Proof. intros ? ? ? [m ->] [m' ->]. by exists m'. Qed.

Lemma store_only_phys st p x st' : store st p x = Some st' -> only_phys st st'.
Proof.
  unfold store. destruct (st.(maps) !! p); simpl; [|done]. intros [= <-]. by eexists.
Qed.

Lemma write_ring_only_phys st p src r w size len st' w' n :
  write_ring st p src r w size len = Some (st', w', n) -> only_phys st st'.
Proof.
  unfold write_ring. destruct (read_bytes st p).
  - intros ([[? ?] ?] & _ & (? & Hs & H)%bind_Some)%bind_Some. simplify_eq.
    by eapply store_only_phys.
  - intros ([[? ?] ?] & _ & H)%bind_Some. by simplify_eq.
Qed.

Lemma TrackMmapBufWrite_only_phys st b src len st' n :
  TrackMmapBufWrite st b src len = Some (st', n) -> only_phys st st'.
Proof.
  intros (? & _ & (? & _ & ([[? ?] ?] & Hw & H)%bind_Some)%bind_Some)%bind_Some.
  apply bind_Some in H as (? & _ & (? & Hs & H)%bind_Some). simplify_eq.
  etrans; [by eapply write_ring_only_phys|by eapply store_only_phys].
Qed.

Lemma DMAPortWrite_only_phys st u src len st' n :
  DMAPortWrite st u src len = Some (st', n) -> only_phys st st'.
Proof.
  intros (? & _ & (? & _ & ([[? ?] ?] & Hw & H)%bind_Some)%bind_Some)%bind_Some.
  apply bind_Some in H as (? & Hs & H). simplify_eq.
  etrans; [by eapply write_ring_only_phys|by eapply store_only_phys].
Qed.

End Ao.
