(* ===== verification/AoTrack.v ===== *)
(** * The low-latency track as a queue of PCM bytes

    Runs of the track of AoLowLat.v: frames sent, delays asked for and the hardware
    playing, in any order. *)

From S2P Require Import Prelude.
From S2P Require Import AoRing.
From S2P Require Import AoLowLat.

(** A call on the track, or the hardware taking at most [n] bytes. *)
Inductive track_op :=
| TSend (f : HI_UNF_AO_FRAMEINFO_S)
| TDelay
| TPlay (n : Z).

Section Track.
Context {C : HiConsts} {A : AoConsts} {E : AoEnv}.
Implicit Types (st : ao) (f : HI_UNF_AO_FRAMEINFO_S) (q : list Z).

Definition track_buf st : HI_TRACK_MmapBufAttr_S := st.(g_stMMPAttr).(stMmapBuff).

(** The track is mapped: its registers at [pr] describe the ring of [buf] at [pb]. *)
Record track_ring st pr pb buf r w : Prop := mkTrackRing {
  tr_rptr : st.(maps) !! (track_buf st).(pu32ReadPtr) = Some pr;
  tr_wptr : st.(maps) !! (track_buf st).(pu32WritePtr) = Some pr;
  tr_user : st.(maps) !! (track_buf st).(u32UserAddr) = Some pb;
  tr_regs : st.(phys) !! pr = Some (Regs (mkAip pb (track_buf st).(t_u32Size) r w));
  tr_bytes : st.(phys) !! pb = Some (Bytes buf);
  tr_wf : ring_wf buf r w (track_buf st).(t_u32Size);
}.

(** The track with registers at [pr] holds the bytes [q], which are still to be
    played. *)
Definition track_holds st pr q : Prop := exists pb buf r w,
  track_ring st pr pb buf r w /\ contents buf r w (track_buf st).(t_u32Size) = q.

(** One step: the state, the bytes accepted and the bytes played. *)
Definition track_step h pr st (op : track_op) : option (ao * list Z * list Z) :=
  match op with
  | TSend f =>
      '(st, ret) ← LOWLATENCY_SendData st h f;
      Some (st, if ret =? HI_SUCCESS then data f.(ps32PcmBuffer) (frame_size f) else [], [])
  | TDelay => _ ← LOWLATENCY_GetAIPDelayMs st h; Some (st, [], [])
  | TPlay n => '(st, out) ← aip_plays pr n st; Some (st, [], out)
  end.

Fixpoint track_run h pr st (ops : list track_op) : option (ao * list Z * list Z) :=
  match ops with
  | [] => Some (st, [], [])
  | op :: ops =>
      '(st, acc, out) ← track_step h pr st op;
      '(st, acc', out') ← track_run h pr st ops;
      Some (st, acc ++ acc', out ++ out')
  end.

(** The caller's samples cover the frame, and the sums of the water mark do not
    wrap around. *)
Definition frame_ok f : Prop :=
  0 <= f.(u32PcmSamplesPerFrame) /\ f.(u32PcmSamplesPerFrame) * 4 + 76800 < 4294967296 /\
  (f.(u32Channels) = 2 -> src_covers f.(ps32PcmBuffer) (f.(u32PcmSamplesPerFrame) * 4)).

Definition track_op_ok (op : track_op) : Prop :=
  match op with TSend f => frame_ok f | TDelay => True | TPlay n => 0 <= n end.

Lemma frame_size_ok f :
  frame_ok f -> f.(u32Channels) = 2 -> frame_size f = f.(u32PcmSamplesPerFrame) * 4.
Proof. intros (? & ? & _) H2. unfold frame_size. rewrite H2. wraps. lia. Qed.

Lemma ring_busy st pr pb buf r w :
  track_ring st pr pb buf r w ->
  TrackMmapBufQueryBusy st (track_buf st) = Some (busy_len r w (track_buf st).(t_u32Size)).
Proof.
  intros []. unfold TrackMmapBufQueryBusy. by erewrite !read_regs_ok by eauto.
Qed.

(** A write to the mapped ring with room. *)
Lemma track_write_ok st pr pb buf r w src len :
  track_ring st pr pb buf r w -> 0 <= len -> src_covers src len ->
  busy_len r w (track_buf st).(t_u32Size) + len < (track_buf st).(t_u32Size) ->
  exists st' buf' w', TrackMmapBufWrite st (track_buf st) src len = Some (st', len) /\
    track_ring st' pr pb buf' r w' /\ track_buf st' = track_buf st /\
    contents buf' r w' (track_buf st).(t_u32Size) =
      contents buf r w (track_buf st).(t_u32Size) ++ data src len.
Proof.
  intros [H1 H2 H3 H4 H5 Hwf] Hlen Hsrc Hroom.
  assert (pr <> pb) as Hne by (intros ->; congruence).
  destruct (ring_write_ok buf src r w _ len Hwf Hlen Hsrc Hroom)
    as (buf' & w' & Hw & Hwf' & Hc).
  unfold TrackMmapBufWrite. rewrite (read_regs_ok _ _ _ _ H1 H4). simpl.
  rewrite (read_regs_ok _ _ _ _ H2 H4). simpl.
  rewrite (write_ring_ok _ _ _ _ _ _ _ _ _ _ _ _ H3 H5 Hw). simpl.
  rewrite (read_regs_ok _ _ pr (mkAip pb (track_buf st).(t_u32Size) r w))
    by (done || by cbn; rewrite lookup_insert_ne). simpl.
  rewrite (store_ok _ _ pr) by done. simpl. eexists _, buf', w'. split; [done|].
  split; [split; cbn|split; [done|exact Hc]]; auto.
  - by rewrite lookup_insert_eq.
  - by rewrite lookup_insert_ne, lookup_insert_eq.
Qed.

Context {AOk : AoConstsOk C A} .

(** What a send does, on every branch: the format is checked, then the water mark
    of 400 ms. *)
Lemma track_send_ok st pr pb buf r w h f :
  track_ring st pr pb buf r w -> 76800 <= (track_buf st).(t_u32Size) -> frame_ok f ->
  busy_len r w (track_buf st).(t_u32Size) < 76800 ->
  let size := (track_buf st).(t_u32Size) in
  let good := (f.(u32Channels) =? 2) && (f.(s32BitPerSample) =? HI_UNF_BIT_DEPTH_16)
                && (f.(u32SampleRate) =? HI_UNF_SAMPLE_RATE_48K) in
  let fits := busy_len r w size + f.(u32PcmSamplesPerFrame) * 4 <? 76800 in
  exists st' buf' w',
    LOWLATENCY_SendData st h f =
      Some (st', if good then if fits then HI_SUCCESS else HI_ERR_AO_OUT_BUF_FULL
                 else HI_ERR_AO_INVALID_PARA) /\
    track_ring st' pr pb buf' r w' /\ track_buf st' = track_buf st /\
    contents buf' r w' size = contents buf r w size ++
      (if good && fits then data f.(ps32PcmBuffer) (frame_size f) else []).
Proof.
  intros H Hsize Hf Hbusy size good fits. fold size in Hbusy. pose proof (busy_bounds _ _ _ _ (tr_wf _ _ _ _ _ _ H)).
  fold size in H0. pose proof (ring_size _ _ _ _ (tr_wf _ _ _ _ _ _ H)) as Hs.
  fold size in Hs. unfold LOWLATENCY_SendData.
  rewrite <- !negb_andb. fold good. destruct good eqn:Hg; simpl.
  2:{ exists st, buf, w. by rewrite app_nil_r. }
  unfold good in Hg. apply andb_prop in Hg as [[Hch _]%andb_prop Hrate].
  apply Z.eqb_eq in Hch, Hrate. rewrite ao_48k in Hrate.
  unfold TRACKMmapWriteFrame. fold (track_buf st). rewrite (ring_busy _ _ _ _ _ _ H). simpl.
  fold size. pose proof (frame_size_ok f Hf Hch) as Hfs. destruct Hf as (? & ? & Hcov).
  rewrite Hfs. replace (latency_size 400 f) with 76800
    by (unfold latency_size; by rewrite Hch, Hrate).
  rewrite u32_small by (unfold is_u32; lia).
  fold fits. destruct fits eqn:Hfit; unfold fits in Hfit.
  - destruct (track_write_ok st pr pb buf r w f.(ps32PcmBuffer) (f.(u32PcmSamplesPerFrame) * 4))
      as (st' & buf' & w' & Hw & Hr' & Hb & Hc); [done|lia|auto|fold size; lia|].
    rewrite Hw. simpl. rewrite Z.eqb_refl. exists st', buf', w'. by rewrite Hb.
  - exists st, buf, w. by rewrite app_nil_r.
Qed.

Lemma track_plays_ok st pr pb buf r w n :
  track_ring st pr pb buf r w -> 0 <= n ->
  let size := (track_buf st).(t_u32Size) in
  exists st' r' out, aip_plays pr n st = Some (st', out) /\
    track_ring st' pr pb buf r' w /\ track_buf st' = track_buf st /\
    contents buf r w size = out ++ contents buf r' w size.
Proof.
  intros [H1 H2 H3 H4 H5 Hwf] Hn size. pose proof (busy_bounds _ _ _ _ Hwf) as Hb.
  assert (pr <> pb) as Hne by (intros ->; congruence).
  unfold aip_plays. rewrite H4. cbn. rewrite H5.
  destruct (ring_advance_ok buf r w size (Z.min n (busy_len r w size)) Hwf) as [Hwf' Hc];
    [fold size in Hb; lia|].
  eexists _, _, _. split; [done|]. split; [split; cbn; eauto|split; [done|]].
  - by rewrite lookup_insert_eq.
  - by rewrite lookup_insert_ne.
  - fold size. rewrite Hc. unfold ring_taken. by rewrite take_drop.
Qed.

(** One step, on the queue: what is accepted goes in at the end, what is played
    comes out at the front. *)
Lemma track_step_ok h st pr q op :
  track_holds st pr q -> Z.of_nat (length q) < 76800 ->
  76800 <= (track_buf st).(t_u32Size) -> track_op_ok op ->
  exists st' acc out q', track_step h pr st op = Some (st', acc, out) /\
    track_holds st' pr q' /\ track_buf st' = track_buf st /\
    Z.of_nat (length q') < 76800 /\ q ++ acc = out ++ q'.
Proof.
  intros (pb & buf & r & w & H & <-) Hlen Hsize Hop.
  rewrite (contents_length _ _ _ _ (tr_wf _ _ _ _ _ _ H)) in Hlen.
  destruct op as [f| |n]; cbn [track_step track_op_ok] in *.
  - destruct (track_send_ok st pr pb buf r w h f H Hsize Hop Hlen)
      as (st' & buf' & w' & -> & Hr & Hb & Hc). simpl.
    set (good := (f.(u32Channels) =? 2) && _ && _) in *.
    set (fits := busy_len _ _ _ + _ <? 76800) in *.
    eexists _, _, _, _. split; [done|]. split; [by exists pb, buf', r, w'|].
    split; [done|]. rewrite Hb, Hc. split.
    + rewrite length_app, Nat2Z.inj_add, (contents_length _ _ _ _ (tr_wf _ _ _ _ _ _ H)).
      destruct good eqn:Hg, fits eqn:Hfit; simpl; try lia.
      unfold good, fits in Hg, Hfit. apply andb_prop in Hg as [[Hch _]%andb_prop _].
      apply Z.eqb_eq in Hch. rewrite (frame_size_ok f Hop Hch). destruct Hop as (? & ? & ?).
      rewrite data_length by (auto; lia). lia.
    + simpl. f_equal. pose proof ao_full_ne. pose proof ao_para_ne.
      destruct good, fits; simpl; rewrite ?Z.eqb_refl; try done; by zbool.
  - unfold LOWLATENCY_GetAIPDelayMs. fold (track_buf st). rewrite (ring_busy _ _ _ _ _ _ H).
    simpl. eexists _, _, _, _. split; [done|]. split; [by exists pb, buf, r, w|].
    rewrite (contents_length _ _ _ _ (tr_wf _ _ _ _ _ _ H)). by rewrite app_nil_r.
  - destruct (track_plays_ok st pr pb buf r w n H Hop) as (st' & r' & out & -> & Hr & Hb & Hc).
    simpl. eexists _, _, _, _. split; [done|]. split; [by exists pb, buf, r', w|].
    split; [done|]. rewrite Hb. pose proof (f_equal length Hc) as Hl.
    rewrite length_app in Hl. split; [|by rewrite app_nil_r].
    rewrite <- (contents_length _ _ _ _ (tr_wf _ _ _ _ _ _ H)) in Hlen. lia.
Qed.

(** A run, on the queue. *)
Lemma track_run_ok h pr ops st q :
  track_holds st pr q -> Z.of_nat (length q) < 76800 ->
  76800 <= (track_buf st).(t_u32Size) -> Forall track_op_ok ops ->
  exists st' acc out q', track_run h pr st ops = Some (st', acc, out) /\
    track_holds st' pr q' /\ Z.of_nat (length q') < 76800 /\ q ++ acc = out ++ q'.
Proof.
  revert st q. induction ops as [|op ops IH]; intros st q H Hl Hsize Hops; simpl.
  { exists st, [], [], q. by rewrite app_nil_r. }
  inversion_clear Hops as [|? ? Hop Hops'].
  destruct (track_step_ok h st pr q op H Hl Hsize Hop)
    as (st1 & acc1 & out1 & q1 & -> & H1 & Hb & Hl1 & Heq1). simpl.
  destruct (IH st1 q1 H1 Hl1 ltac:(by rewrite Hb) Hops')
    as (st2 & acc2 & out2 & q2 & -> & H2 & Hl2 & Heq2). simpl.
  eexists _, _, _, q2. split; [done|]. repeat split; auto.
  by rewrite app_assoc, Heq1, <- !app_assoc, Heq2.
Qed.

(** ** The delay *)

Lemma track_delay_ok st pr q h :
  track_holds st pr q -> Z.of_nat (length q) < 76800 ->
  LOWLATENCY_GetAIPDelayMs st h = Some (Z.of_nat (length q) * 1000 / 192000, HI_SUCCESS).
Proof.
  intros (pb & buf & r & w & H & <-) Hlen.
  rewrite (contents_length _ _ _ _ (tr_wf _ _ _ _ _ _ H)) in *.
  unfold LOWLATENCY_GetAIPDelayMs. fold (track_buf st). rewrite (ring_busy _ _ _ _ _ _ H).
  simpl. pose proof (busy_bounds _ _ _ _ (tr_wf _ _ _ _ _ _ H)). by wraps.
Qed.

(** C8: a low-latency track with a ring of 400 ms or more is a queue: whatever frames are
    sent, delays asked for and bytes played, in any order, no access leaves a
    mapped buffer, the bytes played followed by those that remain are exactly the
    bytes of the accepted frames in order, and the delay told is that of the bytes
    that remain, below 400 ms. *)
Theorem track_stream h pr st ops :
  track_holds st pr [] -> 76800 <= (track_buf st).(t_u32Size) ->
  Forall track_op_ok ops ->
  exists st' accepted played q,
    track_run h pr st ops = Some (st', accepted, played) /\
    track_holds st' pr q /\ accepted = played ++ q /\
    LOWLATENCY_GetAIPDelayMs st' h =
      Some (Z.of_nat (length q) * 1000 / 192000, HI_SUCCESS) /\
    Z.of_nat (length q) < 76800.
Proof.
  intros H Hsize Hops.
  destruct (track_run_ok h pr ops st [] H ltac:(simpl; lia) Hsize Hops)
    as (st' & acc & out & q & Hr & Hh & Hl & Heq).
  exists st', acc, out, q. split_and!; auto. by apply (track_delay_ok st' pr).
Qed.

(** ** Opening and closing *)

(** Steps move bytes and positions, never a mapping. *)
Lemma track_step_only_phys h pr st op st' acc out :
  track_step h pr st op = Some (st', acc, out) -> only_phys st st'.
Proof.
  destruct op as [f| |n]; simpl.
  - intros ([st1 ret] & Hs & H)%bind_Some. simplify_eq. revert Hs.
    unfold LOWLATENCY_SendData, TRACKMmapWriteFrame. case_match; [by intros [= <- <-]|].
    intros (? & _ & Hs)%bind_Some. case_match; [|by simplify_eq].
    apply bind_Some in Hs as ([? ?] & Hw & Hs). simplify_eq.
    by eapply TrackMmapBufWrite_only_phys.
  - intros (? & _ & H)%bind_Some. by simplify_eq.
  - intros ([st1 ?] & Hs & H)%bind_Some. simplify_eq. revert Hs. unfold aip_plays.
    repeat (case_match; try done). intros [= <- <-]. by eexists.
Qed.

Lemma track_run_only_phys h pr ops st st' acc out :
  track_run h pr st ops = Some (st', acc, out) -> only_phys st st'.
Proof.
  revert st st' acc out. induction ops as [|op ops IH]; simpl; intros st st' acc out.
  { by intros [= <- _ _]. }
  intros ([[st1 ?] ?] & H1%track_step_only_phys & ([[st2 ?] ?] & H2%IH & H)%bind_Some)%bind_Some.
  simplify_eq. by etrans.
Qed.

Context {HI : HiConstsOk C} {EOk : AoEnvOk E}.

(** The driver takes the track [h], whose registers at [reg] describe an empty ring
    of [buf], and both can be mapped. *)
Record openable st h reg buf p : Prop := mkOpenable {
  op_id : is_track_id h = true;
  op_reg : reg <> 0;
  op_regs : st.(phys) !! reg = Some (Regs (mkAip buf.1 (Z.of_nat (length buf.2)) p p));
  op_bytes : st.(phys) !! buf.1 = Some (Bytes buf.2);
  op_wf : ring_wf buf.2 p p (Z.of_nat (length buf.2));
  op_taken : forall n a, CMD_MMAPTRACKATTR n h a = (HI_SUCCESS, reg);
  op_bypass : forall n en, CMD_SETFIFOBYPASS n h en = HI_SUCCESS;
  op_maps : forall n m phy size, HI_MEM_Map n m phy size <> 0;
}.

(** Opening maps the registers, then the buffer. *)
Lemma track_open_ok st h reg buf p :
  openable st h reg buf p ->
  exists st' a1 a2, LOWLATENCY_EnableLowLatencyAttr st h true = Some (st', HI_SUCCESS) /\
    track_holds st' reg [] /\
    st.(maps) !! a1 = None /\ <[a1 := reg]> st.(maps) !! a2 = None /\
    st'.(maps) = <[a2 := buf.1]> (<[a1 := reg]> st.(maps)) /\
    st'.(g_pstAipReg) = a1 /\ track_buf st' = mkMmapBuf a2 a1 a1 (Z.of_nat (length buf.2)).
Proof.
  intros []. unfold LOWLATENCY_EnableLowLatencyAttr, LOWLATENCYTrackMmap. cbn -[Z.land].
  rewrite op_taken0. cbn -[Z.land]. rewrite Z.eqb_refl. cbn -[Z.land]. zfalse (reg =? 0).
  set (a1 := HI_MEM_Map _ _ reg _).
  assert (Ha1 : st.(maps) !! a1 = None) by (apply map_fresh, op_maps0).
  assert (a1 <> 0) as Hn1 by apply op_maps0.
  zfalse (a1 =? 0). cbn -[Z.land].
  rewrite (read_regs_ok _ _ reg (mkAip buf.1 (Z.of_nat (length buf.2)) p p))
    by (done || apply lookup_insert_eq). cbn -[Z.land].
  set (a2 := HI_MEM_Map _ _ buf.1 _).
  assert (Ha2 : <[a1 := reg]> st.(maps) !! a2 = None) by (apply map_fresh, op_maps0).
  assert (a2 <> 0) as Hn2 by apply op_maps0.
  assert (a1 <> a2) as Hne by (intros Heq; rewrite Heq, lookup_insert_eq in Ha2; done).
  zfalse (a2 =? 0). cbn -[Z.land].
  rewrite (read_regs_ok _ _ reg (mkAip buf.1 (Z.of_nat (length buf.2)) p p))
    by (cbn; rewrite ?lookup_insert_ne, ?lookup_insert_eq by done; done).
  cbn -[Z.land]. rewrite Z.eqb_refl. unfold LOWLATENCYTrackSetFifoBypass.
  rewrite op_id0, op_bypass0. eexists _, a1, a2. split; [done|].
  split_and!; try done.
  exists buf.1, buf.2, p, p. split.
  - split; cbn; rewrite ?lookup_insert_ne, ?lookup_insert_eq by done; done.
  - cbn. rewrite (contents_inner _ _ _ _ op_wf0) by lia. by rewrite Z.sub_diag.
Qed.

(** A low-latency track that the driver takes is opened as an empty queue; after
    any use of it, closing it leaves the mappings of the process as they were
    before. *)
Theorem track_open_close st h reg buf p ops :
  openable st h reg buf p -> 76800 <= Z.of_nat (length buf.2) -> Forall track_op_ok ops ->
  exists st1 st2 st3 accepted played,
    LOWLATENCY_EnableLowLatencyAttr st h true = Some (st1, HI_SUCCESS) /\
    track_holds st1 reg [] /\
    track_run h reg st1 ops = Some (st2, accepted, played) /\
    LOWLATENCY_EnableLowLatencyAttr st2 h false = Some (st3, HI_SUCCESS) /\
    st3.(maps) = st.(maps).
Proof.
  intros H Hlen Hops.
  destruct (track_open_ok st h reg buf p H)
    as (st1 & a1 & a2 & Ho & Hq & Ha1 & Ha2 & Hm & Hreg & Hb).
  destruct (track_run_ok h reg ops st1 [] Hq) as (st2 & acc & out & q & Hr & _);
    [simpl; lia|by rewrite Hb|done|].
  destruct (track_run_only_phys _ _ _ _ _ _ _ Hr) as [m ->].
  eexists _, _, _, _, _. split; [exact Ho|]. split; [done|]. split; [exact Hr|].
  unfold LOWLATENCY_EnableLowLatencyAttr, LOWLATENCYTrackSetFifoBypass.
  rewrite (op_id _ _ _ _ _ H), (op_bypass _ _ _ _ _ H). cbn -[Z.land]. rewrite Z.eqb_refl.
  split; [done|]. cbn. fold (track_buf st1). rewrite Hb, Hreg, Hm. cbn.
  rewrite delete_insert_id by done. by rewrite delete_insert_id.
Qed.
End Track.

(** ** A track on a concrete system *)

Definition sdk_ao : AoConsts := {|
  HI_UNF_SAMPLE_RATE_48K := 48000; HI_UNF_SAMPLE_RATE_44K := 44100;
  HI_UNF_BIT_DEPTH_16 := 16; HI_UNF_SND_OUTPUTPORT_MAX := 3;
  HI_UNF_SND_OUTPUTPORT_BUTT := 255; HI_ERR_AO_OUT_BUF_FULL := -2146303988;
  HI_ERR_AO_INVALID_PARA := -2146303998; HI_ID_AO := 17; sizeof_AIP_REGS := 256 |}.

Lemma sdk_ao_ok : AoConstsOk sdk_consts sdk_ao.
Proof. by split. Qed.

(** A driver that takes everything, with the given ports. *)
Definition willing (ports : list SND_PORT_KERNEL_ATTR_S) : AoEnv := {|
  HI_MEM_Map := fun _ m _ _ => fresh ({[0]} ∪ dom m : gset Z);
  CMD_MMAPTRACKATTR := fun _ _ _ => (0, 4096);
  CMD_SETFIFOBYPASS := fun _ _ _ => 0;
  CMD_SETDMAMODE := fun _ _ _ => 0;
  CMD_GETPORTINFO := fun _ => (0, ports) |}.

Lemma willing_fresh ports n m phy size : @HI_MEM_Map (willing ports) n m phy size ∉ ({[0]} ∪ dom m : gset Z).
Proof. apply is_fresh. Qed.

Lemma willing_ok ports : AoEnvOk (willing ports).
Proof.
  split. intros n m phy size _. pose proof (willing_fresh ports n m phy size) as H.
  apply not_elem_of_dom. set_solver.
Qed.

Lemma willing_maps ports n m phy size : @HI_MEM_Map (willing ports) n m phy size <> 0.
Proof. pose proof (willing_fresh ports n m phy size). set_solver. Qed.

Definition track_bytes : list Z := replicate 76800 0.

Definition track_sample : ao :=
  let A := sdk_ao in
  mkAo (<[4096 := Regs (mkAip 8192 76800 76796 76796)]>
          {[8192 := Bytes track_bytes]}) ∅ 0 []
    (mkMmapAttr 16 48000 2 (mkMmapBuf 0 0 0 0)) 0 zero_source.

(** The same track, mapped. *)
Definition track_mapped : ao :=
  set_mmap_buf (fun _ => mkMmapBuf 2 1 1 76800)
    (track_sample <| maps := <[1 := 4096]> {[2 := 8192]} |>).

Definition pcm8 : HI_UNF_AO_FRAMEINFO_S := mkFrame 16 48000 2 2 (Some [1; 2; 3; 4; 5; 6; 7; 8]).

Definition track_script : list track_op := [TSend pcm8; TPlay 3; TDelay; TSend pcm8; TPlay 9].

Lemma track_bytes_wf : ring_wf track_bytes 76796 76796 76800.
Proof. split; [lia|by vm_compute|lia|lia]. Qed.

Lemma track_script_ok : Forall track_op_ok track_script.
Proof. repeat constructor; cbn; lia. Qed.

Lemma track_stream_witness :
  let A := sdk_ao in let E := willing [] in
  exists st' accepted played q,
    track_run 0x110100 4096 track_mapped track_script = Some (st', accepted, played) /\
    track_holds st' 4096 q /\ accepted = played ++ q /\
    LOWLATENCY_GetAIPDelayMs st' 0x110100 =
      Some (Z.of_nat (length q) * 1000 / 192000, HI_SUCCESS) /\
    Z.of_nat (length q) < 76800.
Proof.
  intros A E. apply (track_stream (AOk := sdk_ao_ok)).
  - exists 8192, track_bytes, 76796, 76796. split; [|by vm_compute].
    split; try reflexivity. exact track_bytes_wf.
  - cbn. lia.
  - exact track_script_ok.
Defined.

(** The two frames wrap around the end of the ring and come out in order. *)
Example track_script_played :
  let A := sdk_ao in let E := willing [] in
  (fun x => (x.1.2, x.2)) <$> track_run 0x110100 4096 track_mapped track_script =
    Some ([1; 2; 3; 4; 5; 6; 7; 8; 1; 2; 3; 4; 5; 6; 7; 8],
          [1; 2; 3; 4; 5; 6; 7; 8; 1; 2; 3; 4]).
Proof. vm_compute. reflexivity. Qed.

(** A ring smaller than the water mark: a frame is accepted that runs over its end. *)
Example small_ring_faults :
  let A := sdk_ao in let E := willing [] in
  let small := set_mmap_buf (fun _ => mkMmapBuf 2 1 1 64)
    (track_mapped <| phys := <[4096 := Regs (mkAip 8192 64 0 0)]>
                               {[8192 := Bytes (replicate 64 0)]} |>) in
  LOWLATENCY_SendData small 0x110100 (mkFrame 16 48000 2 40 None) = None.
Proof. vm_compute. reflexivity. Qed.

Lemma track_open_close_witness :
  let A := sdk_ao in let E := willing [] in
  exists st1 st2 st3 accepted played,
    LOWLATENCY_EnableLowLatencyAttr track_sample 0x110100 true = Some (st1, HI_SUCCESS) /\
    track_holds st1 4096 [] /\
    track_run 0x110100 4096 st1 track_script = Some (st2, accepted, played) /\
    LOWLATENCY_EnableLowLatencyAttr st2 0x110100 false = Some (st3, HI_SUCCESS) /\
    st3.(maps) = track_sample.(maps).
Proof.
  intros A E.
  apply (track_open_close (AOk := sdk_ao_ok) (EOk := willing_ok []) _ _ _
           (8192, track_bytes) 76796).
  - split.
    + reflexivity.
    + discriminate.
    + vm_compute. reflexivity.
    + reflexivity.
    + replace (Z.of_nat _) with 76800 by (vm_compute; reflexivity). exact track_bytes_wf.
    + done.
    + done.
    + apply willing_maps.
  - vm_compute. congruence.
  - exact track_script_ok.
Defined.
