(* ===== verification/AoDma.v ===== *)
(** * The DMA ports as queues of PCM bytes

    Runs of the DMA source of AoLowLat.v: frames sent to all ports of the sound card
    and the hardware playing from each of them, in any order; and the mappings
    that a source holds from its creation to its end. *)

From S2P Require Import Prelude.
From S2P Require Import AoRing.
From S2P Require Import AoLowLat.
From S2P Require Import AoTrack.

(** A frame for all ports, or the hardware of the [i]-th port in use taking at most
    [n] bytes. *)
Inductive dma_op :=
| DSend (f : HI_UNF_AO_FRAMEINFO_S) (ms : Z)
| DPlay (i : nat) (n : Z).

(** A port in use: what the library knows of it and what the driver told. *)
Notation port := (SND_PORT_USER_ATTR_S * SND_PORT_KERNEL_ATTR_S)%type.

Section Dma.
Context {C : HiConsts} {A : AoConsts} {E : AoEnv}.
Implicit Types (st : ao) (f : HI_UNF_AO_FRAMEINFO_S) (q : list Z) (p : port)
  (ps : list port) (qs : list (list Z)) (us : list SND_PORT_USER_ATTR_S).

(** The physical places of a port. *)
Definition places p : list Z := [p.2.(u32PhyDma); p.2.(u32PhyWptr); p.2.(u32PhyRptr)].

(** The port is mapped and its ring holds [q]. *)
Record port_holds st p q : Prop := mkPortHolds {
  ph_dma : st.(maps) !! p.1.(pDmaAddr) = Some p.2.(u32PhyDma);
  ph_wptr : st.(maps) !! p.1.(pu32Wptr) = Some p.2.(u32PhyWptr);
  ph_rptr : st.(maps) !! p.1.(pu32Rptr) = Some p.2.(u32PhyRptr);
  ph_size : p.1.(u32Size) = p.2.(k_u32Size);
  ph_ring : exists d r w,
    st.(phys) !! p.2.(u32PhyDma) = Some (Bytes d) /\
    st.(phys) !! p.2.(u32PhyWptr) = Some (Word w) /\
    st.(phys) !! p.2.(u32PhyRptr) = Some (Word r) /\
    ring_wf d r w p.1.(u32Size) /\ contents d r w p.1.(u32Size) = q;
}.

(** The ports in use are [ps], at places of their own, and hold [qs]. *)
Record dma_holds st ps qs : Prop := mkDmaHolds {
  dh_used : List.filter port_used st.(g_DMASource).(stPortUAttr) = ps.*1;
  dh_apart : NoDup (ps ≫= places);
  dh_ports : Forall2 (port_holds st) ps qs;
}.

(** The state differs at the physical places [xs] alone. *)
Definition changes (xs : list Z) st st' : Prop :=
  only_phys st st' /\ forall x, x ∉ xs -> st'.(phys) !! x = st.(phys) !! x.

Lemma changes_mono xs ys st st' : xs ⊆ ys -> changes xs st st' -> changes ys st st'.
Proof. intros Hsub [H1 H2]. split; [done|]. intros x Hx. apply H2. set_solver. Qed.

Lemma changes_trans xs st st1 st2 : changes xs st st1 -> changes xs st1 st2 -> changes xs st st2.
Proof.
  intros [H1 H2] [H3 H4]. split; [by etrans|]. intros x Hx. by rewrite H4, H2.
Qed.

Lemma port_holds_frame xs st st' p q :
  changes xs st st' -> (forall x, x ∈ places p -> x ∉ xs) ->
  port_holds st p q -> port_holds st' p q.
Proof.
  intros [[m ->] Heq] Hx [H1 H2 H3 H4 (d & r & w & H5 & H6 & H7 & H8)]. cbn in Heq.
  split; cbn; auto. exists d, r, w. rewrite !Heq by (apply Hx; unfold places; set_solver).
  auto.
Qed.

Lemma ports_frame xs st st' ps qs :
  changes xs st st' -> (forall p x, p ∈ ps -> x ∈ places p -> x ∉ xs) ->
  Forall2 (port_holds st) ps qs -> Forall2 (port_holds st') ps qs.
Proof.
  intros Hc Hx H. induction H as [|p q ps qs Hp _ IH]; constructor.
  - eapply port_holds_frame; [done| |done]. intros x. apply Hx. left.
  - apply IH. intros p' x Hin. apply Hx. by right.
Qed.

(** ** Writing to the ports *)

Lemma port_busy st p q :
  port_holds st p q -> DMAPortQueryBusy st p.1 = Some (Z.of_nat (length q)).
Proof.
  intros [H1 H2 H3 _ (d & r & w & H5 & H6 & H7 & H8 & <-)]. unfold DMAPortQueryBusy.
  rewrite (read_word_ok _ _ _ _ H3 H7), (read_word_ok _ _ _ _ H2 H6). simpl.
  by rewrite (dma_busy_len_eq d), (contents_length _ _ _ _ H8).
Qed.

Lemma port_write_ok st p q src len :
  port_holds st p q -> NoDup (places p) -> 0 <= len -> src_covers src len ->
  Z.of_nat (length q) + len < p.1.(u32Size) ->
  exists st', DMAPortWrite st p.1 src len = Some (st', len) /\
    port_holds st' p (q ++ data src len) /\ changes (places p) st st'.
Proof.
  intros [H1 H2 H3 H4 (d & r & w & H5 & H6 & H7 & H8 & <-)] Hnd Hlen Hsrc Hroom.
  rewrite (contents_length _ _ _ _ H8) in Hroom.
  destruct (ring_write_ok d src r w _ len H8 Hlen Hsrc Hroom) as (d' & w' & Hw & Hwf' & Hc).
  unfold places in Hnd. rewrite !NoDup_cons in Hnd.
  assert (p.2.(u32PhyWptr) <> p.2.(u32PhyDma)) as Hwd by set_solver.
  assert (p.2.(u32PhyRptr) <> p.2.(u32PhyDma)) as Hrd by set_solver.
  assert (p.2.(u32PhyRptr) <> p.2.(u32PhyWptr)) as Hrw by set_solver.
  unfold DMAPortWrite. rewrite (read_word_ok _ _ _ _ H3 H7), (read_word_ok _ _ _ _ H2 H6).
  simpl. rewrite (write_ring_ok _ _ _ _ _ _ _ _ _ _ _ _ H1 H5 Hw). simpl.
  rewrite (store_ok _ _ p.2.(u32PhyWptr)) by done. simpl.
  eexists. split; [done|]. split.
  - split; cbn; auto. exists d', r, w'.
    split_and!; rewrite ?lookup_insert_ne, ?lookup_insert_eq by done; auto.
  - split; [by eexists|]. unfold places. intros x Hx. cbn.
    rewrite !lookup_insert_ne by set_solver. done.
Qed.

Lemma for_ports_used W us st ret :
  for_ports W us st ret = for_ports W (List.filter port_used us) st ret.
Proof.
  revert st ret. induction us as [|u us IH]; intros; simpl; [done|].
  destruct (port_used u) eqn:Hu; [|apply IH]. simpl. rewrite Hu.
  destruct (W st u) as [[? ?]|]; [apply IH|done].
Qed.

Lemma ports_free_used us st size latency :
  ports_free us st size latency = ports_free (List.filter port_used us) st size latency.
Proof.
  induction us as [|u us IH]; simpl; [done|].
  destruct (port_used u) eqn:Hu; [|done]. simpl. rewrite Hu.
  destruct (DMAPortQueryBusy st u); simpl; [by rewrite IH|done].
Qed.

(** A loop whose body writes the same data to a port appends it to every queue. *)
Lemma for_ports_ok (W : ao -> SND_PORT_USER_ATTR_S -> option (ao * Z)) src len rc S ps qs st ret :
  0 <= len -> src_covers src len ->
  (forall st u st', st.(g_DMASource) = S -> DMAPortWrite st u src len = Some (st', len) ->
    W st u = Some (st', rc)) ->
  st.(g_DMASource) = S -> Forall (fun p => port_used p.1 = true) ps ->
  NoDup (ps ≫= places) -> Forall2 (port_holds st) ps qs ->
  Forall2 (fun p q => Z.of_nat (length q) + len < p.1.(u32Size)) ps qs ->
  exists st' ret', for_ports W (ps.*1) st ret = Some (st', ret') /\
    (ret' = ret \/ ret' = rc) /\
    changes (ps ≫= places) st st' /\
    Forall2 (port_holds st') ps (map (fun q => q ++ data src len) qs).
Proof.
  intros Hlen Hsrc HW. revert qs st ret.
  induction ps as [|p ps IH]; intros qs st ret HS Hu Hnd Hp Hroom.
  { inversion_clear Hp. exists st, ret. simpl. split_and!; auto. by split. }
  inversion Hp as [|? q ? qs' Hq Hps]; subst. inversion Hroom as [|? ? ? ? Hr Hrs]; subst.
  inversion Hu as [|? ? Hup Hus]; subst.
  rewrite bind_cons, NoDup_app in Hnd. destruct Hnd as (Hnp & Hsep & Hnps).
  destruct (port_write_ok st p q src len Hq Hnp Hlen Hsrc Hr) as (st1 & Hw & Hq1 & Hc1).
  simpl. rewrite Hup, (HW _ _ _ eq_refl Hw). simpl.
  destruct (IH qs' st1 rc) as (st2 & ret2 & Hf & Hret & Hc2 & Hqs); auto.
  { by destruct Hc1 as [[m ->] _]. }
  { eapply ports_frame; [done| |done]. intros p' x Hin Hx Hx'. apply (Hsep x Hx').
    apply list_elem_of_bind. eauto. }
  exists st2, ret2. split; [done|]. split; [tauto|]. split.
  - change (changes (places p ++ (ps ≫= places)) st st2). apply (changes_trans _ _ st1).
    + apply (changes_mono (places p)); [set_solver|done].
    + apply (changes_mono (ps ≫= places)); [set_solver|done].
  - constructor; [|done]. eapply port_holds_frame; [done| |done]. intros x Hx. by apply Hsep.
Qed.

Lemma ports_free_ok ps qs st size latency :
  Forall (fun p => port_used p.1 = true) ps -> Forall2 (port_holds st) ps qs ->
  Forall (fun q => is_u32 (Z.of_nat (length q) + size)) qs ->
  ports_free (ps.*1) st size latency =
    Some (forallb (fun q => Z.of_nat (length q) + size <=? latency) qs).
Proof.
  intros Hu H Hb. induction H as [|p q ps qs Hp _ IH]; simpl; [done|].
  inversion_clear Hu as [|? ? Hup Hus]. inversion_clear Hb as [|? ? Hbq Hbs].
  rewrite Hup, (port_busy _ _ _ Hp). simpl. rewrite u32_small by done.
  rewrite Z.gtb_ltb. destruct (Z.ltb_spec latency (Z.of_nat (length q) + size)).
  - by zfalse (Z.of_nat (length q) + size <=? latency).
  - ztrue (Z.of_nat (length q) + size <=? latency). by apply IH.
Qed.

(** ** Sending a frame *)

Context {AOk : AoConstsOk C A}.

(** The caller's samples cover the frame, and the sums of the water mark do not
    wrap around. *)
Definition dma_frame_ok f : Prop :=
  0 <= f.(u32PcmSamplesPerFrame) /\ f.(u32PcmSamplesPerFrame) * 4 + 7936 < 4294967296 /\
  (f.(u32Channels) = 2 -> src_covers f.(ps32PcmBuffer) (f.(u32PcmSamplesPerFrame) * 4)).

(** The water mark is at most 40 ms at 48 kHz, 7680 bytes; the 256 bytes that
    precede the first frame do not look at it. *)
Definition dma_bound (en : bool) : Z := if en then 7936 else 7680.

Record dma_ok st ps qs : Prop := mkDmaOk {
  do_holds : dma_holds st ps qs;
  do_bound : Forall (fun q => Z.of_nat (length q) <= dma_bound st.(g_DMASource).(bEnable)) qs;
  do_room : Forall (fun p => 7936 < p.1.(u32Size)) ps;
}.

(** What a send puts into every ring: silence when it switches the source on, and
    the frame when it is accepted; the first eleven frames are silenced. *)
Definition prepared st st' : list Z :=
  if st'.(g_DMASource).(bEnable) && negb st.(g_DMASource).(bEnable) then replicate 256 0 else [].

Definition sound st f : option (list Z) :=
  if st.(g_DMASource).(u32FrmCnt) >? SND_MUTES_FRAMES then f.(ps32PcmBuffer) else None.

Definition dma_added st st' f (ret : Z) : list Z :=
  prepared st st' ++ if ret =? HI_SUCCESS then data (sound st f) (frame_size f) else [].

Lemma holds_used st ps qs : dma_holds st ps qs -> Forall (fun p => port_used p.1 = true) ps.
Proof.
  intros [H _ _]. assert (Forall (fun u => port_used u = true) (ps.*1)) as Hall.
  { rewrite <- H. apply Forall_forall. intros u Hu.
    apply list_elem_of_In, filter_In in Hu. tauto. }
  by apply Forall_fmap in Hall.
Qed.

(** The queues depend on the memory, the mappings and the list of ports. *)
Lemma holds_same st st' ps qs :
  st'.(phys) = st.(phys) -> st'.(maps) = st.(maps) ->
  st'.(g_DMASource).(stPortUAttr) = st.(g_DMASource).(stPortUAttr) ->
  dma_holds st ps qs -> dma_holds st' ps qs.
Proof.
  intros Hp Hm Hu [H1 H2 H3]. split; [by rewrite Hu|done|].
  eapply Forall2_impl; [done|]. intros p q [H4 H5 H6 H7 H8].
  split; rewrite ?Hm, ?Hp; done.
Qed.

Lemma changes_fields xs st st' :
  changes xs st st' -> st'.(g_DMASource) = st.(g_DMASource) /\ st'.(maps) = st.(maps).
Proof. by intros [[m ->] _]. Qed.

Lemma room_ok ps qs len b :
  Forall (fun q => Z.of_nat (length q) <= b) qs -> Forall (fun p => 7936 < p.1.(u32Size)) ps ->
  length ps = length qs -> b + len <= 7936 ->
  Forall2 (fun p q => Z.of_nat (length q) + len < p.1.(u32Size)) ps qs.
Proof.
  intros Hq Hp Hl Hb. revert qs Hq Hl. induction Hp as [|p ps Hp _ IH]; intros [|q qs] Hq Hl;
    try done; constructor; inversion_clear Hq; simpl in *; [lia|]. apply IH; auto.
Qed.

Lemma bound_app d b b' qs :
  Forall (fun q => Z.of_nat (length q) <= b) qs -> b + Z.of_nat (length d) <= b' ->
  Forall (fun q => Z.of_nat (length q) <= b') (map (fun q => q ++ d) qs).
Proof.
  intros H Hb. apply Forall_fmap. eapply Forall_impl; [done|]. simpl. intros q Hq.
  rewrite length_app. lia.
Qed.

(** A loop over the ports in use that appends the same data to all queues. *)
Lemma loop_ok W src len rc ret st ps qs :
  dma_holds st ps qs -> 0 <= len -> src_covers src len ->
  (forall st1 u st', st1.(g_DMASource) = st.(g_DMASource) ->
    DMAPortWrite st1 u src len = Some (st', len) -> W st1 u = Some (st', rc)) ->
  Forall2 (fun p q => Z.of_nat (length q) + len < p.1.(u32Size)) ps qs ->
  exists st' ret', for_ports W st.(g_DMASource).(stPortUAttr) st ret = Some (st', ret') /\
    (ret' = ret \/ ret' = rc) /\ st'.(g_DMASource) = st.(g_DMASource) /\
    dma_holds st' ps (map (fun q => q ++ data src len) qs).
Proof.
  intros H Hlen Hsrc HW Hroom. pose proof (holds_used _ _ _ H) as Hu. destruct H as [H1 H2 H3].
  destruct (for_ports_ok W src len rc st.(g_DMASource) ps qs st ret)
    as (st' & ret' & Hf & Hret & Hc & Hqs); auto.
  exists st', ret'. rewrite for_ports_used, H1. split; [done|]. split; [done|].
  destruct (changes_fields _ _ _ Hc) as [Hs _]. split; [done|]. by split; rewrite ?Hs.
Qed.

Lemma dma_enable_ok st ps qs rate :
  dma_ok st ps qs ->
  exists st' ret, DMAEnable st rate = Some (st', ret) /\
    dma_ok st' ps (map (fun q => q ++ prepared st st') qs) /\
    (ret = HI_SUCCESS -> st'.(g_DMASource).(bEnable) = true) /\
    st'.(g_DMASource).(u32FrmCnt) = st.(g_DMASource).(u32FrmCnt).
Proof.
  intros [H Hb Hr]. unfold DMAEnable. destruct (bEnable _) eqn:Hen; simpl in Hb.
  { exists st, HI_SUCCESS. unfold prepared. rewrite Hen. simpl.
    split_and!; auto. rewrite (map_ext _ id), map_id by (intros; apply app_nil_r).
    split; auto. by rewrite Hen. }
  unfold SetSndDMAMode. set (ret := CMD_SETDMAMODE _ _ _).
  destruct (Z.eqb_spec ret HI_SUCCESS) as [Hs|Hs]; simpl.
  2:{ eexists _, _. split; [done|]. unfold prepared. cbn. rewrite Hen. simpl.
      split_and!; auto. rewrite (map_ext _ id), map_id by (intros; apply app_nil_r).
      split; auto; [by apply (holds_same st)|]. cbn. by rewrite Hen. }
  unfold DMAPrepare. set (st0 := logs _ _).
  assert (dma_holds st0 ps qs) as H0 by by apply (holds_same st).
  destruct (loop_ok prepare_port None 256 256 HI_SUCCESS st0 ps qs H0)
    as (st1 & ret1 & -> & _ & Hsrc & H1); [lia|done| | |].
  { intros st2 u st' _ Hw. unfold prepare_port. by rewrite Hw. }
  { apply (room_ok _ _ _ 7680); auto; [|lia]. by eapply Forall2_length, dh_ports. }
  simpl. eexists _, _. split; [done|]. unfold prepared. cbn. rewrite Hen. simpl.
  split_and!; auto; [|by rewrite Hsrc]. split; auto.
  - by apply (holds_same st1).
  - eapply bound_app; [exact Hb|]. cbn. lia.
Qed.

Lemma dma_latency_bound ms f :
  f.(u32Channels) = 2 -> 10 <= ms <= 40 ->
  f.(u32SampleRate) = HI_UNF_SAMPLE_RATE_48K \/ f.(u32SampleRate) = HI_UNF_SAMPLE_RATE_44K ->
  latency_size ms f <= 7680.
Proof.
  intros Hch Hms Hrate. rewrite ao_48k, ao_44k in Hrate. unfold latency_size. rewrite Hch.
  destruct Hrate as [-> | ->]; wraps; apply Z.div_le_upper_bound; lia.
Qed.

Lemma dma_frame_size_ok f :
  dma_frame_ok f -> f.(u32Channels) = 2 -> frame_size f = f.(u32PcmSamplesPerFrame) * 4.
Proof. intros (? & ? & _) H2. unfold frame_size. rewrite H2. wraps. lia. Qed.

Lemma sound_covers st f :
  dma_frame_ok f -> f.(u32Channels) = 2 -> src_covers (sound st f) (frame_size f).
Proof.
  intros Hf Hch. rewrite (dma_frame_size_ok f Hf Hch). destruct Hf as (_ & _ & Hs).
  unfold sound. destruct (_ >? _); [by apply Hs|done].
Qed.

(** The loop that writes a frame. *)
Lemma send_loop_ok st ps qs f :
  dma_holds st ps qs -> Forall (fun p => 7936 < p.1.(u32Size)) ps ->
  dma_frame_ok f -> f.(u32Channels) = 2 ->
  Forall (fun q => Z.of_nat (length q) + frame_size f <= 7680) qs ->
  exists st', for_ports (fun st u => PortWriteFrame st u f) st.(g_DMASource).(stPortUAttr)
                st HI_SUCCESS = Some (st', HI_SUCCESS) /\
    st'.(g_DMASource) = st.(g_DMASource) /\
    dma_holds st' ps (map (fun q => q ++ data (sound st f) (frame_size f)) qs).
Proof.
  intros H Hr Hf Hch Hb. pose proof (dma_frame_size_ok f Hf Hch) as Hfs.
  assert (0 <= frame_size f) as Hpos by (rewrite Hfs; destruct Hf; lia).
  destruct (loop_ok (fun st u => PortWriteFrame st u f) (sound st f) (frame_size f)
              HI_SUCCESS HI_SUCCESS st ps qs H Hpos (sound_covers st f Hf Hch))
    as (st' & ret & -> & Hret & Hs & H').
  - intros st1 u st2 Hsame Hw. unfold PortWriteFrame. rewrite Hsame. fold (sound st f).
    rewrite Hw. simpl. by rewrite Z.eqb_refl.
  - apply (room_ok _ _ _ (7680 - frame_size f)); auto; [|by eapply Forall2_length, dh_ports|lia].
    eapply Forall_impl; [done|]. simpl. lia.
  - exists st'. destruct Hret as [-> | ->]; auto.
Qed.

Lemma map_app_nil qs : map (fun q => q ++ []) qs = qs.
Proof. rewrite (map_ext _ id); [apply map_id|]. intros. apply app_nil_r. Qed.

(** What follows once the source is on: the water mark, then the frame. *)
Lemma dma_write_ok st ps qs f ms :
  dma_ok st ps qs -> st.(g_DMASource).(bEnable) = true -> dma_frame_ok f ->
  f.(u32Channels) = 2 -> latency_size ms f <= 7680 ->
  exists st' ret,
    (free ← PortCheckAllFree st f ms;
     if negb free then Some (st, HI_ERR_AO_OUT_BUF_FULL)
     else '(st, ret) ← for_ports (fun st u => PortWriteFrame st u f)
                         st.(g_DMASource).(stPortUAttr) st HI_SUCCESS;
          Some (set_source (fun s => s <| u32FrmCnt ::= fun n => n +u 1 |>) st, ret))
      = Some (st', ret) /\
    st'.(g_DMASource).(bEnable) = true /\
    dma_ok st' ps (map (fun q => q ++
      if ret =? HI_SUCCESS then data (sound st f) (frame_size f) else []) qs).
Proof.
  intros [H Hb Hr] Hon Hf Hch Hlat. rewrite Hon in Hb.
  pose proof (dma_frame_size_ok f Hf Hch) as Hfs. pose proof ao_full_ne as Hfull.
  unfold PortCheckAllFree. rewrite ports_free_used, (dh_used _ _ _ H).
  rewrite (ports_free_ok ps qs); [|by eapply holds_used|apply H|].
  2:{ eapply Forall_impl; [exact Hb|]. simpl. intros q Hq. rewrite Hfs.
      destruct Hf as (? & ? & _). unfold is_u32. lia. }
  simpl. destruct (forallb _ qs) eqn:Hfree; simpl.
  2:{ exists st, HI_ERR_AO_OUT_BUF_FULL. split_and!; auto.
      zfalse (HI_ERR_AO_OUT_BUF_FULL =? HI_SUCCESS). rewrite map_app_nil.
      split; [done|by rewrite Hon|done]. }
  assert (Forall (fun q => Z.of_nat (length q) + frame_size f <= 7680) qs) as Hfit.
  { apply Forall_forall. intros q Hq. rewrite forallb_forall in Hfree.
    specialize (Hfree q ltac:(by apply list_elem_of_In)). lia. }
  destruct (send_loop_ok st ps qs f H Hr Hf Hch Hfit) as (st2 & -> & Hs2 & H2).
  simpl. eexists _, _. split; [done|]. rewrite Z.eqb_refl. cbn. rewrite Hs2.
  split; [done|]. split; [by apply (holds_same st2)| |done].
  cbn. rewrite Hs2, Hon. apply Forall_fmap. eapply Forall_impl; [exact Hfit|]. simpl.
  intros q Hq. rewrite length_app, Nat2Z.inj_add, data_length; [lia| |by apply sound_covers].
  rewrite Hfs. destruct Hf; lia.
Qed.

(** Every branch of a send: all queues get the same bytes. *)
Lemma dma_send_ok st ps qs f ms :
  dma_ok st ps qs -> dma_frame_ok f ->
  exists st' ret, SND_DMA_SendData st f ms = Some (st', ret) /\
    dma_ok st' ps (map (fun q => q ++ dma_added st st' f ret) qs).
Proof.
  intros H Hf. pose proof ao_para_ne as Hpara.
  assert (dma_ok st ps (map (fun q => q ++ dma_added st st f HI_ERR_AO_INVALID_PARA) qs)).
  { unfold dma_added, prepared. rewrite andb_negb_r.
    zfalse (HI_ERR_AO_INVALID_PARA =? HI_SUCCESS). by rewrite map_app_nil. }
  unfold SND_DMA_SendData.
  destruct (negb (f.(u32Channels) =? 2) || _) eqn:Hfmt; [by eauto|].
  destruct (negb (f.(u32SampleRate) =? _) && _) eqn:Hrate; [by eauto|].
  destruct ((ms >? 40) || _) eqn:Hms; [by eauto|].
  apply orb_false_elim in Hfmt as [Hch _]. apply negb_false_iff, Z.eqb_eq in Hch.
  pose proof (dma_latency_bound ms f Hch ltac:(lia) ltac:(lia)) as Hlat.
  destruct (dma_enable_ok st ps qs f.(u32SampleRate) H) as (st1 & ret1 & -> & H1 & Hon & Hcnt).
  simpl. destruct (Z.eqb_spec ret1 HI_SUCCESS) as [->|Hr1]; simpl.
  2:{ exists st1, ret1. split; [done|]. unfold dma_added. zfalse (ret1 =? HI_SUCCESS).
      erewrite map_ext; [exact H1|]. intros q. simpl. by rewrite app_nil_r. }
  specialize (Hon eq_refl).
  destruct (dma_write_ok st1 ps _ f ms H1 Hon Hf Hch Hlat) as (st2 & ret2 & -> & Hon2 & H2).
  exists st2, ret2. split; [done|]. rewrite map_map in H2.
  erewrite map_ext; [exact H2|]. intros q. unfold dma_added, prepared, sound.
  by rewrite Hon2, Hon, Hcnt, app_assoc.
Qed.

(** ** Runs *)

(** One step: the state, the bytes put into every ring, and what was played on which
    port. [ks] are the ports in use, as the hardware sees them. *)
Definition dma_step (ks : list SND_PORT_KERNEL_ATTR_S) st (op : dma_op)
    : option (ao * list Z * list (nat * list Z)) :=
  match op with
  | DSend f ms =>
      '(st', ret) ← SND_DMA_SendData st f ms; Some (st', dma_added st st' f ret, [])
  | DPlay i n =>
      match ks !! i with
      | Some k => '(st, out) ← port_plays k n st; Some (st, [], [(i, out)])
      | None => Some (st, [], [])
      end
  end.

Fixpoint dma_run ks st (ops : list dma_op) : option (ao * list Z * list (nat * list Z)) :=
  match ops with
  | [] => Some (st, [], [])
  | op :: ops =>
      '(st, acc, out) ← dma_step ks st op;
      '(st, acc', out') ← dma_run ks st ops;
      Some (st, acc ++ acc', out ++ out')
  end.

(** What the [i]-th port has played. *)
Definition played_on (i : nat) (l : list (nat * list Z)) : list Z :=
  concat (map (fun x => if Nat.eqb x.1 i then x.2 else []) l).

Definition dma_op_ok (op : dma_op) : Prop :=
  match op with DSend f _ => dma_frame_ok f | DPlay _ n => 0 <= n end.

Lemma played_on_app i l l' : played_on i (l ++ l') = played_on i l ++ played_on i l'.
Proof. unfold played_on. by rewrite map_app, concat_app. Qed.

Lemma places_apart ps i j p p' x :
  NoDup (ps ≫= places) -> ps !! i = Some p -> ps !! j = Some p' ->
  x ∈ places p -> x ∈ places p' -> i = j.
Proof.
  revert i j. induction ps as [|p0 ps IH]; [done|].
  intros i j. rewrite bind_cons, NoDup_app. intros (_ & Hsep & Hnd) Hi Hj Hx Hx'.
  assert (forall k p1, ps !! k = Some p1 -> x ∈ places p1 -> x ∈ ps ≫= places) as Hin.
  { intros k p1 Hk Hx1. apply list_elem_of_bind. exists p1. split; [done|].
    by eapply list_elem_of_lookup_2. }
  destruct i as [|i], j as [|j]; simpl in *; simplify_eq; try done.
  - exfalso. eapply Hsep; eauto.
  - exfalso. eapply Hsep; eauto.
  - f_equal. eauto.
Qed.

Lemma port_plays_ok st p q n :
  port_holds st p q -> NoDup (places p) -> 0 <= n ->
  exists st' out q', port_plays p.2 n st = Some (st', out) /\ q = out ++ q' /\
    port_holds st' p q' /\ changes [p.2.(u32PhyRptr)] st st'.
Proof.
  intros [H1 H2 H3 H4 (d & r & w & H5 & H6 & H7 & H8 & <-)] Hnd Hn.
  unfold places in Hnd. rewrite !NoDup_cons in Hnd.
  pose proof (busy_bounds _ _ _ _ H8) as Hb. rewrite H4 in H8, Hb.
  set (m := Z.min n (busy_len r w p.2.(k_u32Size))).
  destruct (ring_advance_ok d r w _ m H8 ltac:(lia)) as [Hwf' Hc].
  unfold port_plays. rewrite H5, H6, H7. cbv zeta. fold m.
  eexists _, _, _. split; [done|]. split_and!.
  - symmetry. rewrite H4. apply take_drop.
  - split; cbn; auto. exists d, (advance r m p.2.(k_u32Size)), w.
    rewrite H4, !lookup_insert_ne by set_solver. rewrite lookup_insert_eq. split_and!; auto.
  - split; [by eexists|]. intros x Hx. cbn. apply lookup_insert_ne. set_solver.
Qed.

Lemma dma_play_ok st ps qs i n p q :
  dma_ok st ps qs -> ps !! i = Some p -> qs !! i = Some q -> 0 <= n ->
  exists st' out q', port_plays p.2 n st = Some (st', out) /\ q = out ++ q' /\
    dma_ok st' ps (<[i := q']> qs).
Proof.
  intros [[H1 H2 H3] Hb Hr] Hp Hq Hn.
  assert (NoDup (places p)) as Hnd.
  { clear -H2 Hp. revert i Hp. induction ps as [|p0 ps IH]; [done|]. intros [|i] Hp; simpl in Hp;
      rewrite bind_cons, NoDup_app in H2; destruct H2 as (? & _ & ?); [by simplify_eq|eauto]. }
  pose proof (Forall2_lookup_lr _ _ _ _ _ _ H3 Hp Hq) as Hh.
  destruct (port_plays_ok st p q n Hh Hnd Hn) as (st' & out & q' & Hpl & Heq & Hh' & Hc).
  exists st', out, q'. split; [done|]. split; [done|].
  destruct (changes_fields _ _ _ Hc) as [Hs _].
  split; [split; [by rewrite Hs|done|]| |done].
  - apply Forall2_same_length_lookup_2.
    { rewrite length_insert. by eapply Forall2_length. }
    intros j p1 q1 Hj Hj'. destruct (decide (i = j)) as [<-|Hne].
    + rewrite list_lookup_insert_eq in Hj' by (by eapply lookup_lt_Some). by simplify_eq.
    + rewrite list_lookup_insert_ne in Hj' by done.
      eapply port_holds_frame; [exact Hc| |by eapply Forall2_lookup_lr].
      intros x Hx Hx'. apply Hne. apply (places_apart ps i j p p1 x); auto.
      unfold places. set_solver.
  - rewrite Hs. apply Forall_insert; [done|].
    pose proof (Forall_lookup_1 _ _ _ _ Hb Hq) as Hlq. simpl in Hlq.
    rewrite Heq, length_app in Hlq. lia.
Qed.

(** One step, on the queue of every port. *)
Lemma dma_step_ok st ps qs op :
  dma_ok st ps qs -> dma_op_ok op ->
  exists st' acc out qs', dma_step (ps.*2) st op = Some (st', acc, out) /\
    dma_ok st' ps qs' /\
    forall i q, qs !! i = Some q ->
      exists q', qs' !! i = Some q' /\ q ++ acc = played_on i out ++ q'.
Proof.
  intros H Hop. destruct op as [f ms|i n]; simpl in *.
  - destruct (dma_send_ok st ps qs f ms H Hop) as (st' & ret & -> & H'). simpl.
    eexists _, _, _, _. split; [done|]. split; [exact H'|]. intros i q Hq.
    eexists. rewrite list_lookup_fmap, Hq. done.
  - rewrite list_lookup_fmap. destruct (ps !! i) as [p|] eqn:Hp; simpl.
    2:{ eexists _, _, _, qs. split; [done|]. split; [done|]. intros j q Hq. exists q.
        by rewrite app_nil_r. }
    destruct (qs !! i) as [q|] eqn:Hq.
    2:{ apply lookup_ge_None in Hq. apply lookup_lt_Some in Hp.
        apply do_holds, dh_ports, Forall2_length in H. lia. }
    destruct (dma_play_ok st ps qs i n p q H Hp Hq Hop) as (st' & out & q' & -> & Heq & H').
    simpl. eexists _, _, _, _. split; [done|]. split; [exact H'|]. intros j qj Hj.
    unfold played_on. simpl. rewrite !app_nil_r. destruct (Nat.eqb_spec i j) as [<-|Hne].
    + simplify_eq. exists q'. split; [|done]. apply list_lookup_insert_eq.
      by eapply lookup_lt_Some.
    + exists qj. by rewrite list_lookup_insert_ne.
Qed.

End Dma.
