(* ===== verification/AoPorts.v ===== *)
(** * The mappings of the DMA source

    What SND_DMA_Create and SND_DMA_Destory of AoLowLat.v do to the mappings of the
    process, and what they leave behind when a mapping fails. *)

From S2P Require Import Prelude.
From S2P Require Import AoRing.
From S2P Require Import AoLowLat.
From S2P Require Import AoTrack.
From S2P Require Import AoDma.

Section Ports.
Context {C : HiConsts} {A : AoConsts} {E : AoEnv}.
Implicit Types (st : ao) (u : SND_PORT_USER_ATTR_S) (k : SND_PORT_KERNEL_ATTR_S)
  (us : list SND_PORT_USER_ATTR_S) (ks : list SND_PORT_KERNEL_ATTR_S) (m : gmap Z Z).

(** The addresses that unmapping a port gives back. *)
Definition ptrs u : list Z :=
  if port_used u then filter (fun a => a <> 0) [u.(pDmaAddr); u.(pu32Wptr); u.(pu32Rptr)]
  else [].

Definition port_list st : list SND_PORT_USER_ATTR_S := st.(g_DMASource).(stPortUAttr).

(** The mappings are those of [m] and those the ports point to. *)
Definition adds_ports m st : Prop := forall a,
  (a ∈ port_list st ≫= ptrs -> m !! a = None) /\
  (a ∉ port_list st ≫= ptrs -> st.(maps) !! a = m !! a).

(** ** Unmapping *)

Lemma unmap_ptr_maps a b st :
  (unmap_ptr b st).(maps) !! a = if decide (a = b /\ b <> 0) then None else st.(maps) !! a.
Proof.
  unfold unmap_ptr. destruct (Z.eqb_spec b 0) as [->|Hb].
  - rewrite decide_False; [done|]. by intros [_ ?].
  - cbn. case_decide as Hd; [destruct Hd as [-> _]; apply lookup_delete_eq|].
    apply lookup_delete_ne. intros ->. by apply Hd.
Qed.

Lemma ptrs_spec u a :
  a ∈ ptrs u <-> port_used u = true /\ a <> 0 /\
    (a = u.(pDmaAddr) \/ a = u.(pu32Wptr) \/ a = u.(pu32Rptr)).
Proof.
  unfold ptrs. destruct (port_used u); [|set_solver].
  rewrite list_elem_of_filter, !elem_of_cons. set_solver.
Qed.

Lemma unmap_port_maps a u st :
  (unmap_port st u).(maps) !! a = if decide (a ∈ ptrs u) then None else st.(maps) !! a.
Proof.
  unfold unmap_port. destruct (port_used u) eqn:Hu.
  - rewrite !unmap_ptr_maps.
    repeat case_decide; try done; rewrite ptrs_spec in *; naive_solver.
  - rewrite decide_False; [done|]. rewrite ptrs_spec, Hu. by intros [? _].
Qed.

Lemma unmap_port_list u st : port_list (unmap_port st u) = port_list st.
Proof. unfold unmap_port, unmap_ptr. by repeat case_match. Qed.

Lemma unmap_all_maps us st a :
  (foldl unmap_port st us).(maps) !! a =
    if decide (a ∈ us ≫= ptrs) then None else st.(maps) !! a.
Proof.
  revert st. induction us as [|u us IH]; intros st; simpl.
  { done. }
  rewrite IH, unmap_port_maps. repeat case_decide; set_solver.
Qed.

Lemma unmap_all_list us st : port_list (foldl unmap_port st us) = port_list st.
Proof.
  revert st. induction us as [|u us IH]; intros st; simpl; [done|].
  by rewrite IH, unmap_port_list.
Qed.

Lemma unmap_all_rest us st :
  (foldl unmap_port st us).(phys) = st.(phys) /\
  (foldl unmap_port st us).(g_DMASource) = st.(g_DMASource).
Proof.
  revert st. induction us as [|u us IH]; intros st; simpl; [done|].
  destruct (IH (unmap_port st u)) as [-> ->]. unfold unmap_port, unmap_ptr.
  by repeat case_match.
Qed.

(** Unmapping all ports restores what was mapped without them. *)
Lemma unmap_restores m st : adds_ports m st -> (DMAUnmapPort st).1.(maps) = m.
Proof.
  intros H. apply map_eq. intros a. unfold DMAUnmapPort. simpl.
  rewrite unmap_all_maps. destruct (H a) as [H1 H2]. fold (port_list st).
  case_decide; [by rewrite H1|by apply H2].
Qed.

(** ** Mapping *)

Context {EOk : AoEnvOk E}.

Lemma mem_map_spec phy size st a st' :
  mem_map phy size st = (a, st') ->
  st'.(phys) = st.(phys) /\ st'.(g_DMASource) = st.(g_DMASource) /\
  st'.(maps) = (if a =? 0 then st.(maps) else <[a := phy]> st.(maps)) /\
  (a <> 0 -> st.(maps) !! a = None).
Proof.
  unfold mem_map. intros [= <- <-]. destruct (Z.eqb_spec (HI_MEM_Map (clock st) (maps st) phy size) 0).
  - by split_and!.
  - split_and!; try done. intros _. by apply map_fresh.
Qed.

(** Three mappings in a row: new ones, and the others as before. *)
Lemma three_maps p1 p2 p3 s1 s2 s3 st a1 a2 a3 st1 st2 st3 :
  mem_map p1 s1 st = (a1, st1) -> mem_map p2 s2 st1 = (a2, st2) ->
  mem_map p3 s3 st2 = (a3, st3) ->
  st3.(phys) = st.(phys) /\ st3.(g_DMASource) = st.(g_DMASource) /\
  (forall a, a ≠ 0 -> a = a1 \/ a = a2 \/ a = a3 -> st.(maps) !! a = None) /\
  (forall a, ~ (a ≠ 0 /\ (a = a1 \/ a = a2 \/ a = a3)) -> st3.(maps) !! a = st.(maps) !! a) /\
  (a1 ≠ 0 -> a2 ≠ 0 -> a3 ≠ 0 ->
   st3.(maps) !! a1 = Some p1 /\ st3.(maps) !! a2 = Some p2 /\ st3.(maps) !! a3 = Some p3).
Proof.
  intros (P1 & S1 & M1 & F1)%mem_map_spec (P2 & S2 & M2 & F2)%mem_map_spec
    (P3 & S3 & M3 & F3)%mem_map_spec.
  assert (Hlook : forall (m : gmap Z Z) a b p, (if b =? 0 then m else <[b := p]> m) !! a =
    if decide (b <> 0 /\ a = b) then Some p else m !! a).
  { intros m a b p. destruct (Z.eqb_spec b 0) as [->|Hb]; case_decide as Hd.
    - by destruct Hd.
    - done.
    - destruct Hd as [_ ->]. apply lookup_insert_eq.
    - apply lookup_insert_ne. intros ->. by apply Hd. }
  assert (L1 : forall a, st1.(maps) !! a = _) by (intros a; rewrite M1; apply Hlook).
  assert (L2 : forall a, st2.(maps) !! a = _) by (intros a; rewrite M2; apply Hlook).
  assert (L3 : forall a, st3.(maps) !! a = _) by (intros a; rewrite M3; apply Hlook).
  assert (N2 : a2 <> 0 -> st.(maps) !! a2 = None /\ a1 <> a2).
  { intros H. specialize (F2 H). rewrite L1 in F2. case_decide; naive_solver. }
  assert (N3 : a3 <> 0 -> st.(maps) !! a3 = None /\ a1 <> a3 /\ a2 <> a3).
  { intros H. specialize (F3 H). rewrite L2, L1 in F3.
    case_decide; [done|]. case_decide; [done|]. split; [done|]. split; intros ->; tauto. }
  split_and!; [congruence|congruence|naive_solver| |].
  - intros a Ha. rewrite L3, decide_False, L2, decide_False, L1, decide_False by naive_solver. done.
  - intros H1 H2 H3. destruct (N2 H2), (N3 H3) as (? & ? & ?).
    rewrite M3, M2, M1. zfalse (a1 =? 0). zfalse (a2 =? 0). zfalse (a3 =? 0).
    split_and!; rewrite ?lookup_insert_ne by congruence; apply lookup_insert_eq.
Qed.

(** The library's view [u] of a port agrees with what the driver told, [k]. *)
Definition port_mapped m u k : Prop :=
  u.(enOutPort) = k.(k_enOutPort) /\
  (port_used u = true ->
     m !! u.(pDmaAddr) = Some k.(u32PhyDma) /\ m !! u.(pu32Wptr) = Some k.(u32PhyWptr) /\
     m !! u.(pu32Rptr) = Some k.(u32PhyRptr) /\ u.(u32Size) = k.(k_u32Size)).

Lemma port_mapped_mono m m' u k : m ⊆ m' -> port_mapped m u k -> port_mapped m' u k.
Proof.
  intros Hsub [H1 H2]. split; [done|]. intros Hu. destruct (H2 Hu) as (? & ? & ? & ?).
  split_and!; try done; by eapply lookup_weaken.
Qed.

Lemma ptrs_insert us i u u' a :
  us !! i = Some u -> port_used u = false ->
  a ∈ <[i := u']> us ≫= ptrs <-> a ∈ ptrs u' \/ a ∈ us ≫= ptrs.
Proof.
  intros Hi Hu. assert (ptrs u = []) as Hn by (unfold ptrs; by rewrite Hu).
  rewrite (insert_take_drop us i u') by (by eapply lookup_lt_Some).
  rewrite <- (take_drop_middle us i u Hi) at 3.
  rewrite !bind_app, !bind_cons, Hn. set_solver.
Qed.

Definition kernel_list st : list SND_PORT_KERNEL_ATTR_S := st.(g_DMASource).(stPortKAttr).

(** One port: the bookkeeping stays right, and old mappings stay. *)
Lemma mmap_port_ok m st i k u st' failed :
  adds_ports m st -> port_list st !! i = Some u -> port_used u = false ->
  mmap_port st i k u = (st', failed) ->
  adds_ports m st' /\ st.(maps) ⊆ st'.(maps) /\ st'.(phys) = st.(phys) /\
  kernel_list st' = kernel_list st /\
  st'.(g_DMASource).(bEnable) = st.(g_DMASource).(bEnable) /\
  exists u', port_list st' = <[i := u']> (port_list st) /\
    (failed = true -> port_used u' = true /\
       exists n m p s, HI_MEM_Map n m p s = 0) /\
    (failed = false -> port_mapped st'.(maps) u' k).
Proof.
  intros Hadd Hi Hu. unfold mmap_port.
  destruct (port_used (u <| enOutPort := _ |>)) eqn:Hused.
  2:{ intros [= <- <-]. split_and!; try done.
      - intros a. unfold port_list. cbn. fold (port_list st). rewrite ptrs_insert by done.
        assert (a ∉ ptrs (u <| enOutPort := k.(k_enOutPort) |>))
          by (rewrite ptrs_spec, Hused; by intros [? _]).
        destruct (Hadd a). tauto.
      - eexists. split; [done|]. split; [done|]. split; [done|]. intros Hf. cbn in *. congruence. }
  destruct (mem_map k.(u32PhyDma) _ st) as [a1 st1] eqn:E1.
  destruct (mem_map k.(u32PhyWptr) _ st1) as [a2 st2] eqn:E2.
  destruct (mem_map k.(u32PhyRptr) _ st2) as [a3 st3] eqn:E3.
  destruct (three_maps _ _ _ _ _ _ _ _ _ _ _ _ _ E1 E2 E3) as (Hp & Hs & Hnew & Hold & Hall).
  set (u' := mkUAttr _ _ _ _ _). assert (port_used u' = true) as Hu' by exact Hused.
  intros [= <- <-]. split_and!; cbn; rewrite ?Hs; try done.
  - intros a. unfold port_list. cbn. rewrite Hs. fold (port_list st).
    rewrite ptrs_insert by done. rewrite ptrs_spec, Hu'. cbn. destruct (Hadd a) as [Ha1 Ha2].
    split.
    + intros [(_ & Hn0 & Hor)|Hin]; [|by apply Ha1].
      destruct (decide (a ∈ port_list st ≫= ptrs)) as [|Hnin]; [by apply Ha1|].
      rewrite <- Ha2 by done. by apply Hnew.
    + intros Hnin. rewrite Hold; [apply Ha2|]; naive_solver.
  - apply map_subseteq_spec. intros a x Ha. rewrite Hold; [done|]. intros [Hn0 Hor].
    by rewrite (Hnew a Hn0 Hor) in Ha.
  - exists u'. unfold port_list, set_port, set_source. cbn. rewrite ?Hs. split; [done|]. split.
    + intros Hf. split; [done|]. unfold mem_map in E1, E2, E3.
      apply orb_true_iff in Hf as [[Hf|Hf]%orb_true_iff|Hf]; apply Z.eqb_eq in Hf;
        simplify_eq; eauto.
    + intros Hf. split; [done|]. intros _. destruct (Hall ltac:(lia) ltac:(lia) ltac:(lia)) as (? & ? & ?).
      by split_and!.
Qed.

Lemma take_S_insert {T} (l : list T) i x x' :
  l !! i = Some x -> take (S i) (<[i := x']> l) = take i l ++ [x'].
Proof.
  intros Hi. rewrite (take_S_r _ i x').
  - by rewrite take_insert_ge.
  - apply list_lookup_insert_eq. by eapply lookup_lt_Some.
Qed.

(** The loop: all ports are mapped, or nothing that was mapped stays. *)
Lemma mmap_ports_ok m n i st :
  adds_ports m st ->
  length (port_list st) = (i + n)%nat -> length (kernel_list st) = (i + n)%nat ->
  (forall j u, (i <= j)%nat -> port_list st !! j = Some u -> port_used u = false) ->
  Forall2 (port_mapped st.(maps)) (take i (port_list st)) (take i (kernel_list st)) ->
  exists st' ret, mmap_ports n i st = Some (st', ret) /\
    st'.(phys) = st.(phys) /\ kernel_list st' = kernel_list st /\
    st'.(g_DMASource).(bEnable) = st.(g_DMASource).(bEnable) /\
    (ret = HI_SUCCESS /\ adds_ports m st' /\
       Forall2 (port_mapped st'.(maps)) (port_list st') (kernel_list st') \/
     ret = HI_FAILURE /\ st'.(maps) = m /\
       (forall a, a ∈ port_list st' ≫= ptrs -> m !! a = None) /\
       (exists u, u ∈ port_list st' /\ port_used u = true) /\
       exists n m p s, HI_MEM_Map n m p s = 0).
Proof.
  revert i st. induction n as [|n IH]; intros i st Hadd Hlu Hlk Hfree Hdone; simpl.
  { exists st, HI_SUCCESS. split_and!; try done. left. split; [done|]. split; [done|].
    rewrite !take_ge in Hdone by lia. done. }
  destruct (lookup_lt_is_Some_2 (kernel_list st) i ltac:(lia)) as [k Hk].
  destruct (lookup_lt_is_Some_2 (port_list st) i ltac:(lia)) as [u Hi].
  fold (kernel_list st) (port_list st). rewrite Hk, Hi. simpl.
  destruct (mmap_port st i k u) as [st1 failed] eqn:Hm.
  destruct (mmap_port_ok m st i k u st1 failed Hadd Hi (Hfree i u ltac:(lia) Hi) Hm)
    as (Hadd1 & Hsub & Hp & Hkl & Hen & u' & Hl & Hbad & Hgood).
  destruct failed.
  - destruct (Hbad eq_refl) as [Hu' Hnull].
    exists (DMAUnmapPort st1).1, HI_FAILURE. split; [done|].
    pose proof (unmap_all_list (port_list st1) st1) as Hul.
    unfold DMAUnmapPort. simpl. fold (port_list st1).
    destruct (unmap_all_rest (port_list st1) st1) as [Hun1 Hun2].
    split; [by rewrite Hun1|]. unfold kernel_list. rewrite Hun2. split; [done|]. split; [done|].
    right. split; [done|]. split; [by apply (unmap_restores m st1)|]. rewrite Hul.
    split; [intros a; apply Hadd1|]. split; [|done]. exists u'. split; [|done].
    rewrite Hl. apply list_elem_of_insert. by eapply lookup_lt_Some.
  - destruct (IH (S i) st1) as (st' & ret & -> & H1 & H2 & H3 & H4).
    + done.
    + rewrite Hl, length_insert. lia.
    + rewrite Hkl. lia.
    + intros j uj Hj Hlj. rewrite Hl, list_lookup_insert_ne in Hlj by lia.
      apply (Hfree j); [lia|done].
    + rewrite Hl, Hkl, (take_S_insert _ _ u u' Hi), (take_S_r _ _ k Hk).
      apply Forall2_app; [|apply Forall2_cons; split; [by apply Hgood|by apply Forall2_nil]].
      eapply Forall2_impl; [exact Hdone|]. intros ? ? Hpm. exact (port_mapped_mono _ _ _ _ Hsub Hpm).
    + exists st', ret. split; [done|]. do 3 (split; [congruence|]). exact H4.
Qed.

(** ** Creation *)

(** What the driver answers: one description per port. *)
Definition told st ks : Prop :=
  CMD_GETPORTINFO st.(clock) = (HI_SUCCESS, ks) /\ length ks = HI_UNF_SND_OUTPUTPORT_MAX.

Lemma get_port_info_ok st ks :
  told st ks -> exists st1, DMAGetPortInfo st = (st1, HI_SUCCESS) /\
    st1.(maps) = st.(maps) /\ st1.(phys) = st.(phys) /\ kernel_list st1 = ks /\
    length (port_list st1) = HI_UNF_SND_OUTPUTPORT_MAX /\
    st1.(g_DMASource).(bEnable) = false /\
    Forall (fun u => port_used u = false) (port_list st1).
Proof.
  intros [H Hl]. unfold DMAGetPortInfo. rewrite H. rewrite Z.eqb_refl. simpl.
  eexists. split; [done|]. split_and!; try done.
  - unfold kernel_list. cbn. apply take_ge. lia.
  - unfold port_list. cbn. by rewrite length_map, length_replicate.
  - unfold port_list. cbn. apply Forall_fmap, Forall_replicate. cbn. unfold port_used. cbn.
    by rewrite Z.eqb_refl.
Qed.

Lemma unused_ptrs us a : Forall (fun u => port_used u = false) us -> a ∉ us ≫= ptrs.
Proof.
  intros H (u & Ha & Hu)%list_elem_of_bind. apply ptrs_spec in Ha as [Ht _].
  rewrite Forall_forall in H. rewrite (H u Hu) in Ht. done.
Qed.

(** Every outcome of a creation. *)
Lemma source_create_ok st ks :
  told st ks ->
  exists st' ret, SND_DMA_Create st = Some (st', ret) /\
    st'.(phys) = st.(phys) /\ kernel_list st' = ks /\
    st'.(g_DMASource).(bEnable) = false /\
    (ret = HI_SUCCESS /\ adds_ports st.(maps) st' /\
       Forall2 (port_mapped st'.(maps)) (port_list st') ks \/
     ret = HI_FAILURE /\ st'.(maps) = st.(maps) /\
       (forall a, a ∈ port_list st' ≫= ptrs -> st.(maps) !! a = None) /\
       (exists u, u ∈ port_list st' /\ port_used u = true) /\
       exists n m p s, HI_MEM_Map n m p s = 0).
Proof.
  intros H. pose proof H as [_ Hl].
  destruct (get_port_info_ok st ks H) as (st1 & Hi & Hm & Hp & Hk & Hul & Hen & Hu).
  unfold SND_DMA_Create. rewrite Hi, Z.eqb_refl. simpl. unfold DMAMmapPort.
  destruct (mmap_ports_ok st.(maps) HI_UNF_SND_OUTPUTPORT_MAX 0 st1)
    as (st' & ret & Hr & Hp' & Hk' & Hen' & Hout).
  - intros a. split; [|by rewrite Hm]. intros Ha. by apply unused_ptrs in Ha.
  - lia.
  - rewrite Hk. lia.
  - intros j u _ Hj. by apply (Forall_lookup_1 _ _ _ _ Hu Hj).
  - constructor.
  - exists st', ret. rewrite Hk', Hk in Hout. rewrite Hp', Hk', Hen'. auto.
Qed.

(** ** The life of a source *)

Lemma for_ports_only_phys W us st ret st' ret' :
  (forall st u st' r, W st u = Some (st', r) -> only_phys st st') ->
  for_ports W us st ret = Some (st', ret') -> only_phys st st'.
Proof.
  intros HW. revert st ret. induction us as [|u us IH]; simpl; intros st ret.
  { intros [= <- _]. done. }
  destruct (port_used u); [|apply IH].
  intros ([st1 r1] & H1%HW & H2%IH)%bind_Some. by etrans.
Qed.

Lemma prepare_only_phys st u st' r : prepare_port st u = Some (st', r) -> only_phys st st'.
Proof.
  unfold prepare_port. intros ([? ?] & H & H')%bind_Some. simplify_eq.
  by eapply DMAPortWrite_only_phys.
Qed.

Lemma write_frame_only_phys f st u st' r :
  PortWriteFrame st u f = Some (st', r) -> only_phys st st'.
Proof.
  unfold PortWriteFrame. intros ([? ?] & H & H')%bind_Some. simplify_eq.
  by eapply DMAPortWrite_only_phys.
Qed.

(** Sending and playing keep the mappings and the pointers to them. *)
Definition keeps_ports st st' : Prop :=
  st'.(maps) = st.(maps) /\ port_list st' = port_list st.

Lemma keeps_only_phys st st' : only_phys st st' -> keeps_ports st st'.
Proof. by intros [m ->]. Qed.

Lemma keeps_trans st st1 st2 : keeps_ports st st1 -> keeps_ports st1 st2 -> keeps_ports st st2.
Proof. intros [H1 H2] [H3 H4]. split; congruence. Qed.

Lemma enable_keeps st rate st' ret :
  DMAEnable st rate = Some (st', ret) -> keeps_ports st st'.
Proof.
  unfold DMAEnable. case_match; [by intros [= <- _]|]. unfold SetSndDMAMode.
  case_match; [by intros [= <- _]|]. intros ([st1 r] & Hp & Heq)%bind_Some. simplify_eq.
  apply for_ports_only_phys in Hp; [|apply prepare_only_phys].
  apply keeps_only_phys in Hp as [H1 H2]. by split.
Qed.

Lemma send_keeps st f ms st' ret :
  SND_DMA_SendData st f ms = Some (st', ret) -> keeps_ports st st'.
Proof.
  unfold SND_DMA_SendData. do 3 (case_match; [by intros [= <- _]|]).
  intros ([st1 r1] & Hen%enable_keeps & Hs)%bind_Some.
  case_match; [by simplify_eq|]. apply bind_Some in Hs as (free & _ & Hs).
  case_match; [by simplify_eq|]. apply bind_Some in Hs as ([st2 r2] & Hf & Hs). simplify_eq.
  apply for_ports_only_phys in Hf; [|apply write_frame_only_phys].
  apply (keeps_trans _ _ _ Hen). apply keeps_only_phys in Hf as [Hm Hl]. by split.
Qed.

Lemma run_keeps ks ops st st' acc out :
  dma_run ks st ops = Some (st', acc, out) -> keeps_ports st st'.
Proof.
  revert st st' acc out. induction ops as [|op ops IH]; simpl; intros st st' acc out.
  { by intros [= <- _ _]. }
  intros ([[st1 ?] ?] & Hs & ([[st2 ?] ?] & H2%IH & Heq)%bind_Some)%bind_Some. simplify_eq.
  refine (keeps_trans _ _ _ _ H2). destruct op as [f ms|i n]; simpl in Hs.
  - apply bind_Some in Hs as ([? ?] & Hs & H'). simplify_eq. by eapply send_keeps.
  - case_match; [|by simplify_eq]. apply bind_Some in Hs as ([? ?] & Hs & H'). simplify_eq.
    apply keeps_only_phys. unfold port_plays in Hs. repeat (case_match; try done).
    simplify_eq. by eexists.
Qed.

(** C21: the DMA source neither leaks nor takes a mapping: a creation that fails has
    undone all its mappings, and after one that succeeds, whatever is sent and
    played, the end of the source restores the mappings there were before. *)
Theorem dma_balanced st ks :
  told st ks ->
  exists st1 ret, SND_DMA_Create st = Some (st1, ret) /\
    (ret <> HI_SUCCESS -> st1.(maps) = st.(maps)) /\
    (ret = HI_SUCCESS -> forall ops st2 acc out,
       dma_run ks st1 ops = Some (st2, acc, out) ->
       (SND_DMA_Destory st2).1.(maps) = st.(maps)).
Proof.
  intros H. destruct (source_create_ok st ks H) as (st1 & ret & Hc & _ & _ & _ & Hout).
  exists st1, ret. split; [done|]. split.
  - intros Hne. destruct Hout as [[Heq _]|(_ & Hm & _)]; [by destruct Hne|done].
  - intros Hret ops st2 acc out [Hm2 Hl2]%run_keeps.
    enough (adds_ports st.(maps) st2) as Hadd%unmap_restores.
    { unfold SND_DMA_Destory. change (DMAUnmapPort st2) with ((DMAUnmapPort st2).1, HI_SUCCESS).
      cbv iota beta. rewrite Z.eqb_refl. unfold DMADisable, SetSndDMAMode. simpl.
      destruct (bEnable _); exact Hadd. }
    destruct Hout as [(_ & Hadd & _)|(-> & Hm & Hnew & _)].
    + intros a. rewrite Hl2, Hm2. apply Hadd.
    + intros a. rewrite Hl2, Hm2, Hm. auto.
Qed.

(** *** A creation that succeeds *)

(** A port the driver has, and a ring of [k] in physical memory that holds [q]. *)
Definition kport_used k : bool := negb (k.(k_enOutPort) =? HI_UNF_SND_OUTPUTPORT_BUTT).

Definition kplaces k : list Z := [k.(u32PhyDma); k.(u32PhyWptr); k.(u32PhyRptr)].

Definition ring_at (mem : gmap Z area) k (q : list Z) : Prop := exists d r w,
  mem !! k.(u32PhyDma) = Some (Bytes d) /\ mem !! k.(u32PhyWptr) = Some (Word w) /\
  mem !! k.(u32PhyRptr) = Some (Word r) /\ ring_wf d r w k.(k_u32Size) /\
  contents d r w k.(k_u32Size) = q.

(** The ports in use with their descriptions. *)
Definition pairs us ks : list port := List.filter (fun p => port_used p.1) (zip us ks).

Lemma pairs_views m us ks :
  Forall2 (port_mapped m) us ks ->
  (pairs us ks).*1 = List.filter port_used us /\
  (pairs us ks).*2 = List.filter kport_used ks /\
  Forall (fun p => port_used p.1 = true /\ port_mapped m p.1 p.2) (pairs us ks).
Proof.
  unfold pairs. intros H. induction H as [|u k us ks Hp _ (IH1 & IH2 & IH3)]; simpl; [done|].
  assert (kport_used k = port_used u) as ->
    by (unfold kport_used, port_used; by rewrite (proj1 Hp)).
  destruct (port_used u) eqn:Hu; simpl; [|done].
  split_and!; [by f_equal|by f_equal|]. constructor; [done|exact IH3].
Qed.

Lemma places_pairs ps : ps ≫= places = ps.*2 ≫= kplaces.
Proof. induction ps as [|p ps IH]; [done|]. rewrite fmap_cons, !bind_cons, IH. done. Qed.

(** A newly mapped port holds what its ring holds. *)
Lemma mapped_holds st ps qs :
  Forall (fun p => port_used p.1 = true /\ port_mapped st.(maps) p.1 p.2) ps ->
  Forall2 (ring_at st.(phys)) ps.*2 qs -> Forall2 (port_holds st) ps qs.
Proof.
  intros H. revert qs. induction H as [|p ps [Hu [_ Hm]] _ IH]; intros qs Hq; simpl in Hq;
    inversion_clear Hq as [|? q ? qs' Hr Hrs]; constructor; [|by apply IH].
  destruct (Hm Hu) as (? & ? & ? & Hs). destruct Hr as (d & r & w & Hr).
  split; auto. exists d, r, w. by rewrite Hs.
Qed.

(** When the driver tells of rings at places of their own that are larger than
    the water mark, and every mapping succeeds, a creation gives a source that is
    off and whose ports hold what the rings hold: all that [dma_stream] needs. *)
Theorem dma_created st ks qs :
  told st ks -> (forall n m p s, HI_MEM_Map n m p s <> 0) ->
  let used := List.filter kport_used ks in
  NoDup (used ≫= kplaces) -> Forall2 (ring_at st.(phys)) used qs ->
  Forall (fun k => 7936 < k.(k_u32Size)) used ->
  Forall (fun q => Z.of_nat (length q) <= 7680) qs ->
  exists st1 ps, SND_DMA_Create st = Some (st1, HI_SUCCESS) /\
    ps.*2 = used /\ dma_ok st1 ps qs.
Proof.
  intros H Hmap used Hnd Hqs Hsize Hlen.
  destruct (source_create_ok st ks H) as (st1 & ret & Hc & Hp & _ & Hen & Hout).
  destruct Hout as [(-> & _ & Hpm)|(_ & _ & _ & _ & n & m & p & s & Hz)];
    [|by destruct (Hmap n m p s)].
  destruct (pairs_views _ _ _ Hpm) as (H1 & H2 & H3). fold used in H2.
  exists st1, (pairs (port_list st1) ks). split; [done|]. split; [done|].
  split; [split; [done| |]| |].
  - by rewrite places_pairs, H2.
  - apply mapped_holds; [done|]. by rewrite H2, Hp.
  - by rewrite Hen.
  - rewrite <- H2 in Hsize.
    apply Forall_forall. intros p Hin. rewrite Forall_forall in H3. rewrite Forall_forall in Hsize.
    destruct (H3 p Hin) as [Hu [_ Hm]]. destruct (Hm Hu) as (_ & _ & _ & ->).
    apply (Hsize p.2). by apply list_elem_of_fmap_2.
Qed.

(** *** A creation that fails *)

Lemma prepare_unmapped us st ret :
  (forall u, u ∈ us -> port_used u = true -> st.(maps) !! u.(pu32Rptr) = None) ->
  (exists u, u ∈ us /\ port_used u = true) ->
  for_ports prepare_port us st ret = None.
Proof.
  intros Hm. induction us as [|u us IH]; intros (v & Hin & Hv); simpl;
    [by apply not_elem_of_nil in Hin|].
  destruct (port_used u) eqn:Hu.
  - assert (prepare_port st u = None) as ->; [|done]. unfold prepare_port, DMAPortWrite.
    rewrite (read_word_unmapped st u.(pu32Rptr)); [reflexivity|]. apply Hm; [left|done].
  - apply IH; [intros x Hx; apply Hm; by right|]. exists v. split; [|done].
    apply elem_of_cons in Hin as [->|]; [congruence|done].
Qed.

(** C37: a failed creation leaves the ports marked as in use with pointers that are not
    mapped; the next frame that is sent, if the driver switches the mode, is written
    through them. *)
Theorem failed_create_faults st ks f ms st1 ret :
  told st ks -> st.(maps) !! 0 = None ->
  SND_DMA_Create st = Some (st1, ret) -> ret <> HI_SUCCESS ->
  f.(u32Channels) = 2 -> f.(s32BitPerSample) = 16 ->
  f.(u32SampleRate) = HI_UNF_SAMPLE_RATE_48K -> 10 <= ms <= 40 ->
  CMD_SETDMAMODE st1.(clock) HI_UNF_SAMPLE_RATE_48K true = HI_SUCCESS ->
  SND_DMA_SendData st1 f ms = None.
Proof.
  intros H H0 Hc Hret Hch Hbits Hrate Hms Hmode.
  destruct (source_create_ok st ks H) as (st' & ret' & Hc' & _ & _ & Hen & Hout).
  rewrite Hc in Hc'. injection Hc' as <- <-.
  destruct Hout as [[? _]|(_ & Hm & Hnew & Hex & _)]; [done|].
  unfold SND_DMA_SendData. rewrite Hch, Hbits, Hrate, !Z.eqb_refl. simpl.
  zfalse ((ms >? 40) || (ms <? 10)).
  unfold DMAEnable. rewrite Hen. unfold SetSndDMAMode. cbn [update clock set_source].
  cbn. rewrite Hmode, Z.eqb_refl. simpl. unfold DMAPrepare.
  rewrite prepare_unmapped; [done| |exact Hex].
  cbn. intros u Hin Hu. rewrite Hm.
  destruct (decide (u.(pu32Rptr) = 0)) as [->|Hn]; [done|].
  apply Hnew, list_elem_of_bind. exists u. split; [|done]. apply ptrs_spec. auto.
Qed.
End Ports.

(** ** A sound card with two ports *)

Definition hdmi_port : SND_PORT_KERNEL_ATTR_S := mkKAttr 9 65536 300 304 8192.
Definition dac_port : SND_PORT_KERNEL_ATTR_S := mkKAttr 0 131072 308 312 8192.
Definition no_port : SND_PORT_KERNEL_ATTR_S := mkKAttr 255 0 0 0 0.
Definition card : list SND_PORT_KERNEL_ATTR_S := [dac_port; no_port; hdmi_port].

Definition ring_bytes : list Z := replicate 8192 0.

(** Before the creation; the rings are empty, their positions near the end. *)
Definition dma_sample : ao :=
  let A := sdk_ao in
  mkAo (<[65536 := Bytes ring_bytes]> (<[300 := Word 8190]> (<[304 := Word 8190]>
        (<[131072 := Bytes ring_bytes]> (<[308 := Word 0]> {[312 := Word 0]})))))
    ∅ 0 [] (mkMmapAttr 0 0 0 (mkMmapBuf 0 0 0 0)) 0 zero_source.

(** The card mapped, and switched on past the muted frames. *)
Definition hdmi_user : SND_PORT_USER_ATTR_S := mkUAttr 9 1 2 3 8192.
Definition dac_user : SND_PORT_USER_ATTR_S := mkUAttr 0 4 5 6 8192.

Definition dma_mapped : ao :=
  dma_sample
    <| maps := <[1 := 65536]> (<[2 := 300]> (<[3 := 304]>
                 (<[4 := 131072]> (<[5 := 308]> {[6 := 312]})))) |>
    <| g_DMASource := mkSource true 48000 11 card
                        [dac_user; mkUAttr 255 0 0 0 0; hdmi_user] |>.

Definition card_ports : list port := [(dac_user, dac_port); (hdmi_user, hdmi_port)].

Definition dma_script : list dma_op := [DSend pcm8 20; DPlay 0 5; DPlay 1 3; DSend pcm8 20].

Lemma card_told : let A := sdk_ao in let E := willing card in told dma_sample card.
Proof. by split. Qed.

Lemma dma_script_ok : Forall dma_op_ok dma_script.
Proof. repeat constructor; cbn; lia. Qed.

Lemma ring_bytes_wf p : 0 <= p < 8192 -> ring_wf ring_bytes p p 8192.
Proof. split; [lia|by vm_compute|lia|lia]. Qed.

Lemma dma_mapped_ok :
  let A := sdk_ao in let E := willing card in dma_ok dma_mapped card_ports [[]; []].
Proof.
  intros A E. split; [split; [reflexivity| |]| |].
  - vm_compute. repeat constructor; set_solver.
  - repeat constructor; try reflexivity.
    + exists ring_bytes, 0, 0. split_and!; try reflexivity. apply ring_bytes_wf. lia.
    + exists ring_bytes, 8190, 8190. split_and!; try reflexivity. apply ring_bytes_wf. lia.
  - by repeat constructor.
  - by repeat constructor.
Qed.


Example dma_script_played :
  let A := sdk_ao in let E := willing card in
  (fun x => (x.1.2, x.2)) <$> dma_run card_ports.*2 dma_mapped dma_script =
    Some ([1; 2; 3; 4; 5; 6; 7; 8; 1; 2; 3; 4; 5; 6; 7; 8],
          [(0%nat, [1; 2; 3; 4; 5]); (1%nat, [1; 2; 3])]).
Proof. vm_compute. reflexivity. Qed.

Lemma dma_balanced_witness :
  let A := sdk_ao in let E := willing card in
  told dma_sample card /\
  exists st1 ret, SND_DMA_Create dma_sample = Some (st1, ret) /\
    (ret <> HI_SUCCESS -> st1.(maps) = dma_sample.(maps)) /\
    (ret = HI_SUCCESS -> forall ops st2 acc out,
       dma_run card st1 ops = Some (st2, acc, out) ->
       (SND_DMA_Destory st2).1.(maps) = dma_sample.(maps)).
Proof.
  intros A E. split; [exact card_told|].
  destruct (dma_balanced (EOk := willing_ok card) dma_sample card card_told)
    as (st1 & ret & H1 & H2 & H3).
  exists st1, ret. split; [exact H1|]. split; [exact H2|]. intros Hr ops. by apply H3.
Defined.

Lemma dma_created_witness :
  let A := sdk_ao in let E := willing card in
  exists st1 ps, SND_DMA_Create dma_sample = Some (st1, HI_SUCCESS) /\
    ps.*2 = [dac_port; hdmi_port] /\ dma_ok st1 ps [[]; []].
Proof.
  intros A E. apply (dma_created (EOk := willing_ok card) dma_sample card [[]; []] card_told).
  - intros. apply willing_maps.
  - vm_compute. repeat constructor; set_solver.
  - repeat constructor.
    + exists ring_bytes, 0, 0. split_and!; try reflexivity. apply ring_bytes_wf. lia.
    + exists ring_bytes, 8190, 8190. split_and!; try reflexivity. apply ring_bytes_wf. lia.
  - by repeat constructor.
  - by repeat constructor.
Defined.

(** A system on which the HDMI ring cannot be mapped. *)
Definition grudging : AoEnv := {|
  HI_MEM_Map := fun n m phy size =>
    if phy =? 65536 then 0 else @HI_MEM_Map (willing card) n m phy size;
  CMD_MMAPTRACKATTR := @CMD_MMAPTRACKATTR (willing card);
  CMD_SETFIFOBYPASS := @CMD_SETFIFOBYPASS (willing card);
  CMD_SETDMAMODE := @CMD_SETDMAMODE (willing card);
  CMD_GETPORTINFO := @CMD_GETPORTINFO (willing card) |}.

Lemma grudging_ok : AoEnvOk grudging.
Proof.
  split. intros n m phy size. unfold HI_MEM_Map at 1 2. cbn. destruct (phy =? 65536).
  - done.
  - exact (@map_fresh _ (willing_ok card) n m phy size).
Qed.

Definition dma_failed : ao :=
  let A := sdk_ao in let E := grudging in
  match SND_DMA_Create dma_sample with Some (st, _) => st | None => dma_sample end.

Lemma failed_create_faults_witness :
  let A := sdk_ao in let E := grudging in
  SND_DMA_Create dma_sample = Some (dma_failed, HI_FAILURE) /\
  SND_DMA_SendData dma_failed pcm8 20 = None.
Proof.
  intros A E. assert (SND_DMA_Create dma_sample = Some (dma_failed, HI_FAILURE)) as Hc
    by (vm_compute; reflexivity).
  split; [exact Hc|].
  apply (failed_create_faults (EOk := grudging_ok) dma_sample card pcm8 20 dma_failed HI_FAILURE).
  - exact card_told.
  - reflexivity.
  - exact Hc.
  - discriminate.
  - reflexivity.
  - reflexivity.
  - reflexivity.
  - lia.
  - reflexivity.
Defined.
