(* ===== verification/TdeList.v ===== *)
(** * The job queue of the 2D engine

    Models tde_osilist_k.c and the calls of tde_osictl_k.c that build and submit
    a job. A job is a memory block found through its handle; it carries its
    commands, the nodes the hardware reads, chained by physical address. Submitted
    jobs wait in a queue in order of submission: those up to [pstJobToCommit] have
    been given to the hardware, those from it on are chained behind one another and
    start together when it is free. [None] is undefined behaviour: a freed job
    or node used, or a fence signalled on a closed timeline.

    A call that sleeps ends in an [Outcome] that says on what, and goes on in a
    second function ([..._wake]) with the value [wait_event...] returned. A submission
    takes the list's lock only for its last part, and is three functions
    ([SubmitJob_check], [SubmitJob_mark], [SubmitJob_queue]) that other calls can come
    between. The calls that build a job take no lock: what they touch is known to
    their caller alone. The others run under the lock. A completion callback runs with the lock released;
    the model records the call and lets nothing else happen meanwhile. *)

From S2P Require Import Prelude.

(** Codes and build options of headers and makefiles: TDE_FENCE_SUPPORT and
    TDE_CACH_STRATEGY select code at compile time. *)
Class TdeConsts := {
  HI_ERR_TDE_NO_MEM : Z;
  HI_ERR_TDE_INVALID_HANDLE : Z;
  HI_ERR_TDE_JOB_TIMEOUT : Z;
  HI_ERR_TDE_INTERRUPT : Z;
  HI_ERR_TDE_QUERY_TIMEOUT : Z;
  HI_ERR_TDE_UNSUPPORTED_OPERATION : Z;
  HI_ERR_TDE_NULL_PTR : Z;
  TDE_NODE_HEAD_BYTE : Z;
  TDE_NODE_TAIL_BYTE : Z;
  sizeof_TDE_HWNode_S : Z;
  ERESTARTSYS : Z;
  ENOMEM : Z;
  TDE_FENCE_SUPPORT : bool;
  TDE_CACH_STRATEGY : bool;
  wgetphy : Z -> Z;  (* the physical address of a node buffer *)
}.

(** What the module relies on of them: errors are negative. *)
Class TdeConstsOk (T : TdeConsts) (C : HiConsts) : Prop := {
  tde_failure : HI_FAILURE < 0;
  tde_enomem : 0 < ENOMEM;
}.

(** The address of a job: the block of its HI_HANDLE_MGR, which the job follows. *)
Abbreviation ptr := positive.

(** tde_handle.h: handles name blocks. The manager writes the new handle in the
    block it is given ([pHandleMgr->handle]) and returns it, so the model has one
    copy of it, in the job. *)
Class HandleManager := {
  handles : Type;
  initial_handle : option handles;
  get_handle : ptr -> handles -> Z * handles;
  query_handle : Z -> handles -> option ptr;
  release_handle : Z -> handles -> bool * handles;
}.

(** What the queue relies on: a new handle is an unused non-negative number, a handle
    finds the block it was given for until it is released. *)
Class HandleManagerOk (H : HandleManager) := {
  handles_ok : handles -> Prop;
  initial_ok m : initial_handle = Some m -> handles_ok m /\ forall h, query_handle h m = None;
  get_ok p m : handles_ok m -> handles_ok (get_handle p m).2;
  get_fresh p m : handles_ok m -> query_handle (get_handle p m).1 m = None;
  get_range p m : handles_ok m -> 0 <= (get_handle p m).1;
  get_query p m h : handles_ok m ->
    query_handle h (get_handle p m).2 =
      if decide (h = (get_handle p m).1) then Some p else query_handle h m;
  release_ok h m : handles_ok m -> handles_ok (release_handle h m).2;
  release_live h m p : handles_ok m -> query_handle h m = Some p -> (release_handle h m).1 = true;
  release_query h h' m : handles_ok m ->
    query_handle h' (release_handle h m).2 = if decide (h' = h) then None else query_handle h' m;
}.

(** ** Data *)

Inductive TDE_NOTIFY_MODE_E :=
| TDE_JOB_COMPL_NOTIFY
| TDE_JOB_WAKE_NOTIFY
| TDE_JOB_NOTIFY_BUTT.

#[export] Instance notify_mode_eq : EqDecision TDE_NOTIFY_MODE_E.
Proof. solve_decision. Defined.

Inductive TDE_NODE_SUBM_TYPE_E :=
| TDE_NODE_SUBM_ALONE
| TDE_NODE_SUBM_PARENT
| TDE_NODE_SUBM_CHILD.

#[export] Instance subm_type_eq : EqDecision TDE_NODE_SUBM_TYPE_E.
Proof. solve_decision. Defined.

(** The registers of a hardware node the module computes on. *)
Record TDE_HWNode_S := mkHW {
  u32TDE_INS : Z;
  u32TDE_CLIP_START : Z;
  u32TDE_CLIP_STOP : Z;
  u32TDE_TAR_XY : Z;
  u32TDE_TS_SIZE : Z;
}.

#[export] Instance hw_fields : Fields TDE_HWNode_S := fun r =>
  mkHW r.(u32TDE_INS) r.(u32TDE_CLIP_START) r.(u32TDE_CLIP_STOP) r.(u32TDE_TAR_XY) r.(u32TDE_TS_SIZE).

(** A node with its buffer: [pBuf] and [stNodeBuf]'s fields, then the words of
    the buffer itself: the job's handle in its head, the registers, and in its tail
    the physical address and the update mask of the next node. *)
Record TDE_SWNODE_S := mkNode {
  n_s32Handle : Z;
  s32Index : Z;
  enSubmType : TDE_NODE_SUBM_TYPE_E;
  pBuf : Z;
  u32PhyAddr : Z;
  u64Update : Z;
  u32NodeSz : Z;
  u32PhyBuffNum : Z;
  buf_handle : Z;
  buf_hw : TDE_HWNode_S;
  buf_next : Z;
  buf_next_update : Z;
}.

#[export] Instance node_fields : Fields TDE_SWNODE_S := fun r =>
  mkNode r.(n_s32Handle) r.(s32Index) r.(enSubmType) r.(pBuf) r.(u32PhyAddr) r.(u64Update)
    r.(u32NodeSz) r.(u32PhyBuffNum) r.(buf_handle) r.(buf_hw) r.(buf_next) r.(buf_next_update).

(** [cmds] is the circular list of the job's nodes: [pstFirstCmd] is its first,
    [pstTailNode] its last element ([NULL] when it is empty). It is [None] once the
    nodes have been freed and the pointers dangle. [pFuncComplCB] is the address of
    a function, 0 for none. [pstLastCmd], which nothing reads, and the wait queue
    are left out. *)
Record TDE_SWJOB_S := mkJob {
  s32Handle : Z;
  pFuncComplCB : Z;
  pFuncPara : Z;
  enNotiType : TDE_NOTIFY_MODE_E;
  u32CmdNum : Z;
  u32NodeNum : Z;
  cmds : option (list TDE_SWNODE_S);
  pid : Z;
  bSubmitted : bool;
  bAqUseBuff : bool;
  u8WaitForDoneCount : Z;
  s32ReleaseFenceFd : Z;
}.

#[export] Instance job_fields : Fields TDE_SWJOB_S := fun r =>
  mkJob r.(s32Handle) r.(pFuncComplCB) r.(pFuncPara) r.(enNotiType) r.(u32CmdNum) r.(u32NodeNum)
    r.(cmds) r.(pid) r.(bSubmitted) r.(bAqUseBuff) r.(u8WaitForDoneCount) r.(s32ReleaseFenceFd).

(** A block as TDE_MALLOC returns it: zeroed. *)
Definition zero_job : TDE_SWJOB_S :=
  mkJob 0 0 0 TDE_JOB_COMPL_NOTIFY 0 0 (Some []) 0 false false 0 0.

(** The timeline of the release fences (tde_fence.c): the points handed out, those
    passed, and whether the timeline exists. *)
Record TDE_FENCE_STATE := mkFence {
  gs_u32FenceValue : Z;
  gs_u32TimelineValue : Z;
  gs_pstTimeline : bool;
}.

#[export] Instance fence_fields : Fields TDE_FENCE_STATE := fun r =>
  mkFence r.(gs_u32FenceValue) r.(gs_u32TimelineValue) r.(gs_pstTimeline).

(** What the module does outside its own memory. *)
Inductive Event :=
| EFree (buf : Z)
| EFreePhysicBuff
| EFlush (phy size virt : Z)
| EEnableInt (buf : Z)
| EExecute (phy update : Z) (aq : bool)
| ECallback (fn para handle : Z)
| EWakeBlock
| EWakeQuery (p : ptr)
| EFenceTimeline
| EIntStats
| EResumeInit.

(** The global list with the memory of the jobs, the handle manager, the fences, the
    outcomes of the coming small allocations (success when there is none), the
    scheduled work items and what was done so far, latest last. *)
Record TDE {H : HandleManager} := mkTde {
  stList : list ptr;
  s32HandleLast : Z;
  s32HandleFinished : Z;
  u32JobNum : Z;
  pstJobCommitted : option ptr;
  pstJobToCommit : option ptr;
  pstJobFinished : Z;
  pstJobLast : option ptr;
  jobs : gmap ptr TDE_SWJOB_S;
  mgr : handles;
  fence : TDE_FENCE_STATE;
  mallocs : list bool;
  work : list Z;
  trace : list Event;
}.
#[global] Arguments TDE : clear implicits.
#[global] Arguments TDE {H}.

#[export] Instance tde_fields `{H : HandleManager} : Fields TDE := fun r =>
  mkTde H r.(stList) r.(s32HandleLast) r.(s32HandleFinished) r.(u32JobNum) r.(pstJobCommitted)
    r.(pstJobToCommit) r.(pstJobFinished) r.(pstJobLast) r.(jobs) r.(mgr) r.(fence) r.(mallocs)
    r.(work) r.(trace).

(** How a call ends: with a code, or asleep on the completion of a job (blocking
    submission, or query). *)
Inductive Outcome :=
| Ret (r : Z)
| SleepSubmit (p : ptr) (timeout : Z) (asynflag : bool)
| SleepQuery (p : ptr) (timeout : Z).

Section Tde.
Context `{H : HandleManager, T : TdeConsts, C : HiConsts}.
Implicit Types (st : TDE) (p : ptr) (j : TDE_SWJOB_S) (n : TDE_SWNODE_S).

Definition emit (e : Event) st : TDE := st <| trace ::= (fun t => t ++ [e]) |>.

(** The outcome of the next small allocation. *)
Definition malloc st : bool * TDE :=
  match st.(mallocs) with
  | [] => (true, st)
  | b :: r => (b, st <| mallocs := r |>)
  end.

Definition upd_job p (f : TDE_SWJOB_S -> TDE_SWJOB_S) st : option TDE :=
  j ← st.(jobs) !! p; Some (st <| jobs := <[p := f j]> st.(jobs) |>).

Definition pstFirstCmd j : option TDE_SWNODE_S := l ← j.(cmds); head l.
Definition pstTailNode j : option TDE_SWNODE_S := l ← j.(cmds); last l.

(** ** Physical buffers *)

Definition TdeOsiListDoFreePhyBuff (u32BuffNum : Z) st : TDE :=
  Nat.iter (Z.to_nat u32BuffNum) (emit EFreePhysicBuff) st.

(** A work item: the callback of the only kind that is scheduled, and its count. *)
Definition TdeOsiListFreevmem st : option TDE :=
  match st.(work) with
  | [] => None
  | n :: w => Some (TdeOsiListDoFreePhyBuff n (st <| work := w |>))
  end.

Definition TdeOsiListHsr (data : Z) st : TDE :=
  let (ok, st) := malloc st in
  if negb ok then st else st <| work ::= (fun w => w ++ [data]) |>.

Definition TdeOsiListPutPhyBuff (u32BuffNum : Z) st : TDE :=
  if 0 =? u32BuffNum then st else TdeOsiListHsr u32BuffNum st.

(** ** Fences *)

Definition TDE_FENCE_Open st : TDE :=
  if st.(fence).(gs_pstTimeline) then st
  else st <| fence ::= (fun f => f <| gs_pstTimeline := true |>) |>.

Definition TDE_FENCE_Close st : TDE :=
  if st.(fence).(gs_pstTimeline) then st <| fence := mkFence 0 0 false |> else st.

(** [fd], [pt] and [fen] are the answers of get_unused_fd, sw_sync_pt_create and
    sync_fence_create. *)
Definition TDE_FENCE_Create (fd : Z) (pt fen : bool) st : Z * TDE :=
  if negb st.(fence).(gs_pstTimeline) then (HI_FAILURE, st)
  else if fd <? 0 then (fd, st)
  else
    let st := st <| fence ::= (fun f => f <| gs_u32FenceValue ::= (fun v => v +u 1) |>) |> in
    if negb pt then
      (- ENOMEM, st <| fence ::= (fun f => f <| gs_u32FenceValue ::= (fun v => v -u 1) |>) |>)
    else if negb fen then (- ENOMEM, st)
    else (fd, st).

Definition TDE_FENCE_WakeUp st : option TDE :=
  if negb st.(fence).(gs_pstTimeline) then None
  else Some (emit EFenceTimeline
               (st <| fence ::= (fun f => f <| gs_u32TimelineValue ::= (fun v => v +u 1) |>) |>)).

(** ** Releasing jobs *)

Definition TdeOsiListFreeNode (n : TDE_SWNODE_S) st : TDE :=
  let st := if negb (n.(pBuf) =? 0) then emit (EFree n.(pBuf)) st else st in
  TdeOsiListPutPhyBuff n.(u32PhyBuffNum) st.

(** The nodes from the first to the last are the whole list of the job. *)
Definition TdeOsiListFreeSerialCmd p st : option TDE :=
  j ← st.(jobs) !! p;
  l ← j.(cmds);
  let st := foldl (fun st n => TdeOsiListFreeNode n st) st l in
  upd_job p (fun j => if l is [] then j else j <| cmds := None |>) st.

Definition TdeOsiListReleaseHandle (pHandleMgr : ptr) st : option TDE :=
  j ← st.(jobs) !! pHandleMgr;
  let (ok, m) := release_handle j.(s32Handle) st.(mgr) in
  let st := st <| mgr := m |> in
  Some (if ok then st <| jobs ::= delete pHandleMgr |> else st).

Definition TdeOsiListDestroyJob p st : option TDE :=
  j ← st.(jobs) !! p;
  match query_handle j.(s32Handle) st.(mgr) with
  | None => Some st
  | Some pHandleMgr =>
      st ← TdeOsiListFreeSerialCmd p st;
      TdeOsiListReleaseHandle pHandleMgr st
  end.

Definition TdeOsiListSafeDestroyJob p st : option TDE :=
  j ← st.(jobs) !! p;
  if negb (j.(u8WaitForDoneCount) =? 0) then
    st ← upd_job p (fun j => j <| enNotiType := TDE_JOB_NOTIFY_BUTT |>) st;
    Some (emit (EWakeQuery p) st)
  else TdeOsiListDestroyJob p st.

(** ** Start and end of the module *)

(** [mem]: whether the list head could be allocated, zeroed. *)
Definition TdeOsiListInit (mem : bool) (f : TDE_FENCE_STATE) (ms : list bool) : Z * option TDE :=
  match initial_handle with
  | None => (HI_FAILURE, None)
  | Some m =>
      if mem then (HI_SUCCESS, Some (mkTde H [] 0 0 0 None None 0 None ∅ m f ms [] []))
      else (HI_FAILURE, None)
  end.

Fixpoint term_loop (fuel : nat) st : option TDE :=
  match fuel, st.(stList) with
  | _, [] => Some st
  | O, _ => None
  | S fuel, p :: l =>
      st ← TdeOsiListDestroyJob p (st <| stList := l |>);
      term_loop fuel st
  end.
Definition TdeOsiListTerm st : option TDE := term_loop (S (length st.(stList))) st.

(** ** Flushing node buffers *)

Definition TdeOsiListFlushNode (n : TDE_SWNODE_S) st : TDE :=
  if negb (n.(pBuf) =? 0) then
    emit (EFlush (wgetphy n.(pBuf)) (n.(u32NodeSz) +u TDE_NODE_HEAD_BYTE +u TDE_NODE_TAIL_BYTE)
            n.(pBuf)) st
  else st.

Definition TdeOsiListFlushJob p st : option TDE :=
  j ← st.(jobs) !! p;
  l ← j.(cmds);
  Some (foldl (fun st n => TdeOsiListFlushNode n st) st l).

(** ** Building a job *)

(** [mem]: the block TDE_MALLOC returned. The handle is written to [*pHandle]. *)
Definition TdeOsiListBeginJob (mem : option ptr) (tgid : Z) st : Z * option Z * TDE :=
  match mem with
  | None => (HI_ERR_TDE_NO_MEM, None, st)
  | Some p =>
      let (h, m) := get_handle p st.(mgr) in
      let j := zero_job <| s32Handle := h |> in
      let j := j <| pid := tgid |> in
      let j := if TDE_FENCE_SUPPORT then j <| s32ReleaseFenceFd := -1 |> else j in
      (HI_SUCCESS, Some h, (st <| mgr := m |>) <| jobs ::= <[p := j]> |>)
  end.

Definition TdeOsiBeginJob (pHandle_null : bool) (mem : option ptr) (tgid : Z) st
    : Z * option Z * TDE :=
  if pHandle_null then (HI_ERR_TDE_NULL_PTR, None, st) else TdeOsiListBeginJob mem tgid st.

(** The clip window of a node cut down to the rectangle it draws. *)
Definition TdeOsiAdjClipPara (hw : TDE_HWNode_S) : TDE_HWNode_S :=
  if Z.shiftr hw.(u32TDE_CLIP_START) 31 =? 0 then hw
  else
    let u32ClipStartX := Z.land hw.(u32TDE_CLIP_START) 4095 in
    let u32ClipStartY := Z.land (Z.shiftr hw.(u32TDE_CLIP_START) 16) 4095 in
    let u32ClipEndX := Z.land hw.(u32TDE_CLIP_STOP) 4095 in
    let u32ClipEndY := Z.land (Z.shiftr hw.(u32TDE_CLIP_STOP) 16) 4095 in
    let u32OutStartX := Z.land hw.(u32TDE_TAR_XY) 4095 in
    let u32OutStartY := Z.land (Z.shiftr hw.(u32TDE_TAR_XY) 16) 4095 in
    let u32OutEndX := u32OutStartX +u Z.land hw.(u32TDE_TS_SIZE) 4095 -u 1 in
    let u32OutEndY := u32OutStartY +u Z.land (Z.shiftr hw.(u32TDE_TS_SIZE) 16) 4095 -u 1 in
    let u32StartX := if u32ClipStartX >? u32OutStartX then u32ClipStartX else u32OutStartX in
    let u32StartY := if u32ClipStartY >? u32OutStartY then u32ClipStartY else u32OutStartY in
    let u32EndX := if u32ClipEndX <? u32OutEndX then u32ClipEndX else u32OutEndX in
    let u32EndY := if u32ClipEndY <? u32OutEndY then u32ClipEndY else u32OutEndY in
    if (u32StartX >? u32EndX) || (u32StartY >? u32EndY) then
      hw <| u32TDE_INS := Z.land hw.(u32TDE_INS) 4294950911 |>
    else
      (hw <| u32TDE_CLIP_START :=
               Z.lor (Z.lor 2147483648 (Z.land u32StartX 4095)) (Z.shiftl (Z.land u32StartY 4095) 16) |>)
         <| u32TDE_CLIP_STOP :=
               Z.lor (Z.land u32EndX 4095) (Z.shiftl (Z.land u32EndY 4095) 16) |>.

(** The tail words of the last node of a list set to the node [n]. *)
Definition link_tail (l : list TDE_SWNODE_S) (n : TDE_SWNODE_S) : list TDE_SWNODE_S :=
  alter (fun t => (t <| buf_next := n.(u32PhyAddr) |>) <| buf_next_update := n.(u64Update) |>)
    (pred (length l)) l.

Definition node_update : Z := Z.lor 4294967295 (Z.shiftl 1023 32).

(** [pHWNode] is the address of the registers [hw], [TDE_NODE_HEAD_BYTE] into the
    node's buffer. The first command starts a new list; a child without a command
    before it would be linked through [NULL]. *)
Definition TdeOsiSetNodeFinish (h pHWNode : Z) (hw : TDE_HWNode_S) (u32WorkBufNum : Z)
    (submtype : TDE_NODE_SUBM_TYPE_E) st : option (Z * TDE) :=
  let hw := TdeOsiAdjClipPara hw in
  match query_handle h st.(mgr) with
  | None => Some (HI_ERR_TDE_INVALID_HANDLE, st)
  | Some p =>
      pstJob ← st.(jobs) !! p;
      if pstJob.(bSubmitted) then Some (HI_ERR_TDE_INVALID_HANDLE, st)
      else
        let (ok, st) := malloc st in
        if negb ok then Some (HI_ERR_TDE_NO_MEM, st)
        else
          old ← pstJob.(cmds);
          let num := if decide (submtype = TDE_NODE_SUBM_CHILD) then pstJob.(u32CmdNum)
                     else pstJob.(u32CmdNum) +u 1 in
          let restart := bool_decide (submtype <> TDE_NODE_SUBM_CHILD) && (1 =? num) in
          let buf := pHWNode - TDE_NODE_HEAD_BYTE in
          let pstCmd := mkNode pstJob.(s32Handle) (s32 num) submtype buf
                          (wgetphy buf +u TDE_NODE_HEAD_BYTE) node_update sizeof_TDE_HWNode_S
                          u32WorkBufNum (u32 h) hw 0 0 in
          if bool_decide (old = []) && negb restart then None
          else
            let new := if restart then [pstCmd] else link_tail old pstCmd ++ [pstCmd] in
            st ← upd_job p (fun j =>
                   ((((j <| u32CmdNum := num |>) <| cmds := Some new |>)
                        <| u32NodeNum := j.(u32NodeNum) +u 1 |>)
                        <| bAqUseBuff := if negb (u32WorkBufNum =? 0) then true else j.(bAqUseBuff) |>)) st;
            Some (HI_SUCCESS, st)
  end.

Definition TdeOsiListCancelJob (h : Z) st : option (Z * TDE) :=
  match query_handle h st.(mgr) with
  | None => Some (HI_SUCCESS, st)
  | Some p =>
      pstJob ← st.(jobs) !! p;
      if pstJob.(bSubmitted) then Some (HI_FAILURE, st)
      else
        st ← TdeOsiListFreeSerialCmd p st;
        st ← TdeOsiListReleaseHandle p st;
        Some (0, st)
  end.

(** ** Submission *)

(** A job that is linked already would close the list into a ring behind its back:
    that is a fault here. *)
Definition TdeOsiListAddJob p st : option TDE :=
  j ← st.(jobs) !! p;
  if decide (p ∈ st.(stList)) then None else
  Some ((((st <| stList ::= (fun l => l ++ [p]) |>)
          <| u32JobNum ::= (fun k => k +u 1) |>)
          <| s32HandleLast := j.(s32Handle) |>)
          <| pstJobLast := Some p |>).

(** The pending jobs handed to the hardware; [exec] is what TdeHalNodeExecute answers. *)
Definition execute_pending (exec : Z) st : option TDE :=
  p ← st.(pstJobToCommit);
  j ← st.(jobs) !! p;
  n ← pstFirstCmd j;
  if decide (exec = HI_SUCCESS) then
    let st := emit (EExecute n.(u32PhyAddr) n.(u64Update) j.(bAqUseBuff)) st in
    Some (((st <| pstJobCommitted := Some p |>) <| pstJobToCommit := None |>)
            <| pstJobFinished := 0 |>)
  else Some st.

(** The new job chained behind the last one, which waits as well. *)
Definition join_last p st : option TDE :=
  match st.(pstJobToCommit) with
  | Some c =>
      lastp ← st.(pstJobLast);
      j ← st.(jobs) !! p;
      n ← pstFirstCmd j;
      lj ← st.(jobs) !! lastp;
      l ← lj.(cmds);
      if decide (l = []) then None
      else
        st ← upd_job lastp (fun j => j <| cmds := Some (link_tail l n) |>) st;
        st ← (if j.(bAqUseBuff) then upd_job c (fun j => j <| bAqUseBuff := true |>) st else Some st);
        if TDE_CACH_STRATEGY then TdeOsiListFlushJob lastp st else Some st
  | None => Some (st <| pstJobToCommit := Some p |>)
  end.

(** What the system answers during a submission: whether it runs in interrupt
    context, the free pages of the node pool, the three answers TDE_FENCE_Create
    gets, and the hardware's answer. *)
Record SubmitEnv := {
  se_in_interrupt : bool;
  se_wgetfreenum : Z;
  se_fd : Z;
  se_pt : bool;
  se_fen : bool;
  se_execute : Z;
}.

(** The other arguments of a submission. *)
Record SubmitArgs := mkArgs {
  sa_env : SubmitEnv;
  sa_timeout : Z;
  sa_cb : Z;
  sa_para : Z;
  sa_noti : TDE_NOTIFY_MODE_E;
  sa_fence : bool;
}.

(** The local variables that a submission takes into the lock. *)
Record SubmitLocals := mkLocals {
  sl_timeout : Z;
  sl_noti : TDE_NOTIFY_MODE_E;
  sl_asyn : bool;
  sl_execute : Z;
}.

(** A submission holds the lock only while it changes the queue. Before that it
    tests the handle, *)
Definition SubmitJob_check (h : Z) st : option ((Z + ptr) * TDE) :=
  match query_handle h st.(mgr) with
  | None => Some (inl HI_ERR_TDE_INVALID_HANDLE, st)
  | Some p =>
      j ← st.(jobs) !! p;
      if j.(bSubmitted) then Some (inl HI_ERR_TDE_INVALID_HANDLE, st)
      else
        l ← j.(cmds);
        if decide (l = []) then st ← TdeOsiListReleaseHandle p st; Some (inl HI_SUCCESS, st)
        else Some (inr p, st)
  end.

(** marks the job, whose block it got from the test, and creates its fence, *)
Definition SubmitJob_mark p (a : SubmitArgs) st : option ((Z + SubmitLocals) * TDE) :=
  j ← st.(jobs) !! p;
  tail ← pstTailNode j;
  let st := emit (EEnableInt (tail.(pBuf) + TDE_NODE_HEAD_BYTE)) st in
  let env := a.(sa_env) in
  let asynflag := bool_decide (a.(sa_noti) <> TDE_JOB_WAKE_NOTIFY)
                    && negb env.(se_in_interrupt) && (env.(se_wgetfreenum) <? 5) in
  let noti := if asynflag then TDE_JOB_WAKE_NOTIFY else a.(sa_noti) in
  let u32TimeOut := if asynflag then 1000 else a.(sa_timeout) in
  st ← upd_job p (fun j =>
         (((j <| bSubmitted := true |>) <| enNotiType := noti |>)
            <| pFuncComplCB := a.(sa_cb) |>) <| pFuncPara := a.(sa_para) |>) st;
  let fenced := TDE_FENCE_SUPPORT && bool_decide (noti <> TDE_JOB_WAKE_NOTIFY) && a.(sa_fence) in
  let (fd, st) := if fenced then TDE_FENCE_Create env.(se_fd) env.(se_pt) env.(se_fen) st
                  else (0, st) in
  if fenced && (fd <? 0) then Some (inl HI_ERR_TDE_NO_MEM, st)
  else
    st ← (if fenced then upd_job p (fun j => j <| s32ReleaseFenceFd := fd |>) st else Some st);
    Some (inr (mkLocals u32TimeOut noti asynflag env.(se_execute)), st).

(** and then, with the lock, puts it into the queue. *)
Definition SubmitJob_queue p (v : SubmitLocals) st : option (Outcome * TDE) :=
  st ← join_last p st;
  st ← (if TDE_CACH_STRATEGY then TdeOsiListFlushJob p st else Some st);
  st ← TdeOsiListAddJob p st;
  st ← execute_pending v.(sl_execute) st;
  Some (if decide (v.(sl_noti) = TDE_JOB_WAKE_NOTIFY) then SleepSubmit p v.(sl_timeout) v.(sl_asyn)
        else Ret HI_SUCCESS, st).

(** The whole call, when nothing comes between its parts. *)
Definition TdeOsiListSubmitJob (h : Z) (a : SubmitArgs) st : option (Outcome * TDE) :=
  '(o, st) ← SubmitJob_check h st;
  match o with
  | inl r => Some (Ret r, st)
  | inr p =>
      '(o, st) ← SubmitJob_mark p a st;
      match o with
      | inl r => Some (Ret r, st)
      | inr v => SubmitJob_queue p v st
      end
  end.

(** The submitter again, [wret] being what wait_event_interruptible_timeout returned. *)
Definition SubmitJob_wake p (asynflag : bool) (wret : Z) st : option (Z * TDE) :=
  j ← st.(jobs) !! p;
  if decide (j.(enNotiType) = TDE_JOB_NOTIFY_BUTT) then
    st ← (if j.(u8WaitForDoneCount) =? 0 then TdeOsiListDestroyJob p st else Some st);
    Some (HI_SUCCESS, st)
  else
    st ← upd_job p (fun j => j <| enNotiType := TDE_JOB_COMPL_NOTIFY |>) st;
    Some (if wret =? - ERESTARTSYS then HI_ERR_TDE_INTERRUPT
          else if asynflag then HI_SUCCESS else HI_ERR_TDE_JOB_TIMEOUT, st).

Definition notify_mode (bBlock : bool) : TDE_NOTIFY_MODE_E :=
  if bBlock then TDE_JOB_WAKE_NOTIFY else TDE_JOB_COMPL_NOTIFY.

Definition TdeOsiEndJobEx (env : SubmitEnv) (h : Z) (bBlock : bool) (u32TimeOut cb para : Z)
    (wantFence : bool) st : option (Outcome * TDE) :=
  if bBlock && env.(se_in_interrupt) then Some (Ret HI_ERR_TDE_UNSUPPORTED_OPERATION, st)
  else TdeOsiListSubmitJob h (mkArgs env u32TimeOut cb para (notify_mode bBlock) wantFence) st.

Definition TdeOsiEndJob (env : SubmitEnv) (h : Z) (bBlock : bool) (u32TimeOut cb para : Z) st
    : option (Outcome * TDE) :=
  if bBlock && env.(se_in_interrupt) then Some (Ret HI_ERR_TDE_UNSUPPORTED_OPERATION, st)
  else TdeOsiListSubmitJob h (mkArgs env u32TimeOut cb para (notify_mode bBlock) false) st.

(** ** Waiting *)

Definition TdeOsiListWaitForDone (h u32TimeOut : Z) st : option (Outcome * TDE) :=
  match query_handle h st.(mgr) with
  | None => Some (Ret HI_SUCCESS, st)
  | Some p =>
      j ← st.(jobs) !! p;
      if negb j.(bSubmitted) then Some (Ret HI_ERR_TDE_INVALID_HANDLE, st)
      else
        st ← upd_job p (fun j => j <| u8WaitForDoneCount ::= (fun c => u8 (c + 1)) |>) st;
        Some (SleepQuery p u32TimeOut, st)
  end.

(** The waiter again. *)
Definition WaitForDone_wake p (u32TimeOut wret : Z) st : option (Z * TDE) :=
  st ← upd_job p (fun j => j <| u8WaitForDoneCount ::= (fun c => u8 (c - 1)) |>) st;
  j ← st.(jobs) !! p;
  let done := bool_decide (j.(enNotiType) = TDE_JOB_NOTIFY_BUTT) in
  let last := j.(u8WaitForDoneCount) =? 0 in
  if negb (u32TimeOut =? 0) then
    if negb done then
      Some (if wret =? - ERESTARTSYS then HI_ERR_TDE_INTERRUPT else HI_ERR_TDE_QUERY_TIMEOUT, st)
    else
      st ← (if last then TdeOsiListDestroyJob p st else Some st);
      Some (HI_SUCCESS, st)
  else if wret =? - ERESTARTSYS then
    st ← (if done && last then TdeOsiListDestroyJob p st else Some st);
    Some (HI_ERR_TDE_INTERRUPT, st)
  else
    st ← (if last then TdeOsiListDestroyJob p st else Some st);
    Some (HI_SUCCESS, st).

Definition TdeOsiListWaitAllDone st : option (Outcome * TDE) :=
  if -1 =? st.(s32HandleLast) then Some (Ret HI_SUCCESS, st)
  else TdeOsiListWaitForDone st.(s32HandleLast) 0 st.

Definition TdeOsiWaitForDone (in_interrupt : bool) (h u32TimeOut : Z) st : option (Outcome * TDE) :=
  if in_interrupt then Some (Ret HI_ERR_TDE_UNSUPPORTED_OPERATION, st)
  else TdeOsiListWaitForDone h u32TimeOut st.

Definition TdeOsiWaitAllDone (in_interrupt : bool) st : option (Outcome * TDE) :=
  if in_interrupt then Some (Ret HI_ERR_TDE_UNSUPPORTED_OPERATION, st)
  else TdeOsiListWaitAllDone st.

(** ** Completion *)

Definition TdeOsiListCompProc (exec : Z) st : option TDE :=
  match st.(pstJobToCommit) with
  | Some _ => execute_pending exec st
  | None => Some st
  end.

Definition run_callback j st : TDE :=
  if negb (j.(pFuncComplCB) =? 0) then emit (ECallback j.(pFuncComplCB) j.(pFuncPara) j.(s32Handle)) st
  else st.

(** A finished job, already out of the queue, told to whom it concerns. *)
Definition notify_job p st : option TDE :=
  j ← st.(jobs) !! p;
  match j.(enNotiType) with
  | TDE_JOB_WAKE_NOTIFY =>
      st ← upd_job p (fun j => j <| enNotiType := TDE_JOB_NOTIFY_BUTT |>) st;
      let st := run_callback j st in
      let st := if negb (j.(u8WaitForDoneCount) =? 0) then emit (EWakeQuery p) st else st in
      Some (emit EWakeBlock st)
  | TDE_JOB_COMPL_NOTIFY =>
      let st := run_callback j st in
      st ← (if TDE_FENCE_SUPPORT && (j.(s32ReleaseFenceFd) >? 0) then TDE_FENCE_WakeUp st else Some st);
      TdeOsiListSafeDestroyJob p st
  | TDE_JOB_NOTIFY_BUTT => Some st
  end.

(** The first job leaves the queue [p :: l]. *)
Definition unlink_first p (l : list ptr) st : option TDE :=
  j ← st.(jobs) !! p;
  let st := st <| u32JobNum ::= (fun k => k -u 1) |> in
  let st := if j.(s32Handle) =? st.(s32HandleLast) then st <| s32HandleLast := -1 |> else st in
  Some (st <| stList := l |>).

(** What the hardware answers during a completion interrupt: idle or not, the node
    it is at, the handle word of that node's buffer ([None] if the address is
    not one of the node pool's), and its state when the finished jobs are gone. *)
Record HalAns := {
  ha_idle : bool;
  ha_CurNode : Z;
  ha_word : option Z;
  ha_idle_after : bool;
  ha_execute : Z;
}.

Fixpoint finish_loop (fuel : nat) (ans : HalAns) (fin : Z) st : option TDE :=
  match fuel, st.(stList) with
  | _, [] => Some st
  | O, _ => None
  | S fuel, p :: l =>
      j ← st.(jobs) !! p;
      st ← unlink_first p l st;
      st ← notify_job p st;
      if j.(s32Handle) =? fin then
        if ans.(ha_idle) && ans.(ha_idle_after) then TdeOsiListCompProc ans.(ha_execute) (emit EIntStats st)
        else Some st
      else finish_loop fuel ans fin st
  end.

(** The job before [p] in the queue: [None] at its head. A job that is not in the
    queue points to itself. *)
Fixpoint prev_job (prev : option ptr) (l : list ptr) (p : ptr) : option ptr :=
  match l with
  | [] => Some p
  | q :: l => if decide (p = q) then prev else prev_job (Some q) l p
  end.

(** The last finished job, if any: at an idle engine the job of the current node,
    otherwise the one before it. *)
Definition finished_handle (ans : HalAns) (word : Z) st : option (option Z * TDE) :=
  if ans.(ha_idle) then Some (Some word, st <| pstJobFinished := ans.(ha_CurNode) |>)
  else
    match query_handle word st.(mgr) with
    | None => Some (None, st)
    | Some p =>
        match prev_job None st.(stList) p with
        | None => Some (None, st)
        | Some q =>
            j ← st.(jobs) !! q;
            Some (Some j.(s32Handle), st <| pstJobFinished := 0 |>)
        end
    end.

Definition TdeOsiListNodeComp (ans : HalAns) st : option TDE :=
  if 0 =? ans.(ha_CurNode) then Some st
  else if ans.(ha_CurNode) =? st.(pstJobFinished) then Some st
  else
    match ans.(ha_word) with
    | None => Some st
    | Some word =>
        '(fin, st) ← finished_handle ans (s32 word) st;
        match fin with
        | None => Some st
        | Some fin =>
            match query_handle fin st.(mgr) with
            | None => Some st
            | Some _ =>
                finish_loop (S (length st.(stList))) ans fin (st <| s32HandleFinished := fin |>)
            end
        end
    end.

(** ** Reset *)

Definition reset_job p (l : list ptr) st : option TDE :=
  let st := (st <| u32JobNum ::= (fun k => k -u 1) |>) <| stList := l |> in
  j ← st.(jobs) !! p;
  st ← match j.(enNotiType) with
       | TDE_JOB_WAKE_NOTIFY =>
           st ← upd_job p (fun j => j <| enNotiType := TDE_JOB_NOTIFY_BUTT |>) st;
           Some (emit EWakeBlock st)
       | TDE_JOB_COMPL_NOTIFY => TdeOsiListSafeDestroyJob p st
       | TDE_JOB_NOTIFY_BUTT => Some st
       end;
  Some (((((st <| s32HandleFinished := -1 |>) <| s32HandleLast := -1 |>)
            <| pstJobCommitted := None |>) <| pstJobToCommit := None |>) <| pstJobLast := None |>).

Fixpoint reset_loop (fuel : nat) st : option TDE :=
  match fuel, st.(stList) with
  | _, [] => Some st
  | O, _ => None
  | S fuel, p :: l => st ← reset_job p l st; reset_loop fuel st
  end.

(** From the moment the engine reports that it is idle. *)
Definition TdeOsiListReset st : option TDE :=
  reset_loop (S (length st.(stList))) (emit EResumeInit st).

Definition TdeOsiListGetPhyBuff (in_interrupt : bool) (alloc : Z) : Z :=
  if in_interrupt then 0 else alloc.

End Tde.
