(* ===== verification/TdeClip.v ===== *)
(** * The 2D engine's clip window

    [TdeOsiAdjClipPara] of TdeList.v against its reference: the intersection of the
    clip window and the rectangle that is drawn. *)

From S2P Require Import Prelude TdeList.

Section Clip.
Implicit Types (hw : TDE_HWNode_S) (x y r : Z).

(** Two 12-bit coordinates of a register. *)
Definition low r : Z := Z.land r 4095.
Definition high r : Z := Z.land (Z.shiftr r 16) 4095.

(** The points of the clip window and those of the rectangle drawn. *)
Definition in_clip hw x y : Prop :=
  low hw.(u32TDE_CLIP_START) <= x <= low hw.(u32TDE_CLIP_STOP) /\
  high hw.(u32TDE_CLIP_START) <= y <= high hw.(u32TDE_CLIP_STOP).
Definition in_target hw x y : Prop :=
  low hw.(u32TDE_TAR_XY) <= x < low hw.(u32TDE_TAR_XY) + low hw.(u32TDE_TS_SIZE) /\
  high hw.(u32TDE_TAR_XY) <= y < high hw.(u32TDE_TAR_XY) + high hw.(u32TDE_TS_SIZE).
Definition clip_on hw : Prop := Z.testbit hw.(u32TDE_CLIP_START) 31 = true.

Lemma land_4095 r : Z.land r 4095 = r mod 4096.
Proof. change 4095 with (Z.ones 12). by rewrite Z.land_ones by lia. Qed.

Lemma low_range r : 0 <= low r < 4096.
Proof. unfold low. rewrite land_4095. apply Z.mod_pos_bound. lia. Qed.

Lemma high_range r : 0 <= high r < 4096.
Proof. unfold high. rewrite land_4095. apply Z.mod_pos_bound. lia. Qed.

Lemma lor_shiftl a b k : 0 <= k -> 0 <= a < 2 ^ k -> Z.lor a (Z.shiftl b k) = a + b * 2 ^ k.
Proof.
  intros Hk Ha. rewrite <- Z.shiftl_mul_pow2, <- Z.add_lor_land by done.
  assert (Z.land a (Z.shiftl b k) = 0) as ->; [|lia].
  apply Z.bits_inj'. intros i Hi. rewrite Z.land_spec, Z.bits_0.
  destruct (Z.lt_ge_cases i k).
  - rewrite Z.shiftl_spec_low by done. by rewrite andb_false_r.
  - destruct (decide (a = 0)) as [->|]; [by rewrite Z.bits_0|].
    rewrite Z.bits_above_log2; [done|lia|]. apply Z.lt_le_trans with k; [|done].
    apply Z.log2_lt_pow2; lia.
Qed.

(** A register packed from two coordinates, with bit 31 ([t]) or without, unpacks. *)
Lemma unpack t x y :
  0 <= x < 4096 -> 0 <= y < 4096 -> t = 0 \/ t = 2147483648 ->
  let r := t + x + y * 65536 in
  low r = x /\ high r = y /\ (t = 2147483648 -> Z.testbit r 31 = true).
Proof.
  intros Hx Hy Ht. cbv zeta. unfold low, high. rewrite !land_4095, Z.shiftr_div_pow2 by lia.
  rewrite Z.testbit_true by lia.
  destruct Ht; subst t; (split_and!; [..|intros]); Z.div_mod_to_equations; lia.
Qed.

Lemma pack_stop x y : 0 <= x < 4096 -> Z.lor x (Z.shiftl y 16) = 0 + x + y * 65536.
Proof. intros. rewrite lor_shiftl; lia. Qed.

Lemma pack_start x y :
  0 <= x < 4096 -> 0 <= y < 4096 ->
  Z.lor (Z.lor 2147483648 x) (Z.shiftl y 16) = 2147483648 + x + y * 65536.
Proof.
  intros. rewrite <- Z.lor_assoc, lor_shiftl by lia. rewrite Z.lor_comm.
  change 2147483648 with (Z.shiftl 1 31). rewrite lor_shiftl by lia.
  change (Z.shiftl 1 31) with 2147483648. lia.
Qed.

Lemma clip_off hw : 0 <= hw.(u32TDE_CLIP_START) < 4294967296 ->
  (Z.shiftr hw.(u32TDE_CLIP_START) 31 =? 0) = false <-> clip_on hw.
Proof.
  intros Hr. unfold clip_on. rewrite Z.eqb_neq, Z.testbit_true, Z.shiftr_div_pow2 by lia.
  change (2 ^ 31) with 2147483648 in *. Z.div_mod_to_equations. lia.
Qed.

(** C35: The clip adjustment intersects: of a node that clips and draws a non-empty
    rectangle, either the new window, still switched on, holds exactly the points
    that lie both in the old window and in the rectangle, and nothing else
    changes; or there is no such point, and only the bit 14 of the instruction
    is cleared. *)
Theorem adj_clip_intersects hw :
  is_u32 hw.(u32TDE_CLIP_START) -> clip_on hw ->
  1 <= low hw.(u32TDE_TS_SIZE) -> 1 <= high hw.(u32TDE_TS_SIZE) ->
  let hw' := TdeOsiAdjClipPara hw in
  (clip_on hw' /\ (exists x y, in_clip hw' x y) /\
   (forall x y, in_clip hw' x y <-> in_clip hw x y /\ in_target hw x y) /\
   hw'.(u32TDE_INS) = hw.(u32TDE_INS) /\ hw'.(u32TDE_TAR_XY) = hw.(u32TDE_TAR_XY) /\
   hw'.(u32TDE_TS_SIZE) = hw.(u32TDE_TS_SIZE)) \/
  ((forall x y, ~ (in_clip hw x y /\ in_target hw x y)) /\
   hw' = hw <| u32TDE_INS := Z.land hw.(u32TDE_INS) 4294950911 |>).
Proof.
  intros Hr Hon Hw Hh. cbv zeta. unfold TdeOsiAdjClipPara.
  rewrite (proj2 (clip_off hw Hr) Hon). cbv zeta.
  unfold in_clip, in_target. fold (low (u32TDE_CLIP_START hw)) (high (u32TDE_CLIP_START hw))
    (low (u32TDE_CLIP_STOP hw)) (high (u32TDE_CLIP_STOP hw)) (low (u32TDE_TAR_XY hw))
    (high (u32TDE_TAR_XY hw)) (low (u32TDE_TS_SIZE hw)) (high (u32TDE_TS_SIZE hw)).
  pose proof (low_range (u32TDE_CLIP_START hw)). pose proof (high_range (u32TDE_CLIP_START hw)).
  pose proof (low_range (u32TDE_CLIP_STOP hw)). pose proof (high_range (u32TDE_CLIP_STOP hw)).
  pose proof (low_range (u32TDE_TAR_XY hw)). pose proof (high_range (u32TDE_TAR_XY hw)).
  pose proof (low_range (u32TDE_TS_SIZE hw)). pose proof (high_range (u32TDE_TS_SIZE hw)).
  set (a := low (u32TDE_CLIP_START hw)) in *. set (b := high (u32TDE_CLIP_START hw)) in *.
  set (c := low (u32TDE_CLIP_STOP hw)) in *. set (d := high (u32TDE_CLIP_STOP hw)) in *.
  set (e := low (u32TDE_TAR_XY hw)) in *. set (f := high (u32TDE_TAR_XY hw)) in *.
  set (w := low (u32TDE_TS_SIZE hw)) in *. set (h := high (u32TDE_TS_SIZE hw)) in *.
  wraps.
  set (x0 := if a >? e then a else e). set (y0 := if b >? f then b else f).
  set (x1 := if c <? e + w - 1 then c else e + w - 1). set (y1 := if d <? f + h - 1 then d else f + h - 1).
  assert (x0 = Z.max a e) as -> by (unfold x0; destruct (Z.gtb_spec a e); lia).
  assert (y0 = Z.max b f) as -> by (unfold y0; destruct (Z.gtb_spec b f); lia).
  assert (x1 = Z.min c (e + w - 1)) as -> by (unfold x1; destruct (Z.ltb_spec c (e + w - 1)); lia).
  assert (y1 = Z.min d (f + h - 1)) as -> by (unfold y1; destruct (Z.ltb_spec d (f + h - 1)); lia).
  destruct ((_ >? _) || _) eqn:Hempty.
  - right. split; [|done]. intros x y Hxy. lia.
  - left. apply orb_false_iff in Hempty as [Hx Hy]. rewrite Z.gtb_ltb, Z.ltb_ge in Hx, Hy.
    assert (forall r, 0 <= r < 4096 -> Z.land r 4095 = r) as Hland.
    { intros r ?. rewrite land_4095. by apply Z.mod_small. }
    unfold clip_on. simpl. rewrite !Hland, pack_start, pack_stop by lia.
    destruct (unpack 2147483648 (Z.max a e) (Z.max b f)) as (-> & -> & Hbit); [lia..|by right|].
    destruct (unpack 0 (Z.min c (e + w - 1)) (Z.min d (f + h - 1))) as (-> & -> & _); [lia..|by left|].
    split_and!; try done; [by apply Hbit| |].
    + exists (Z.max a e), (Z.max b f). lia.
    + intros x y. lia.
Qed.

Lemma adj_clip_intersects_witness :
  let hw := mkHW 16384 (2147483648 + 10 + 20 * 65536) (100 + 50 * 65536) (30 + 5 * 65536)
              (40 + 30 * 65536) in
  let hw' := TdeOsiAdjClipPara hw in
  (low hw'.(u32TDE_CLIP_START), high hw'.(u32TDE_CLIP_START), low hw'.(u32TDE_CLIP_STOP),
   high hw'.(u32TDE_CLIP_STOP)) = (30, 20, 69, 34) /\
  forall x y, in_clip hw' x y <-> in_clip hw x y /\ in_target hw x y.
Proof.
  cbv zeta. split; [by vm_compute|].
  destruct (adj_clip_intersects (mkHW 16384 (2147483648 + 10 + 20 * 65536) (100 + 50 * 65536)
              (30 + 5 * 65536) (40 + 30 * 65536))) as [(_ & _ & Hi & _)|[Hno _]];
    [by vm_compute|by vm_compute|by vm_compute|by vm_compute|exact Hi|].
  exfalso. apply (Hno 30 20). unfold in_clip, in_target. by vm_compute.
Defined.
End Clip.
