(* ===== verification/TdeJobs.v ===== *)
(** * The job queue of the 2D engine: life of a job

    The invariant of the queue of TdeList.v and of the callers asleep on its jobs,
    and what it gives: no call uses a freed job, jobs complete in the order they
    were submitted, and the nodes of the waiting jobs form one chain in that order. *)

From stdpp Require Import gmultiset.
From S2P Require Import Prelude TdeList.
#[local] Open Scope Z_scope.

(** ** Chains of nodes *)

Section Chains.
Implicit Types (l : list TDE_SWNODE_S) (n t : TDE_SWNODE_S).

(** Every node's tail words lead to the next node. *)
Fixpoint linked l : Prop :=
  match l with
  | t :: ((n :: _) as r) =>
      t.(buf_next) = n.(u32PhyAddr) /\ t.(buf_next_update) = n.(u64Update) /\ linked r
  | _ => True
  end.

Definition pointed t n : TDE_SWNODE_S :=
  (t <| buf_next := n.(u32PhyAddr) |>) <| buf_next_update := n.(u64Update) |>.

Lemma link_tail_snoc l t n : link_tail (l ++ [t]) n = l ++ [pointed t n].
Proof.
  unfold link_tail. rewrite length_app. simpl.
  replace (pred (length l + 1)) with (length l + 0)%nat by lia.
  rewrite alter_app_r. done.
Qed.

Lemma linked_app_inv l l' : linked (l ++ l') -> linked l /\ linked l'.
Proof.
  induction l as [|t l IH]; [done|]. destruct l as [|n l].
  - destruct l'; simpl; tauto.
  - simpl. simpl in IH. tauto.
Qed.

(** A node whose tail is set is as good as before for what points to it. *)
Lemma linked_pointed l t n l' :
  linked (l ++ [t]) -> linked (n :: l') -> linked (l ++ pointed t n :: n :: l').
Proof.
  intros Hl Hn. induction l as [|a l IH]; [done|].
  destruct l as [|b l]; simpl in *.
  - destruct Hl as (-> & -> & _). auto.
  - destruct Hl as (-> & -> & Hl). by split_and!; [..|apply IH].
Qed.

Lemma linked_set_last l t n : linked (l ++ [t]) -> linked (l ++ [pointed t n]).
Proof.
  intros Hl. induction l as [|a l IH]; [done|].
  destruct l as [|b l]; simpl in *.
  - destruct Hl as (-> & -> & _). done.
  - destruct Hl as (-> & -> & Hl). by split_and!; [..|apply IH].
Qed.

Lemma link_tail_linked l n : linked l -> l <> [] -> linked (link_tail l n ++ [n]).
Proof.
  intros Hl Hne. destruct (exists_last Hne) as (l0 & t & ->).
  rewrite link_tail_snoc, <- app_assoc. apply linked_pointed; done.
Qed.

Lemma link_tail_ne l n : l <> [] -> link_tail l n <> [].
Proof.
  intros Hne. destruct (exists_last Hne) as (l0 & t & ->).
  rewrite link_tail_snoc. by destruct l0.
Qed.

Lemma link_tail_join l0 l n l' :
  l <> [] -> linked (l0 ++ l) -> linked (n :: l') -> linked ((l0 ++ link_tail l n) ++ n :: l').
Proof.
  intros Hne Hl Hn. destruct (exists_last Hne) as (l1 & t & ->).
  rewrite link_tail_snoc, app_assoc, <- app_assoc. apply linked_pointed; [|done].
  by rewrite <- app_assoc.
Qed.
End Chains.

(** ** What a state shows

    Releasing memory and flushing caches changes neither the queue nor the jobs:
    two states with the same [visible] part differ in such effects only. *)

Definition is_visible (e : Event) : bool :=
  match e with EFree _ | EFlush _ _ _ => false | _ => true end.

Section Visible.
Context `{H : HandleManager, T : TdeConsts, C : HiConsts}.
Implicit Types (st : TDE) (p : ptr) (j : TDE_SWJOB_S) (n : TDE_SWNODE_S).

Definition visible st : TDE :=
  ((st <| trace ::= List.filter is_visible |>) <| mallocs := [] |>) <| work := [] |>.

Lemma visible_emit e st : is_visible e = false -> visible (emit e st) = visible st.
Proof.
  intros He. destruct st. unfold visible, emit, update; simpl. f_equal.
  rewrite List.filter_app. simpl. by rewrite He, app_nil_r.
Qed.

Lemma visible_put (k : Z) st : visible (TdeOsiListPutPhyBuff k st) = visible st.
Proof.
  unfold TdeOsiListPutPhyBuff, TdeOsiListHsr, malloc.
  case_match; [done|]. by destruct (mallocs st) as [|[] ?].
Qed.

Lemma visible_free n st : visible (TdeOsiListFreeNode n st) = visible st.
Proof.
  unfold TdeOsiListFreeNode. rewrite visible_put. case_match; [|done]. by rewrite visible_emit.
Qed.

Lemma visible_flush n st : visible (TdeOsiListFlushNode n st) = visible st.
Proof. unfold TdeOsiListFlushNode. case_match; [by rewrite visible_emit|done]. Qed.

Lemma visible_fold (f : TDE_SWNODE_S -> TDE -> TDE) l st :
  (forall n st, visible (f n st) = visible st) ->
  visible (foldl (fun st n => f n st) st l) = visible st.
Proof.
  intros Hf. revert st. induction l as [|n l IH]; intros st; [done|]. simpl. by rewrite IH, Hf.
Qed.

(** States that look alike have the same fields. *)
Lemma visible_jobs st st' : visible st = visible st' -> st.(jobs) = st'.(jobs).
Proof. intros E. exact (f_equal jobs E). Qed.
Lemma visible_mgr st st' : visible st = visible st' -> st.(mgr) = st'.(mgr).
Proof. intros E. exact (f_equal mgr E). Qed.

Lemma upd_job_Some p f st j :
  st.(jobs) !! p = Some j ->
  upd_job p f st = Some (st <| jobs := <[p := f j]> st.(jobs) |>).
Proof. intros Hj. unfold upd_job. by rewrite Hj. Qed.

(** States alike field by field. *)
Lemma visible_ext st st' :
  st.(jobs) = st'.(jobs) -> st.(mgr) = st'.(mgr) ->
  List.filter is_visible st.(trace) = List.filter is_visible st'.(trace) ->
  st.(stList) = st'.(stList) ->
  st.(s32HandleLast) = st'.(s32HandleLast) ->
  st.(s32HandleFinished) = st'.(s32HandleFinished) ->
  st.(u32JobNum) = st'.(u32JobNum) ->
  st.(pstJobCommitted) = st'.(pstJobCommitted) ->
  st.(pstJobToCommit) = st'.(pstJobToCommit) ->
  st.(pstJobFinished) = st'.(pstJobFinished) ->
  st.(pstJobLast) = st'.(pstJobLast) ->
  st.(fence) = st'.(fence) ->
  visible st = visible st'.
Proof. destruct st, st'. cbn. intros. unfold visible, update. cbn. by f_equal. Qed.

Ltac field_of Hv f := exact (f_equal f Hv).
(** From two states alike, two states alike but for the jobs and the handle manager. *)
Ltac alike Hv :=
  apply visible_ext;
    [| | field_of Hv (fun s : TDE => s.(trace))
    | field_of Hv (fun s : TDE => s.(stList))
    | field_of Hv (fun s : TDE => s.(s32HandleLast))
    | field_of Hv (fun s : TDE => s.(s32HandleFinished))
    | field_of Hv (fun s : TDE => s.(u32JobNum))
    | field_of Hv (fun s : TDE => s.(pstJobCommitted))
    | field_of Hv (fun s : TDE => s.(pstJobToCommit))
    | field_of Hv (fun s : TDE => s.(pstJobFinished))
    | field_of Hv (fun s : TDE => s.(pstJobLast))
    | field_of Hv (fun s : TDE => s.(fence))
    ].

(** A job without its block: what releasing it leaves. *)
Definition dropped p j st : TDE :=
  (st <| mgr := (release_handle j.(s32Handle) st.(mgr)).2 |>) <| jobs ::= delete p |>.

Lemma release_spec `{HO : !HandleManagerOk H} p j st :
  st.(jobs) !! p = Some j -> handles_ok st.(mgr) ->
  query_handle j.(s32Handle) st.(mgr) = Some p ->
  TdeOsiListReleaseHandle p st = Some (dropped p j st).
Proof.
  intros Hj Hm Hq. unfold TdeOsiListReleaseHandle, dropped. rewrite Hj. simpl.
  pose proof (release_live _ _ _ Hm Hq) as Hr.
  destruct (release_handle _ _) as [ok m]. simpl in *. by subst ok.
Qed.

Lemma free_cmds_spec p j l st :
  st.(jobs) !! p = Some j -> j.(cmds) = Some l ->
  exists st' j', TdeOsiListFreeSerialCmd p st = Some st' /\ s32Handle j' = s32Handle j /\
    visible st' = visible (st <| jobs := <[p := j']> st.(jobs) |>).
Proof.
  intros Hj Hl. unfold TdeOsiListFreeSerialCmd. rewrite Hj. simpl. rewrite Hl. simpl.
  set (st1 := foldl _ st l).
  assert (visible st1 = visible st) as Hv.
  { apply (visible_fold TdeOsiListFreeNode), visible_free. }
  assert (st1.(jobs) = st.(jobs)) as Hjs by by apply visible_jobs.
  erewrite upd_job_Some by by rewrite Hjs. simpl.
  eexists _, (if l is [] then j else j <| cmds := None |>).
  split; [done|]. split; [by destruct l|].
  alike Hv; [by rewrite <- Hjs|exact (visible_mgr _ _ Hv)].
Qed.

Lemma destroy_spec `{HO : !HandleManagerOk H} p j l st :
  st.(jobs) !! p = Some j -> j.(cmds) = Some l -> handles_ok st.(mgr) ->
  query_handle j.(s32Handle) st.(mgr) = Some p ->
  exists st', (st1 ← TdeOsiListFreeSerialCmd p st; TdeOsiListReleaseHandle p st1) = Some st' /\
    TdeOsiListDestroyJob p st = Some st' /\ visible st' = visible (dropped p j st).
Proof.
  intros Hj Hl Hm Hq. destruct (free_cmds_spec p j l st Hj Hl) as (st1 & j' & Hf & Hh & Hv).
  pose proof (visible_jobs _ _ Hv) as Hjs. pose proof (visible_mgr _ _ Hv) as Hms. simpl in *.
  exists (dropped p j' st1).
  assert (TdeOsiListReleaseHandle p st1 = Some (dropped p j' st1)) as Hr.
  { apply release_spec.
    - by rewrite Hjs, lookup_insert_eq.
    - by rewrite Hms.
    - by rewrite Hms, Hh. }
  split; [by rewrite Hf|]. split.
  - unfold TdeOsiListDestroyJob. rewrite Hj. simpl. by rewrite Hq, Hf.
  - alike Hv; simpl.
    + by rewrite Hjs, delete_insert_eq.
    + by rewrite Hms, Hh.
Qed.
End Visible.

(** ** The invariant *)

Section Invariant.
Context `{H : HandleManager, T : TdeConsts, C : HiConsts}.
Context `{HO : !HandleManagerOk H}.
Implicit Types (st : TDE) (p : ptr) (j : TDE_SWJOB_S) (n : nat).

(** The submitters: those that sleep on their job, those that have tested their
    handle, those that have marked their job and are about to queue it, and those
    that have left a marked job behind since it got no fence. *)
Record Callers := mkCallers {
  blocked : gset ptr;
  checked : gmap ptr SubmitArgs;
  entering : gmap ptr SubmitLocals;
  unfenced : gset ptr;
}.

(** The queue with the submitters and the jobs on which queries sleep, once per
    query. *)
Record Sys := mkSys { tde : TDE; callers : Callers; queriers : gmultiset ptr }.
Definition submitters (s : Sys) : gset ptr := s.(callers).(blocked).

(** What the submitters are doing with one job. *)
Record Stand := mkStand {
  w_blocked : bool;
  w_checked : option SubmitArgs;
  w_entering : option SubmitLocals;
  w_unfenced : bool;
}.

Definition stand (cs : Callers) p : Stand :=
  mkStand (bool_decide (p ∈ cs.(blocked))) (cs.(checked) !! p) (cs.(entering) !! p)
    (bool_decide (p ∈ cs.(unfenced))).
#[global] Arguments stand : simpl never.
Definition absent : Stand := mkStand false None None false.
#[global] Instance stand_absent_dec w : Decision (w = absent).
Proof.
  destruct w as [[] [?|] [?|] []]; first [by left|by right].
Defined.

(** From job [p] of a list on. *)
Fixpoint from p (l : list ptr) : list ptr :=
  match l with [] => [] | q :: r => if decide (p = q) then l else from p r end.

(** The jobs the hardware has not been given yet. *)
Definition pending st : list ptr :=
  match st.(pstJobToCommit) with Some p => from p st.(stList) | None => [] end.

Definition nodes_of (js : gmap ptr TDE_SWJOB_S) p : list TDE_SWNODE_S :=
  match js !! p with Some j => default [] j.(cmds) | None => [] end.
Definition chain (js : gmap ptr TDE_SWJOB_S) (l : list ptr) : list TDE_SWNODE_S :=
  concat (map (nodes_of js) l).

(** Where a job can be in its life: being built, perhaps with its handle tested for
    submission; marked, and about to be queued; queued, with a sleeping submitter or
    without; left behind, for want of a fence; done but kept for the sleepers. [q]: in
    the queue; [w]: what its submitters do; [n]: the number of queries asleep on it. *)
Definition life (q : bool) (w : Stand) n j : Prop :=
  if j.(bSubmitted) then
    w.(w_checked) = None /\
    match w.(w_entering) with
    | Some v => q = false /\ w.(w_blocked) = false /\ w.(w_unfenced) = false /\
        j.(enNotiType) = v.(sl_noti) /\ v.(sl_noti) <> TDE_JOB_NOTIFY_BUTT /\
        (v.(sl_noti) = TDE_JOB_WAKE_NOTIFY -> n = O)
    | None =>
        match j.(enNotiType) with
        | TDE_JOB_WAKE_NOTIFY => q = true /\ w.(w_blocked) = true /\ w.(w_unfenced) = false /\ n = O
        | TDE_JOB_COMPL_NOTIFY => w.(w_blocked) = false /\
            if q then w.(w_unfenced) = false
            else w.(w_unfenced) = true /\ TDE_FENCE_SUPPORT = true /\ j.(s32ReleaseFenceFd) = -1
        | TDE_JOB_NOTIFY_BUTT => q = false /\ w.(w_unfenced) = false /\
            (w.(w_blocked) = true /\ n = O \/ w.(w_blocked) = false /\ n <> O)
        end
    end
  else q = false /\ w.(w_blocked) = false /\ w.(w_entering) = None /\ w.(w_unfenced) = false /\ n = O /\
    (TDE_FENCE_SUPPORT = true -> j.(s32ReleaseFenceFd) = -1) /\
    (forall a, w.(w_checked) = Some a -> a.(sa_noti) <> TDE_JOB_NOTIFY_BUTT /\ j.(cmds) <> Some []).

Record job_ok (q : bool) (w : Stand) n (timeline : bool) (m : handles) p j : Prop := {
  jo_handle : query_handle j.(s32Handle) m = Some p;
  jo_cmds : exists l, j.(cmds) = Some l /\ linked l /\ (j.(bSubmitted) = true -> l <> []) /\
    (l = [] -> j.(u32CmdNum) = 0);
  jo_count : j.(u8WaitForDoneCount) = Z.of_nat n;
  jo_small : (n < 256)%nat;
  jo_fence : q = true \/ is_Some w.(w_entering) -> j.(s32ReleaseFenceFd) > 0 ->
    TDE_FENCE_SUPPORT = true -> timeline = true;
  jo_life : life q w n j;
}.

Definition job_in (s : Sys) p j : Prop :=
  job_ok (bool_decide (p ∈ s.(tde).(stList))) (stand s.(callers) p)
    (multiplicity p s.(queriers)) s.(tde).(fence).(gs_pstTimeline) s.(tde).(mgr) p j.

Record queue_ok st : Prop := {
  q_nodup : NoDup st.(stList);
  q_num : st.(u32JobNum) = u32 (Z.of_nat (length st.(stList)));
  q_last p : st.(pstJobToCommit) = Some p -> last st.(stList) = st.(pstJobLast);
  q_commit p : st.(pstJobToCommit) = Some p -> p ∈ st.(stList);
  q_chain : linked (chain st.(jobs) (pending st));
  q_aq c p j : st.(pstJobToCommit) = Some c -> p ∈ pending st -> st.(jobs) !! p = Some j ->
    j.(bAqUseBuff) = true -> exists jc, st.(jobs) !! c = Some jc /\ jc.(bAqUseBuff) = true;
}.

Record inv (s : Sys) : Prop := {
  i_mgr : handles_ok s.(tde).(mgr);
  i_queue : queue_ok s.(tde);
  i_jobs p j : s.(tde).(jobs) !! p = Some j -> job_in s p j;
  i_list p : p ∈ s.(tde).(stList) -> is_Some (s.(tde).(jobs) !! p);
  i_sub p : stand s.(callers) p <> absent -> is_Some (s.(tde).(jobs) !! p);
  i_query p : p ∈ s.(queriers) -> is_Some (s.(tde).(jobs) !! p);
  i_handle h p : query_handle h s.(tde).(mgr) = Some p ->
    exists j, s.(tde).(jobs) !! p = Some j /\ j.(s32Handle) = h;
}.

Lemma inv_visible st st' subs qs :
  visible st = visible st' -> inv (mkSys st subs qs) -> inv (mkSys st' subs qs).
Proof.
  intros E [Im [Qa Qb Qc Qd Qe Qf] Ij Il Is Iqu Ih]. destruct st, st'.
  unfold visible, update in E. simpl in *. injection E. intros; subst.
  by split; [|split|..].
Qed.

Lemma from_in p l : p ∈ l -> exists l1 r, l = l1 ++ p :: r /\ from p l = p :: r /\ p ∉ l1.
Proof.
  induction l as [|q l IH]; [by intros ?%not_elem_of_nil|]. simpl. intros Hp.
  case_decide as Hpq.
  - subst q. exists [], l. repeat split. apply not_elem_of_nil.
  - apply elem_of_cons in Hp as [->|Hp]; [done|].
    destruct (IH Hp) as (l1 & r & -> & -> & Hn). exists (q :: l1), r.
    split; [done|]. split; [done|]. by apply not_elem_of_cons.
Qed.

Lemma from_incl p q l : q ∈ from p l -> q ∈ l.
Proof.
  induction l as [|a l IH]; simpl; [done|]. case_decide; [done|].
  intros Hq. apply elem_of_cons. auto.
Qed.

Lemma pending_incl st q : q ∈ pending st -> q ∈ st.(stList).
Proof.
  unfold pending. destruct (pstJobToCommit st); [apply from_incl|by intros ?%not_elem_of_nil].
Qed.

Lemma chain_ext js js' l :
  (forall p, p ∈ l -> nodes_of js' p = nodes_of js p) -> chain js' l = chain js l.
Proof.
  unfold chain. induction l as [|p l IH]; [done|]. intros Hl. simpl.
  rewrite (Hl p), IH; [done| |by apply elem_of_cons; left].
  intros q Hq. apply Hl, elem_of_cons. auto.
Qed.

Lemma nodes_of_ext js js' p j j' :
  js !! p = Some j -> js' !! p = Some j' -> j'.(cmds) = j.(cmds) -> nodes_of js' p = nodes_of js p.
Proof. unfold nodes_of. by intros -> -> ->. Qed.

(** The queue's part only depends on these fields of its jobs. *)
Definition same_in_queue j j' : Prop :=
  j'.(s32Handle) = j.(s32Handle) /\ j'.(cmds) = j.(cmds) /\ j'.(bAqUseBuff) = j.(bAqUseBuff).

Lemma queue_frame st st' :
  queue_ok st ->
  st'.(stList) = st.(stList) -> st'.(u32JobNum) = st.(u32JobNum) ->
  st'.(pstJobLast) = st.(pstJobLast) -> st'.(pstJobToCommit) = st.(pstJobToCommit) ->
  (forall p, p ∈ st.(stList) -> exists j j', st.(jobs) !! p = Some j /\ st'.(jobs) !! p = Some j' /\
     same_in_queue j j') ->
  queue_ok st'.
Proof.
  intros [Hnd Hnum Hlast Hcom Hch Haq] El En Ela Ec Hj.
  assert (pending st' = pending st) as Ep by by unfold pending; rewrite Ec, El.
  split.
  - by rewrite El.
  - by rewrite En, El.
  - intros p. rewrite Ec, El, Ela. apply Hlast.
  - intros p. rewrite Ec, El. apply Hcom.
  - rewrite Ep. erewrite chain_ext; [exact Hch|]. intros p Hp.
    destruct (Hj p (pending_incl _ _ Hp)) as (j & j' & E & E' & _ & Hcm & _).
    by eapply nodes_of_ext.
  - intros c p j'. rewrite Ec, Ep. intros Hc Hp E' Ha.
    destruct (Hj p (pending_incl _ _ Hp)) as (j & ? & E & ? & _ & _ & Hb). simplify_eq.
    destruct (Haq c p j Hc Hp E) as (jc & Ejc & Hjc); [congruence|].
    destruct (Hj c (Hcom c Hc)) as (? & jc' & ? & Ejc' & _ & _ & Hb'). simplify_eq.
    exists jc'. split; [done|congruence].
Qed.

(** What another job's step leaves of a job's invariant. *)
Lemma job_ok_frame q sub n tl m tl' m' p j :
  (tl = true -> tl' = true) ->
  (query_handle j.(s32Handle) m = Some p -> query_handle j.(s32Handle) m' = Some p) ->
  job_ok q sub n tl m p j -> job_ok q sub n tl' m' p j.
Proof. intros Ht Hm [Hh Hc Hn Hs Hf Hl]. split; auto. Qed.

(** A step that touches one job and keeps the queue. *)
Lemma inv_point st subs qs st' subs' qs' p :
  inv (mkSys st subs qs) ->
  handles_ok st'.(mgr) ->
  st'.(stList) = st.(stList) -> st'.(u32JobNum) = st.(u32JobNum) ->
  st'.(pstJobLast) = st.(pstJobLast) -> st'.(pstJobToCommit) = st.(pstJobToCommit) ->
  (st.(fence).(gs_pstTimeline) = true -> st'.(fence).(gs_pstTimeline) = true) ->
  (forall q, q <> p -> st'.(jobs) !! q = st.(jobs) !! q) ->
  (forall q, q <> p -> stand subs' q = stand subs q /\ multiplicity q qs' = multiplicity q qs) ->
  (forall h q, q <> p -> query_handle h st'.(mgr) = Some q <-> query_handle h st.(mgr) = Some q) ->
  match st'.(jobs) !! p with
  | Some j' => job_in (mkSys st' subs' qs') p j' /\
      (forall h, query_handle h st'.(mgr) = Some p -> j'.(s32Handle) = h) /\
      (p ∈ st.(stList) -> exists j, st.(jobs) !! p = Some j /\ same_in_queue j j')
  | None => p ∉ st.(stList) /\ stand subs' p = absent /\ p ∉ qs' /\ forall h, query_handle h st'.(mgr) <> Some p
  end ->
  inv (mkSys st' subs' qs').
Proof.
  intros [Im Iq Ij Il Is Iqu Ih] Hm El En Ela Ec Ht Hjs Hms Hqs Hp. simpl in *.
  assert (forall q, q = p \/ q <> p) as Hdec by (intros q; destruct (decide (q = p)); auto).
  assert (forall q, q ∈ qs' <-> (0 < multiplicity q qs')%nat) as Hin by (intros; apply elem_of_multiplicity).
  split; simpl.
  - done.
  - eapply queue_frame; [exact Iq|done..|]. intros q Hq. destruct (Hdec q) as [->|Hne].
    + destruct (jobs st' !! p) as [j'|]; [|naive_solver].
      destruct Hp as (_ & _ & Hp). destruct (Hp Hq) as (j & ? & ?). eauto.
    + destruct (Il q Hq) as [j Hj]. exists j, j. rewrite Hjs by done. done.
  - intros q j' Hj'. destruct (Hdec q) as [->|Hne].
    + rewrite Hj' in Hp. naive_solver.
    + rewrite Hjs in Hj' by done. specialize (Ij q j' Hj'). unfold job_in in *. simpl in *.
      destruct (Hms q Hne) as [Hs1 Hs2]. rewrite El, Hs2, Hs1.
      eapply job_ok_frame; [exact Ht|by apply Hqs|done].
  - intros q. rewrite El. intros Hq. destruct (Hdec q) as [->|Hne].
    + destruct (jobs st' !! p); [done|naive_solver].
    + rewrite Hjs by done. auto.
  - intros q Hq. destruct (Hdec q) as [->|Hne].
    + destruct (jobs st' !! p); [done|naive_solver].
    + rewrite Hjs by done. apply Is. by rewrite <- (proj1 (Hms q Hne)).
  - intros q Hq. destruct (Hdec q) as [->|Hne].
    + destruct (jobs st' !! p); [done|naive_solver].
    + rewrite Hjs by done. apply Iqu. apply elem_of_multiplicity.
      rewrite <- (proj2 (Hms q Hne)). by apply Hin.
  - intros h q Hq. destruct (Hdec q) as [->|Hne].
    + destruct (jobs st' !! p) as [j'|]; [|naive_solver]. exists j'. naive_solver.
    + rewrite Hjs by done. apply Ih. by apply Hqs in Hq.
Qed.

(** What becomes of a job that leaves the queue: kept, marked done, for those who sleep
    on it, otherwise released. *)
Definition retired j : option TDE_SWJOB_S :=
  if decide (j.(enNotiType) = TDE_JOB_WAKE_NOTIFY \/ j.(u8WaitForDoneCount) <> 0)
  then Some (j <| enNotiType := TDE_JOB_NOTIFY_BUTT |>) else None.
Definition retired_mgr j (m : handles) : handles :=
  if retired j then m else (release_handle j.(s32Handle) m).2.

(** A queued job and its submitters. *)
Lemma queued_life w n j :
  life true w n j ->
  j.(bSubmitted) = true /\ w.(w_checked) = None /\ w.(w_entering) = None /\ w.(w_unfenced) = false /\
  (j.(enNotiType) = TDE_JOB_WAKE_NOTIFY /\ w.(w_blocked) = true /\ n = O
   \/ j.(enNotiType) = TDE_JOB_COMPL_NOTIFY /\ w.(w_blocked) = false).
Proof.
  unfold life. destruct (bSubmitted j); [|naive_solver]. intros [Hc Hl].
  destruct (w_entering w); [naive_solver|]. destruct (enNotiType j); naive_solver.
Qed.

Lemma retired_out timeline w n m p j j' :
  job_ok true w n timeline m p j -> retired j = Some j' -> job_ok false w n timeline m p j'.
Proof.
  intros [Hh Hc Hn Hs Hf Hl] Hr. unfold retired in Hr. case_decide as Hd; [|done].
  injection Hr as <-. destruct (queued_life _ _ _ Hl) as (Es & H1 & H2 & H3 & H4).
  split; simpl; try done.
  - rewrite H2. intros [?|[? ?]]; done.
  - unfold life. simpl. rewrite Es, H1, H2. split; [done|]. split; [done|]. split; [done|].
    destruct H4 as [(_ & -> & ->)|[En ->]]; [by left|]. right. split; [done|].
    destruct Hd as [?|Hd]; [congruence|]. lia.
Qed.

Lemma retired_gone timeline w n m p j :
  job_ok true w n timeline m p j -> retired j = None -> w = absent /\ n = O.
Proof.
  intros [Hh Hc Hn Hs Hf Hl] Hr. unfold retired in Hr. case_decide as Hd; [done|].
  destruct (queued_life _ _ _ Hl) as (Es & H1 & H2 & H3 & H4). destruct w as [wb wc we wu].
  simpl in *. destruct H4 as [(En & _)|[_ ->]]; [exfalso; auto|]. subst. split; [done|]. lia.
Qed.

(** The queue without its first job, which is not waiting for the hardware or no job is. *)
Lemma queue_leave st st' p l :
  queue_ok st -> st.(stList) = p :: l -> st'.(stList) = l ->
  st'.(u32JobNum) = st.(u32JobNum) -u 1 ->
  (forall q, q <> p -> st'.(jobs) !! q = st.(jobs) !! q) ->
  st'.(pstJobToCommit) = None \/
    st.(pstJobToCommit) <> Some p /\ st'.(pstJobToCommit) = st.(pstJobToCommit) /\
    st'.(pstJobLast) = st.(pstJobLast) ->
  queue_ok st'.
Proof.
  intros [Hnd Hnum Hlast Hcom Hch Haq] El El' En Hjs Hc. rewrite El in *.
  apply NoDup_cons in Hnd as [Hnp Hnd].
  assert (u32 (Z.of_nat (length (p :: l))) -u 1 = u32 (Z.of_nat (length l))) as Hlen.
  { unfold u32. rewrite Zminus_mod_idemp_l. f_equal. simpl. lia. }
  destruct Hc as [Hc|(Hne & Hc & Hla)].
  { split; rewrite ?El', ?En, ?Hc; try done; [by rewrite Hnum|]. unfold pending. by rewrite Hc. }
  assert (pending st' = pending st) as Ep.
  { unfold pending. rewrite Hc, El, El'. destruct (pstJobToCommit st) as [c|] eqn:E; [|done].
    simpl. rewrite decide_False by congruence. done. }
  assert (forall q, q ∈ pending st -> q <> p) as Hpend.
  { intros q Hq ->. rewrite <- Ep in Hq. apply pending_incl in Hq. by rewrite El' in Hq. }
  split.
  - by rewrite El'.
  - by rewrite En, El', Hnum.
  - intros c. rewrite Hc, El', Hla. intros Ec. rewrite <- (Hlast c Ec).
    destruct l as [|q l]; [|done]. specialize (Hcom c Ec).
    apply list_elem_of_singleton in Hcom. congruence.
  - intros c. rewrite Hc, El'. intros Ec. specialize (Hcom c Ec).
    apply elem_of_cons in Hcom as [->|]; [congruence|done].
  - rewrite Ep. erewrite chain_ext; [exact Hch|]. intros q Hq.
    unfold nodes_of. by rewrite Hjs by auto.
  - intros c q j. rewrite Hc, Ep. intros Ec Hq. rewrite Hjs by auto. intros Ej Ha.
    destruct (Haq c q j Ec Hq Ej Ha) as (jc & ? & ?). exists jc. rewrite Hjs by congruence. done.
Qed.

Lemma inv_leave st subs qs p l j st' :
  inv (mkSys st subs qs) -> st.(stList) = p :: l -> st.(jobs) !! p = Some j ->
  st'.(stList) = l -> st'.(u32JobNum) = st.(u32JobNum) -u 1 ->
  st'.(pstJobToCommit) = None \/
    st.(pstJobToCommit) <> Some p /\ st'.(pstJobToCommit) = st.(pstJobToCommit) /\
    st'.(pstJobLast) = st.(pstJobLast) ->
  st'.(fence).(gs_pstTimeline) = st.(fence).(gs_pstTimeline) ->
  st'.(jobs) = partial_alter (fun _ => retired j) p st.(jobs) ->
  st'.(mgr) = retired_mgr j st.(mgr) ->
  inv (mkSys st' subs qs).
Proof.
  intros [Im Iq Ij Il Is Iqu Ih] El Ej El' En Hc Ht Ejs Em. simpl in *.
  assert (forall q, q <> p -> st'.(jobs) !! q = st.(jobs) !! q) as Hjs.
  { intros q Hq. rewrite Ejs. by apply lookup_partial_alter_ne. }
  assert (st'.(jobs) !! p = retired j) as Hjp by by rewrite Ejs, lookup_partial_alter_eq.
  pose proof (q_nodup _ Iq) as Hnd. rewrite El in Hnd. apply NoDup_cons in Hnd as [Hnp Hnd].
  pose proof (Ij p j Ej) as Hp. unfold job_in in Hp. simpl in Hp.
  rewrite El, bool_decide_eq_true_2 in Hp by (apply elem_of_cons; by left).
  assert (retired j = None -> stand subs p = absent /\ p ∉ qs) as Hgone.
  { intros Hr. destruct (retired_gone _ _ _ _ _ _ Hp Hr) as [Hs Hm].
    split; [done|]. rewrite elem_of_multiplicity, Hm. lia. }
  assert (forall h q, q <> p -> query_handle h st'.(mgr) = Some q <-> query_handle h st.(mgr) = Some q) as Hq.
  { intros h q Hq. rewrite Em. unfold retired_mgr. destruct (retired j); [reflexivity|].
    rewrite release_query by done. destruct (decide (h = _)); [|reflexivity]. split; [done|].
    intros Hh. destruct Hp as [Hpj _ _ _ _ _]. congruence. }
  assert (forall q, q = p \/ q <> p) as Hdec by (intros q; destruct (decide (q = p)); auto).
  split; simpl.
  - rewrite Em. unfold retired_mgr. destruct (retired j); [done|]. by apply release_ok.
  - eapply queue_leave; [exact Iq|done..].
  - intros q j' Hj'. destruct (Hdec q) as [->|Hne].
    + rewrite Hjp in Hj'. unfold job_in. simpl.
      rewrite El', Ht, Em, bool_decide_eq_false_2 by done. unfold retired_mgr. rewrite Hj'.
      by eapply retired_out.
    + rewrite Hjs in Hj' by done. specialize (Ij q j' Hj'). unfold job_in in *. simpl in *.
      rewrite El in Ij. rewrite El', Ht.
      rewrite (bool_decide_ext (q ∈ l) (q ∈ p :: l)) by (rewrite elem_of_cons; naive_solver).
      eapply job_ok_frame; [done|by apply Hq|done].
  - intros q. rewrite El'. intros Hql. rewrite Hjs by congruence. apply Il. rewrite El.
    apply elem_of_cons. auto.
  - intros q Hqs. destruct (Hdec q) as [->|Hne]; [|rewrite Hjs by done; auto].
    rewrite Hjp. destruct (retired j); [done|naive_solver].
  - intros q Hqs. destruct (Hdec q) as [->|Hne]; [|rewrite Hjs by done; auto].
    rewrite Hjp. destruct (retired j); [done|naive_solver].
  - intros h q Hh. destruct (Hdec q) as [->|Hne].
    + rewrite Hjp. rewrite Em in Hh. unfold retired_mgr in Hh.
      assert (query_handle h st.(mgr) = Some p -> s32Handle j = h) as Hhj.
      { intros Hh'. destruct (Ih h p Hh') as (j0 & E0 & ?). congruence. }
      unfold retired in *. case_decide; [eauto|]. simpl in Hh.
      rewrite release_query in Hh by done. case_decide; [done|]. naive_solver.
    + rewrite Hjs by done. apply Ih. by apply Hq in Hh.
Qed.
End Invariant.
