(* ===== verification/TdeSafe.v ===== *)
(** * The job queue of the 2D engine: every call keeps the invariant

    The calls of users, the completion interrupt and the wake-ups of sleepers as steps
    of one system, and the proof that none of them uses freed memory from a state
    that the invariant of TdeJobs.v allows. *)

From stdpp Require Import gmultiset.
From S2P Require Import Prelude TdeList TdeJobs.
#[local] Open Scope Z_scope.

Section Steps.
Context `{H : HandleManager, T : TdeConsts, C : HiConsts}.
Context `{HO : !HandleManagerOk H, TO : !TdeConstsOk T C}.
Implicit Types (st : TDE) (p : ptr) (j : TDE_SWJOB_S).

Lemma mult_others (qs : gmultiset ptr) p q :
  q <> p -> multiplicity q (qs ∖ {[+ p +]}) = multiplicity q qs /\
            multiplicity q (qs ⊎ {[+ p +]}) = multiplicity q qs.
Proof.
  intros Hq. rewrite multiplicity_difference, multiplicity_disj_union.
  rewrite multiplicity_singleton_ne by done. lia.
Qed.

Lemma mult_one (qs : gmultiset ptr) p :
  multiplicity p (qs ∖ {[+ p +]}) = pred (multiplicity p qs) /\
  multiplicity p (qs ⊎ {[+ p +]}) = S (multiplicity p qs).
Proof.
  rewrite multiplicity_difference, multiplicity_disj_union.
  rewrite multiplicity_singleton_eq. lia.
Qed.

Lemma not_query (qs : gmultiset ptr) p : multiplicity p qs = O -> p ∉ qs.
Proof. intros E. rewrite elem_of_multiplicity, E. lia. Qed.

(** A block outside the queue, on which nobody sleeps any more, given back. *)
Lemma inv_dropped st subs qs subs' qs' p j :
  inv (mkSys st subs qs) -> st.(jobs) !! p = Some j ->
  p ∉ st.(stList) -> stand subs' p = absent -> p ∉ qs' ->
  (forall q, q <> p -> stand subs' q = stand subs q /\ multiplicity q qs' = multiplicity q qs) ->
  inv (mkSys (dropped p j st) subs' qs').
Proof.
  intros Hi Ej Hl Hs Hq Hms. pose proof Hi as [Im _ Ij _ _ _ Ih]. simpl in *.
  pose proof (jo_handle _ _ _ _ _ _ _ (Ij p j Ej)) as Hh. simpl in Hh.
  apply (inv_point st subs qs _ _ _ p Hi); try done.
  - by apply release_ok.
  - intros q Hne. by apply lookup_delete_ne.
  - intros h q Hne. simpl. rewrite release_query by done.
    destruct (decide (h = _)) as [->|]; [|reflexivity]. split; [done|congruence].
  - simpl. rewrite lookup_delete_eq. split_and!; [done..|]. intros h.
    rewrite release_query by done. case_decide as Hd; [done|]. intros Hh'.
    destruct (Ih h p Hh') as (j' & Ej' & <-). congruence.
Qed.

Lemma inv_destroy st subs qs subs' qs' p j :
  inv (mkSys st subs qs) -> st.(jobs) !! p = Some j ->
  p ∉ st.(stList) -> stand subs' p = absent -> p ∉ qs' ->
  (forall q, q <> p -> stand subs' q = stand subs q /\ multiplicity q qs' = multiplicity q qs) ->
  exists st', (st1 ← TdeOsiListFreeSerialCmd p st; TdeOsiListReleaseHandle p st1) = Some st' /\
    TdeOsiListDestroyJob p st = Some st' /\ inv (mkSys st' subs' qs').
Proof.
  intros Hi Ej Hl Hs Hq Hms. pose proof Hi as [Im _ Ij _ _ _ _]. simpl in *.
  destruct (Ij p j Ej) as [Hh (l & Hc & _) _ _ _ _]. simpl in Hh.
  destruct (destroy_spec p j l st Ej Hc Im Hh) as (st' & E1 & E2 & Hv).
  exists st'. split; [done|]. split; [done|]. eapply inv_visible; [symmetry; exact Hv|].
  by eapply inv_dropped.
Qed.

(** A job changed in place. *)
Lemma inv_upd st subs qs subs' qs' p j j' :
  inv (mkSys st subs qs) -> st.(jobs) !! p = Some j -> j'.(s32Handle) = j.(s32Handle) ->
  (forall q, q <> p -> stand subs' q = stand subs q /\ multiplicity q qs' = multiplicity q qs) ->
  (p ∈ st.(stList) -> same_in_queue j j') ->
  job_ok (bool_decide (p ∈ st.(stList))) (stand subs' p) (multiplicity p qs')
    st.(fence).(gs_pstTimeline) st.(mgr) p j' ->
  inv (mkSys (st <| jobs := <[p := j']> st.(jobs) |>) subs' qs').
Proof.
  intros Hi Ej Eh Hms Hq Hj. pose proof Hi as [Im _ _ _ _ _ Ih]. simpl in *.
  apply (inv_point st subs qs _ _ _ p Hi); try done.
  - intros q Hne. by apply lookup_insert_ne.
  - simpl. rewrite lookup_insert_eq. split_and!; [done| |].
    + intros h Hh. destruct (Ih h p Hh) as (? & ? & <-). congruence.
    + intros Hl. exists j. auto.
Qed.

Lemma inv_malloc st subs qs : inv (mkSys st subs qs) -> inv (mkSys (malloc st).2 subs qs).
Proof. apply inv_visible. unfold malloc. by destruct (mallocs st). Qed.

(** An unsubmitted job is known to its builder only, who may have tested its handle. *)
Lemma building_alone st subs qs p j :
  inv (mkSys st subs qs) -> st.(jobs) !! p = Some j -> j.(bSubmitted) = false ->
  bool_decide (p ∈ st.(stList)) = false /\ stand subs p = mkStand false (subs.(checked) !! p) None false /\
  multiplicity p qs = O /\ (TDE_FENCE_SUPPORT = true -> j.(s32ReleaseFenceFd) = -1) /\
  (forall a, subs.(checked) !! p = Some a -> a.(sa_noti) <> TDE_JOB_NOTIFY_BUTT /\ j.(cmds) <> Some []).
Proof.
  intros Hi Ej Es. pose proof (jo_life _ _ _ _ _ _ _ (i_jobs _ Hi p j Ej)) as Hl.
  unfold life in Hl. rewrite Es in Hl. simpl in Hl. destruct Hl as (H1 & H2 & H3 & H4 & H5 & H6 & H7).
  split_and!; try done. unfold stand. congruence.
Qed.

(** ** Building *)

Lemma begin_inv st subs qs mem tgid :
  inv (mkSys st subs qs) -> (forall p, mem = Some p -> st.(jobs) !! p = None) ->
  inv (mkSys (TdeOsiListBeginJob mem tgid st).2 subs qs).
Proof.
  intros Hi Hf. pose proof Hi as [Im Iq Ij Il Is Iqu Ih]. simpl in *.
  unfold TdeOsiListBeginJob. destruct mem as [p|]; [|done]. specialize (Hf p eq_refl).
  destruct (get_handle p (mgr st)) as [h m] eqn:Eg. simpl.
  pose proof (get_fresh p _ Im) as Hnew. pose proof (get_ok p _ Im) as Hok.
  pose proof (fun h' => get_query p _ h' Im) as Hq. rewrite Eg in *. simpl in *.
  assert (p ∉ st.(stList) /\ stand subs p = absent /\ p ∉ qs) as (Hl & Hs & Hqs).
  { split_and!; [intros E; apply Il in E; destruct E; congruence| |
      intros E; apply Iqu in E; destruct E; congruence].
    destruct (decide (stand subs p = absent)) as [|E]; [done|]. apply Is in E. destruct E; congruence. }
  assert (forall h', query_handle h' st.(mgr) <> Some p) as Hnp.
  { intros h' E. destruct (Ih h' p E) as (? & ? & _). congruence. }
  apply (inv_point st subs qs _ _ _ p Hi); try done.
  - intros q Hne. simpl. by rewrite lookup_insert_ne.
  - intros h' q Hne. simpl. rewrite Hq. case_decide as Hd; [|done].
    subst h'. rewrite Hnew. split; congruence.
  - simpl. rewrite lookup_insert_eq. split_and!; [|intros h'; rewrite Hq; case_decide|done].
    + assert (multiplicity p qs = O) as Hm.
      { rewrite elem_of_multiplicity in Hqs. lia. }
      unfold job_in. cbn [callers]. rewrite Hs. split; simpl.
      * rewrite Hq. destruct TDE_FENCE_SUPPORT; by rewrite decide_True.
      * exists []. by destruct TDE_FENCE_SUPPORT.
      * rewrite Hm. by destruct TDE_FENCE_SUPPORT.
      * lia.
      * rewrite bool_decide_eq_false_2 by done. intros [|[? ?]]; done.
      * unfold life. rewrite bool_decide_eq_false_2, Hm by done. by destruct TDE_FENCE_SUPPORT.
    + intros _. by destruct TDE_FENCE_SUPPORT.
    + intros E. by destruct (Hnp h').
Qed.

Lemma node_inv st subs qs h pHWNode hw n ty :
  inv (mkSys st subs qs) ->
  (ty = TDE_NODE_SUBM_CHILD -> forall p j, query_handle h st.(mgr) = Some p ->
     st.(jobs) !! p = Some j -> j.(cmds) <> Some []) ->
  exists r st', TdeOsiSetNodeFinish h pHWNode hw n ty st = Some (r, st') /\ inv (mkSys st' subs qs).
Proof.
  intros Hi Hty. unfold TdeOsiSetNodeFinish.
  destruct (query_handle h (mgr st)) as [p|] eqn:Eq; [|eauto].
  destruct (i_handle _ Hi h p Eq) as (j & Ej & Eh). simpl in Ej. rewrite Ej. simpl.
  destruct (bSubmitted j) eqn:Es; [eauto|].
  pose proof (inv_malloc _ _ _ Hi) as Hi2.
  assert ((malloc st).2.(jobs) = st.(jobs)) as Ejs by (unfold malloc; by destruct (mallocs st)).
  destruct (malloc st) as [ok st2]. simpl in *. rewrite <- Ejs in Ej.
  destruct ok; simpl; [|eauto].
  pose proof (i_jobs _ Hi2 p j Ej) as Hj. unfold job_in in Hj. simpl in Hj.
  destruct Hj as [Hh (l & Hc & Hl & Hsub & Hnum) Hn Hsm Hf Hlf]. rewrite Hc. simpl.
  destruct (building_alone _ _ _ _ _ Hi2 Ej Es) as (Eq1 & Eq2 & Eq3 & _).
  set (num := if decide _ then _ else _). set (restart := bool_decide (ty <> _) && _).
  set (cmd := mkNode _ _ _ _ _ _ _ _ _ _ _ _).
  assert (bool_decide (l = []) && negb restart = false) as Hnone.
  { destruct l; [|done]. simpl. unfold restart, num. rewrite Hnum by done.
    destruct (decide (ty = TDE_NODE_SUBM_CHILD)) as [->|Hne].
    - destruct (Hty eq_refl p j eq_refl); [|done]. by rewrite <- Ejs.
    - by rewrite bool_decide_eq_true_2. }
  rewrite Hnone. erewrite upd_job_Some by exact Ej. simpl. eexists _, _. split; [done|].
  eapply inv_upd; try done.
  - intros Hin. by rewrite bool_decide_eq_true_2 in Eq1.
  - set (new := if restart then _ else _).
    assert (new <> [] /\ linked new) as [Hne Hln].
    { unfold new. destruct restart; [done|]. split; [by destruct (link_tail l cmd)|].
      apply link_tail_linked; [done|]. intros ->. done. }
    split; simpl; try done; [exists new; naive_solver|].
    unfold life in *. simpl. rewrite Es in *. naive_solver.
Qed.

(** No submission has tested the handle and is about to mark its job. *)
Definition unclaimed (h : Z) st (subs : Callers) : Prop :=
  forall p, query_handle h st.(mgr) = Some p -> subs.(checked) !! p = None.

Lemma cancel_inv st subs qs h :
  inv (mkSys st subs qs) -> unclaimed h st subs ->
  exists r st', TdeOsiListCancelJob h st = Some (r, st') /\ inv (mkSys st' subs qs).
Proof.
  intros Hi Hun. unfold TdeOsiListCancelJob.
  destruct (query_handle h (mgr st)) as [p|] eqn:Eq; [|eauto].
  destruct (i_handle _ Hi h p Eq) as (j & Ej & Eh). simpl in Ej. rewrite Ej. simpl.
  destruct (bSubmitted j) eqn:Es; [eauto|].
  destruct (building_alone _ _ _ _ _ Hi Ej Es) as (Eq1 & Eq2 & Eq3 & _).
  rewrite (Hun p Eq) in Eq2.
  destruct (inv_destroy st subs qs subs qs p j Hi Ej) as (st' & E1 & _ & Hi').
  - exact (bool_decide_eq_false_1 _ Eq1).
  - exact Eq2.
  - by apply not_query.
  - done.
  - destruct (TdeOsiListFreeSerialCmd p st) as [st1|]; [|done]. simpl in *. rewrite E1. simpl. eauto.
Qed.

(** ** Joining the queue *)

Lemma inv_emit e st subs qs : inv (mkSys st subs qs) -> inv (mkSys (emit e st) subs qs).
Proof. intros [Im [Qa Qb Qc Qd Qe Qf] Ij Il Is Iqu Ih]. by split; [|split|..]. Qed.

Lemma from_snoc p q l : p ∈ l -> from p (l ++ [q]) = from p l ++ [q].
Proof.
  induction l as [|a l IH]; [by intros ?%not_elem_of_nil|]. simpl. intros Hp.
  case_decide; [done|]. apply IH. apply elem_of_cons in Hp as [|]; [congruence|done].
Qed.

Lemma from_new p l : p ∉ l -> from p (l ++ [p]) = [p].
Proof.
  induction l as [|a l IH]; simpl; intros Hp.
  - by rewrite decide_True.
  - apply not_elem_of_cons in Hp as [Ha Hp]. rewrite decide_False by done. auto.
Qed.

Lemma from_last p l : p ∈ l -> last (from p l) = last l.
Proof.
  intros Hp. destruct (from_in p l Hp) as (l1 & r & -> & -> & _). by rewrite last_app_cons.
Qed.

(** What chaining a job with first node [n] behind job [lp], for the waiting job [c], does
    to a job. *)
Definition dressed (lp c : ptr) n (aq : bool) q j : TDE_SWJOB_S :=
  let j := if decide (q = lp) then j <| cmds ::= fmap (fun l => link_tail l n) |> else j in
  if aq && bool_decide (q = c) then j <| bAqUseBuff := true |> else j.

Lemma dressed_ok lp c n aq q w tl mu m p j :
  job_ok q w mu tl m p j -> job_ok q w mu tl m p (dressed lp c n aq p j).
Proof.
  intros [Hh (l & Hc & Hl & Hs & Hn) Hco Hsm Hf Hlf].
  assert (linked (link_tail l n) /\ (l <> [] -> link_tail l n <> []) /\
          (link_tail l n = [] -> l = [])) as (H1 & H2 & H3).
  { destruct (decide (l = [])) as [->|Hne]; [done|]. destruct (exists_last Hne) as (l0 & t & ->).
    split_and!; [rewrite link_tail_snoc; by apply linked_set_last|by intros; apply link_tail_ne|].
    intros E. by apply link_tail_ne in E. }
  assert (life q w mu (dressed lp c n aq p j)) as Hlf'.
  { unfold dressed, life in *.
    destruct (decide (p = lp)), (aq && bool_decide (p = c)); simpl; rewrite ?Hc in *; simpl;
      (destruct (bSubmitted j); [done|]); destruct Hlf as (? & ? & ? & ? & ? & ? & Hck);
      split_and!; try done; intros a Ha; destruct (Hck a Ha) as [? Hcm]; (split; [done|]); intros [= E]; auto;
      by apply Hcm, f_equal, H3. }
  unfold dressed in *. destruct (decide (p = lp)), (aq && bool_decide (p = c)); split; simpl; try done;
    rewrite ?Hc; simpl; eexists; split_and!; eauto.
Qed.

Lemma dressed_fields lp c n aq q j :
  (dressed lp c n aq q j).(s32Handle) = j.(s32Handle) /\
  (dressed lp c n aq q j).(cmds) =
    (if decide (q = lp) then (fun l => link_tail l n) <$> j.(cmds) else j.(cmds)) /\
  (dressed lp c n aq q j).(bAqUseBuff) = (j.(bAqUseBuff) || (aq && bool_decide (q = c))).
Proof.
  unfold dressed. destruct (decide (q = lp)), (aq && bool_decide (q = c)); simpl;
    by rewrite ?orb_true_r, ?orb_false_r.
Qed.

Lemma flush_spec p j l st :
  st.(jobs) !! p = Some j -> j.(cmds) = Some l ->
  exists st', TdeOsiListFlushJob p st = Some st' /\ visible st' = visible st.
Proof.
  intros Ej El. unfold TdeOsiListFlushJob. rewrite Ej. simpl. rewrite El. simpl.
  eexists. split; [done|]. apply (visible_fold TdeOsiListFlushNode), visible_flush.
Qed.

Lemma flush_list p st st' : TdeOsiListFlushJob p st = Some st' -> st'.(stList) = st.(stList).
Proof.
  unfold TdeOsiListFlushJob. destruct (jobs st !! p) as [j|]; [|done]. simpl.
  destruct (cmds j) as [l|]; [|done]. simpl. intros [= <-].
  exact (f_equal (fun s => s.(stList)) (visible_fold TdeOsiListFlushNode l st visible_flush)).
Qed.

Lemma flush_if_spec p j l st :
  st.(jobs) !! p = Some j -> j.(cmds) = Some l ->
  exists st', (if TDE_CACH_STRATEGY then TdeOsiListFlushJob p st else Some st) = Some st' /\
    visible st' = visible st.
Proof. intros. destruct TDE_CACH_STRATEGY; [by eapply flush_spec|eauto]. Qed.

Lemma join_spec st p c lp j n r lj ll cj :
  st.(pstJobToCommit) = Some c -> st.(pstJobLast) = Some lp -> p <> lp ->
  st.(jobs) !! p = Some j -> j.(cmds) = Some (n :: r) ->
  st.(jobs) !! lp = Some lj -> lj.(cmds) = Some ll -> ll <> [] -> st.(jobs) !! c = Some cj ->
  exists st', join_last p st = Some st' /\
    (forall q, st'.(jobs) !! q = dressed lp c n j.(bAqUseBuff) q <$> st.(jobs) !! q) /\
    visible st' = visible (st <| jobs := st'.(jobs) |>).
Proof.
  intros Ec El Hne Ej Ejc Elj Ell Hll Ecj.
  unfold join_last. rewrite Ec, El. simpl. rewrite Ej. unfold pstFirstCmd. simpl. rewrite Ejc.
  simpl. rewrite Elj. simpl. rewrite Ell. simpl. destruct (decide (ll = [])); [done|].
  erewrite upd_job_Some by exact Elj. simpl.
  set (js := <[lp := _]> (jobs st)).
  set (k := fun q j0 => if decide (q = lp)
                        then j0 <| cmds ::= fmap (fun l => link_tail l n) |> else j0).
  assert (forall q, js !! q = k q <$> st.(jobs) !! q) as Hjs.
  { intros q. unfold js, k. destruct (decide (q = lp)) as [->|Hq].
    - rewrite lookup_insert_eq, Elj. simpl. f_equal.
      destruct lj; unfold update; simpl in *. by subst.
    - rewrite lookup_insert_ne by done. by destruct (jobs st !! q). }
  destruct (bAqUseBuff j) eqn:Ea.
  - erewrite upd_job_Some by (simpl; by rewrite Hjs, Ecj). simpl.
    set (js' := <[c := _]> js).
    assert (forall q, js' !! q = dressed lp c n true q <$> st.(jobs) !! q) as Hjs'.
    { intros q. unfold js', dressed. destruct (decide (q = c)) as [->|Hq].
      - rewrite lookup_insert_eq, Ecj. simpl. by rewrite bool_decide_eq_true_2.
      - rewrite lookup_insert_ne, Hjs by done. rewrite (bool_decide_eq_false_2 (q = c)) by done.
        done. }
    destruct (flush_if_spec lp (dressed lp c n true lp lj) (link_tail ll n)
                ((st <| jobs := js |>) <| jobs := js' |>)) as (st' & E & Hv).
    { simpl. by rewrite Hjs', Elj. }
    { destruct (dressed_fields lp c n true lp lj) as (_ & -> & _).
      rewrite decide_True by done. by rewrite Ell. }
    pose proof (visible_jobs _ _ Hv) as Ejs. simpl in Ejs.
    exists st'. split; [exact E|]. split; [by rewrite Ejs|]. by rewrite Hv, Ejs.
  - destruct (flush_if_spec lp (dressed lp c n false lp lj) (link_tail ll n)
                (st <| jobs := js |>)) as (st' & E & Hv).
    { simpl. by rewrite Hjs, Elj. }
    { destruct (dressed_fields lp c n false lp lj) as (_ & -> & _).
      rewrite decide_True by done. by rewrite Ell. }
    pose proof (visible_jobs _ _ Hv) as Ejs. simpl in Ejs.
    exists st'. split; [exact E|]. split; [by rewrite Ejs|]. by rewrite Hv, Ejs.
Qed.

(** What joining the queue makes of the other jobs. *)
Definition dress st n (aq : bool) : ptr -> TDE_SWJOB_S -> TDE_SWJOB_S :=
  match st.(pstJobToCommit), st.(pstJobLast) with
  | Some c, Some lp => dressed lp c n aq
  | _, _ => fun _ j => j
  end.

Record enqueued st p j n r st' : Prop := {
  e_new : p ∉ st.(stList);
  e_cmds : j.(cmds) = Some (n :: r);
  e_linked : linked (n :: r);
  e_list : st'.(stList) = st.(stList) ++ [p];
  e_num : st'.(u32JobNum) = st.(u32JobNum) +u 1;
  e_last : st'.(pstJobLast) = Some p;
  e_commit : st'.(pstJobToCommit) = Some (default p st.(pstJobToCommit));
  e_job : st'.(jobs) !! p = Some j;
  e_jobs q : q <> p -> st'.(jobs) !! q = dress st n j.(bAqUseBuff) q <$> st.(jobs) !! q;
}.

(** The chain of the jobs that waited, up to the last one's tail, joined to the new job's. *)
Lemma enqueued_chain st p j n r st' c :
  queue_ok st -> (forall q, q ∈ st.(stList) -> exists jq l, st.(jobs) !! q = Some jq /\
     jq.(cmds) = Some l /\ l <> []) ->
  enqueued st p j n r st' -> st.(pstJobToCommit) = Some c -> linked (chain st'.(jobs) (pending st')).
Proof.
  intros [Hnd Hnum Hlast Hcom Hch Haq] Hlive [Hnew Hcm Hln El En Ela Ec Ej Ejs] Hc.
  specialize (Hcom c Hc). specialize (Hlast c Hc).
  unfold pending in *. rewrite Hc in Hch. rewrite Ec, Hc, El. simpl. rewrite from_snoc by done.
  destruct (from_in c _ Hcom) as (l1 & rr & E1 & E2 & _).
  pose proof (from_last c _ Hcom) as Elast. rewrite Hlast in Elast.
  destruct (@exists_last _ (from c (stList st)) ltac:(by rewrite E2)) as (l0 & lp & E).
  assert (NoDup (l0 ++ [lp])) as Hnd'.
  { rewrite <- E, E2. rewrite E1 in Hnd. by apply NoDup_app in Hnd as (_ & _ & ?). }
  assert (forall q, q ∈ l0 ++ [lp] -> q ∈ stList st) as Hin.
  { intros q Hq. rewrite <- E in Hq. by eapply from_incl. }
  rewrite E in *. rewrite last_snoc in Elast. symmetry in Elast.
  assert (forall q, q ∈ l0 ++ [lp] -> q <> p) as Hqp.
  { intros q Hq ->. by apply Hnew, Hin. }
  unfold chain in *. rewrite !map_app, !concat_app in *. simpl in *. rewrite !app_nil_r in *.
  destruct (Hlive lp) as (lj & ll & Elj & Ell & Hll).
  { apply Hin, elem_of_app. right. by apply list_elem_of_singleton. }
  assert (nodes_of (jobs st') p = n :: r) as -> by (unfold nodes_of; by rewrite Ej, Hcm).
  assert (nodes_of (jobs st) lp = ll) as El0 by (unfold nodes_of; by rewrite Elj, Ell).
  assert (nodes_of (jobs st') lp = link_tail ll n) as ->.
  { unfold nodes_of. rewrite Ejs, Elj.
    - simpl. unfold dress. rewrite Hc, Elast. destruct (dressed_fields lp c n (bAqUseBuff j) lp lj)
        as (_ & -> & _). rewrite decide_True by done. by rewrite Ell.
    - apply Hqp, elem_of_app. right. by apply list_elem_of_singleton. }
  assert (concat (map (nodes_of (jobs st')) l0) = concat (map (nodes_of (jobs st)) l0)) as ->.
  { apply (chain_ext (jobs st) (jobs st')). intros q Hq.
    apply NoDup_app in Hnd' as (_ & Hdis & _).
    assert (q <> lp) by (intros ->; by eapply Hdis, list_elem_of_singleton).
    assert (q ∈ l0 ++ [lp]) as Hq' by (apply elem_of_app; by left).
    unfold nodes_of. rewrite Ejs by auto. destruct (jobs st !! q) as [jq|]; [|done]. simpl.
    unfold dress. rewrite Hc, Elast. destruct (dressed_fields lp c n (bAqUseBuff j) q jq)
        as (_ & -> & _). by rewrite decide_False. }
  rewrite El0 in Hch. by apply link_tail_join.
Qed.

Lemma dress_fields st n aq q j :
  (dress st n aq q j).(s32Handle) = j.(s32Handle) /\
  (j.(bAqUseBuff) = true -> (dress st n aq q j).(bAqUseBuff) = true) /\
  (forall c, st.(pstJobToCommit) = Some c -> is_Some st.(pstJobLast) ->
     (dress st n aq q j).(bAqUseBuff) = (j.(bAqUseBuff) || (aq && bool_decide (q = c)))).
Proof.
  unfold dress. destruct (pstJobToCommit st) as [c|], (pstJobLast st) as [lp|];
    try (split_and!; [done..|]; intros ? [= <-] [? ?]; done).
  destruct (dressed_fields lp c n aq q j) as (E1 & E2 & E3). split_and!; [done| |].
  - rewrite E3. by intros ->.
  - by intros ? [= <-] _.
Qed.

Lemma dress_ok st n aq q w tl mu m p j :
  job_ok q w mu tl m p j -> job_ok q w mu tl m p (dress st n aq p j).
Proof.
  intros Hj. unfold dress. destruct (pstJobToCommit st), (pstJobLast st); [|done..].
  by apply dressed_ok.
Qed.

(** While a job waits for the hardware, the queue has a last job. *)
Lemma commit_last st : queue_ok st -> forall c, st.(pstJobToCommit) = Some c -> is_Some st.(pstJobLast).
Proof.
  intros Hq c Hc. rewrite <- (q_last _ Hq c Hc). apply last_is_Some. intros E.
  pose proof (q_commit _ Hq c Hc) as Hin. rewrite E in Hin. by apply not_elem_of_nil in Hin.
Qed.

Lemma queue_enqueue st p j n r st' :
  queue_ok st -> (forall q, q ∈ st.(stList) -> exists jq l, st.(jobs) !! q = Some jq /\
     jq.(cmds) = Some l /\ l <> []) ->
  enqueued st p j n r st' -> queue_ok st'.
Proof.
  intros Hq Hlive He. pose proof Hq as [Hnd Hnum Hlast Hcom Hch Haq].
  pose proof He as [Hnew Hcm Hln El En Ela Ec Ej Ejs].
  split.
  - rewrite El. apply NoDup_app. split_and!; [done| |apply NoDup_singleton].
    intros q Hql ->%list_elem_of_singleton. done.
  - rewrite En, El, Hnum, length_app. simpl. unfold u32. rewrite Zplus_mod_idemp_l. f_equal. lia.
  - intros c _. rewrite El, Ela. apply last_snoc.
  - intros c. rewrite Ec, El. intros [= <-]. apply elem_of_app.
    destruct (pstJobToCommit st) eqn:Hc; simpl; [left; auto|right; by apply list_elem_of_singleton].
  - destruct (pstJobToCommit st) as [c|] eqn:Hc; [by eapply enqueued_chain|].
    unfold pending. rewrite Ec, El. simpl. rewrite from_new by done.
    unfold chain, nodes_of. simpl. rewrite Ej, Hcm. simpl. by rewrite app_nil_r.
  - intros c q jq. rewrite Ec. intros [= <-] Hqp Ejq Ha.
    destruct (pstJobToCommit st) as [c|] eqn:Hc; simpl.
    + assert (c <> p) as Hcp by (intros ->; apply Hnew; auto).
      destruct (Hlive c (Hcom c eq_refl)) as (jc & lc & Ejc & _).
      rewrite (Ejs c Hcp), Ejc. simpl. eexists. split; [done|].
      destruct (dress_fields st n (bAqUseBuff j) c jc) as (_ & Hm & Hd).
      destruct (decide (q = p)) as [->|Hqne].
      * assert (jq = j) as -> by congruence. rewrite (Hd c Hc), Ha.
        -- rewrite bool_decide_eq_true_2 by done. by rewrite orb_true_r.
        -- by apply (commit_last st Hq c).
      * unfold pending in *. rewrite Ec, El in Hqp. simpl in Hqp. rewrite from_snoc in Hqp by auto.
        apply elem_of_app in Hqp as [Hqp|Hqp%list_elem_of_singleton]; [|done].
        rewrite Hc in Haq. rewrite (Ejs q Hqne) in Ejq.
        destruct (jobs st !! q) as [jq0|] eqn:Ejq0; [|done]. simpl in Ejq. injection Ejq as <-.
        destruct (dress_fields st n (bAqUseBuff j) q jq0) as (_ & _ & Hd').
        pose proof (commit_last st Hq c Hc) as Hsome.
        rewrite (Hd' c Hc Hsome) in Ha. apply orb_true_iff in Ha as [Ha|Ha].
        -- destruct (Haq c q jq0 eq_refl Hqp Ejq0 Ha) as (jc' & Ejc' & Ha'). apply Hm. congruence.
        -- rewrite (Hd c Hc Hsome). apply andb_true_iff in Ha as [-> _]. simpl.
           rewrite bool_decide_eq_true_2 by done. by rewrite orb_true_r.
    + unfold pending in Hqp. rewrite Ec, El in Hqp. simpl in Hqp. rewrite from_new in Hqp by done.
      apply list_elem_of_singleton in Hqp as ->. exists j. split; congruence.
Qed.

(** Jobs of the queue are submitted and have commands. *)
Lemma queued_cmds st subs qs p :
  inv (mkSys st subs qs) -> p ∈ st.(stList) ->
  exists j n r, st.(jobs) !! p = Some j /\ j.(cmds) = Some (n :: r).
Proof.
  intros Hi Hp. destruct (i_list _ Hi p Hp) as [j Ej]. simpl in Ej.
  destruct (i_jobs _ Hi p j Ej) as [_ (l & Ec & _ & Hs & _) _ _ _ Hl]. simpl in *.
  rewrite bool_decide_eq_true_2 in Hl by done.
  destruct (queued_life _ _ _ Hl) as (Esub & _). specialize (Hs Esub).
  destruct l as [|n r]; [by destruct Hs|]. eauto.
Qed.

Lemma inv_enqueue st subs qs p j n r st' subs' :
  inv (mkSys st subs qs) -> enqueued st p j n r st' ->
  (exists j0, st.(jobs) !! p = Some j0 /\ j0.(s32Handle) = j.(s32Handle)) ->
  st'.(mgr) = st.(mgr) -> st'.(fence).(gs_pstTimeline) = st.(fence).(gs_pstTimeline) ->
  (forall q, q <> p -> stand subs' q = stand subs q) ->
  job_ok true (stand subs' p) (multiplicity p qs) st.(fence).(gs_pstTimeline) st.(mgr) p j ->
  inv (mkSys st' subs' qs).
Proof.
  intros Hi He (j0 & Ej0 & Eh) Em Et Hs Hp. pose proof Hi as [Im Iq Ij Il Is Iqu Ih].
  pose proof He as [Hnew Hcm Hln El En Ela Ec Ej Ejs]. simpl in *.
  assert (forall q, q = p \/ q <> p) as Hdec by (intros q; destruct (decide (q = p)); auto).
  split; simpl.
  - by rewrite Em.
  - eapply queue_enqueue; [exact Iq| |exact He]. intros q Hq.
    destruct (queued_cmds _ _ _ q Hi Hq) as (jq & nq & rq & ? & ?). exists jq, (nq :: rq). done.
  - intros q jq Ejq. unfold job_in. simpl. rewrite El, Em, Et. destruct (Hdec q) as [->|Hne].
    + rewrite bool_decide_eq_true_2; [by simplify_eq|]. apply elem_of_app. right.
      by apply list_elem_of_singleton.
    + rewrite Ejs in Ejq by done. destruct (jobs st !! q) as [jq0|] eqn:E0; [|done].
      injection Ejq as <-. apply dress_ok. specialize (Ij q jq0 E0). unfold job_in in Ij. simpl in Ij.
      rewrite (bool_decide_ext (q ∈ stList st ++ [p]) (q ∈ stList st)).
      2:{ rewrite elem_of_app, list_elem_of_singleton. naive_solver. }
      by rewrite (Hs q Hne).
  - intros q. rewrite El. intros Hq. destruct (Hdec q) as [->|Hne]; [by rewrite Ej|].
    apply elem_of_app in Hq as [Hq|Hq%list_elem_of_singleton]; [|done].
    rewrite Ejs by done. apply fmap_is_Some. auto.
  - intros q Hq. destruct (Hdec q) as [->|Hne]; [by rewrite Ej|].
    rewrite Ejs by done. apply fmap_is_Some. apply Is. by rewrite <- (Hs q Hne).
  - intros q Hq. destruct (Hdec q) as [->|Hne]; [by rewrite Ej|].
    rewrite Ejs by done. apply fmap_is_Some. auto.
  - intros h q. rewrite Em. intros Hq. destruct (Ih h q Hq) as (jq & Ejq & Ehq).
    destruct (Hdec q) as [->|Hne].
    + exists j. split; congruence.
    + rewrite Ejs, Ejq by done. eexists. split; [done|].
      by destruct (dress_fields st n (bAqUseBuff j) q jq) as (-> & _).
Qed.

(** A state with a new job's record, ready to join the queue. *)
Lemma join_queue st p j n r :
  queue_ok st -> (forall q, q ∈ st.(stList) -> exists jq nq rq, st.(jobs) !! q = Some jq /\
     jq.(cmds) = Some (nq :: rq)) ->
  p ∉ st.(stList) -> st.(jobs) !! p = Some j -> j.(cmds) = Some (n :: r) -> linked (n :: r) ->
  exists st', (st1 ← join_last p st;
               st2 ← (if TDE_CACH_STRATEGY then TdeOsiListFlushJob p st1 else Some st1);
               TdeOsiListAddJob p st2) = Some st' /\
    enqueued st p j n r st' /\ st'.(mgr) = st.(mgr) /\ st'.(fence) = st.(fence).
Proof.
  intros Hq Hlive Hnew Ej Ecm Hln.
  assert (exists st1, join_last p st = Some st1 /\
    st1.(pstJobToCommit) = Some (default p st.(pstJobToCommit)) /\
    (forall q, q <> p -> st1.(jobs) !! q = dress st n j.(bAqUseBuff) q <$> st.(jobs) !! q) /\
    st1.(jobs) !! p = Some j /\ st1.(stList) = st.(stList) /\ st1.(u32JobNum) = st.(u32JobNum) /\
    st1.(mgr) = st.(mgr) /\ st1.(fence) = st.(fence)) as (st1 & E1 & Hc1 & Hj1 & Hp1 & Hl1 & Hn1 & Hm1 & Hf1).
  { destruct (pstJobToCommit st) as [c|] eqn:Hc.
    - destruct (commit_last st Hq c Hc) as [lp Hlp].
      pose proof (q_commit _ Hq c Hc) as Hcin.
      assert (lp ∈ st.(stList)) as Hlin.
      { apply last_Some_elem_of. by rewrite (q_last _ Hq c Hc). }
      destruct (Hlive lp Hlin) as (lj & ln & lr & Elj & Ell).
      destruct (Hlive c Hcin) as (cj & ? & ? & Ecj & _).
      assert (p <> lp) as Hne by congruence.
      destruct (join_spec st p c lp j n r lj (ln :: lr) cj Hc Hlp Hne Ej Ecm Elj Ell ltac:(done) Ecj)
        as (st1 & E1 & Hjs & Hv).
      exists st1. split; [done|]. unfold dress. rewrite Hc, Hlp.
      split_and!; try (by exact (f_equal (fun s => s.(stList)) Hv));
        try (by exact (f_equal u32JobNum Hv)); try (by exact (f_equal mgr Hv));
        try (by exact (f_equal fence Hv)).
      + rewrite (f_equal pstJobToCommit Hv : st1.(pstJobToCommit) = st.(pstJobToCommit)). done.
      + by intros q _.
      + rewrite Hjs, Ej. simpl. unfold dressed. rewrite decide_False by done.
        rewrite bool_decide_eq_false_2 by congruence. by rewrite andb_false_r.
    - exists (st <| pstJobToCommit := Some p |>). unfold join_last. rewrite Hc.
      split_and!; try done. intros q Hqp. simpl. unfold dress. rewrite Hc. by destruct (jobs st !! q). }
  rewrite E1. simpl.
  destruct (flush_if_spec p j (n :: r) st1 Hp1 Ecm) as (st2 & E2 & Hv2). rewrite E2. simpl.
  unfold TdeOsiListAddJob. rewrite (visible_jobs _ _ Hv2), Hp1. simpl.
  rewrite decide_False by (by rewrite (f_equal (fun s => s.(stList)) Hv2 : stList st2 = stList st1), Hl1).
  eexists. split; [done|].
  split; [split; try done; simpl|split; simpl].
  - by rewrite (f_equal (fun s => s.(stList)) Hv2 : stList st2 = stList st1), Hl1.
  - by rewrite (f_equal u32JobNum Hv2 : u32JobNum st2 = u32JobNum st1), Hn1.
  - by rewrite (f_equal pstJobToCommit Hv2 : pstJobToCommit st2 = pstJobToCommit st1).
  - by rewrite (visible_jobs _ _ Hv2).
  - intros q Hqp. rewrite (visible_jobs _ _ Hv2). auto.
  - by rewrite (visible_mgr _ _ Hv2).
  - by rewrite (f_equal fence Hv2 : fence st2 = fence st1).
Qed.

Lemma execute_inv st subs qs exec c :
  inv (mkSys st subs qs) -> st.(pstJobToCommit) = Some c ->
  exists st', execute_pending exec st = Some st' /\ inv (mkSys st' subs qs).
Proof.
  intros Hi Hc. pose proof Hi as [Im Iq Ij Il Is Iqu Ih]. simpl in *.
  destruct (queued_cmds _ _ _ c Hi (q_commit _ Iq c Hc)) as (j & n & r & Ej & En).
  unfold execute_pending. rewrite Hc. simpl. rewrite Ej. simpl. unfold pstFirstCmd. rewrite En. simpl.
  case_decide; [|eauto]. eexists. split; [done|]. split; try done. simpl.
  destruct Iq as [Q1 Q2 Q3 Q4 Q5 Q6]. by split.
Qed.

(** ** The three parts of a submission *)

Definition with_checked p (a : option SubmitArgs) (cs : Callers) : Callers :=
  mkCallers cs.(blocked) (partial_alter (fun _ => a) p cs.(checked)) cs.(entering) cs.(unfenced).
Definition with_entering p (v : option SubmitLocals) (cs : Callers) : Callers :=
  mkCallers cs.(blocked) cs.(checked) (partial_alter (fun _ => v) p cs.(entering)) cs.(unfenced).
Definition with_blocked p (cs : Callers) : Callers :=
  mkCallers ({[p]} ∪ cs.(blocked)) cs.(checked) cs.(entering) cs.(unfenced).
Definition without_blocked p (cs : Callers) : Callers :=
  mkCallers (cs.(blocked) ∖ {[p]}) cs.(checked) cs.(entering) cs.(unfenced).
Definition with_unfenced p (cs : Callers) : Callers :=
  mkCallers cs.(blocked) cs.(checked) cs.(entering) ({[p]} ∪ cs.(unfenced)).

(** What a call that ends makes of its caller. *)
Definition asleep (o : Outcome) (cs : Callers) (qs : gmultiset ptr) st : Sys :=
  match o with
  | Ret _ => mkSys st cs qs
  | SleepSubmit p _ _ => mkSys st (with_blocked p cs) qs
  | SleepQuery p _ => mkSys st cs (qs ⊎ {[+ p +]})
  end.

Ltac stands := unfold stand; simpl; rewrite ?lookup_partial_alter_eq, ?lookup_partial_alter_ne by done.

Lemma with_checked_other p a cs q : q <> p -> stand (with_checked p a cs) q = stand cs q.
Proof. intros. by stands. Qed.
Lemma with_entering_other p v cs q : q <> p -> stand (with_entering p v cs) q = stand cs q.
Proof. intros. by stands. Qed.
Lemma with_blocked_other p cs q : q <> p -> stand (with_blocked p cs) q = stand cs q.
Proof.
  intros. stands. f_equal. apply bool_decide_ext. rewrite elem_of_union, elem_of_singleton. tauto.
Qed.
Lemma without_blocked_other p cs q : q <> p -> stand (without_blocked p cs) q = stand cs q.
Proof.
  intros. stands. f_equal. apply bool_decide_ext. rewrite elem_of_difference, elem_of_singleton. tauto.
Qed.
Lemma with_unfenced_other p cs q : q <> p -> stand (with_unfenced p cs) q = stand cs q.
Proof.
  intros. stands. f_equal. apply bool_decide_ext. rewrite elem_of_union, elem_of_singleton. tauto.
Qed.

(** The test of the handle. *)
Definition after_check (o : Z + ptr) (a : SubmitArgs) (cs : Callers) : Callers :=
  match o with inl _ => cs | inr p => with_checked p (Some a) cs end.

Lemma check_inv st cs qs h a :
  inv (mkSys st cs qs) -> unclaimed h st cs -> a.(sa_noti) <> TDE_JOB_NOTIFY_BUTT ->
  exists o st', SubmitJob_check h st = Some (o, st') /\ inv (mkSys st' (after_check o a cs) qs).
Proof.
  intros Hi Hun Hnoti. unfold SubmitJob_check.
  destruct (query_handle h (mgr st)) as [p|] eqn:Eq; [|by eexists _, _].
  destruct (i_handle _ Hi h p Eq) as (j & Ej & Eh). simpl in Ej. rewrite Ej. simpl.
  destruct (bSubmitted j) eqn:Es; [by eexists _, _|].
  destruct (building_alone _ _ _ _ _ Hi Ej Es) as (Eq1 & Eq2 & Eq3 & Efd & _).
  rewrite (Hun p Eq) in Eq2.
  pose proof (i_jobs _ Hi p j Ej) as Hj. destruct Hj as [Hh (l & Hc & Hl) Hco Hsm Hf Hlf]. simpl in *.
  rewrite Hc. simpl. destruct (decide (l = [])) as [->|Hne].
  - rewrite (release_spec p j st Ej (i_mgr _ Hi) Hh). simpl. eexists _, _. split; [done|].
    eapply inv_dropped; [exact Hi|exact Ej|exact (bool_decide_eq_false_1 _ Eq1)|exact Eq2|by apply not_query|done].
  - eexists _, _. split; [done|]. simpl.
    assert (st = st <| jobs := <[p := j]> (jobs st) |>) as ->.
    { destruct st. unfold update. simpl in *. f_equal. by rewrite insert_id. }
    eapply inv_upd; [exact Hi|exact Ej|done| |done|].
    { intros q Hq. split; [by apply with_checked_other|done]. }
    assert (stand (with_checked p (Some a) cs) p = mkStand false (Some a) None false) as ->.
    { unfold stand in Eq2. injection Eq2 as E1 _ E2 E3. stands. by rewrite E1, E2, E3. }
    split; simpl; try done; [by eauto|rewrite Eq1; intros [|[? ?]]; done|].
    unfold life. simpl. rewrite Es, Hc. split_and!; try done. intros a' [= <-]. split; [done|congruence].
Qed.

Lemma create_timeline fd pt fen st :
  let r := TDE_FENCE_Create fd pt fen st in
  (exists f, r.2 = st <| fence := f |> /\ f.(gs_pstTimeline) = st.(fence).(gs_pstTimeline)) /\
  (0 <= r.1 -> HI_FAILURE < 0 -> 0 < ENOMEM -> st.(fence).(gs_pstTimeline) = true).
Proof.
  unfold TDE_FENCE_Create. destruct st as [? ? ? ? ? ? ? ? ? ? [v tv []]]; simpl.
  - split; [|done]. destruct (fd <? 0), pt, fen; simpl; eexists; by split.
  - split; [by eexists|]. lia.
Qed.

Lemma inv_same_timeline f st cs qs :
  inv (mkSys st cs qs) -> f.(gs_pstTimeline) = st.(fence).(gs_pstTimeline) ->
  inv (mkSys (st <| fence := f |>) cs qs).
Proof.
  intros [Im [Qa Qb Qc Qd Qe Qf] Ij Il Is Iqu Ih] Eft. split; [done|by split|..]; try done.
  intros q jq Hq. specialize (Ij q jq Hq). unfold job_in in *. simpl in *. by rewrite Eft.
Qed.

(** A job as its submission marks it. *)
Definition submitted_as (noti : TDE_NOTIFY_MODE_E) (cb para : Z) j : TDE_SWJOB_S :=
  (((j <| bSubmitted := true |>) <| enNotiType := noti |>) <| pFuncComplCB := cb |>)
    <| pFuncPara := para |>.

Section Mark.
Context (st : TDE) (cs : Callers) (qs : gmultiset ptr) (p : ptr) (j : TDE_SWJOB_S) (a : SubmitArgs).
Context (noti : TDE_NOTIFY_MODE_E) (cb para : Z) (fd : Z).
Context (Hi : inv (mkSys st cs qs)) (Ej : st.(jobs) !! p = Some j) (Es : j.(bSubmitted) = false).
Context (Ec : cs.(checked) !! p = Some a).

Lemma marked_inv cs' v j' :
  j' = (submitted_as noti cb para j) <| s32ReleaseFenceFd := fd |> ->
  stand cs' p = mkStand false None v (if v then false else true) ->
  (forall q, q <> p -> stand cs' q = stand cs q) ->
  (if v then fd > 0 -> TDE_FENCE_SUPPORT = true -> st.(fence).(gs_pstTimeline) = true
   else TDE_FENCE_SUPPORT = true /\ fd = -1 /\ noti = TDE_JOB_COMPL_NOTIFY) ->
  (forall v', v = Some v' -> noti = v'.(sl_noti) /\ noti <> TDE_JOB_NOTIFY_BUTT) ->
  inv (mkSys (st <| jobs := <[p := j']> st.(jobs) |>) cs' qs).
Proof.
  intros -> Hw Ho Hfd Hv. destruct (building_alone _ _ _ _ _ Hi Ej Es) as (Eq1 & Eq2 & Eq3 & _ & Hck).
  destruct (i_jobs _ Hi p j Ej) as [Hh (l & Hc & Hl & Hs & Hn) Hco Hsm _ _]. simpl in *.
  eapply inv_upd; [exact Hi|exact Ej|done| | |].
  - intros q Hq. split; [by apply Ho|done].
  - intros Hin. by rewrite bool_decide_eq_true_2 in Eq1.
  - rewrite Hw, Eq1. split; simpl; try done.
    + exists l. split_and!; try done. intros _ ->. by destruct (Hck a Ec).
    + destruct v; [by destruct 1|intros [|[? ?]]; done].
    + unfold life. simpl. split; [done|]. destruct v as [v|].
      * destruct (Hv v eq_refl) as [<- Hb]. split_and!; try done.
      * destruct Hfd as (? & -> & ->). done.
Qed.
End Mark.

(** The marking, with or without a fence. *)
Definition after_mark (o : Z + SubmitLocals) p (cs : Callers) : Callers :=
  match o with
  | inl _ => with_unfenced p (with_checked p None cs)
  | inr v => with_entering p (Some v) (with_checked p None cs)
  end.

Lemma after_mark_other o p cs q : q <> p -> stand (after_mark o p cs) q = stand cs q.
Proof.
  intros Hq. destruct o; simpl;
    rewrite ?with_unfenced_other, ?with_entering_other, with_checked_other by done; done.
Qed.

Lemma after_mark_stand o p cs b u :
  stand cs p = mkStand false b None u ->
  stand (after_mark o p cs) p =
    match o with inl _ => mkStand false None None true | inr v => mkStand false None (Some v) u end.
Proof.
  unfold stand. intros [= H1 H2 H3 H4].
  destruct o; simpl; rewrite ?lookup_partial_alter_eq; f_equal; try done.
  apply bool_decide_eq_true_2. set_solver.
Qed.

Lemma mark_inv st cs qs p a :
  inv (mkSys st cs qs) -> cs.(checked) !! p = Some a ->
  exists o st', SubmitJob_mark p a st = Some (o, st') /\ inv (mkSys st' (after_mark o p cs) qs).
Proof.
  intros Hi Ec. assert (exists j, st.(jobs) !! p = Some j) as [j Ej].
  { apply (i_sub _ Hi p). simpl. unfold stand. by rewrite Ec. }
  assert (bSubmitted j = false) as Es.
  { pose proof (jo_life _ _ _ _ _ _ _ (i_jobs _ Hi p j Ej)) as Hl. unfold life in Hl. simpl in Hl.
    destruct (bSubmitted j); [|done]. destruct Hl as [Hl _]. unfold stand in Hl. simpl in Hl. congruence. }
  destruct (building_alone _ _ _ _ _ Hi Ej Es) as (_ & Eq2 & _ & Efd & Hck). rewrite Ec in Eq2.
  destruct (Hck a Ec) as [Hnoti Hcmd].
  destruct (i_jobs _ Hi p j Ej) as [_ (l & Hc & _) _ _ _ _].
  assert (exists tn, pstTailNode j = Some tn) as [tn Etn].
  { unfold pstTailNode. rewrite Hc. simpl. destruct (last l) eqn:E; [by eauto|].
    apply last_None in E. congruence. }
  unfold SubmitJob_mark. rewrite Ej. simpl. rewrite Etn. simpl.
  set (asyn := bool_decide _ && _ && _). set (noti := if asyn then _ else sa_noti a).
  assert (noti <> TDE_JOB_NOTIFY_BUTT) as Hn' by by unfold noti; destruct asyn.
  set (st0 := emit _ st). pose proof (inv_emit _ _ _ _ Hi : inv (mkSys st0 cs qs)) as Hi0.
  erewrite upd_job_Some by exact Ej. simpl. fold (submitted_as noti (sa_cb a) (sa_para a) j).
  set (j1 := submitted_as noti (sa_cb a) (sa_para a) j). set (st1 := update jobs _ st0).
  assert (j1 = j1 <| s32ReleaseFenceFd := j.(s32ReleaseFenceFd) |>) as Ej1 by by destruct j.
  pose proof (fun fd cs' v j' => marked_inv st0 cs qs p j a noti (sa_cb a) (sa_para a) fd Hi0 Ej Es Ec cs' v j') as Hm.
  destruct (TDE_FENCE_SUPPORT && bool_decide (noti <> TDE_JOB_WAKE_NOTIFY) && sa_fence a) eqn:Efenced.
  - apply andb_true_iff in Efenced as [[Hsup Hw%bool_decide_eq_true_1]%andb_true_iff _].
    pose proof (create_timeline (se_fd (sa_env a)) (se_pt (sa_env a)) (se_fen (sa_env a)) st1) as [(f & Ef & Eft) Hfd].
    destruct (TDE_FENCE_Create _ _ _ _) as [fd st2]. simpl in Ef, Eft, Hfd. subst st2. simpl.
    destruct (Z.ltb_spec fd 0) as [Hneg|Hpos]; simpl.
    + eexists _, _. split; [done|]. apply inv_same_timeline; [|done].
      apply (Hm (s32ReleaseFenceFd j) _ None j1 Ej1); [by erewrite after_mark_stand|by intros; apply after_mark_other| |done].
      split_and!; [done|by apply Efd|by destruct noti].
    + erewrite upd_job_Some by (simpl; apply lookup_insert_eq). simpl.
      set (v := mkLocals _ _ _ _). eexists _, _. split; [done|]. fold j1.
      pose proof (Hm fd (after_mark (inr v) p cs) (Some v) _ eq_refl) as H1.
      assert (inv (mkSys ((st0 <| jobs := <[p:=j1 <| s32ReleaseFenceFd := fd |>]> (jobs st0) |>) <| fence := f |>)
                (after_mark (inr v) p cs) qs)) as H2.
      { apply inv_same_timeline; [|done].
        apply H1; [by erewrite after_mark_stand|by intros; apply after_mark_other| |by intros v' [= <-]].
        intros _ _. apply Hfd; [done|apply tde_failure|apply tde_enomem]. }
      eapply inv_visible; [|exact H2]. apply visible_ext; try done. simpl. by rewrite insert_insert_eq.
  - simpl. set (v := mkLocals _ _ _ _). eexists _, _. split; [done|].
    apply (Hm (s32ReleaseFenceFd j) _ (Some v) j1 Ej1); [by erewrite after_mark_stand|by intros; apply after_mark_other| |by intros v' [= <-]].
    intros Hfd Hsup. rewrite Efd in Hfd by done. lia.
Qed.

(** The queueing. *)
Lemma queue_inv st cs qs p v :
  inv (mkSys st cs qs) -> cs.(entering) !! p = Some v ->
  exists o st', SubmitJob_queue p v st = Some (o, st') /\ inv (asleep o (with_entering p None cs) qs st').
Proof.
  intros Hi Ev. pose proof Hi as [Im Iq _ _ _ _ _]. simpl in *. assert (exists j, st.(jobs) !! p = Some j) as [j Ej].
  { apply (i_sub _ Hi p). simpl. unfold stand. rewrite Ev. done. }
  pose proof (i_jobs _ Hi p j Ej) as Hj.
  destruct Hj as [Hh (l & Hc & Hln & Hs & Hn) Hco Hsm Hf Hl]. simpl in *. unfold life in Hl.
  assert (w_entering (stand cs p) = Some v) as Ew by done. rewrite Ew in Hl.
  destruct (bSubmitted j) eqn:Es; [|by destruct Hl as (_ & _ & ? & _)].
  destruct Hl as (H1 & Hq & H2 & H3 & En & Hb & H4).
  apply bool_decide_eq_false_1 in Hq. destruct l as [|n r]; [by destruct Hs|].
  set (cs' := if decide (v.(sl_noti) = TDE_JOB_WAKE_NOTIFY) then with_blocked p (with_entering p None cs)
              else with_entering p None cs).
  assert (forall q, q <> p -> stand cs' q = stand cs q) as Ho.
  { intros q Hqp. unfold cs'. destruct (decide (v.(sl_noti) = _)); rewrite ?with_blocked_other by done; by apply with_entering_other. }
  assert (job_ok true (stand cs' p) (multiplicity p qs) st.(fence).(gs_pstTimeline) st.(mgr) p j) as Hj'.
  { assert (stand cs' p = mkStand (bool_decide (v.(sl_noti) = TDE_JOB_WAKE_NOTIFY)) None None false) as ->.
    { unfold stand in *. simpl in *. unfold cs'. destruct (decide (v.(sl_noti) = _)); simpl; rewrite lookup_partial_alter_eq; f_equal; try done.
      - rewrite !bool_decide_eq_true_2; [done|done|set_solver].
      - by rewrite H2, bool_decide_eq_false_2. }
    split; simpl; try done; [by exists (n :: r)|by intros _; apply Hf; right; eexists|].
    unfold life. rewrite Es. simpl. rewrite En. split; [done|].
    destruct (sl_noti v); [done|by split_and!; [..|apply H4]|done]. }
  destruct (join_queue st p j n r Iq) as (st3 & E & He & Em3 & Ef3); try done.
  { intros q Hql. by eapply queued_cmds. }
  assert (inv (mkSys st3 cs' qs)) as Hi3 by (eapply inv_enqueue; try done; [eauto|congruence]).
  destruct (execute_inv st3 cs' qs (sl_execute v) _ Hi3 (e_commit _ _ _ _ _ _ He)) as (st' & E' & Hi').
  unfold SubmitJob_queue. eexists _, st'. split.
  - revert E. destruct (join_last p st) as [s1|]; [|done]. simpl.
    destruct (if TDE_CACH_STRATEGY then _ else _) as [s2|]; [|done]. simpl. intros ->. simpl.
    rewrite E'. done.
  - unfold cs' in Hi'. by destruct (decide (sl_noti v = TDE_JOB_WAKE_NOTIFY)).
Qed.

(** ** Sleeping and waking *)

Lemma submit_wake_inv st cs qs p asyn wret :
  inv (mkSys st cs qs) -> p ∈ cs.(blocked) ->
  exists r st', SubmitJob_wake p asyn wret st = Some (r, st') /\
    inv (mkSys st' (without_blocked p cs) qs).
Proof.
  intros Hi Hp. assert (w_blocked (stand cs p) = true) as Hb by by apply bool_decide_eq_true_2.
  assert (stand cs p <> absent) as Hna by (intros E; by rewrite E in Hb).
  destruct (i_sub _ Hi p Hna) as [j Ej]. simpl in Ej.
  pose proof (i_jobs _ Hi p j Ej) as Hj. pose proof Hj as [Hh Hc Hco Hsm Hf Hl]. cbn [tde callers queriers] in *.
  assert (stand (without_blocked p cs) p =
    mkStand false (w_checked (stand cs p)) (w_entering (stand cs p)) (w_unfenced (stand cs p))) as Hw.
  { unfold stand. simpl. f_equal. apply bool_decide_eq_false_2. set_solver. }
  unfold life in Hl. rewrite Hb in Hl. destruct (bSubmitted j) eqn:Es; [|naive_solver].
  destruct Hl as [Hck Hl]. destruct (w_entering (stand cs p)) eqn:Een; [naive_solver|].
  assert (forall q, q <> p -> stand (without_blocked p cs) q = stand cs q /\ multiplicity q qs = multiplicity q qs)
    as Hms by (intros q Hq; split; [by apply without_blocked_other|done]).
  unfold SubmitJob_wake. rewrite Ej. simpl.
  destruct (enNotiType j) eqn:En; simpl; [naive_solver| |].
  - destruct Hl as (Hq & _ & Hu & Hn). erewrite upd_job_Some by exact Ej. simpl.
    eexists _, _. split; [done|]. eapply inv_upd; try done.
    rewrite Hw, Hq, Hck, Hu in *. split; simpl; try done; [by rewrite Es|].
    unfold life. simpl. by rewrite Es.
  - destruct Hl as (Hq%bool_decide_eq_false_1 & Hu & [[_ Hn]|[? _]]); [|done].
    rewrite Hco, Hn. simpl. rewrite Hck, Hu in Hw.
    destruct (inv_destroy st cs qs (without_blocked p cs) qs p j Hi Ej) as (st' & _ & E & Hi'); try done.
    { by apply not_query. }
    rewrite E. simpl. eauto.
Qed.

(** A query on a job whose submitter does not block, or is about to. *)
Definition queryable (cs : Callers) p : Prop :=
  p ∉ cs.(blocked) /\ forall v, cs.(entering) !! p = Some v -> v.(sl_noti) <> TDE_JOB_WAKE_NOTIFY.

Lemma wait_inv st cs qs h timeout :
  inv (mkSys st cs qs) ->
  (forall p, query_handle h st.(mgr) = Some p -> queryable cs p /\ (multiplicity p qs < 255)%nat) ->
  exists o st', TdeOsiListWaitForDone h timeout st = Some (o, st') /\ inv (asleep o cs qs st').
Proof.
  intros Hi Hw. unfold TdeOsiListWaitForDone.
  destruct (query_handle h (mgr st)) as [p|] eqn:Eq; [|by eexists _, _].
  destruct (i_handle _ Hi h p Eq) as (j & Ej & Eh). simpl in Ej. rewrite Ej. simpl.
  destruct (bSubmitted j) eqn:Es; simpl; [|by eexists _, _].
  destruct (Hw p eq_refl) as [[Hs He] Hm].
  pose proof (i_jobs _ Hi p j Ej) as [Hh Hc Hco Hsm Hf Hl]. cbn [tde callers queriers] in *.
  erewrite upd_job_Some by exact Ej. simpl. eexists _, _. split; [done|]. simpl.
  assert (forall q, q <> p -> stand cs q = stand cs q /\
    multiplicity q (qs ⊎ {[+ p +]}) = multiplicity q qs) as Hms.
  { intros q Hq. split; [done|]. by apply mult_others. }
  eapply inv_upd; [exact Hi|exact Ej|done|exact Hms|done|].
  rewrite (proj2 (mult_one qs p)).
  assert (w_blocked (stand cs p) = false) as Hb by by apply bool_decide_eq_false_2.
  assert (forall v, w_entering (stand cs p) = Some v -> v.(sl_noti) <> TDE_JOB_WAKE_NOTIFY) as Hv by exact He.
  generalize dependent (stand cs p). intros w Hf Hl Hb Hv.
  split; simpl; try done.
  - unfold u8. rewrite Hco, Z.mod_small by lia. lia.
  - lia.
  - unfold life in *. simpl. rewrite Es, Hb in *. destruct Hl as [Hck Hl]. split; [done|].
    destruct (w_entering w) as [v|].
    { destruct Hl as (? & ? & ? & ? & ? & _). split_and!; try done. intros Ew. by destruct (Hv v eq_refl). }
    destruct (enNotiType j); [done|by destruct Hl as (_ & ? & _)|].
    destruct Hl as (? & ? & _). split_and!; try done. by right.
Qed.

(** How a waiting query can go on: after a signal, after its time, or when the job is done. *)
Definition query_wakes st p (timeout wret : Z) : Prop :=
  wret = - ERESTARTSYS \/ timeout <> 0 \/
  exists j, st.(jobs) !! p = Some j /\ j.(enNotiType) = TDE_JOB_NOTIFY_BUTT.

(** One query fewer on a job. *)
Definition queried_less j : TDE_SWJOB_S := j <| u8WaitForDoneCount ::= (fun c => u8 (c - 1)) |>.
Definition query_left p j st : TDE := st <| jobs := <[p := queried_less j]> st.(jobs) |>.

Section Leave.
Context (st : TDE) (subs : Callers) (qs : gmultiset ptr) (p : ptr) (j : TDE_SWJOB_S).
Context (Hi : inv (mkSys st subs qs)) (Ej : st.(jobs) !! p = Some j) (Hp : (0 < multiplicity p qs)%nat).

Lemma query_others q :
  q <> p -> stand subs q = stand subs q /\ multiplicity q (qs ∖ {[+ p +]}) = multiplicity q qs.
Proof. intros Hq. split; [done|]. by apply mult_others. Qed.

Lemma query_count :
  u8 (u8WaitForDoneCount j - 1) = Z.of_nat (pred (multiplicity p qs)) /\
  (u8 (u8WaitForDoneCount j - 1) =? 0) = bool_decide (multiplicity p qs = 1%nat).
Proof.
  pose proof (i_jobs _ Hi p j Ej) as [_ _ Hco Hsm _ _]. simpl in *.
  unfold u8. rewrite Hco, Z.mod_small by lia. split; [lia|].
  case_bool_decide; [apply Z.eqb_eq|apply Z.eqb_neq]; lia.
Qed.

Lemma query_submitted : j.(bSubmitted) = true.
Proof.
  pose proof (i_jobs _ Hi p j Ej) as [_ _ _ _ _ Hl]. unfold life in Hl. simpl in *.
  destruct (bSubmitted j); [done|]. destruct Hl as (_ & _ & _ & _ & ? & _). lia.
Qed.

(** The last query of a finished job releases it. *)
Lemma query_last :
  j.(enNotiType) = TDE_JOB_NOTIFY_BUTT -> multiplicity p qs = 1%nat ->
  exists st', TdeOsiListDestroyJob p (query_left p j st) = Some st' /\
    inv (mkSys st' subs (qs ∖ {[+ p +]})).
Proof.
  intros En E1. pose proof (i_jobs _ Hi p j Ej) as [Hh (l & Hc & _) _ _ _ Hl].
  cbn [tde callers queriers] in *. unfold life in Hl. rewrite query_submitted, En in Hl.
  destruct Hl as [Hck Hl]. destruct (w_entering (stand subs p)) as [v|] eqn:Ev.
  { exfalso. destruct Hl as (_ & _ & _ & E & Hne & _). congruence. }
  destruct Hl as (Hq%bool_decide_eq_false_1 & Hu & [[_ ?]|[Hb _]]); [lia|].
  assert (stand subs p = absent) as Hs by (destruct (stand subs p); simpl in *; by subst).
  destruct (destroy_spec p (queried_less j) l (query_left p j st)) as (st' & _ & E & Hv).
  - apply lookup_insert_eq.
  - done.
  - apply (i_mgr _ Hi).
  - done.
  - exists st'. split; [done|]. eapply inv_visible; [symmetry; exact Hv|].
    assert (dropped p (queried_less j) (query_left p j st) = dropped p j st) as ->.
    { unfold dropped, query_left, update; simpl. f_equal. apply delete_insert_eq. }
    eapply inv_dropped; try done; [|apply query_others]. apply not_query.
    destruct (mult_one qs p) as [-> _]. lia.
Qed.

(** Any other query just leaves. *)
Lemma query_leaves :
  j.(enNotiType) <> TDE_JOB_NOTIFY_BUTT \/ multiplicity p qs <> 1%nat ->
  inv (mkSys (query_left p j st) subs (qs ∖ {[+ p +]})).
Proof.
  intros Hno. pose proof (i_jobs _ Hi p j Ej) as [Hh Hc Hco Hsm Hf Hl]. cbn [tde callers queriers] in *.
  eapply inv_upd; [exact Hi|exact Ej|done|apply query_others|done|].
  destruct (mult_one qs p) as [-> _].
  pose proof query_submitted as Es. generalize dependent (stand subs p). intros w Hf Hl. split; simpl; try done; [apply query_count|lia|].
  unfold life in *. simpl. rewrite Es in *. destruct Hl as [Hck Hl]. split; [done|].
  destruct (w_entering w) as [v|].
  { destruct Hl as (? & ? & ? & ? & ? & Hz). split_and!; try done. intros E. specialize (Hz E). lia. }
  destruct (enNotiType j); [done|destruct Hl as (_ & _ & _ & ?); lia|].
  destruct Hl as (? & ? & [[_ ?]|[? _]]); [lia|]. split_and!; try done. right.
  split; [done|]. destruct Hno; [done|lia].
Qed.
End Leave.

Lemma query_wake_inv st subs qs p timeout wret :
  inv (mkSys st subs qs) -> p ∈ qs -> query_wakes st p timeout wret ->
  exists r st', WaitForDone_wake p timeout wret st = Some (r, st') /\
    inv (mkSys st' subs (qs ∖ {[+ p +]})).
Proof.
  intros Hi Hp Hwk. destruct (i_query _ Hi p Hp) as [j Ej]. simpl in Ej.
  rewrite elem_of_multiplicity in Hp.
  pose proof (query_last st subs qs p j Hi Ej Hp) as Hlast.
  pose proof (fun E => query_leaves st subs qs p j Hi Ej Hp (or_introl E)) as Hleave1.
  pose proof (fun E => query_leaves st subs qs p j Hi Ej Hp (or_intror E)) as Hleave2.
  unfold WaitForDone_wake. erewrite upd_job_Some by exact Ej. simpl. rewrite lookup_insert_eq. simpl.
  rewrite (proj2 (query_count st subs qs p j Hi Ej Hp)).
  fold (queried_less j). fold (query_left p j st). change (enNotiType (queried_less j)) with (enNotiType j).
  destruct (decide (enNotiType j = TDE_JOB_NOTIFY_BUTT)) as [En|En];
    [rewrite (bool_decide_eq_true_2 _ En)|rewrite (bool_decide_eq_false_2 _ En)];
    (destruct (decide (multiplicity p qs = 1%nat)) as [E1|E1];
       [rewrite (bool_decide_eq_true_2 _ E1)|rewrite (bool_decide_eq_false_2 _ E1)]); simpl.
  - destruct (Hlast En E1) as (st' & E & Hi'). rewrite E. repeat case_match; simpl; eauto.
  - repeat case_match; simpl; eauto.
  - destruct Hwk as [->|[Ht|(j' & ? & ?)]]; [| |congruence].
    + rewrite Z.eqb_refl. repeat case_match; simpl; eauto.
    + rewrite (proj2 (Z.eqb_neq timeout 0) Ht). simpl. eauto.
  - repeat case_match; simpl; eauto.
Qed.
End Steps.
