(* ===== verification/TdeComp.v ===== *)
(** * The job queue of the 2D engine: completion, reset, and the whole system

    The completion interrupt and the reset on the queue of TdeList.v, then the system
    of all calls: from the start of the module on, no call uses freed memory, and
    the properties of the queue that follow. *)

From stdpp Require Import gmultiset.
From S2P Require Import Prelude TdeList TdeJobs TdeSafe.
#[local] Open Scope Z_scope.

Section Completion.
Context `{H : HandleManager, T : TdeConsts, C : HiConsts}.
Context `{HO : !HandleManagerOk H, TO : !TdeConstsOk T C}.
Implicit Types (st : TDE) (p : ptr) (j : TDE_SWJOB_S).

(** The callbacks that were run, with their argument and handle. *)
Definition callbacks (t : list Event) : list (Z * Z * Z) :=
  omap (fun e => match e with ECallback f a h => Some (f, a, h) | _ => None end) t.

Lemma callbacks_app t t' : callbacks (t ++ t') = callbacks t ++ callbacks t'.
Proof. apply omap_app. Qed.

Lemma callbacks_visible st st' :
  visible st = visible st' -> callbacks st.(trace) = callbacks st'.(trace).
Proof.
  intros E. assert (forall t, callbacks t = callbacks (List.filter is_visible t)) as Hf.
  { induction t as [|e t IH]; [done|]. change (e :: t) with ([e] ++ t).
    rewrite List.filter_app, !callbacks_app, IH. by destruct e. }
  rewrite (Hf (trace st)), (Hf (trace st')). f_equal. exact (f_equal trace E).
Qed.

Definition job_callback j : list (Z * Z * Z) :=
  if j.(pFuncComplCB) =? 0 then [] else [(j.(pFuncComplCB), j.(pFuncPara), j.(s32Handle))].

(** What notifying job [p], with record [j], leaves of a state. *)
Record notified st p j st' : Prop := {
  n_list : st'.(stList) = st.(stList);
  n_num : st'.(u32JobNum) = st.(u32JobNum);
  n_fin : st'.(s32HandleFinished) = st.(s32HandleFinished);
  n_hlast : st'.(s32HandleLast) = st.(s32HandleLast);
  n_commit : st'.(pstJobToCommit) = st.(pstJobToCommit);
  n_last : st'.(pstJobLast) = st.(pstJobLast);
  n_timeline : st'.(fence).(gs_pstTimeline) = st.(fence).(gs_pstTimeline);
  n_jobs : st'.(jobs) = partial_alter (fun _ => retired j) p st.(jobs);
  n_mgr : st'.(mgr) = retired_mgr j st.(mgr);
}.

Lemma safe_destroy_spec st p j l :
  st.(jobs) !! p = Some j -> j.(cmds) = Some l -> handles_ok st.(mgr) ->
  query_handle j.(s32Handle) st.(mgr) = Some p -> j.(enNotiType) = TDE_JOB_COMPL_NOTIFY ->
  exists st', TdeOsiListSafeDestroyJob p st = Some st' /\ notified st p j st' /\
    callbacks st'.(trace) = callbacks st.(trace).
Proof.
  intros Ej El Hm Hh Et. unfold TdeOsiListSafeDestroyJob. rewrite Ej. simpl.
  assert (retired j = if decide (u8WaitForDoneCount j <> 0)
          then Some (j <| enNotiType := TDE_JOB_NOTIFY_BUTT |>) else None) as Hr.
  { unfold retired. rewrite Et. destruct (decide (u8WaitForDoneCount j <> 0)) as [Hd|Hd].
    - rewrite decide_True by auto. done.
    - rewrite decide_False by naive_solver. done. }
  destruct (Z.eqb_spec (u8WaitForDoneCount j) 0) as [E0|E0]; simpl.
  - rewrite decide_False in Hr by naive_solver.
    destruct (destroy_spec p j l st Ej El Hm Hh) as (st' & _ & E & Hv). exists st'.
    split; [done|]. split; [|by rewrite (callbacks_visible _ _ Hv)].
    split; try (by exact (f_equal (fun s => s.(stList)) Hv)).
    + by exact (f_equal u32JobNum Hv).
    + by exact (f_equal s32HandleFinished Hv).
    + by exact (f_equal s32HandleLast Hv).
    + by exact (f_equal pstJobToCommit Hv).
    + by exact (f_equal pstJobLast Hv).
    + by exact (f_equal (fun s => gs_pstTimeline s.(fence)) Hv).
    + rewrite Hr. by exact (visible_jobs _ _ Hv).
    + unfold retired_mgr. rewrite Hr. by exact (visible_mgr _ _ Hv).
  - rewrite decide_True in Hr by done.
    erewrite upd_job_Some by exact Ej. simpl. eexists. split; [done|].
    split; [|simpl; by rewrite callbacks_app, app_nil_r].
    split; try done; simpl; [|unfold retired_mgr; by rewrite Hr].
    rewrite Hr. apply map_eq. intros q. destruct (decide (q = p)) as [->|Hq].
    + by rewrite lookup_insert_eq, lookup_partial_alter_eq.
    + by rewrite lookup_insert_ne, lookup_partial_alter_ne.
Qed.

Lemma retire_map p j (js : gmap ptr TDE_SWJOB_S) :
  js !! p = Some j -> retired j <> None ->
  <[p := j <| enNotiType := TDE_JOB_NOTIFY_BUTT |>]> js = partial_alter (fun _ => retired j) p js.
Proof.
  intros Ej Hr. unfold retired in *. case_decide; [|done]. apply map_eq. intros q.
  destruct (decide (q = p)) as [->|Hq].
  - by rewrite lookup_insert_eq, lookup_partial_alter_eq.
  - by rewrite lookup_insert_ne, lookup_partial_alter_ne.
Qed.

(** States that only differ in what was done outside: what runs in one runs in the other. *)
Lemma notified_emit st st0 p j st' :
  st0.(jobs) = st.(jobs) -> st0.(mgr) = st.(mgr) -> st0.(stList) = st.(stList) ->
  st0.(u32JobNum) = st.(u32JobNum) -> st0.(s32HandleFinished) = st.(s32HandleFinished) ->
  st0.(s32HandleLast) = st.(s32HandleLast) -> st0.(pstJobToCommit) = st.(pstJobToCommit) ->
  st0.(pstJobLast) = st.(pstJobLast) ->
  st0.(fence).(gs_pstTimeline) = st.(fence).(gs_pstTimeline) ->
  notified st0 p j st' -> notified st p j st'.
Proof. intros ? ? ? ? ? ? ? ? ? [? ? ? ? ? ? ? ? ?]. split; congruence. Qed.

Lemma run_callback_trace j st :
  exists t, run_callback j st = st <| trace := t |> /\ callbacks t = callbacks st.(trace) ++ job_callback j.
Proof.
  unfold run_callback, job_callback. destruct (pFuncComplCB j =? 0); simpl.
  - exists (trace st). rewrite app_nil_r. by destruct st.
  - eexists. split; [done|]. by rewrite callbacks_app.
Qed.

Lemma notify_spec st p j l :
  st.(jobs) !! p = Some j -> j.(cmds) = Some l -> handles_ok st.(mgr) ->
  query_handle j.(s32Handle) st.(mgr) = Some p -> j.(enNotiType) <> TDE_JOB_NOTIFY_BUTT ->
  (j.(s32ReleaseFenceFd) > 0 -> TDE_FENCE_SUPPORT = true -> st.(fence).(gs_pstTimeline) = true) ->
  exists st', notify_job p st = Some st' /\ notified st p j st' /\
    callbacks st'.(trace) = callbacks st.(trace) ++ job_callback j.
Proof.
  intros Ej El Hm Hh Et Hf. unfold notify_job. rewrite Ej. simpl.
  destruct (enNotiType j) eqn:En; [| |done].
  - destruct (run_callback_trace j st) as (t & -> & Ht). set (st0 := st <| trace := t |>).
    assert (exists st1, (if TDE_FENCE_SUPPORT && (s32ReleaseFenceFd j >? 0)
        then TDE_FENCE_WakeUp st0 else Some st0) = Some st1 /\
      exists f t', st1 = (st <| trace := t' |>) <| fence := f |> /\
        f.(gs_pstTimeline) = st.(fence).(gs_pstTimeline) /\ callbacks t' = callbacks t) as (st1 & -> & f & t' & Est1 & Eft & Ht').
    { destruct (TDE_FENCE_SUPPORT && _) eqn:Ec.
      - apply andb_true_iff in Ec as [Hs Hfd]. unfold TDE_FENCE_WakeUp. simpl.
        rewrite Hf by (done || lia). simpl. eexists. split; [done|]. do 2 eexists. split; [done|].
        simpl. rewrite Hf by (done || lia). split; [done|]. by rewrite callbacks_app, app_nil_r.
      - exists st0. split; [done|]. exists (fence st), t. split; [|done]. by destruct st. }
    simpl. destruct (safe_destroy_spec st1 p j l) as (st' & E & Hn & Hc); try (by subst st1).
    exists st'. split; [done|]. split; [|by rewrite Hc, Est1; simpl; rewrite Ht', Ht].
    eapply notified_emit; [..|exact Hn]; subst st1; done.
  - erewrite upd_job_Some by exact Ej. simpl.
    assert (retired j <> None) as Hr.
    { unfold retired. rewrite decide_True by auto. done. }
    destruct (run_callback_trace j (st <| jobs := <[p:=j <| enNotiType := TDE_JOB_NOTIFY_BUTT |>]> (jobs st) |>))
      as (t & -> & Ht).
    set (st1 := if negb _ then _ else _).
    assert (exists t', emit EWakeBlock st1 = (st <| jobs := partial_alter (fun _ => retired j) p (jobs st) |>) <| trace := t' |> /\ callbacks t' = callbacks t) as (t' & -> & Ht').
    { rewrite <- (retire_map p j) by done. unfold st1.
      destruct (u8WaitForDoneCount j =? 0); simpl; eexists; (split; [done|]);
        simpl; rewrite !callbacks_app; simpl; by rewrite ?app_nil_r. }
    eexists. split; [done|]. split; [|simpl; by rewrite Ht', Ht]. split; try done. simpl.
    unfold retired_mgr. by destruct (retired j).
Qed.

(** The first job leaves the queue and those concerned are told. *)
Lemma complete_first st subs qs p l j :
  inv (mkSys st subs qs) -> st.(stList) = p :: l -> st.(jobs) !! p = Some j ->
  st.(pstJobToCommit) <> Some p ->
  exists st1 st', unlink_first p l st = Some st1 /\ notify_job p st1 = Some st' /\
    inv (mkSys st' subs qs) /\ st'.(stList) = l /\ st'.(pstJobToCommit) = st.(pstJobToCommit) /\
    st'.(s32HandleFinished) = st.(s32HandleFinished) /\
    st'.(jobs) = partial_alter (fun _ => retired j) p st.(jobs) /\
    callbacks st'.(trace) = callbacks st.(trace) ++ job_callback j.
Proof.
  intros Hi El Ej Hc. pose proof Hi as [Im Iq Ij _ _ _ _]. simpl in *.
  pose proof (Ij p j Ej) as [Hh (l0 & Hcm & _) _ _ Hf Hl]. simpl in *.
  rewrite El, (bool_decide_eq_true_2 (p ∈ p :: l)) in * by (apply elem_of_cons; by left).
  unfold unlink_first. rewrite Ej. simpl.
  assert (exists h, Some ((if s32Handle j =? s32HandleLast st
              then (st <| u32JobNum ::= (fun k => k -u 1) |>) <| s32HandleLast := -1 |>
              else st <| u32JobNum ::= (fun k => k -u 1) |>) <| stList := l |>) =
     Some (((st <| u32JobNum := st.(u32JobNum) -u 1 |>) <| s32HandleLast := h |>) <| stList := l |>))
    as (h & ->).
  { destruct (s32Handle j =? s32HandleLast st); [by exists (-1)|]. exists (s32HandleLast st). by destruct st. }
  set (st1 := update stList _ _).
  destruct (notify_spec st1 p j l0) as (st' & E & Hn & Ht); try done.
  { destruct (queued_life _ _ _ Hl) as (_ & _ & _ & _ & [[? _]|[? _]]); congruence. }
  { simpl. auto. }
  exists st1, st'. destruct Hn as [n1 n2 n3 n4 n5 n6 n7 n8 n9]. split_and!; try done.
  eapply inv_leave; [exact Hi|exact El|exact Ej|exact n1|by rewrite n2| |exact n7|exact n8|exact n9].
  right. by rewrite n5, n6.
Qed.

Definition job_callbacks (js : gmap ptr TDE_SWJOB_S) (l : list ptr) : list (Z * Z * Z) :=
  concat (map (fun p => from_option job_callback [] (js !! p)) l).

(** The jobs [l] of the queue's front completed: gone from the queue, told in order, and
    nothing else touched. *)
Record completed st (l rest : list ptr) st' : Prop := {
  c_list : st'.(stList) = rest;
  c_commit : st'.(pstJobToCommit) = st.(pstJobToCommit);
  c_fin : st'.(s32HandleFinished) = st.(s32HandleFinished);
  c_done p j : p ∈ l -> st.(jobs) !! p = Some j -> st'.(jobs) !! p = retired j;
  c_other p : p ∉ l -> st'.(jobs) !! p = st.(jobs) !! p;
  c_calls : callbacks st'.(trace) = callbacks st.(trace) ++ job_callbacks st.(jobs) l;
}.

(** Handles tell jobs apart. *)
Lemma handles_inj st subs qs p q jp jq :
  inv (mkSys st subs qs) -> st.(jobs) !! p = Some jp -> st.(jobs) !! q = Some jq ->
  jp.(s32Handle) = jq.(s32Handle) -> p = q.
Proof.
  intros Hi Ep Eq Eh. pose proof (jo_handle _ _ _ _ _ _ _ (i_jobs _ Hi p jp Ep)) as Hp.
  pose proof (jo_handle _ _ _ _ _ _ _ (i_jobs _ Hi q jq Eq)) as Hq. simpl in *. congruence.
Qed.

Definition after_finish (ans : HalAns) st : option TDE :=
  if ans.(ha_idle) && ans.(ha_idle_after) then TdeOsiListCompProc ans.(ha_execute) (emit EIntStats st)
  else Some st.

Lemma finish_loop_spec ans subs qs p jp l2 l1 : forall fuel st,
  inv (mkSys st subs qs) -> st.(stList) = l1 ++ p :: l2 -> st.(jobs) !! p = Some jp ->
  (forall c, st.(pstJobToCommit) = Some c -> c ∉ l1 ++ [p]) -> (length l1 < fuel)%nat ->
  exists st1, inv (mkSys st1 subs qs) /\ completed st (l1 ++ [p]) l2 st1 /\
    finish_loop fuel ans jp.(s32Handle) st = after_finish ans st1.
Proof.
  induction l1 as [|a l1 IH]; intros fuel st Hi El Ep Hc Hfuel.
  - destruct fuel as [|fuel]; [simpl in Hfuel; lia|].
    destruct (complete_first st subs qs p l2 jp Hi El Ep) as (st1 & st2 & E1 & E2 & Hi2 & G1 & G2 & G3 & G4 & G5).
    { intros E. apply (Hc p E). simpl. by apply list_elem_of_singleton. }
    exists st2. split; [done|]. split.
    + split; try done.
      * intros q j Hq%list_elem_of_singleton Ej. subst q. rewrite G4, lookup_partial_alter_eq. congruence.
      * intros q Hq. rewrite G4. apply lookup_partial_alter_ne. intros ->.
        by apply Hq, list_elem_of_singleton.
      * rewrite G5. unfold job_callbacks. simpl. by rewrite Ep, app_nil_r.
    + simpl. rewrite El. simpl. rewrite Ep. simpl. rewrite E1. simpl. rewrite E2. simpl.
      by rewrite Z.eqb_refl.
  - destruct fuel as [|fuel]; [simpl in Hfuel; lia|]. simpl in El, Hfuel.
    pose proof (q_nodup _ (i_queue _ Hi)) as Hnd. simpl in Hnd. rewrite El in Hnd.
    apply NoDup_cons in Hnd as [Ha Hnd].
    assert (a <> p) as Hap by (intros ->; apply Ha, elem_of_app; right; apply elem_of_cons; by left).
    destruct (i_list _ Hi a) as [ja Ea]; [simpl; rewrite El; apply elem_of_cons; by left|]. simpl in Ea.
    destruct (complete_first st subs qs a (l1 ++ p :: l2) ja Hi El Ea)
      as (st1 & st2 & E1 & E2 & Hi2 & G1 & G2 & G3 & G4 & G5).
    { intros E. apply (Hc a E). apply elem_of_cons. by left. }
    assert (forall q, q <> a -> st2.(jobs) !! q = st.(jobs) !! q) as Hjs.
    { intros q Hq. rewrite G4. by apply lookup_partial_alter_ne. }
    destruct (IH fuel st2 Hi2 G1) as (st3 & Hi3 & [F1 F2 F3 F4 F5 F6] & E3).
    { by rewrite Hjs. }
    { intros c. rewrite G2. intros Ec Hin. apply (Hc c Ec). apply elem_of_cons. by right. }
    { lia. }
    assert (a ∉ l1 ++ [p]) as Hal.
    { intros Hin. apply Ha. apply elem_of_app in Hin as [|Hin%list_elem_of_singleton]; [|done].
      apply elem_of_app. by left. }
    exists st3. split; [done|]. split.
    + split; [done|congruence|congruence|..].
      * intros q j Hq Ej. apply elem_of_cons in Hq as [->|Hq].
        -- rewrite F5 by done. rewrite G4, lookup_partial_alter_eq. congruence.
        -- apply F4; [done|]. rewrite Hjs; [done|]. by intros ->.
      * intros q Hq. apply not_elem_of_cons in Hq as [Hqa Hq]. rewrite F5, Hjs by done. done.
      * rewrite F6, G5, <- app_assoc. f_equal. unfold job_callbacks. simpl. rewrite Ea. f_equal.
        f_equal. apply map_ext_in. intros q Hq%list_elem_of_In. rewrite Hjs; [done|]. by intros ->.
    + simpl. rewrite El. simpl. rewrite Ea. simpl. rewrite E1. simpl. rewrite E2. simpl.
      rewrite (proj2 (Z.eqb_neq _ _)); [exact E3|]. intros Eh. apply Hap.
      exact (handles_inj _ _ _ _ _ _ _ Hi Ea Ep Eh).
Qed.

Lemma after_finish_inv ans st subs qs :
  inv (mkSys st subs qs) -> exists st', after_finish ans st = Some st' /\ inv (mkSys st' subs qs).
Proof.
  intros Hi. unfold after_finish. destruct (ha_idle ans && ha_idle_after ans); [|eauto].
  unfold TdeOsiListCompProc. simpl. apply (inv_emit EIntStats) in Hi.
  destruct (pstJobToCommit st) as [c|] eqn:Ec; [|eauto]. by apply (execute_inv _ _ _ _ c).
Qed.

(** The jobs the hardware was given: the queue up to the first one that waits. *)
Definition committed st p : Prop := p ∈ st.(stList) /\ p ∉ pending st.

Lemma committed_front st p l1 l2 :
  committed st p -> st.(stList) = l1 ++ p :: l2 ->
  forall c, st.(pstJobToCommit) = Some c -> c ∉ l1 ++ [p].
Proof.
  intros [_ Hp] El c Ec Hc. apply Hp. unfold pending. rewrite Ec, El. clear -Hc.
  induction l1 as [|a l1 IH]; simpl in *.
  - apply list_elem_of_singleton in Hc as ->. rewrite decide_True by done. apply elem_of_cons. by left.
  - case_decide as Hd.
    + apply elem_of_cons. right. apply elem_of_app. right. apply elem_of_cons. by left.
    + apply elem_of_cons in Hc as [|Hc]; [done|]. auto.
Qed.

Lemma prev_job_app prev l1 p l2 :
  p ∉ l1 -> prev_job prev (l1 ++ p :: l2) p = match last l1 with Some q => Some q | None => prev end.
Proof.
  revert prev. induction l1 as [|a l1 IH]; intros prev Hp; simpl.
  - by rewrite decide_True.
  - apply not_elem_of_cons in Hp as [Hne Hp]. rewrite decide_False, IH by done.
    rewrite last_cons. by destruct (last l1).
Qed.

Definition touched (w1 w2 : option Z) (fin : Z) st : TDE :=
  (st <| pstJobFinished := default st.(pstJobFinished) w1 |>)
     <| s32HandleFinished := from_option (fun _ => fin) st.(s32HandleFinished) w2 |>.

Lemma inv_touched w1 w2 fin st subs qs :
  inv (mkSys st subs qs) -> inv (mkSys (touched w1 w2 fin st) subs qs).
Proof. intros [Im [Qa Qb Qc Qd Qe Qf] Ij Il Is Iqu Ih]. by split; [|split|..]. Qed.

(** The handle word of the hardware's current node names, if a job at all, one it was
    given. *)
Definition hal_ok (ans : HalAns) st : Prop :=
  forall w p, ans.(ha_word) = Some w -> query_handle (s32 w) st.(mgr) = Some p -> committed st p.

Lemma finish_from ans st subs qs fw l1 p l2 jp :
  inv (mkSys st subs qs) -> st.(stList) = l1 ++ p :: l2 -> st.(jobs) !! p = Some jp ->
  (forall c, st.(pstJobToCommit) = Some c -> c ∉ l1 ++ [p]) ->
  exists st1, inv (mkSys st1 subs qs) /\
    completed (touched (Some fw) (Some 0) jp.(s32Handle) st) (l1 ++ [p]) l2 st1 /\
    finish_loop (S (length (stList st))) ans jp.(s32Handle)
      ((st <| pstJobFinished := fw |>) <| s32HandleFinished := jp.(s32Handle) |>) = after_finish ans st1.
Proof.
  intros Hi El Ej Hf.
  apply (finish_loop_spec ans subs qs p jp l2 l1 _ (touched (Some fw) (Some 0) jp.(s32Handle) st));
    try done.
  - by apply inv_touched.
  - rewrite El, length_app. lia.
Qed.

(** The completion interrupt: nothing, or the front of the queue up to the last finished
    job, and then the waiting jobs are started if the engine is idle. *)
Lemma node_comp_cases ans st subs qs :
  inv (mkSys st subs qs) -> hal_ok ans st ->
  (exists w st', TdeOsiListNodeComp ans st = Some st' /\ st' = touched w None 0 st) \/
  (exists w l1 p l2 jp st1, st.(stList) = l1 ++ p :: l2 /\ st.(jobs) !! p = Some jp /\
     inv (mkSys st1 subs qs) /\ completed (touched w (Some 0) jp.(s32Handle) st) (l1 ++ [p]) l2 st1 /\
     TdeOsiListNodeComp ans st = after_finish ans st1).
Proof.
  intros Hi Hh. unfold TdeOsiListNodeComp.
  assert (st = touched None None 0 st) as Hnone by by destruct st.
  destruct (0 =? ha_CurNode ans); [left; by eauto|].
  destruct (ha_CurNode ans =? pstJobFinished st); [left; by eauto|].
  destruct (ha_word ans) as [w|] eqn:Ew; [|left; by eauto].
  specialize (Hh w). rewrite Ew in Hh. unfold finished_handle.
  destruct (ha_idle ans) eqn:Ei; simpl.
  - destruct (query_handle (s32 w) (mgr st)) as [p|] eqn:Eq.
    + right. destruct (i_handle _ Hi _ p Eq) as (jp & Ej & Eh). simpl in Ej.
      destruct (Hh p eq_refl eq_refl) as [Hin Hnp].
      apply list_elem_of_split in Hin as (l1 & l2 & El). rewrite <- Eh.
      pose proof (committed_front st p l1 l2 (Hh p eq_refl eq_refl) El) as Hf.
      destruct (finish_from ans st subs qs (ha_CurNode ans) l1 p l2 jp Hi El Ej Hf) as (st1 & Hi1 & Hc1 & E1).
      exists (Some (ha_CurNode ans)), l1, p, l2, jp, st1. done.
    + left. exists (Some (ha_CurNode ans)). eexists. split; [done|]. by destruct st.
  - destruct (query_handle (s32 w) (mgr st)) as [p|] eqn:Eq; simpl; [|left; by eauto].
    destruct (Hh p eq_refl eq_refl) as [Hin Hnp].
    pose proof (q_nodup _ (i_queue _ Hi)) as Hnd. simpl in Hnd.
    apply list_elem_of_split in Hin as (l1 & l2 & El).
    assert (p ∉ l1) as Hp1.
    { intros Hin. rewrite El in Hnd. apply NoDup_app in Hnd as (_ & Hd & _).
      apply (Hd p Hin). apply elem_of_cons. by left. }
    rewrite El, prev_job_app by done.
    pose proof (committed_front st p l1 l2 (Hh p eq_refl eq_refl) El) as Hf.
    destruct (decide (l1 = [])) as [->|Hne]; [simpl; left; by eauto|].
    destruct (exists_last Hne) as (l0 & q & ->). rewrite last_snoc. clear Hne.
    rewrite <- app_assoc in El. simpl in El.
    assert (q ∈ st.(stList)) as Hq.
    { rewrite El. apply elem_of_app. right. apply elem_of_cons. by left. }
    destruct (i_list _ Hi q Hq) as [jq Ejq]. simpl in Ejq. rewrite Ejq. simpl.
    pose proof (jo_handle _ _ _ _ _ _ _ (i_jobs _ Hi q jq Ejq)) as Hqh. simpl in Hqh. rewrite Hqh.
    assert (forall c, st.(pstJobToCommit) = Some c -> c ∉ l0 ++ [q]) as Hf'.
    { intros c Ec Hin. apply (Hf c Ec). apply elem_of_app. by left. }
    right. destruct (finish_from ans st subs qs 0 l0 q (p :: l2) jq Hi El Ejq Hf') as (st1 & Hi1 & Hc1 & E1).
    exists (Some 0), l0, q, (p :: l2), jq, st1. split_and!; try done. by rewrite <- app_assoc.
Qed.

(** ** Reset *)

Lemma reset_first st subs qs p l j :
  inv (mkSys st subs qs) -> st.(stList) = p :: l -> st.(jobs) !! p = Some j ->
  exists st', reset_job p l st = Some st' /\ inv (mkSys st' subs qs) /\ st'.(stList) = l /\
    st'.(jobs) = partial_alter (fun _ => retired j) p st.(jobs) /\
    callbacks st'.(trace) = callbacks st.(trace).
Proof.
  intros Hi El Ej. pose proof Hi as [Im Iq Ij _ _ _ _]. simpl in *.
  pose proof (Ij p j Ej) as [Hh (l0 & Hcm & _) _ _ _ Hl]. simpl in *.
  rewrite El, (bool_decide_eq_true_2 (p ∈ p :: l)) in * by (apply elem_of_cons; by left).
  unfold reset_job. simpl. rewrite Ej. simpl.
  destruct (queued_life _ _ _ Hl) as (_ & _ & _ & _ & Hmode).
  destruct (enNotiType j) eqn:En; [| |by destruct Hmode as [[? _]|[? _]]].
  - set (st1 := update stList _ _).
    destruct (safe_destroy_spec st1 p j l0 Ej Hcm Im Hh En) as (st2 & E & [n1 n2 n3 n4 n5 n6 n7 n8 n9] & Ht).
    rewrite E. simpl. eexists. split; [done|]. simpl. split_and!; try done.
    by eapply (inv_leave st subs qs p l j); try done; left.
  - assert (retired j <> None) as Hr.
    { unfold retired. rewrite decide_True by auto. done. }
    erewrite upd_job_Some by exact Ej. simpl. eexists. split; [done|]. simpl.
    rewrite (retire_map p j) by done. split_and!; try done.
    + eapply (inv_leave st subs qs p l j); try done; [by left|]. simpl. unfold retired_mgr.
      by destruct (retired j).
    + by rewrite callbacks_app, app_nil_r.
Qed.

Record was_reset st st' : Prop := {
  r_list : st'.(stList) = [];
  r_done p j : p ∈ st.(stList) -> st.(jobs) !! p = Some j -> st'.(jobs) !! p = retired j;
  r_other p : p ∉ st.(stList) -> st'.(jobs) !! p = st.(jobs) !! p;
  r_calls : callbacks st'.(trace) = callbacks st.(trace);
}.

Lemma reset_loop_spec subs qs l : forall fuel st,
  inv (mkSys st subs qs) -> st.(stList) = l -> (length l < fuel)%nat ->
  exists st', reset_loop fuel st = Some st' /\ inv (mkSys st' subs qs) /\ was_reset st st'.
Proof.
  induction l as [|p l IH]; intros fuel st Hi El Hf.
  - exists st. split; [destruct fuel; simpl; by rewrite El|]. split; [done|]. split; try done.
    intros p j. rewrite El. by intros ?%not_elem_of_nil.
  - destruct fuel as [|fuel]; [simpl in Hf; lia|]. simpl in Hf.
    pose proof (q_nodup _ (i_queue _ Hi)) as Hnd. simpl in Hnd. rewrite El in Hnd.
    apply NoDup_cons in Hnd as [Hp _].
    destruct (i_list _ Hi p) as [j Ej]; [simpl; rewrite El; apply elem_of_cons; by left|]. simpl in Ej.
    destruct (reset_first st subs qs p l j Hi El Ej) as (st1 & E1 & Hi1 & G1 & G2 & G3).
    destruct (IH fuel st1 Hi1 G1 ltac:(lia)) as (st2 & E2 & Hi2 & [F1 F2 F3 F4]).
    exists st2. simpl. rewrite El. simpl. rewrite E1. simpl. split; [done|]. split; [done|].
    split; [done| | |congruence].
    + rewrite El. intros q jq Hq Ejq. apply elem_of_cons in Hq as [->|Hq].
      * rewrite F3 by by rewrite G1. rewrite G2, lookup_partial_alter_eq. congruence.
      * apply F2; [by rewrite G1|]. rewrite G2, lookup_partial_alter_ne; [done|]. by intros ->.
    + rewrite El. intros q [Hqp Hq]%not_elem_of_cons. rewrite F3 by by rewrite G1.
      rewrite G2. by apply lookup_partial_alter_ne.
Qed.
End Completion.
