(* ===== verification/TdeSystem.v ===== *)
(** * The job queue of the 2D engine: the properties of the whole module

    All calls of the module as steps from its start, and what holds in every state
    they reach. *)

From stdpp Require Import gmultiset.
From S2P Require Import Prelude TdeList TdeJobs TdeSafe TdeComp.
#[local] Open Scope Z_scope.

Section System.
Context `{H : HandleManager, T : TdeConsts, C : HiConsts}.
Implicit Types (st : TDE) (p : ptr) (j : TDE_SWJOB_S) (s : Sys).

(** The calls, with what the caller, the allocator, the kernel and the hardware answer.
    A call is one step from where it takes the lock of the list, or starts, to where
    it drops the lock to sleep, or returns. A submission takes the lock late and is
    three steps: the test of the handle, the marking of the job, the queueing. *)
Inductive Call :=
| CBegin (null : bool) (mem : option ptr) (tgid : Z)
| CNode (h pHWNode : Z) (hw : TDE_HWNode_S) (n : Z) (ty : TDE_NODE_SUBM_TYPE_E)
| CCancel (h : Z)
| CEnd (env : SubmitEnv) (h : Z) (block : bool) (timeout cb para : Z)
| CEndEx (env : SubmitEnv) (h : Z) (block : bool) (timeout cb para : Z) (wantFence : bool)
| CMark (p : ptr)
| CQueue (p : ptr)
| CSubmitWake (p : ptr) (asyn : bool) (wret : Z)
| CWait (intr : bool) (h timeout : Z)
| CWaitAll (intr : bool)
| CQueryWake (p : ptr) (timeout wret : Z)
| CIrq (ans : HalAns)
| CReset
| CWork
| CFenceOpen
| CFenceClose.

Definition with_tde s (r : option TDE) : option Sys :=
  st ← r; Some (mkSys st s.(callers) s.(queriers)).

Definition begin_submit (h : Z) (block : bool) (a : SubmitArgs) s : option Sys :=
  if block && a.(sa_env).(se_in_interrupt) then Some s
  else '(o, st) ← SubmitJob_check h s.(tde); Some (mkSys st (after_check o a s.(callers)) s.(queriers)).

Definition run (c : Call) s : option Sys :=
  let st := s.(tde) in
  let cs := s.(callers) in
  let qs := s.(queriers) in
  match c with
  | CBegin null mem tgid => with_tde s (Some (TdeOsiBeginJob null mem tgid st).2)
  | CNode h a hw n ty => with_tde s (snd <$> TdeOsiSetNodeFinish h a hw n ty st)
  | CCancel h => with_tde s (snd <$> TdeOsiListCancelJob h st)
  | CEnd env h b t cb para => begin_submit h b (mkArgs env t cb para (notify_mode b) false) s
  | CEndEx env h b t cb para wf => begin_submit h b (mkArgs env t cb para (notify_mode b) wf) s
  | CMark p =>
      a ← cs.(checked) !! p; '(o, st) ← SubmitJob_mark p a st; Some (mkSys st (after_mark o p cs) qs)
  | CQueue p =>
      v ← cs.(entering) !! p;
      '(o, st) ← SubmitJob_queue p v st; Some (asleep o (with_entering p None cs) qs st)
  | CSubmitWake p asyn wret =>
      '(_, st) ← SubmitJob_wake p asyn wret st; Some (mkSys st (without_blocked p cs) qs)
  | CWait intr h t => '(o, st) ← TdeOsiWaitForDone intr h t st; Some (asleep o cs qs st)
  | CWaitAll intr => '(o, st) ← TdeOsiWaitAllDone intr st; Some (asleep o cs qs st)
  | CQueryWake p t wret =>
      '(_, st) ← WaitForDone_wake p t wret st; Some (mkSys st cs (qs ∖ {[+ p +]}))
  | CIrq ans => with_tde s (TdeOsiListNodeComp ans st)
  | CReset => with_tde s (TdeOsiListReset st)
  | CWork => with_tde s (TdeOsiListFreevmem st)
  | CFenceOpen => with_tde s (Some (TDE_FENCE_Open st))
  | CFenceClose => with_tde s (Some (TDE_FENCE_Close st))
  end.

(** Nobody blocks, or is about to, in the submission of the job a query asks for, and
    fewer than 255 queries ask for it. *)
Definition may_wait (h : Z) s : Prop :=
  forall p, query_handle h s.(tde).(mgr) = Some p ->
    queryable s.(callers) p /\ (multiplicity p s.(queriers) < 255)%nat.

(** When a call can happen: the allocator returns unused memory; a child node follows a
    command; while a submission has tested a handle and not yet marked its job no other
    submission and no cancellation is made with this handle; those who wake were
    asleep; the hardware is at a job it was given; and the fences are closed when no
    job in the queue, or about to be, has one. *)
Definition may (c : Call) s : Prop :=
  let st := s.(tde) in
  match c with
  | CBegin _ mem _ => forall p, mem = Some p -> st.(jobs) !! p = None
  | CNode h _ _ _ ty => ty = TDE_NODE_SUBM_CHILD -> forall p j,
      query_handle h st.(mgr) = Some p -> st.(jobs) !! p = Some j -> j.(cmds) <> Some []
  | CCancel h | CEnd _ h _ _ _ _ | CEndEx _ h _ _ _ _ _ => unclaimed h st s.(callers)
  | CMark p => is_Some (s.(callers).(checked) !! p)
  | CQueue p => is_Some (s.(callers).(entering) !! p)
  | CSubmitWake p _ _ => p ∈ submitters s
  | CWait _ h _ => may_wait h s
  | CWaitAll _ => may_wait st.(s32HandleLast) s
  | CQueryWake p t wret => p ∈ s.(queriers) /\ query_wakes st p t wret
  | CIrq ans => hal_ok ans st
  | CWork => st.(work) <> []
  | CFenceClose => forall p j, p ∈ st.(stList) \/ is_Some (s.(callers).(entering) !! p) ->
      st.(jobs) !! p = Some j -> j.(s32ReleaseFenceFd) <= 0
  | _ => True
  end.

(** Nobody calls. *)
Definition no_callers : Callers := mkCallers ∅ ∅ ∅ ∅.

Inductive reachable : Sys -> Prop :=
| reach_init r st ms :
    TdeOsiListInit true (mkFence 0 0 false) ms = (r, Some st) -> reachable (mkSys st no_callers ∅)
| reach_call c s s' : reachable s -> may c s -> run c s = Some s' -> reachable s'.

Context `{HO : !HandleManagerOk H, TO : !TdeConstsOk T C}.

Lemma start_inv r st ms f :
  TdeOsiListInit true f ms = (r, Some st) -> inv (mkSys st no_callers ∅).
Proof.
  unfold TdeOsiListInit. destruct initial_handle as [m|] eqn:Em; [|done]. intros [= _ <-].
  destruct (initial_ok m Em) as [Hm Hq]. split; simpl; try done.
  - split; try done. apply NoDup_nil_2.
  - intros p. by intros ?%not_elem_of_nil.
  - intros p Hp. rewrite elem_of_multiplicity, multiplicity_empty in Hp. lia.
  - intros h p. by rewrite Hq.
Qed.

Lemma inv_fence f st subs qs :
  inv (mkSys st subs qs) ->
  (forall p j, p ∈ st.(stList) \/ is_Some (subs.(entering) !! p) ->
     st.(jobs) !! p = Some j -> j.(s32ReleaseFenceFd) > 0 ->
     st.(fence).(gs_pstTimeline) = true -> f.(gs_pstTimeline) = true) ->
  inv (mkSys (st <| fence := f |>) subs qs).
Proof.
  intros [Im [Qa Qb Qc Qd Qe Qf] Ij Il Is Iqu Ih] Hf. split; [done|by split|..]; try done.
  intros p j Ej. specialize (Ij p j Ej). unfold job_in in *. simpl in *.
  destruct Ij as [J1 J2 J3 J4 J5 J6]. split; try done.
  intros Hq Hfd Hs. eapply (Hf p j); eauto. by rewrite bool_decide_eq_true in Hq.
Qed.

Lemma free_phy_inv n st subs qs :
  inv (mkSys st subs qs) -> inv (mkSys (TdeOsiListDoFreePhyBuff n st) subs qs).
Proof.
  intros Hi. unfold TdeOsiListDoFreePhyBuff. induction (Z.to_nat n) as [|k IH]; [done|].
  by apply (inv_emit EFreePhysicBuff).
Qed.

Lemma begin_submit_inv st cs qs h b env t cb para wf :
  let a := mkArgs env t cb para (notify_mode b) wf in
  inv (mkSys st cs qs) -> unclaimed h st cs ->
  exists s', begin_submit h b a (mkSys st cs qs) = Some s' /\ inv s'.
Proof.
  intros a Hi Hun. unfold begin_submit. simpl. destruct (b && se_in_interrupt env); [by eexists|].
  destruct (check_inv st cs qs h a Hi Hun ltac:(by destruct b)) as (o & st' & E & Hi').
  rewrite E. simpl. eauto.
Qed.

(** Every call that can happen runs to its end, and keeps the invariant. *)
Lemma run_inv c s : inv s -> may c s -> exists s', run c s = Some s' /\ inv s'.
Proof.
  destruct s as [st subs qs]. intros Hi Hm.
  destruct c as [null mem tgid|h a hw n ty|h|env h b t cb para|env h b t cb para wf|p|p|p asyn wret
                |intr h t|intr|p t wret|ans| | | |]; simpl in *.
  - eexists. split; [done|]. unfold TdeOsiBeginJob. destruct null; [done|]. by apply begin_inv.
  - destruct (node_inv _ _ _ h a hw n ty Hi Hm) as (r & st' & E & Hi'). rewrite E. simpl. eauto.
  - destruct (cancel_inv _ _ _ h Hi Hm) as (r & st' & E & Hi'). rewrite E. simpl. eauto.
  - by apply begin_submit_inv.
  - by apply begin_submit_inv.
  - destruct Hm as [a Ea]. destruct (mark_inv _ _ _ p a Hi Ea) as (o & st' & E & Hi').
    rewrite Ea. simpl. rewrite E. simpl. eauto.
  - destruct Hm as [v Ev]. destruct (queue_inv _ _ _ p v Hi Ev) as (o & st' & E & Hi').
    rewrite Ev. simpl. rewrite E. simpl. eauto.
  - destruct (submit_wake_inv _ _ _ p asyn wret Hi Hm) as (r & st' & E & Hi'). rewrite E. simpl. eauto.
  - unfold TdeOsiWaitForDone. destruct intr; [simpl; eauto|].
    destruct (wait_inv _ _ _ h t Hi Hm) as (o & st' & E & Hi'). rewrite E. simpl. eauto.
  - unfold TdeOsiWaitAllDone, TdeOsiListWaitAllDone. destruct intr; [simpl; eauto|].
    destruct (-1 =? _); [simpl; eauto|].
    destruct (wait_inv _ _ _ _ 0 Hi Hm) as (o & st' & E & Hi'). rewrite E. simpl. eauto.
  - destruct Hm as [Hp Hw].
    destruct (query_wake_inv _ _ _ p t wret Hi Hp Hw) as (r & st' & E & Hi'). rewrite E. simpl. eauto.
  - destruct (node_comp_cases ans st subs qs Hi Hm)
      as [(w & st' & E & ->)|(w & l1 & p & l2 & jp & st1 & _ & _ & Hi1 & _ & E)].
    + rewrite E. simpl. eexists. split; [done|]. by apply inv_touched.
    + destruct (after_finish_inv ans st1 subs qs Hi1) as (st' & E' & Hi').
      rewrite E, E'. simpl. eauto.
  - unfold TdeOsiListReset.
    destruct (reset_loop_spec subs qs _ (S (length (stList st))) _ (inv_emit EResumeInit _ _ _ Hi)
                eq_refl ltac:(simpl; lia)) as (st' & E & Hi' & _).
    rewrite E. simpl. eauto.
  - unfold TdeOsiListFreevmem. destruct (work st) as [|n w] eqn:Ew; [done|]. simpl.
    eexists. split; [done|]. apply free_phy_inv. by apply (inv_visible st).
  - eexists. split; [done|]. unfold TDE_FENCE_Open. destruct (gs_pstTimeline _); [done|].
    apply inv_fence; [done|]. by intros.
  - eexists. split; [done|]. unfold TDE_FENCE_Close. destruct (gs_pstTimeline _); [|done].
    apply inv_fence; [done|]. intros p j Hp Ej Hfd. specialize (Hm p j Hp Ej). lia.
Qed.

Lemma reachable_inv s : reachable s -> inv s.
Proof.
  induction 1 as [r st ms E|c s s' Hr IH Hm E]; [by eapply start_inv|].
  destruct (run_inv c s IH Hm) as (s'' & E' & Hi). congruence.
Qed.

(** C3: From the start of the module on, whatever calls are made that [may] be
    made, in whatever order they come between one another, wake-ups and completion
    interrupts, and whichever calls come between the parts of a submission, no call
    reads or releases a job or a node that was released, links a job twice or
    through a null pointer, or signals a fence on a closed timeline: every call that
    can happen runs to its end. What [may] excludes: a query on a job whose submitter
    blocks or is about to ([waiter_frees_blocked_job] shows why), a second submission
    or a cancellation with a handle that a submission has tested and not yet marked
    ([submit_races]), more than 255 queries on a job, closing the timeline while a
    queued job has a fence, and an engine at a job it was not given. *)
Theorem tde_calls_safe s c : reachable s -> may c s -> exists s', run c s = Some s' /\ reachable s'.
Proof.
  intros Hr Hm. destruct (run_inv c s (reachable_inv s Hr) Hm) as (s' & E & _).
  exists s'. split; [done|]. by eapply reach_call.
Qed.

(** C9: While a job waits for the hardware, the jobs from it to the end of the queue
    form one chain: starting at its first node, the address and update words in the
    tail of each node lead through all the nodes of all of these jobs, in the order
    of submission, and the waiting job is marked as using temporary buffers if
    one of them does. *)
Theorem pending_chain s c :
  reachable s -> s.(tde).(pstJobToCommit) = Some c ->
  exists j n r l1 l2, s.(tde).(jobs) !! c = Some j /\ pstFirstCmd j = Some n /\
    s.(tde).(stList) = l1 ++ c :: l2 /\ last (c :: l2) = s.(tde).(pstJobLast) /\
    chain s.(tde).(jobs) (c :: l2) = n :: r /\ linked (n :: r) /\
    (forall p jp, p ∈ c :: l2 -> s.(tde).(jobs) !! p = Some jp ->
       jp.(bAqUseBuff) = true -> j.(bAqUseBuff) = true).
Proof.
  intros Hr Ec. pose proof (reachable_inv s Hr) as Hi. pose proof (i_queue _ Hi) as Hq.
  destruct s as [st subs qs]. simpl in *. pose proof (q_commit _ Hq c Ec) as Hc.
  destruct (queued_cmds _ _ _ c Hi Hc) as (j & n & r & Ej & En).
  destruct (from_in c _ Hc) as (l1 & l2 & E1 & E2 & _).
  pose proof (q_chain _ Hq) as Hch. unfold pending in Hch. rewrite Ec, E2 in Hch.
  unfold chain in Hch. simpl in Hch. unfold nodes_of at 1 in Hch. rewrite Ej, En in Hch.
  exists j, n, (r ++ concat (map (nodes_of st.(jobs)) l2)), l1, l2. split_and!; try done.
  - unfold pstFirstCmd. by rewrite En.
  - rewrite <- (q_last _ Hq c Ec), E1. by rewrite last_app_cons.
  - unfold chain. simpl. unfold nodes_of at 1. by rewrite Ej, En.
  - intros p jp Hp Ejp Ha.
    destruct (q_aq _ Hq c p jp Ec) as (jc & Ejc & Hjc); try done; [|congruence].
    unfold pending. by rewrite Ec, E2.
Qed.

(** A marking that ends the submission is one that asked for a fence and got none. *)
Lemma mark_unfenced p a st r st' :
  SubmitJob_mark p a st = Some (inl r, st') ->
  r = HI_ERR_TDE_NO_MEM /\ TDE_FENCE_SUPPORT = true /\ a.(sa_fence) = true /\
  exists st1, (TDE_FENCE_Create a.(sa_env).(se_fd) a.(sa_env).(se_pt) a.(sa_env).(se_fen) st1).1 < 0.
Proof.
  unfold SubmitJob_mark. intros H1. destruct (jobs st !! p) as [j|]; [|done]. simpl in H1.
  destruct (pstTailNode j) as [n|]; [|done]. simpl in H1.
  destruct (upd_job p _ _) as [st1|]; [|done]. simpl in H1.
  destruct (TDE_FENCE_SUPPORT && _ && sa_fence a) eqn:E.
  - apply andb_true_iff in E as [[-> _]%andb_true_iff ->].
    destruct (TDE_FENCE_Create _ _ _ _) as [fd st2] eqn:Ef. simpl in H1.
    destruct (Z.ltb_spec fd 0); [|by destruct (upd_job p _ st2)].
    injection H1 as <- <-. split_and!; try done. exists st1. by rewrite Ef.
  - done.
Qed.

(** C24: A job never gets lost: as long as its memory is not released it is being
    built by its creator, about to be queued by its submitter, in the queue, or done and
    kept for a caller that sleeps on it, who will release it; and nobody sleeps on a
    job that is gone. The one exception is a job whose submission asked for a release
    fence and could not get it ([unfenced], see [after_mark] and [mark_unfenced]). *)
Theorem no_job_leaks s :
  reachable s ->
  (forall p j, s.(tde).(jobs) !! p = Some j ->
     j.(bSubmitted) = false \/ is_Some (s.(callers).(entering) !! p) \/ p ∈ s.(tde).(stList) \/
     j.(enNotiType) = TDE_JOB_NOTIFY_BUTT /\ (p ∈ submitters s \/ p ∈ s.(queriers)) \/
     p ∈ s.(callers).(unfenced)) /\
  (forall p, p ∈ submitters s \/ p ∈ s.(queriers) -> is_Some (s.(tde).(jobs) !! p)).
Proof.
  intros Hr. pose proof (reachable_inv s Hr) as Hi. split.
  - intros p j Ej. pose proof (i_jobs _ Hi p j Ej) as [_ _ _ _ _ Hl].
    unfold life in Hl. destruct (bSubmitted j); [|by left]. destruct Hl as [_ Hl]. right. simpl in Hl.
    destruct (entering (callers s) !! p); [by left; eexists|]. right.
    destruct (enNotiType j).
    + destruct Hl as [_ Hl]. case_bool_decide as Hq; [by left|]. right; right.
      by apply (bool_decide_eq_true_1 _), Hl.
    + left. by apply (bool_decide_eq_true_1 _), Hl.
    + right; left. split; [done|]. destruct Hl as (_ & _ & [[Hs%bool_decide_eq_true_1 _]|[_ Hn]]); [by left|].
      right. rewrite elem_of_multiplicity. lia.
  - intros p [Hp|Hp]; [|by apply (i_query _ Hi)]. apply (i_sub _ Hi). intros E.
    apply (f_equal w_blocked) in E. unfold stand in E. simpl in E. by apply bool_decide_eq_false_1 in E.
Qed.

(** C10: When the idle engine reports the job it finished, exactly the jobs up to that
    one leave the queue, in the order of submission: their callbacks run in this
    order, each is released unless someone sleeps on it, in which case it is marked
    done, every other job is untouched, and if a job waits and the engine takes it,
    the chain that starts at its first node runs next. *)
Theorem idle_completes_in_order s ans w l1 p l2 j :
  reachable s -> ans.(ha_idle) = true -> ans.(ha_CurNode) <> 0 ->
  ans.(ha_CurNode) <> s.(tde).(pstJobFinished) -> ans.(ha_word) = Some w ->
  query_handle (s32 w) s.(tde).(mgr) = Some p -> committed s.(tde) p ->
  s.(tde).(stList) = l1 ++ p :: l2 -> s.(tde).(jobs) !! p = Some j ->
  exists st', TdeOsiListNodeComp ans s.(tde) = Some st' /\
    st'.(stList) = l2 /\ st'.(s32HandleFinished) = j.(s32Handle) /\
    callbacks st'.(trace) = callbacks s.(tde).(trace) ++ job_callbacks s.(tde).(jobs) (l1 ++ [p]) /\
    (forall q jq, q ∈ l1 ++ [p] -> s.(tde).(jobs) !! q = Some jq -> st'.(jobs) !! q = retired jq) /\
    (forall q, q ∉ l1 ++ [p] -> st'.(jobs) !! q = s.(tde).(jobs) !! q) /\
    (forall c jc n, s.(tde).(pstJobToCommit) = Some c -> s.(tde).(jobs) !! c = Some jc ->
       pstFirstCmd jc = Some n -> ans.(ha_idle_after) = true -> ans.(ha_execute) = HI_SUCCESS ->
       st'.(pstJobCommitted) = Some c /\ st'.(pstJobToCommit) = None /\
       last st'.(trace) = Some (EExecute n.(u32PhyAddr) n.(u64Update) jc.(bAqUseBuff))).
Proof.
  intros Hr Hidle Hcur Hfin Hw Hq Hcom El Ej.
  pose proof (reachable_inv s Hr) as Hi. destruct s as [st subs qs]. simpl in *.
  destruct (i_handle _ Hi _ p Hq) as (j' & Ej' & Eh). simpl in Ej'. simplify_eq.
  pose proof (committed_front st p l1 l2 Hcom El) as Hf.
  destruct (finish_from ans st subs qs (ha_CurNode ans) l1 p l2 j Hi El Ej Hf)
    as (st1 & Hi1 & [F1 F2 F3 F4 F5 F6] & E1). simpl in *.
  assert (TdeOsiListNodeComp ans st = after_finish ans st1) as ->.
  { unfold TdeOsiListNodeComp. rewrite (proj2 (Z.eqb_neq _ _)) by congruence.
    rewrite (proj2 (Z.eqb_neq _ _)) by done. rewrite Hw. unfold finished_handle. rewrite Hidle. simpl.
    by rewrite Hq, <- Eh. }
  unfold after_finish. rewrite Hidle. simpl.
  destruct (ha_idle_after ans) eqn:Ea; [|exists st1; split_and!; done].
  unfold TdeOsiListCompProc, execute_pending. simpl. rewrite F2.
  destruct (pstJobToCommit st) as [c|] eqn:Ec.
  2:{ eexists. split; [done|]. simpl. rewrite callbacks_app, app_nil_r. done. }
  simpl. destruct (queued_cmds st1 subs qs c Hi1) as (jc & n & r & Ejc & En).
  { apply (q_commit _ (i_queue _ Hi1)). simpl. by rewrite F2. }
  rewrite Ejc. simpl. unfold pstFirstCmd. rewrite En. simpl.
  assert (st1.(jobs) !! c = st.(jobs) !! c) as Ecc by (apply F5; by apply Hf).
  destruct (decide (ha_execute ans = HI_SUCCESS)) as [Hx|Hx].
  - eexists. split; [done|]. simpl. rewrite !callbacks_app, !app_nil_r. split_and!; try done.
    intros c' jc' n' [= <-] E Hn' _ _. simpl. split_and!; try done.
    rewrite last_snoc. assert (jc' = jc) as -> by congruence. rewrite En in Hn'. simpl in Hn'. by simplify_eq.
  - eexists. split; [done|]. simpl. rewrite callbacks_app, app_nil_r. split_and!; try done.
Qed.

(** A reset empties the queue whatever it holds: every queued job is released, or
    marked done for whoever sleeps on it; jobs outside the queue are untouched and no
    completion callback runs. *)
Theorem reset_empties s :
  reachable s ->
  exists st', TdeOsiListReset s.(tde) = Some st' /\ st'.(stList) = [] /\ st'.(u32JobNum) = 0 /\
    (forall p j, p ∈ s.(tde).(stList) -> s.(tde).(jobs) !! p = Some j -> st'.(jobs) !! p = retired j) /\
    (forall p, p ∉ s.(tde).(stList) -> st'.(jobs) !! p = s.(tde).(jobs) !! p) /\
    callbacks st'.(trace) = callbacks s.(tde).(trace).
Proof.
  intros Hr. pose proof (reachable_inv s Hr) as Hi. destruct s as [st subs qs]. simpl in *.
  destruct (reset_loop_spec subs qs _ (S (length (stList st))) _ (inv_emit EResumeInit _ _ _ Hi)
              eq_refl ltac:(simpl; lia)) as (st' & E & Hi' & [R1 R2 R3 R4]).
  simpl in *. exists st'. split_and!; try done.
  - pose proof (q_num _ (i_queue _ Hi')) as Hn. simpl in Hn. by rewrite Hn, R1.
  - by rewrite R4, callbacks_app, app_nil_r.
Qed.

(** C34: A caller that waits for the job another caller is blocked on can take it away
    from under it: woken first, the waiter, as the last one, releases the job, and the
    blocked submitter then reads freed memory. *)
Theorem waiter_frees_blocked_job s p j timeout asyn wret :
  reachable s -> s.(tde).(jobs) !! p = Some j -> p ∈ submitters s ->
  j.(enNotiType) = TDE_JOB_WAKE_NOTIFY -> timeout <> 0 ->
  exists st1 st2 st3,
    TdeOsiListWaitForDone j.(s32Handle) timeout s.(tde) = Some (SleepQuery p timeout, st1) /\
    notify_job p st1 = Some st2 /\
    WaitForDone_wake p timeout 0 st2 = Some (HI_SUCCESS, st3) /\
    SubmitJob_wake p asyn wret st3 = None.
Proof.
  intros Hr Ej Hp En Ht. pose proof (reachable_inv s Hr) as Hi. destruct s as [st subs qs]. simpl in *.
  destruct (i_jobs _ Hi p j Ej) as [Hh (l & Hc & _) Hco _ Hf Hl]. simpl in *.
  assert (w_blocked (stand subs p) = true) as Hb by by apply bool_decide_eq_true_2.
  unfold life in Hl. destruct (bSubmitted j) eqn:Es; [|by destruct Hl as (_ & ? & _); congruence].
  destruct Hl as [_ Hl]. destruct (w_entering (stand subs p)); [by destruct Hl as (_ & ? & _); congruence|].
  rewrite En in Hl. destruct Hl as (Hq & _ & _ & Hn). rewrite Hn in Hco.
  set (j1 := j <| u8WaitForDoneCount ::= (fun c => u8 (c + 1)) |>).
  set (st1 := st <| jobs := <[p := j1]> (jobs st) |>).
  destruct (notify_spec st1 p j1 l) as (st2 & E2 & [n1 n2 n3 n4 n5 n6 n7 n8 n9] & _).
  { apply lookup_insert_eq. }
  { exact Hc. }
  { apply (i_mgr _ Hi). }
  { exact Hh. }
  { simpl. by rewrite En. }
  { simpl. auto. }
  assert (retired j1 = Some (j1 <| enNotiType := TDE_JOB_NOTIFY_BUTT |>)) as Hr1.
  { unfold retired. rewrite decide_True; [done|]. by left. }
  set (j2 := j1 <| enNotiType := TDE_JOB_NOTIFY_BUTT |>) in *.
  assert (st2.(jobs) !! p = Some j2) as Ej2 by by rewrite n8, lookup_partial_alter_eq.
  unfold retired_mgr in n9. rewrite Hr1 in n9.
  set (st2' := st2 <| jobs := <[p := j2 <| u8WaitForDoneCount ::= (fun c => u8 (c - 1)) |>]> st2.(jobs) |>).
  destruct (destroy_spec p (j2 <| u8WaitForDoneCount ::= (fun c => u8 (c - 1)) |>) l st2')
    as (st3 & _ & E3 & Hv).
  { apply lookup_insert_eq. }
  { done. }
  { simpl. rewrite n9. apply (i_mgr _ Hi). }
  { simpl. by rewrite n9. }
  exists st1, st2, st3. split_and!.
  - unfold TdeOsiListWaitForDone. rewrite Hh, Ej. simpl. rewrite Es. simpl.
    by erewrite upd_job_Some by exact Ej.
  - done.
  - unfold WaitForDone_wake. erewrite upd_job_Some by exact Ej2. simpl. rewrite lookup_insert_eq. simpl.
    rewrite (proj2 (Z.eqb_neq timeout 0) Ht), Hco. simpl. fold j2. fold st2'.
    change (u8 (u8 (0 + 1) - 1) =? 0) with true. simpl. by rewrite E3.
  - unfold SubmitJob_wake. rewrite (visible_jobs _ _ Hv). simpl. by rewrite lookup_delete_eq.
Qed.
(** What queueing does to the list. *)
Lemma join_list p st st' : join_last p st = Some st' -> st'.(stList) = st.(stList).
Proof.
  unfold join_last. destruct (pstJobToCommit st) as [c|]; [|by intros [= <-]].
  destruct (pstJobLast st) as [lp|]; [|done]. simpl. destruct (jobs st !! p) as [j|]; [|done]. simpl.
  destruct (pstFirstCmd j) as [n|]; [|done]. simpl. destruct (jobs st !! lp) as [lj|] eqn:El; [|done]. simpl.
  destruct (cmds lj) as [l|]; [|done]. simpl. destruct (decide (l = [])); [done|].
  erewrite upd_job_Some by exact El. simpl. intros H1.
  assert (forall st1 st2, (if TDE_CACH_STRATEGY then TdeOsiListFlushJob lp st1 else Some st1) = Some st2 ->
    st2.(stList) = st1.(stList)) as Hf.
  { intros st1 st2 E2. destruct TDE_CACH_STRATEGY; [by eapply flush_list|congruence]. }
  destruct (bAqUseBuff j).
  - unfold upd_job in H1. simpl in H1. destruct (_ !! c); [|done]. simpl in H1. by rewrite (Hf _ _ H1).
  - simpl in H1. by rewrite (Hf _ _ H1).
Qed.

Lemma queue_joins p v st o st' : SubmitJob_queue p v st = Some (o, st') -> p ∉ st.(stList) /\ p ∈ st'.(stList).
Proof.
  unfold SubmitJob_queue. intros H1. destruct (join_last p st) as [st1|] eqn:E1; [|done]. simpl in H1.
  destruct (if TDE_CACH_STRATEGY then _ else _) as [st2|] eqn:E2; [|done]. simpl in H1.
  assert (st2.(stList) = st.(stList)) as El.
  { rewrite <- (join_list _ _ _ E1). destruct TDE_CACH_STRATEGY; [by eapply flush_list|congruence]. }
  unfold TdeOsiListAddJob in H1. destruct (jobs st2 !! p) as [j|]; [|done]. simpl in H1.
  destruct (decide (p ∈ stList st2)) as [|Hn]; [done|]. simpl in H1. rewrite El in Hn. split; [done|].
  destruct (execute_pending _ _) as [st3|] eqn:E3; [|done]. injection H1 as _ <-.
  revert E3. unfold execute_pending. simpl. destruct (pstJobToCommit st2) as [c|]; [|done]. simpl.
  destruct (jobs st2 !! c) as [jc|]; [|done]. simpl. destruct (pstFirstCmd jc); [|done]. simpl.
  destruct (decide (_ = HI_SUCCESS)); intros [= <-]; simpl; rewrite El; set_solver.
Qed.

(** Why [may] asks for one call at a time on a handle that is being submitted. The
    test of a handle takes no lock and reserves nothing: two submissions can both
    pass it, and the second of them to queue the job links it a second time; and a
    job can be cancelled between the test and the mark, which then writes into freed
    memory. *)
Theorem submit_races s p j :
  reachable s -> s.(tde).(jobs) !! p = Some j -> j.(bSubmitted) = false -> j.(cmds) <> Some [] ->
  SubmitJob_check j.(s32Handle) s.(tde) = Some (inr p, s.(tde))
  /\ (forall a a' v v' o st1 st2 st3,
        SubmitJob_mark p a s.(tde) = Some (inr v, st1) -> SubmitJob_mark p a' st1 = Some (inr v', st2) ->
        SubmitJob_queue p v st2 = Some (o, st3) -> SubmitJob_queue p v' st3 = None)
  /\ (forall a, exists st1, TdeOsiListCancelJob j.(s32Handle) s.(tde) = Some (0, st1) /\
        SubmitJob_mark p a st1 = None).
Proof.
  intros Hr Ej Es Hne. pose proof (reachable_inv s Hr) as Hi. destruct s as [st cs qs]. simpl in *.
  destruct (i_jobs _ Hi p j Ej) as [Hh (l & Hc & _) _ _ _ _]. simpl in *. split_and!.
  - unfold SubmitJob_check. rewrite Hh, Ej. simpl. rewrite Es, Hc. simpl.
    rewrite decide_False by congruence. done.
  - intros a a' v v' o st1 st2 st3 _ _ Eq. apply queue_joins in Eq as [_ Hin].
    destruct (SubmitJob_queue p v' st3) as [[o' st4]|] eqn:E; [|done].
    by apply queue_joins in E as [? _].
  - intros a. destruct (destroy_spec p j l st Ej Hc (i_mgr _ Hi) Hh) as (st' & E1 & _ & Hv).
    exists st'. split.
    + unfold TdeOsiListCancelJob. rewrite Hh, Ej. simpl. rewrite Es.
      destruct (TdeOsiListFreeSerialCmd p st) as [st1|]; [|done]. simpl in *. by rewrite E1.
    + unfold SubmitJob_mark. rewrite (visible_jobs _ _ Hv). simpl. by rewrite lookup_delete_eq.
Qed.

(** When nothing comes between its parts, a submission is the function as it is written. *)
Lemma end_job_steps env h b timeout cb para s p v st1 st2 :
  let a := mkArgs env timeout cb para (notify_mode b) false in
  b && se_in_interrupt env = false ->
  SubmitJob_check h s.(tde) = Some (inr p, st1) -> SubmitJob_mark p a st1 = Some (inr v, st2) ->
  s.(callers).(checked) !! p = None -> s.(callers).(entering) !! p = None ->
  (s1 ← run (CEnd env h b timeout cb para) s; s2 ← run (CMark p) s1; run (CQueue p) s2)
  = ('(o, st) ← TdeOsiEndJob env h b timeout cb para s.(tde); Some (asleep o s.(callers) s.(queriers) st)).
Proof.
  intros a Hb E1 E2 Hck Hen. unfold TdeOsiEndJob, TdeOsiListSubmitJob. rewrite Hb, E1. simpl. fold a.
  rewrite E2. unfold begin_submit. simpl. rewrite Hb, E1. simpl. rewrite lookup_partial_alter_eq. simpl.
  fold a. rewrite E2. simpl. rewrite lookup_partial_alter_eq. simpl.
  assert (with_entering p None (with_entering p (Some v) (with_checked p None
    (with_checked p (Some a) (callers s)))) = callers s) as ->; [|done].
  destruct s as [? [bl ck en un] ?]. unfold with_entering, with_checked. simpl in *. f_equal.
  - rewrite partial_alter_partial_alter_eq. etrans; [|apply (partial_alter_self ck p)].
    apply partial_alter_ext. by intros ? _.
  - rewrite partial_alter_partial_alter_eq. etrans; [|apply (partial_alter_self en p)].
    apply partial_alter_ext. by intros ? _.
Qed.
End System.

(** ** An instance: handles counted up, a table of blocks *)

Definition table_manager : HandleManager := {|
  handles := Z * gmap Z ptr;
  initial_handle := Some (0, ∅);
  get_handle p m := (m.1, (m.1 + 1, <[m.1 := p]> m.2));
  query_handle h m := m.2 !! h;
  release_handle h m := (bool_decide (is_Some (m.2 !! h)), (m.1, delete h m.2));
|}.

#[export] Program Instance table_manager_ok : HandleManagerOk table_manager := {|
  handles_ok m := 0 <= m.1 /\ forall h p, m.2 !! h = Some p -> h < m.1;
|}.
Next Obligation.
  intros m [= <-]. split; [|done]. split; [done|]. intros h p. simpl. by rewrite lookup_empty.
Qed.
Next Obligation.
  intros p [c m] [Hc Hm]. simpl in *. split; [lia|]. intros h q.
  rewrite lookup_insert. case_decide; [lia|]. intros Hq. specialize (Hm h q Hq). lia.
Qed.
Next Obligation.
  intros p [c m] [Hc Hm]. simpl in *. destruct (m !! c) eqn:E; [|done].
  specialize (Hm c _ E). lia.
Qed.
Next Obligation. intros p [c m] [Hc _]. done. Qed.
Next Obligation.
  intros p [c m] h _. simpl. rewrite lookup_insert. by destruct (decide (c = h)), (decide (h = c)).
Qed.
Next Obligation.
  intros h [c m] [Hc Hm]. simpl in *. split; [done|]. intros h' p [_ ?]%lookup_delete_Some. eauto.
Qed.
Next Obligation. intros h [c m] p _ E. simpl in *. by rewrite bool_decide_eq_true_2 by by rewrite E. Qed.
Next Obligation.
  intros h h' [c m] _. simpl. rewrite lookup_delete. by destruct (decide (h = h')), (decide (h' = h)).
Qed.

(** Fences built in, no cache flushing, buffers mapped one to one. *)
Definition example_consts : TdeConsts := {|
  HI_ERR_TDE_NO_MEM := -10; HI_ERR_TDE_INVALID_HANDLE := -11; HI_ERR_TDE_JOB_TIMEOUT := -12;
  HI_ERR_TDE_INTERRUPT := -13; HI_ERR_TDE_QUERY_TIMEOUT := -14;
  HI_ERR_TDE_UNSUPPORTED_OPERATION := -15; HI_ERR_TDE_NULL_PTR := -16;
  TDE_NODE_HEAD_BYTE := 16; TDE_NODE_TAIL_BYTE := 16; sizeof_TDE_HWNode_S := 256;
  ERESTARTSYS := 512; ENOMEM := 12; TDE_FENCE_SUPPORT := true; TDE_CACH_STRATEGY := false;
  wgetphy := fun a => a |}.

#[local] Instance example_consts_ok : TdeConstsOk example_consts sdk_consts.
Proof. by split. Qed.
#[local] Existing Instance table_manager.
#[local] Existing Instance example_consts.

Definition example_hw : TDE_HWNode_S := mkHW 0 0 0 0 0.
Definition example_env (exec : Z) : SubmitEnv := Build_SubmitEnv false 100 7 true true exec.

(** Two jobs of one node each, the first taken by the engine, the second waiting. *)
Definition two_jobs (block : bool) (exec : Z) : list Call := [
  CFenceOpen;
  CBegin false (Some 1%positive) 100; CNode 0 4112 example_hw 0 TDE_NODE_SUBM_ALONE;
  CEnd (example_env exec) 0 block 100 9000 1; CMark 1; CQueue 1;
  CBegin false (Some 2%positive) 100; CNode 1 8208 example_hw 1 TDE_NODE_SUBM_ALONE;
  CEndEx (example_env (-1)) 1 false 0 9000 2 true; CMark 2; CQueue 2].

Definition start : Sys :=
  mkSys (mkTde _ [] 0 0 0 None None 0 None ∅ (0, ∅) (mkFence 0 0 false) [] [] []) no_callers ∅.
Fixpoint run_all (cs : list Call) (s : Sys) : Sys :=
  match cs with [] => s | c :: cs => from_option (run_all cs) s (run c s) end.
Fixpoint may_all (cs : list Call) (s : Sys) : Prop :=
  match cs with
  | [] => True
  | c :: cs => may c s /\ match run c s with Some s' => may_all cs s' | None => False end
  end.

Lemma reachable_run cs s : reachable s -> may_all cs s -> reachable (run_all cs s).
Proof.
  revert s. induction cs as [|c cs IH]; intros s Hr Hm; [done|]. simpl in *.
  destruct Hm as [Hc Hm]. destruct (run c s) as [s'|] eqn:E; [|done].
  apply IH; [|done]. by eapply reach_call.
Qed.

Lemma may_all_cons c cs s :
  (if run c s then true else false) = true -> may c s -> may_all cs (default s (run c s)) ->
  may_all (c :: cs) s.
Proof. simpl. by destruct (run c s). Qed.

(** The conditions of the calls that build and submit jobs, as a test. *)
Definition may_test (c : Call) (s : Sys) : bool :=
  match c with
  | CBegin _ mem _ => from_option (fun p => bool_decide (s.(tde).(jobs) !! p = None)) true mem
  | CNode _ _ _ _ ty => bool_decide (ty <> TDE_NODE_SUBM_CHILD)
  | CCancel h | CEnd _ h _ _ _ _ | CEndEx _ h _ _ _ _ _ =>
      from_option (fun p => if s.(callers).(checked) !! p then false else true) true
        (query_handle h s.(tde).(mgr))
  | CMark p => if s.(callers).(checked) !! p then true else false
  | CQueue p => if s.(callers).(entering) !! p then true else false
  | CFenceOpen => true
  | _ => false
  end.

Lemma may_test_ok c s : may_test c s = true -> may c s.
Proof.
  destruct c; cbn [may may_test]; try done.
  - intros Hb p ->. by apply bool_decide_eq_true_1 in Hb.
  - intros Hb ->. by apply bool_decide_eq_true_1 in Hb.
  - intros Hb p Hq. rewrite Hq in Hb. cbn in Hb. by destruct (checked _ !! p).
  - intros Hb p Hq. rewrite Hq in Hb. cbn in Hb. by destruct (checked _ !! p).
  - intros Hb p Hq. rewrite Hq in Hb. cbn in Hb. by destruct (checked _ !! p).
  - destruct (checked _ !! p); [by eexists|done].
  - destruct (entering _ !! p); [by eexists|done].
Qed.

Ltac may_step :=
  apply may_all_cons; [vm_compute; reflexivity|apply may_test_ok; vm_compute; reflexivity|].

Lemma two_jobs_reachable block : reachable (run_all (two_jobs block 0) start).
Proof.
  apply reachable_run; [by eapply (reach_init _ _ [])|].
  destruct block; unfold two_jobs; repeat may_step; exact I.
Qed.

Definition job_of (block : bool) (p : ptr) : TDE_SWJOB_S :=
  default zero_job ((run_all (two_jobs block 0) start).(tde).(jobs) !! p).

Ltac computed := vm_compute; reflexivity.

Lemma tde_calls_safe_witness :
  let s := run_all (two_jobs false 0) start in
  may (CWait false 1 50) s /\ exists s', run (CWait false 1 50) s = Some s' /\ reachable s'.
Proof.
  assert (may (CWait false 1 50) (run_all (two_jobs false 0) start)) as Hm.
  { intros p Hp.
    assert (query_handle 1 (run_all (two_jobs false 0) start).(tde).(mgr) = Some 2%positive) as E by computed.
    assert (2%positive = p) as <- by congruence. clear.
    split; [split; [apply (bool_decide_eq_true_1 _); computed|]|apply Nat.ltb_lt; computed].
    intros v. assert (entering (callers (run_all (two_jobs false 0) start)) !! 2%positive = None) as -> by computed.
    done. }
  split; [exact Hm|]. apply (tde_calls_safe _ _ (two_jobs_reachable false) Hm).
Defined.

Lemma pending_chain_witness :
  let s := run_all (two_jobs false 0) start in
  exists j n r l1 l2, s.(tde).(jobs) !! 2%positive = Some j /\ pstFirstCmd j = Some n /\
    s.(tde).(stList) = l1 ++ 2%positive :: l2 /\ last (2%positive :: l2) = s.(tde).(pstJobLast) /\
    chain s.(tde).(jobs) (2%positive :: l2) = n :: r /\ linked (n :: r) /\
    (forall p jp, p ∈ 2%positive :: l2 -> s.(tde).(jobs) !! p = Some jp ->
       jp.(bAqUseBuff) = true -> j.(bAqUseBuff) = true).
Proof. apply (pending_chain _ 2%positive (two_jobs_reachable false)). computed. Defined.

Lemma no_job_leaks_witness :
  let s := run_all (two_jobs true 0) start in
  (exists j, s.(tde).(jobs) !! 1%positive = Some j /\
   (j.(bSubmitted) = false \/ is_Some (s.(callers).(entering) !! 1%positive) \/ 1%positive ∈ s.(tde).(stList) \/
    j.(enNotiType) = TDE_JOB_NOTIFY_BUTT /\ (1%positive ∈ submitters s \/ 1%positive ∈ s.(queriers)) \/
    1%positive ∈ s.(callers).(unfenced)))
  /\ is_Some (s.(tde).(jobs) !! 1%positive).
Proof.
  destruct (no_job_leaks _ (two_jobs_reachable true)) as [H1 H2]. split.
  - exists (job_of true 1). split; [computed|]. apply H1. computed.
  - apply H2. left. apply (bool_decide_eq_true_1 _). computed.
Defined.

Definition idle_answer : HalAns := Build_HalAns true 4112 (Some 0) true 0.

Lemma idle_completes_in_order_witness :
  let s := run_all (two_jobs false 0) start in
  exists st', TdeOsiListNodeComp idle_answer s.(tde) = Some st' /\ st'.(stList) = [2%positive] /\
    callbacks st'.(trace) = [(9000, 1, 0)] /\ st'.(pstJobCommitted) = Some 2%positive.
Proof.
  destruct (idle_completes_in_order (run_all (two_jobs false 0) start) idle_answer 0 [] 1%positive
              [2%positive] (job_of false 1) (two_jobs_reachable false))
    as (st' & E & El & _ & Hc & _ & _ & Hx);
    [computed|done|by vm_compute|computed|computed| |computed|computed|].
  { split; vm_compute; [apply elem_of_cons; by left|]. intros Hin.
    by apply list_elem_of_singleton in Hin. }
  exists st'. split; [exact E|]. split; [exact El|]. split; [rewrite Hc; computed|].
  by apply (Hx 2%positive (job_of false 2) (default (mkNode 0 0 TDE_NODE_SUBM_ALONE 0 0 0 0 0 0 example_hw 0 0)
              (pstFirstCmd (job_of false 2)))); computed.
Defined.

Lemma reset_empties_witness :
  let s := run_all (two_jobs true 0) start in
  exists st', TdeOsiListReset s.(tde) = Some st' /\ st'.(stList) = [] /\ st'.(u32JobNum) = 0.
Proof.
  destruct (reset_empties _ (two_jobs_reachable true)) as (st' & E & El & En & _). eauto.
Defined.

(** A job with one node that nobody has submitted. *)
Definition one_job : list Call := [
  CBegin false (Some 1%positive) 100; CNode 0 4112 example_hw 0 TDE_NODE_SUBM_ALONE].

Lemma submit_races_witness :
  let s := run_all one_job start in
  SubmitJob_check 0 s.(tde) = Some (inr 1%positive, s.(tde)) /\
  exists st1, TdeOsiListCancelJob 0 s.(tde) = Some (0, st1) /\
    SubmitJob_mark 1 (mkArgs (example_env 0) 100 0 0 TDE_JOB_COMPL_NOTIFY false) st1 = None.
Proof.
  assert (reachable (run_all one_job start)) as Hr.
  { apply reachable_run; [by eapply (reach_init _ _ [])|]. unfold one_job. repeat may_step. exact I. }
  destruct (submit_races _ 1%positive
    (default zero_job ((run_all one_job start).(tde).(jobs) !! 1%positive)) Hr) as (H1 & _ & H2).
  - computed.
  - computed.
  - vm_compute. discriminate.
  - split; [exact H1|apply H2].
Defined.

Lemma waiter_frees_blocked_job_witness :
  let s := run_all (two_jobs true 0) start in
  exists st1 st2 st3,
    TdeOsiListWaitForDone 0 50 s.(tde) = Some (SleepQuery 1%positive 50, st1) /\
    notify_job 1%positive st1 = Some st2 /\
    WaitForDone_wake 1%positive 50 0 st2 = Some (HI_SUCCESS, st3) /\
    SubmitJob_wake 1%positive false 1 st3 = None.
Proof.
  apply (waiter_frees_blocked_job _ 1%positive
           (job_of true 1) 50 false 1 (two_jobs_reachable true)).
  - computed.
  - apply (bool_decide_eq_true_1 _). computed.
  - computed.
  - lia.
Defined.
